(** * Schedule Creator: the MILP model builder and the schedule extractor

    A shallow embedding of [models.py], [main.py], [utils.py] and
    [parsing.py].

    - Python integers are [Z]; [//] and [%] are [Z.div] and [Z.modulo]
      (both floor, like Python) and raise [ZeroDivisionError] on a zero
      divisor.
    - Coefficients and solver values are exact rationals ([Q]): the floats
      that PuLP manipulates are read as the rationals they denote.  The one
      quotient of the builders, [x / class_slot_count], is exact in
      [truediv]; [truediv_binary64] rounds it to the double that Python
      stores, and the contiguity builder is given for both.
    - Exceptions are an error monad ([result]).
    - A PuLP model is the list of its constraints, in insertion order.
    - [constants.NUMBER_OF_CLASS_DAYS] is a parameter of the development. *)

From Stdlib Require Import String.
From Stdlib Require Import ZArith QArith Qabs Lqa Lia List Bool Ascii DecimalString.
From Stdlib Require Import Sorting.Sorted Sorting.Permutation.
From Stdlib Require Floats.SpecFloat.
Import ListNotations.

Local Open Scope Z_scope.

(** ** Python: exceptions, ranges, indexing, sorting *)

Module Py.

Inductive error : Type :=
| ZeroDivisionError
| IndexError
| KeyError
| TypeError
| UnboundLocalError.

Definition result (A : Type) : Type := (error + A)%type.

Definition Ok {A : Type} (x : A) : result A := inr x.

Definition Raise {A : Type} (e : error) : result A := inl e.

Definition bind {A B : Type} (c : result A) (k : A -> result B) : result B :=
  match c with
  | inl e => inl e
  | inr x => k x
  end.

(** [for x in l: body]: the loop state is threaded through the iterations,
    and an exception leaves the loop. *)
Fixpoint for_each {A S : Type} (l : list A) (body : A -> S -> result S) (s : S)
  : result S :=
  match l with
  | [] => Ok s
  | x :: l' => bind (body x s) (for_each l' body)
  end.

Definition len {A : Type} (l : list A) : Z := Z.of_nat (length l).

(** [range(lo, hi)] *)
Definition range (lo hi : Z) : list Z :=
  map (fun t => lo + Z.of_nat t) (seq 0 (Z.to_nat (hi - lo))).

(** [l[i]], with Python's negative indices. *)
Definition index {A : Type} (l : list A) (i : Z) : result A :=
  let i' := if i <? 0 then i + len l else i in
  if i' <? 0 then Raise IndexError
  else match nth_error l (Z.to_nat i') with
       | Some x => Ok x
       | None => Raise IndexError
       end.

(** [a // b] *)
Definition floordiv (a b : Z) : result Z :=
  if b =? 0 then Raise ZeroDivisionError else Ok (a / b).

(** [a % b] *)
Definition mod_ (a b : Z) : result Z :=
  if b =? 0 then Raise ZeroDivisionError else Ok (a mod b).

(** Python's [float] is an IEEE 754 binary64 number (53 bits of precision,
    exponents below 1024).  An integer below 2^53 in absolute value is a
    double, and the quotient [a / b] of two such integers is the double
    nearest the true quotient, which is the IEEE quotient of the two doubles.
    A finite double is read as the rational it denotes. *)
Definition float_of_int (a : Z) : SpecFloat.spec_float :=
  SpecFloat.binary_normalize 53 1024 a 0 false.

Definition float_value (x : SpecFloat.spec_float) : Q :=
  match x with
  | SpecFloat.S754_finite s m e =>
      (inject_Z (if s then Z.neg m else Z.pos m) * (2 # 1) ^ e)%Q
  | _ => 0%Q
  end.

(** [a / b] for two integers *)
Definition int_truediv (a b : Z) : result Q :=
  if b =? 0 then Raise ZeroDivisionError
  else Ok (float_value (SpecFloat.SFdiv 53 1024 (float_of_int a) (float_of_int b))).

(** [sorted(l, key=key)]: Python's sort is stable and only uses [<] on the
    keys.  A stable insertion sort is the same function. *)
Section Sorted.
Variables (A K : Type) (ltb : K -> K -> bool) (key : A -> K).

Fixpoint insert (x : A) (l : list A) : list A :=
  match l with
  | [] => [x]
  | y :: l' => if ltb (key y) (key x) then y :: insert x l' else x :: l
  end.

Definition sorted (l : list A) : list A := fold_right insert [] l.
End Sorted.

Arguments insert {A K} ltb key x l.
Arguments sorted {A K} ltb key l.

(** [enumerate(l)] *)
Definition enumerate {A : Type} (l : list A) : list (Z * A) :=
  combine (range 0 (len l)) l.

(** [math.isclose(a, b)] with the default [rel_tol=1e-09] and
    [abs_tol=0.0], as CPython computes it (finite arguments). *)
Definition rel_tol : Q := (1 # 1000000000)%Q.
Definition abs_tol : Q := 0%Q.

Definition isclose (a b : Q) : bool :=
  if Qeq_bool a b then true
  else
    let diff := Qabs (b - a)%Q in
    (Qle_bool diff (Qabs (rel_tol * b)) || Qle_bool diff (Qabs (rel_tol * a)))
    || Qle_bool diff abs_tol.

(** Insertion-ordered dictionaries ([dict]). *)
Section Dict.
Variables (K V : Type) (eqb : K -> K -> bool).

Definition dict : Type := list (K * V).

Fixpoint dict_get (d : dict) (k : K) : result V :=
  match d with
  | [] => Raise KeyError
  | (k', v) :: d' => if eqb k k' then Ok v else dict_get d' k
  end.

Definition dict_contains (d : dict) (k : K) : bool :=
  existsb (fun kv => eqb k (fst kv)) d.

(** [d[k] = v]: a new key goes last, an old key keeps its place. *)
Fixpoint dict_set (d : dict) (k : K) (v : V) : dict :=
  match d with
  | [] => [(k, v)]
  | (k', v') :: d' =>
      if eqb k k' then (k', v) :: d' else (k', v') :: dict_set d' k v
  end.

Definition dict_values (d : dict) : list V := map snd d.
End Dict.

Arguments dict_get {K V} eqb d k.
Arguments dict_contains {K V} eqb d k.
Arguments dict_set {K V} eqb d k v.
Arguments dict_values {K V} d.

(** [str(z)] for an integer *)
Definition str (z : Z) : string := NilZero.string_of_int (Z.to_int z).

(** [len(s)] and [s.ljust(width)] for a string of one-byte characters *)
Definition str_len (s : string) : Z := Z.of_nat (String.length s).

Definition ljust (s : string) (width : Z) : string :=
  (s ++ string_of_list_ascii (repeat " "%char (Z.to_nat (width - str_len s))))%string.

(** [max([first, *others], key=key)]: the first element whose key is
    maximal. *)
Definition max_key {A : Type} (key : A -> Z) (first : A) (others : list A) : A :=
  fold_left (fun best x => if key best <? key x then x else best) others first.

End Py.

Import Py.

Notation "x <- c ;; k" := (bind c (fun x => k))
  (at level 61, c at next level, right associativity).

(** ** PuLP: variables, affine expressions, constraints, problems *)

Module PuLP.

(** A variable is identified by its name; the two families of names that the
    program builds are [f"{id}_X_{i},{j}"] and [f"{id}_Z_{i},{j},{k}"].  The
    loader numbers the semesters 1, 2, ..., so two cells or two indicators
    never share a name. *)
Inductive LpVariable : Type :=
| VarX (sid i j : Z)
| VarZ (sid i j k : Z).

Record LpAffineExpression : Type := {
  terms : list (LpVariable * Q);
  constant : Q
}.

(** What a Python name such as [x] or [objective_function] holds: the number
    it was initialised with, or an affine expression once a variable has been
    added to it. *)
Inductive PyValue : Type :=
| PyNum (q : Q)
| PyExpr (e : LpAffineExpression).

Definition as_expr (x : PyValue) : LpAffineExpression :=
  match x with
  | PyNum q => {| terms := []; constant := q |}
  | PyExpr e => e
  end.

Definition of_var (v : LpVariable) : LpAffineExpression :=
  {| terms := [(v, 1%Q)]; constant := 0%Q |}.

(** [x + v] for a variable [v] *)
Definition add_var (x : PyValue) (v : LpVariable) : PyValue :=
  PyExpr {| terms := terms (as_expr x) ++ [(v, 1%Q)];
            constant := constant (as_expr x) |}.

(** [x + y] *)
Definition add (x y : PyValue) : PyValue :=
  match x, y with
  | PyNum p, PyNum q => PyNum (p + q)%Q
  | _, _ => PyExpr {| terms := terms (as_expr x) ++ terms (as_expr y);
                      constant := (constant (as_expr x) + constant (as_expr y))%Q |}
  end.

(** [x + q] and [x - q] for a number [q] *)
Definition add_num (x : PyValue) (q : Q) : PyValue :=
  match x with
  | PyNum p => PyNum (p + q)%Q
  | PyExpr e => PyExpr {| terms := terms e; constant := (constant e + q)%Q |}
  end.

Definition sub_num (x : PyValue) (q : Q) : PyValue := add_num x (- q)%Q.

(** [-x] *)
Definition neg (x : PyValue) : PyValue :=
  match x with
  | PyNum p => PyNum (- p)%Q
  | PyExpr e => PyExpr {| terms := map (fun vc => (fst vc, - snd vc)%Q) (terms e);
                          constant := (- constant e)%Q |}
  end.

(** [x / k] for an integer [k]: every coefficient and the constant are
    divided.  Here the quotients are exact: this is the constraint that the
    division is written for.  [truediv_binary64] below has the quotients
    that Python stores. *)
Definition truediv (x : PyValue) (k : Z) : result PyValue :=
  if k =? 0 then Raise ZeroDivisionError
  else Ok match x with
          | PyNum p => PyNum (p / inject_Z k)%Q
          | PyExpr e =>
              PyExpr {| terms := map (fun vc => (fst vc, (snd vc / inject_Z k)%Q))
                                     (terms e);
                        constant := (constant e / inject_Z k)%Q |}
          end.

(** [x / k] with the coefficients that Python stores.  The sums that the
    builders divide have the integer coefficients 1 and the constant 0, and
    the quotient of the integer 1 by the integer [k] is a [float], the double
    nearest [1 / k]: 0.3333333333333333 for [k = 3], which is less than a
    third.  (The quotient of 0 is 0.) *)
Definition truediv_binary64 (x : PyValue) (k : Z) : result PyValue :=
  r <- int_truediv 1 k ;;
  Ok match x with
     | PyNum p => PyNum (p * r)%Q
     | PyExpr e =>
         PyExpr {| terms := map (fun vc => (fst vc, (snd vc * r)%Q)) (terms e);
                   constant := (constant e * r)%Q |}
     end.

(** [v * q] for a variable [v] and a number [q]: the product by 0 is the
    empty expression. *)
Definition mul_var (v : LpVariable) (q : Q) : PyValue :=
  PyExpr (if Qeq_bool q 0 then {| terms := []; constant := 0%Q |}
          else {| terms := [(v, q)]; constant := 0%Q |}).

Inductive sense : Type := LE | GE | EQ.

Record LpConstraint : Type := {
  lhs : LpAffineExpression;
  rel : sense;
  rhs : LpAffineExpression
}.

(** The value of a comparison: between two numbers it is a Python [bool]
    (a sum to which no variable was added is still the integer 0), and as
    soon as one side is a variable or an expression it is a constraint. *)
Inductive Comparison : Type :=
| PyBool (b : bool)
| Constr (c : LpConstraint).

Definition compare_num (s : sense) (p q : Q) : bool :=
  match s with
  | LE => Qle_bool p q
  | GE => Qle_bool q p
  | EQ => Qeq_bool p q
  end.

(** [x <= q], [x >= q], [x == q] for a number [q] *)
Definition cmp (s : sense) (x : PyValue) (q : Q) : Comparison :=
  match x with
  | PyNum p => PyBool (compare_num s p q)
  | PyExpr e => Constr {| lhs := e; rel := s;
                          rhs := {| terms := []; constant := q |} |}
  end.

(** [z <= y], [z >= y] for a variable [z] *)
Definition cmp_var (s : sense) (z : LpVariable) (y : PyValue) : Comparison :=
  Constr {| lhs := of_var z; rel := s; rhs := as_expr y |}.

(** An [LpProblem], as far as the builders see it: its constraints. *)
Definition LpProblem : Type := list LpConstraint.

(** [model += c], as [LpProblem.__iadd__] treats what the builders pass: a
    constraint is appended, [True] leaves the model as it is, and [False]
    raises [TypeError]. *)
Definition iadd (model : LpProblem) (c : Comparison) : result LpProblem :=
  match c with
  | PyBool true => Ok model
  | PyBool false => Raise TypeError
  | Constr c => Ok (model ++ [c])
  end.

(** Semantics: an assignment gives every variable an integer. *)
Definition assignment : Type := LpVariable -> Z.

Definition value (a : assignment) (e : LpAffineExpression) : Q :=
  fold_right (fun vc acc => snd vc * inject_Z (a (fst vc)) + acc)%Q
             (constant e) (terms e).

Definition satisfies (a : assignment) (c : LpConstraint) : Prop :=
  match rel c with
  | LE => (value a (lhs c) <= value a (rhs c))%Q
  | GE => (value a (rhs c) <= value a (lhs c))%Q
  | EQ => (value a (lhs c) == value a (rhs c))%Q
  end.

(** Every variable is created by [utils.create_binary_variable]: an integer
    with bounds 0 and 1. *)
Definition binary (a : assignment) : Prop := forall v, 0 <= a v <= 1.

Definition feasible (a : assignment) (model : LpProblem) : Prop :=
  binary a /\ Forall (satisfies a) model.

End PuLP.

Import PuLP.

Notation "' pat <- c ;; k" := (bind c (fun x => match x with pat => k end))
  (at level 61, pat pattern, c at next level, right associativity).

(** ** The data model of [models.py] *)

Module Teacher.
Record t : Type := {
  id : Z;
  last_name : string;
  first_name : string;
  slot_preferences : list (option Z)
}.
End Teacher.

Module Class_.
Record t : Type := {
  id : Z;
  name : string;
  group_name : string;
  slot_count : Z;
  teachers : list Teacher.t
}.

(** [teacher.id in [x.id for x in self.teachers]] *)
Definition contains_teacher (self : t) (teacher : Teacher.t) : bool :=
  existsb (fun x => Teacher.id teacher =? Teacher.id x) (teachers self).
End Class_.

Module Group.
Record t : Type := {
  id : Z;
  name : string;
  classes : list Class_.t
}.

Definition __init__ (id : Z) (name : string) : t :=
  {| id := id; name := name; classes := [] |}.

(** [self.classes.append(class_)] *)
Definition append (self : t) (class_ : Class_.t) : t :=
  {| id := id self; name := name self; classes := classes self ++ [class_] |}.

(** Strings are compared byte by byte, which on UTF-8 is Python's order on
    code points. *)
Definition sort_classes (self : t) : t :=
  {| id := id self; name := name self;
     classes := sorted String.ltb Class_.name (classes self) |}.
End Group.

Module Slot.
Record t : Type := {
  id : Z;
  weekday : Z;
  start_time : string;
  end_time : string;
  is_lunch_break : bool;
  is_evening : bool
}.
End Slot.

Module Semester.
(** [groups] does not exist before [init_groups]; it is the empty list here,
    on which [common_group] fails as well. *)
Record t : Type := {
  id : Z;
  name : string;
  classes : list Class_.t;
  groups : list Group.t
}.

Definition __init__ (id : Z) (name : string) : t :=
  {| id := id; name := name; classes := []; groups := [] |}.

(** The locals of [init_groups]: [groups], [identifiers] and [id]. *)
Definition locals : Type := (dict Z Group.t * dict string Z * Z)%type.

(** One iteration of the loop of [init_groups]. *)
Definition init_groups_body (class_ : Class_.t) (st : locals) : result locals :=
  let '(groups, identifiers, id) := st in
  let '(groups, identifiers, id) :=
    if negb (dict_contains String.eqb identifiers (Class_.group_name class_))
    then
      let identifiers := dict_set String.eqb identifiers (Class_.group_name class_) id in
      let groups := dict_set Z.eqb groups id (Group.__init__ id (Class_.group_name class_)) in
      (groups, identifiers, id + 1)
    else (groups, identifiers, id) in
  gid <- dict_get String.eqb identifiers (Class_.group_name class_) ;;
  g <- dict_get Z.eqb groups gid ;;
  Ok (dict_set Z.eqb groups gid (Group.append g class_), identifiers, id).

Definition init_groups (self : t) : result t :=
  ' (groups, _, _) <-
    for_each (classes self) init_groups_body
             ([(1, Group.__init__ 1 EmptyString)], [(EmptyString, 1)], 2) ;;
  let groups := dict_values groups in
  g0 <- index groups 0 ;;
  Ok {| id := id self; name := name self; classes := classes self;
        groups := [g0] ++ sorted String.ltb Group.name (skipn 1 groups) |}.

Definition sort_classes (self : t) : t :=
  let groups := map Group.sort_classes (groups self) in
  {| id := id self; name := name self;
     classes := fold_left (fun acc group => acc ++ Group.classes group) groups [];
     groups := groups |}.

Definition common_group (self : t) : result Group.t := index (groups self) 0.

Definition non_common_groups (self : t) : list Group.t := skipn 1 (groups self).
End Semester.

Module DataStorage.
Record t : Type := {
  teachers : dict Z Teacher.t;
  classes_by_semester : list Semester.t;
  slots : list Slot.t
}.

(** The loop of [__init__] that replaces the teacher identifiers of one class
    by the teachers of the catalog. *)
Definition class_teachers (teachers : dict Z Teacher.t) (teacher_ids : list Z)
  : result (list Teacher.t) :=
  for_each teacher_ids
    (fun teacher_id class_teachers =>
       teacher <- dict_get Z.eqb teachers teacher_id ;;
       Ok (class_teachers ++ [teacher]))
    [].
End DataStorage.

(** ** [utils.py] *)

Module utils.
Section Constants.
Variable NUMBER_OF_CLASS_DAYS : Z.

Definition get_slot_count_per_day_ (slot_count : Z) : result Z :=
  floordiv slot_count NUMBER_OF_CLASS_DAYS.

Definition get_slot_count_per_day (storage : DataStorage.t) : result Z :=
  get_slot_count_per_day_ (len (DataStorage.slots storage)).
End Constants.
End utils.

(** ** Schedule blocks *)

Module ClassSchedule.
Record t : Type := {
  class_ : Class_.t;
  start_slot : Slot.t;
  end_slot : Slot.t
}.

Definition __init__ (storage : DataStorage.t) (class_ : Class_.t)
    (end_slot_index slot_count : Z) : result t :=
  start_slot <- index (DataStorage.slots storage) (end_slot_index - slot_count + 1) ;;
  end_slot <- index (DataStorage.slots storage) end_slot_index ;;
  Ok {| class_ := class_; start_slot := start_slot; end_slot := end_slot |}.

Definition weekdays : list string :=
  ["Lundi"; "Mardi"; "Mercredi"; "Jeudi"; "Vendredi"]%string.

Definition __str__ (self : t) : result string :=
  let group_name := Class_.group_name (class_ self) in
  let formatted_group_name :=
    (if String.eqb group_name EmptyString then EmptyString
     else "[" ++ group_name ++ "] ")%string in
  weekday <- index weekdays (Slot.weekday (start_slot self) - 1) ;;
  let formatted_weekday :=
    ljust weekday
      (str_len (max_key str_len "Lundi" ["Mardi"; "Mercredi"; "Jeudi"; "Vendredi"]))%string in
  let start_time_end_time :=
    (Slot.start_time (start_slot self) ++ " - " ++ Slot.end_time (end_slot self))%string in
  let formatted_classs_slot_count :=
    (str (Class_.slot_count (class_ self)) ++ " heures")%string in
  Ok (formatted_weekday ++ "   " ++ start_time_end_time ++ "   "
      ++ formatted_classs_slot_count ++ "   " ++ formatted_group_name
      ++ Class_.name (class_ self))%string.
End ClassSchedule.

(** ** [constants.py] *)

(** The module is not among the sources: its values are parameters. *)
Module constants.
Record t : Type := {
  NUMBER_OF_CLASS_DAYS : Z;
  COEFFICIENT_PREFERENCE_NEUTRAL : Q;
  COEFFICIENT_PREFERENCE_NOT_AVAILABLE : Q;
  COEFFICIENT_PREFERENCE_IF_NOT_OTHERWISE_POSSIBLE : Q;
  COEFFICIENT_PREFERENCE_PREFERABLY_NOT : Q;
  COEFFICIENT_PREFERENCE_IDEALLY_YES : Q;
  COEFFICIENT_PREFERENCE_STRONG_PREFERENCE : Q;
  COEFFICIENT_SLOT_PENALTY_FIRST_HOUR : Q;
  COEFFICIENT_SLOT_PENALTY_LUNCH_BREAK : Q;
  COEFFICIENT_SLOT_PENALTY_EVENING_HOURS : Q
}.
End constants.

(** ** The semester model builder and the schedule extractor *)

Module SemesterSchedule.

Record t : Type := {
  semester : Semester.t;
  variables_matrix : list (list LpVariable)
}.

Definition _create_variables_matrix (sid m n : Z) : list (list LpVariable) :=
  map (fun i => map (fun j => VarX sid i j) (range 0 n)) (range 0 m).

Definition __init__ (semester : Semester.t) (storage : DataStorage.t) : t :=
  {| semester := semester;
     variables_matrix :=
       _create_variables_matrix (Semester.id semester)
         (len (Semester.classes semester)) (len (DataStorage.slots storage)) |}.

(** [self.variables_matrix[i][j]] *)
Definition cell (self : t) (i j : Z) : result LpVariable :=
  row <- index (variables_matrix self) i ;;
  index row j.

(** [len(self.variables_matrix[0])] *)
Definition width (self : t) : result Z :=
  row <- index (variables_matrix self) 0 ;;
  Ok (len row).

(** [x = 0; for j in js: x += self.variables_matrix[row(j)][col(j)]] *)
Definition sum_cells (self : t) (js : list Z) (row col : Z -> Z) (x : PyValue)
  : result PyValue :=
  for_each js (fun j x => v <- cell self (row j) (col j) ;; Ok (add_var x v)) x.

Definition _get_objective_function_unallocated_class_slots (self : t)
  : result PyValue :=
  objective_function <-
    for_each (range 0 (len (variables_matrix self)))
      (fun i objective_function =>
         n <- width self ;;
         sum_cells self (range 0 n) (fun _ => i) (fun j => j) objective_function)
      (PyNum 0) ;;
  Ok (neg objective_function).

Definition _set_constraints_match_class_slot_count (self : t) (model : LpProblem)
  : result LpProblem :=
  for_each (range 0 (len (variables_matrix self)))
    (fun i model =>
       n <- width self ;;
       x <- sum_cells self (range 0 n) (fun _ => i) (fun j => j) (PyNum 0) ;;
       class_ <- index (Semester.classes (semester self)) i ;;
       iadd model (cmp EQ x (inject_Z (Class_.slot_count class_))))
    model.

(** [for k in range(j, j + class_slot_count): x += self.variables_matrix[i][k]];
    the loop variable [k] outlives the loop. *)
Definition window_sum (self : t) (i j class_slot_count : Z) (k : option Z)
  : result (PyValue * option Z) :=
  for_each (range j (j + class_slot_count))
    (fun k' st => v <- cell self i k' ;; Ok (add_var (fst st) v, Some k'))
    (PyNum 0, k).

(** The two constraints that tie [z] to the window sum [x]. *)
Definition indicator_constraints (z : LpVariable) (x : PyValue)
    (class_slot_count : Z) (model : LpProblem) : result LpProblem :=
  q <- truediv x class_slot_count ;;
  model <- iadd model (cmp_var LE z q) ;;
  iadd model (cmp_var GE z (add_num (sub_num x (inject_Z class_slot_count)) 1)).

Section Constants.
Variable NUMBER_OF_CLASS_DAYS : Z.
Variable storage : DataStorage.t.

(** The body of the loop on [j]; the state is [model], the local [k] and
    the running sum [Z]. *)
Definition consecutive_slots_body (self : t) (slot_count_per_day i class_slot_count : Z)
    (j : Z) (st : LpProblem * option Z * PyValue)
  : result (LpProblem * option Z * PyValue) :=
  let '(model, k, Z_) := st in
  r <- mod_ j slot_count_per_day ;;
  if r >? slot_count_per_day - class_slot_count then Ok (model, k, Z_)
  else
    ' (x, k) <- window_sum self i j class_slot_count k ;;
    k' <- match k with Some k' => Ok k' | None => Raise UnboundLocalError end ;;
    let z := VarZ (Semester.id (semester self)) i j k' in
    model <- indicator_constraints z x class_slot_count model ;;
    Ok (model, k, add_var Z_ z).

Definition consecutive_slots_row (self : t) (slot_count_per_day : Z)
    (i : Z) (st : LpProblem * option Z) : result (LpProblem * option Z) :=
  let '(model, k) := st in
  class_ <- index (Semester.classes (semester self)) i ;;
  let class_slot_count := Class_.slot_count class_ in
  n <- width self ;;
  ' (model, k, Z_) <-
    for_each (range 0 (n - class_slot_count + 1))
      (consecutive_slots_body self slot_count_per_day i class_slot_count)
      (model, k, PyNum 0) ;;
  model <- iadd model (cmp EQ Z_ 1) ;;
  Ok (model, k).

Definition _set_constraints_consecutive_slots (self : t) (model : LpProblem)
  : result LpProblem :=
  slot_count_per_day <- utils.get_slot_count_per_day NUMBER_OF_CLASS_DAYS storage ;;
  ' (model, _) <-
    for_each (range 0 (len (variables_matrix self)))
      (consecutive_slots_row self slot_count_per_day) (model, None) ;;
  Ok model.

(** The same builder with the quotient [x / class_slot_count] left to
    [div]: with [truediv] it is the builder above, and with
    [truediv_binary64] it emits the coefficients that Python stores. *)
Section Quotient.
Variable div : PyValue -> Z -> result PyValue.

Definition indicator_constraints_with (z : LpVariable) (x : PyValue)
    (class_slot_count : Z) (model : LpProblem) : result LpProblem :=
  q <- div x class_slot_count ;;
  model <- iadd model (cmp_var LE z q) ;;
  iadd model (cmp_var GE z (add_num (sub_num x (inject_Z class_slot_count)) 1)).

Definition consecutive_slots_body_with (self : t)
    (slot_count_per_day i class_slot_count : Z)
    (j : Z) (st : LpProblem * option Z * PyValue)
  : result (LpProblem * option Z * PyValue) :=
  let '(model, k, Z_) := st in
  r <- mod_ j slot_count_per_day ;;
  if r >? slot_count_per_day - class_slot_count then Ok (model, k, Z_)
  else
    ' (x, k) <- window_sum self i j class_slot_count k ;;
    k' <- match k with Some k' => Ok k' | None => Raise UnboundLocalError end ;;
    let z := VarZ (Semester.id (semester self)) i j k' in
    model <- indicator_constraints_with z x class_slot_count model ;;
    Ok (model, k, add_var Z_ z).

Definition consecutive_slots_row_with (self : t) (slot_count_per_day : Z)
    (i : Z) (st : LpProblem * option Z) : result (LpProblem * option Z) :=
  let '(model, k) := st in
  class_ <- index (Semester.classes (semester self)) i ;;
  let class_slot_count := Class_.slot_count class_ in
  n <- width self ;;
  ' (model, k, Z_) <-
    for_each (range 0 (n - class_slot_count + 1))
      (consecutive_slots_body_with self slot_count_per_day i class_slot_count)
      (model, k, PyNum 0) ;;
  model <- iadd model (cmp EQ Z_ 1) ;;
  Ok (model, k).

Definition _set_constraints_consecutive_slots_with (self : t) (model : LpProblem)
  : result LpProblem :=
  slot_count_per_day <- utils.get_slot_count_per_day NUMBER_OF_CLASS_DAYS storage ;;
  ' (model, _) <-
    for_each (range 0 (len (variables_matrix self)))
      (consecutive_slots_row_with self slot_count_per_day) (model, None) ;;
  Ok model.
End Quotient.

(** The body of the loop on the non-common groups; the state is [model]
    and [offset]. *)
Definition class_limits_group (self : t) (i : Z) (common_class_variables : PyValue)
    (group : Group.t) (st : LpProblem * Z) : result (LpProblem * Z) :=
  let '(model, offset) := st in
  group_class_variables <-
    sum_cells self (range 0 (len (Group.classes group)))
      (fun j => offset + j) (fun _ => i) (PyNum 0) ;;
  let s := add common_class_variables group_class_variables in
  model <- iadd model (cmp LE s 1) ;;
  Ok (model, offset + len (Group.classes group)).

Definition class_limits_slot (self : t) (i : Z) (model : LpProblem)
  : result LpProblem :=
  common_group <- Semester.common_group (semester self) ;;
  common_class_variables <-
    sum_cells self (range 0 (len (Group.classes common_group)))
      (fun j => j) (fun _ => i) (PyNum 0) ;;
  let non_common_groups := Semester.non_common_groups (semester self) in
  match non_common_groups with
  | [] => iadd model (cmp LE common_class_variables 1)
  | _ =>
      ' (model, _) <-
        for_each non_common_groups
          (class_limits_group self i common_class_variables)
          (model, len (Group.classes common_group)) ;;
      Ok model
  end.

Definition _set_constraints_class_limits_per_slot (self : t) (model : LpProblem)
  : result LpProblem :=
  n <- width self ;;
  for_each (range 0 n) (class_limits_slot self) model.

Definition set_constraints (self : t) (model : LpProblem) : result LpProblem :=
  model <- _set_constraints_match_class_slot_count self model ;;
  model <- _set_constraints_consecutive_slots self model ;;
  _set_constraints_class_limits_per_slot self model.

(** After the solve, [varValue] is what the solver left in each variable
    ([None] for a variable the solver never saw). *)
Variable varValue : LpVariable -> option Q.

(** [not math.isclose(v, 0)] *)
Definition is_true (v : Q) : bool := negb (isclose v 0).

(** The body of the loop on [j]; the state is [class_schedules],
    [slot_count] and [is_previous_variable_true]. *)
Definition get_class_schedules_body (self : t) (i j : Z)
    (st : list ClassSchedule.t * Z * bool) : result (list ClassSchedule.t * Z * bool) :=
  let '(class_schedules, slot_count, is_previous_variable_true) := st in
  v <- cell self i j ;;
  value <- match varValue v with Some q => Ok q | None => Raise TypeError end ;;
  let is_variable_true := is_true value in
  let slot_count := if is_variable_true then slot_count + 1 else slot_count in
  class_ <- index (Semester.classes (semester self)) i ;;
  let n := len (DataStorage.slots storage) in
  if is_previous_variable_true && negb is_variable_true then
    b <- ClassSchedule.__init__ storage class_ (j - 1) slot_count ;;
    Ok (class_schedules ++ [b], 0, is_variable_true)
  else if is_variable_true && (j =? n - 1) then
    b <- ClassSchedule.__init__ storage class_ (n - 1) slot_count ;;
    Ok (class_schedules ++ [b], slot_count, is_variable_true)
  else Ok (class_schedules, slot_count, is_variable_true).

Definition get_class_schedules_row (self : t) (i : Z)
    (class_schedules : list ClassSchedule.t) : result (list ClassSchedule.t) :=
  ' (class_schedules, _, _) <-
    for_each (range 0 (len (DataStorage.slots storage)))
      (get_class_schedules_body self i) (class_schedules, 0, false) ;;
  Ok class_schedules.

Definition get_class_schedules (self : t) : result (list ClassSchedule.t) :=
  class_schedules <-
    for_each (range 0 (len (Semester.classes (semester self))))
      (get_class_schedules_row self) [] ;;
  Ok (sorted Z.ltb (fun x => Slot.id (ClassSchedule.start_slot x)) class_schedules).
End Constants.

(** The other fragments of the objective function. *)
Section Objective.
Variable cs : constants.t.
Variable storage : DataStorage.t.

(** [objective_function += variable * coefficient / class_slot_count], with
    [class_slot_count = self.semester.classes[i].slot_count] *)
Definition add_term (self : t) (i : Z) (variable : LpVariable) (coefficient : Q)
    (objective_function : PyValue) : result PyValue :=
  class_ <- index (Semester.classes (semester self)) i ;;
  let class_slot_count := Class_.slot_count class_ in
  term <- truediv (mul_var variable coefficient) class_slot_count ;;
  Ok (add objective_function term).

Definition preference_coefficients : list Q :=
  [ constants.COEFFICIENT_PREFERENCE_NEUTRAL cs;
    constants.COEFFICIENT_PREFERENCE_NOT_AVAILABLE cs;
    constants.COEFFICIENT_PREFERENCE_IF_NOT_OTHERWISE_POSSIBLE cs;
    constants.COEFFICIENT_PREFERENCE_PREFERABLY_NOT cs;
    constants.COEFFICIENT_PREFERENCE_IDEALLY_YES cs;
    constants.COEFFICIENT_PREFERENCE_STRONG_PREFERENCE cs ].

(** The body of the loop on [j, slot_preference]. *)
Definition teachers_slot_preferences_body (self : t) (i : Z) (jp : Z * option Z)
    (objective_function : PyValue) : result PyValue :=
  let '(j, slot_preference) := jp in
  match slot_preference with
  | None => Ok objective_function
  | Some slot_preference =>
      variable <- cell self i j ;;
      coefficient <- index preference_coefficients slot_preference ;;
      add_term self i variable coefficient objective_function
  end.

Definition _get_objective_function_teachers_slot_preferences (self : t)
  : result PyValue :=
  for_each (range 0 (len (variables_matrix self)))
    (fun i objective_function =>
       class_ <- index (Semester.classes (semester self)) i ;;
       for_each (Class_.teachers class_)
         (fun teacher objective_function =>
            for_each (enumerate (Teacher.slot_preferences teacher))
              (teachers_slot_preferences_body self i) objective_function)
         objective_function)
    (PyNum 0).

Definition _get_objective_function_penalize_first_hour (self : t) : result PyValue :=
  slot_count_per_day <-
    utils.get_slot_count_per_day (constants.NUMBER_OF_CLASS_DAYS cs) storage ;;
  for_each (range 0 (len (variables_matrix self)))
    (fun i objective_function =>
       for_each (range 0 (constants.NUMBER_OF_CLASS_DAYS cs))
         (fun j objective_function =>
            variable <- cell self i (j * slot_count_per_day) ;;
            let coefficient := constants.COEFFICIENT_SLOT_PENALTY_FIRST_HOUR cs in
            add_term self i variable coefficient objective_function)
         objective_function)
    (PyNum 0).

(** The loops of the lunch-break and of the evening penalties, which differ
    by the flag they test and by the coefficient. *)
Definition penalize_flagged (flag : Slot.t -> bool) (coefficient : Q) (self : t)
  : result PyValue :=
  for_each (range 0 (len (variables_matrix self)))
    (fun i objective_function =>
       n <- width self ;;
       for_each (range 0 n)
         (fun j objective_function =>
            slot <- index (DataStorage.slots storage) j ;;
            if flag slot then
              variable <- cell self i j ;;
              add_term self i variable coefficient objective_function
            else Ok objective_function)
         objective_function)
    (PyNum 0).

Definition _get_objective_function_penalize_lunch_break (self : t) : result PyValue :=
  penalize_flagged Slot.is_lunch_break
    (constants.COEFFICIENT_SLOT_PENALTY_LUNCH_BREAK cs) self.

Definition _get_objective_function_penalize_evening_hours (self : t) : result PyValue :=
  penalize_flagged Slot.is_evening
    (constants.COEFFICIENT_SLOT_PENALTY_EVENING_HOURS cs) self.

Definition get_objective_function (self : t) : result PyValue :=
  for_each
    [ _get_objective_function_unallocated_class_slots;
      _get_objective_function_teachers_slot_preferences;
      _get_objective_function_penalize_first_hour;
      _get_objective_function_penalize_lunch_break;
      _get_objective_function_penalize_evening_hours ]
    (fun func objective_function =>
       fragment <- func self ;;
       Ok (add objective_function fragment))
    (PyNum 0).
End Objective.

End SemesterSchedule.

(** ** [main.py] *)

Module main.

(** [x] after the two inner loops, for one teacher and one slot [i]. *)
Definition teacher_slot_sum (semester_schedules : list SemesterSchedule.t)
    (teacher : Teacher.t) (i : Z) : result PyValue :=
  for_each semester_schedules
    (fun semester_schedule x =>
       for_each (enumerate (Semester.classes (SemesterSchedule.semester semester_schedule)))
         (fun jc x =>
            if Class_.contains_teacher (snd jc) teacher
            then v <- SemesterSchedule.cell semester_schedule (fst jc) i ;;
                 Ok (add_var x v)
            else Ok x)
         x)
    (PyNum 0).

Definition set_global_constraints (model : LpProblem)
    (semester_schedules : list SemesterSchedule.t) (storage : DataStorage.t)
  : result LpProblem :=
  for_each (dict_values (DataStorage.teachers storage))
    (fun teacher model =>
       for_each (range 0 (len (DataStorage.slots storage)))
         (fun i model =>
            x <- teacher_slot_sum semester_schedules teacher i ;;
            iadd model (cmp LE x 1))
         model)
    model.

(** [main], up to the call of [model.solve()]: the objective function and
    the constraints that it hands to the solver, and the semester schedules
    that it keeps for the output. *)
Definition main (cs : constants.t) (storage : DataStorage.t)
  : result (PyValue * LpProblem * list SemesterSchedule.t) :=
  ' (objective_function, model, semester_schedules) <-
    for_each (DataStorage.classes_by_semester storage)
      (fun semester st =>
         let '(objective_function, model, semester_schedules) := st in
         let semester_schedule := SemesterSchedule.__init__ semester storage in
         fragment <- SemesterSchedule.get_objective_function cs storage semester_schedule ;;
         model <- SemesterSchedule.set_constraints (constants.NUMBER_OF_CLASS_DAYS cs)
                    storage semester_schedule model ;;
         Ok (add objective_function fragment, model,
             semester_schedules ++ [semester_schedule]))
      (PyNum 0, [], []) ;;
  model <- set_global_constraints model semester_schedules storage ;;
  Ok (objective_function, model, semester_schedules).

End main.

(** ** [parsing.py] *)

(** The loaders are modelled on the rows of their file once converted: a
    row here holds what [int(row[0])], [row[1]], ..., [eval(row[5])] give for
    a row of the file.  A file with a row that is too short, or with a field
    that [int] or [eval] does not accept, makes the loader raise at that row
    ([IndexError], [ValueError], ...); such a file has no rows here.  What is
    proved of a loader is proved of its runs on the files whose rows
    convert. *)
Module parsing.

(** A row of [Teachers.csv]: [row[0]], [row[1]], [row[2]] and [row[3:]]. *)
Record teacher_row : Type := {
  teacher_id : Z;
  teacher_last_name : string;
  teacher_first_name : string;
  teacher_preferences : list Z
}.

(** What one field [x] at position [i] of [row[3:]] adds to
    [slot_preferences]. *)
Definition expand_preference (i x : Z) : list (option Z) :=
  if i mod 3 =? 0 then repeat (Some x) 4 ++ [None]
  else if i mod 3 =? 1 then repeat (Some x) 4
  else repeat (Some x) 6.

Definition slot_preferences (fields : list Z) : list (option Z) :=
  fold_left (fun slot_preferences ix =>
               slot_preferences ++ expand_preference (fst ix) (snd ix))
            (enumerate fields) [].

Definition load_teachers (rows : list teacher_row) : dict Z Teacher.t :=
  fold_left
    (fun data row =>
       let item :=
         {| Teacher.id := teacher_id row;
            Teacher.last_name := teacher_last_name row;
            Teacher.first_name := teacher_first_name row;
            Teacher.slot_preferences := slot_preferences (teacher_preferences row) |} in
       dict_set Z.eqb data (Teacher.id item) item)
    rows [].

(** A row of [Classes.csv]: [row[0]] to [row[5]], the last one as [eval]
    reads it, a list of teacher identifiers. *)
Record class_row : Type := {
  class_id : Z;
  class_name : string;
  class_semester_name : string;
  class_group_name : string;
  class_slot_count : Z;
  class_teacher_ids : list Z
}.

(** Until [DataStorage.__init__] resolves them, the [teachers] of a class
    are the identifiers of the row.  An identifier is represented by the
    teacher record that holds it and nothing else; no function reads the
    teachers of a class before they are resolved. *)
Definition unresolved (teacher_id : Z) : Teacher.t :=
  {| Teacher.id := teacher_id; Teacher.last_name := EmptyString;
     Teacher.first_name := EmptyString; Teacher.slot_preferences := [] |}.

(** [Class_(id=int(row[0]), name=row[1], group_name=row[3],
    slot_count=int(row[4]), teachers=eval(row[5]))] *)
Definition class_of_row (row : class_row) : Class_.t :=
  {| Class_.id := class_id row;
     Class_.name := class_name row;
     Class_.group_name := class_group_name row;
     Class_.slot_count := class_slot_count row;
     Class_.teachers := map unresolved (class_teacher_ids row) |}.

(** [semester.classes.append(class_)] *)
Definition append (semester : Semester.t) (class_ : Class_.t) : Semester.t :=
  {| Semester.id := Semester.id semester; Semester.name := Semester.name semester;
     Semester.classes := Semester.classes semester ++ [class_];
     Semester.groups := Semester.groups semester |}.

(** The locals of the first loop of [load_classes]: [semesters],
    [identifiers] and [id]. *)
Definition locals : Type := (dict Z Semester.t * dict string Z * Z)%type.

Definition load_classes_body (row : class_row) (st : locals) : result locals :=
  let '(semesters, identifiers, id) := st in
  let semester_name := class_semester_name row in
  let '(semesters, identifiers, id) :=
    if negb (dict_contains String.eqb identifiers semester_name)
    then
      let identifiers := dict_set String.eqb identifiers semester_name id in
      let semesters := dict_set Z.eqb semesters id (Semester.__init__ id semester_name) in
      (semesters, identifiers, id + 1)
    else (semesters, identifiers, id) in
  let class_ := class_of_row row in
  sid <- dict_get String.eqb identifiers semester_name ;;
  semester <- dict_get Z.eqb semesters sid ;;
  Ok (dict_set Z.eqb semesters sid (append semester class_), identifiers, id).

Definition load_classes (rows : list class_row) : result (list Semester.t) :=
  ' (semesters, _, _) <- for_each rows load_classes_body ([], [], 1) ;;
  let semesters := dict_values semesters in
  for_each semesters
    (fun semester done =>
       semester <- Semester.init_groups semester ;;
       Ok (done ++ [Semester.sort_classes semester]))
    [].

(** A row of [Slots.csv]: [row[0]], [row[2]], [row[3]] and [row[4]]. *)
Record slot_row : Type := {
  slot_id : Z;
  slot_weekday : Z;
  slot_start_time : string;
  slot_end_time : string
}.

Section Constants.
Variable NUMBER_OF_CLASS_DAYS : Z.

Definition load_slots (rows : list slot_row) : result (list Slot.t) :=
  slot_count_per_day <- utils.get_slot_count_per_day_ NUMBER_OF_CLASS_DAYS (len rows) ;;
  for_each (enumerate rows)
    (fun ir data =>
       let '(i, row) := ir in
       lunch <- mod_ i slot_count_per_day ;;
       evening <- mod_ i slot_count_per_day ;;
       let item :=
         {| Slot.id := slot_id row;
            Slot.weekday := slot_weekday row;
            Slot.start_time := slot_start_time row;
            Slot.end_time := slot_end_time row;
            Slot.is_lunch_break := lunch =? 4;
            Slot.is_evening := evening >=? 9 |} in
       Ok (data ++ [item]))
    [].
End Constants.

End parsing.

(** ** [DataStorage.__init__] *)

(** The constructor of the storage calls the loaders, so that it comes after
    them here.  The files are its arguments. *)
Module DataStorageInit.

(** The body of the loop on the classes: the teachers of [class_] become
    those of the catalog. *)
Definition resolve (teachers : dict Z Teacher.t) (class_ : Class_.t) : result Class_.t :=
  class_teachers <-
    DataStorage.class_teachers teachers (map Teacher.id (Class_.teachers class_)) ;;
  Ok {| Class_.id := Class_.id class_; Class_.name := Class_.name class_;
        Class_.group_name := Class_.group_name class_;
        Class_.slot_count := Class_.slot_count class_;
        Class_.teachers := class_teachers |}.

Definition resolve_all (teachers : dict Z Teacher.t) (classes : list Class_.t)
  : result (list Class_.t) :=
  for_each classes
    (fun class_ done => class_ <- resolve teachers class_ ;; Ok (done ++ [class_]))
    [].

(** The classes of a group are the very objects of the class list of its
    semester, which [sort_classes] built from them: they are resolved with
    them. *)
Definition resolve_group (teachers : dict Z Teacher.t) (group : Group.t)
  : result Group.t :=
  classes <- resolve_all teachers (Group.classes group) ;;
  Ok {| Group.id := Group.id group; Group.name := Group.name group;
        Group.classes := classes |}.

Definition resolve_semester (teachers : dict Z Teacher.t) (semester_data : Semester.t)
  : result Semester.t :=
  classes <- resolve_all teachers (Semester.classes semester_data) ;;
  groups <-
    for_each (Semester.groups semester_data)
      (fun group done => group <- resolve_group teachers group ;; Ok (done ++ [group]))
      [] ;;
  Ok {| Semester.id := Semester.id semester_data;
        Semester.name := Semester.name semester_data;
        Semester.classes := classes; Semester.groups := groups |}.

Section Constants.
Variable NUMBER_OF_CLASS_DAYS : Z.

Definition __init__ (teachers_csv : list parsing.teacher_row)
    (classes_csv : list parsing.class_row) (slots_csv : list parsing.slot_row)
  : result DataStorage.t :=
  let teachers := parsing.load_teachers teachers_csv in
  classes_by_semester <- parsing.load_classes classes_csv ;;
  slots <- parsing.load_slots NUMBER_OF_CLASS_DAYS slots_csv ;;
  classes_by_semester <-
    for_each classes_by_semester
      (fun semester_data done =>
         semester_data <- resolve_semester teachers semester_data ;;
         Ok (done ++ [semester_data]))
      [] ;;
  Ok {| DataStorage.teachers := teachers;
        DataStorage.classes_by_semester := classes_by_semester;
        DataStorage.slots := slots |}.
End Constants.

End DataStorageInit.

(** ** Vocabulary of the statements *)

(** [x] after [for v in vs: x += v] *)
Definition add_vars (x : PyValue) (vs : list LpVariable) : PyValue :=
  fold_left add_var vs x.

(** The integer that an assignment gives to a sum of variables. *)
Definition total (a : assignment) (vs : list LpVariable) : Z :=
  fold_right (fun v acc => a v + acc) 0 vs.

(** The linear part of an expression. *)
Definition lin (a : assignment) (ts : list (LpVariable * Q)) : Q :=
  fold_right (fun vc acc => snd vc * inject_Z (a (fst vc)) + acc)%Q 0%Q ts.

(** The cells of row [i] of a semester's matrix, from column [lo] to
    column [hi - 1]. *)
Definition row_vars (sid i lo hi : Z) : list LpVariable :=
  map (fun j => VarX sid i j) (range lo hi).

(** The cells of column [j], from row [lo] to row [hi - 1]. *)
Definition col_vars (sid j lo hi : Z) : list LpVariable :=
  map (fun i => VarX sid i j) (range lo hi).

(** What a comparison asks of the two values it compares. *)
Definition holds (s : sense) (p q : Q) : Prop :=
  match s with
  | LE => (p <= q)%Q
  | GE => (q <= p)%Q
  | EQ => (p == q)%Q
  end.

(** A model that has only gained constraints. *)
Definition extends (model model' : LpProblem) : Prop :=
  exists more, model' = model ++ more.

(** The sum of [f j] for [j] in [js]. *)
Definition zsum (f : Z -> Z) (js : list Z) : Z :=
  fold_right (fun j acc => f j + acc) 0 js.

(** The sum of the slot counts of a list of classes. *)
Definition slot_count_sum (classes : list Class_.t) : Z :=
  fold_right (fun c acc => Class_.slot_count c + acc) 0 classes.

(** The window starts that [_set_constraints_consecutive_slots] keeps for a
    class of [k] slots: those of [range(n - k + 1)] that do not make the
    window run over the end of a day. *)
Definition skipped (slot_count_per_day k j : Z) : bool :=
  j mod slot_count_per_day >? slot_count_per_day - k.

Definition valid_starts (slot_count_per_day n k : Z) : list Z :=
  filter (fun j => negb (skipped slot_count_per_day k j)) (range 0 (n - k + 1)).

(** The indicator of the window of [k] slots of row [i] that starts at [j]. *)
Definition z_var (sid i k j : Z) : LpVariable := VarZ sid i j (j + k - 1).

(** The invariant of the loop of [init_groups], after the classes [cs]:
    the two dictionaries list the same groups in the same order, every
    group holds the classes of [cs] that carry its name, in order, the common
    group comes first, and every other group was created for a class. *)
Definition gname (kv : Z * Group.t) : string := Group.name (snd kv).

Definition in_group (name : string) (c : Class_.t) : bool :=
  String.eqb (Class_.group_name c) name.

Record groups_inv (cs : list Class_.t) (st : Semester.locals) : Prop := {
  inv_identifiers :
    snd (fst st) = map (fun kv => (gname kv, fst kv)) (fst (fst st));
  inv_names : NoDup (map gname (fst (fst st)));
  inv_keys : NoDup (map fst (fst (fst st)));
  inv_fresh : forall kv, In kv (fst (fst st)) -> fst kv < snd st;
  inv_classes :
    forall kv, In kv (fst (fst st)) ->
      Group.classes (snd kv) = filter (in_group (gname kv)) cs;
  inv_seen :
    forall c, In c cs -> In (Class_.group_name c) (map gname (fst (fst st)));
  inv_common :
    exists g rest,
      fst (fst st) = (1, g) :: rest /\ Group.name g = EmptyString
      /\ forall kv, In kv rest -> exists c, In c cs /\ Class_.group_name c = gname kv
}.

(** The first row of every group when the rows of the groups follow one
    another from [offset] on, as [_set_constraints_class_limits_per_slot]
    counts them. *)
Fixpoint group_offsets (offset : Z) (groups : list Group.t) : list (Z * Group.t) :=
  match groups with
  | [] => []
  | group :: groups' =>
      (offset, group) :: group_offsets (offset + len (Group.classes group)) groups'
  end.

(** The rows of a group that starts at row [fst og]. *)
Definition group_rows (og : Z * Group.t) : list Z :=
  range (fst og) (fst og + len (Group.classes (snd og))).

Definition name_le (s1 s2 : string) : Prop := String.leb s1 s2 = true.

(** The constraint [x <= 1]. *)
Definition le_one (x : PyValue) : LpConstraint :=
  {| lhs := as_expr x; rel := LE; rhs := {| terms := []; constant := 1%Q |} |}.

(** The sum of the cells of column [i], from row [lo] to row [hi - 1]. *)
Definition column_sum (sid i lo hi : Z) : PyValue :=
  add_vars (PyNum 0) (col_vars sid i lo hi).

(** The per-slot limits of [_set_constraints_class_limits_per_slot] for
    slot [i], when the common group has [c] classes. *)
Definition common_limit (sid i c : Z) : LpConstraint :=
  le_one (column_sum sid i 0 c).

Definition group_limit (sid i c : Z) (og : Z * Group.t) : LpConstraint :=
  le_one (add (column_sum sid i 0 c)
              (column_sum sid i (fst og) (fst og + len (Group.classes (snd og))))).

Definition slot_limits (sid i : Z) (common : Group.t) (rest : list Group.t)
  : list LpConstraint :=
  let c := len (Group.classes common) in
  match rest with
  | [] => [common_limit sid i c]
  | _ => map (group_limit sid i c) (group_offsets c rest)
  end.

(** The assignment that puts rows [r1] and [r2] in slot [i0] and nothing
    else anywhere. *)
Definition two_rows (r1 r2 i0 : Z) : assignment :=
  fun v =>
    match v with
    | VarX _ r i => if (i =? i0) && ((r =? r1) || (r =? r2)) then 1 else 0
    | VarZ _ _ _ _ => 0
    end.

(** The cells of slot [i] of the classes of a semester that contain a
    teacher, in row order, and the same over the semesters, in order. *)
Definition semester_teacher_vars (teacher : Teacher.t) (i : Z) (semester : Semester.t)
  : list LpVariable :=
  map (fun jc => VarX (Semester.id semester) (fst jc) i)
      (filter (fun jc => Class_.contains_teacher (snd jc) teacher)
              (enumerate (Semester.classes semester))).

Definition teacher_vars (semesters : list Semester.t) (teacher : Teacher.t) (i : Z)
  : list LpVariable :=
  flat_map (semester_teacher_vars teacher i) semesters.

(** What [set_global_constraints] adds for a teacher and a slot. *)
Definition teacher_limit (semesters : list Semester.t) (teacher : Teacher.t) (i : Z)
  : list LpConstraint :=
  match teacher_vars semesters teacher i with
  | [] => []
  | vs => [le_one (add_vars (PyNum 0) vs)]
  end.

(** The truth value that the extractor reads in the cell of row [i] and
    slot [j]. *)
Definition cell_true (varValue : LpVariable -> option Q) (sid i j : Z) : bool :=
  match varValue (VarX sid i j) with
  | Some v => SemesterSchedule.is_true v
  | None => false
  end.

(** The number of consecutive true cells that end just before index [j]. *)
Fixpoint run_length (b : Z -> bool) (j : nat) : Z :=
  match j with
  | O => 0
  | S j' => if b (Z.of_nat j') then run_length b j' + 1 else 0
  end.

(** The last cell of a maximal run of true cells, in a row of [n] cells. *)
Definition is_run_end (b : Z -> bool) (n e : Z) : bool :=
  b e && ((e =? n - 1) || negb (b (e + 1))).

Definition run_ends (b : Z -> bool) (n : Z) : list Z :=
  filter (is_run_end b n) (range 0 n).

(** The block of the maximal run that ends at [e]. *)
Definition run_block (storage : DataStorage.t) (class_ : Class_.t) (b : Z -> bool)
    (e : Z) (block : ClassSchedule.t) : Prop :=
  ClassSchedule.__init__ storage class_ e (run_length b (Z.to_nat (e + 1))) = Ok block.

Definition start_id (block : ClassSchedule.t) : Z :=
  Slot.id (ClassSchedule.start_slot block).

(** The blocks of row [i]: those of its maximal runs, in order. *)
Definition row_blocks (semester : Semester.t) (storage : DataStorage.t)
    (varValue : LpVariable -> option Q) (i : Z) (blocks : list ClassSchedule.t) : Prop :=
  exists class_,
    index (Semester.classes semester) i = Ok class_
    /\ Forall2 (run_block storage class_ (cell_true varValue (Semester.id semester) i))
               (run_ends (cell_true varValue (Semester.id semester) i)
                         (len (DataStorage.slots storage)))
               blocks.

(** The block of class [i] from slot [s] to slot [e]. *)
Definition block_of (semester : Semester.t) (storage : DataStorage.t)
    (i s e : Z) (block : ClassSchedule.t) : Prop :=
  exists class_ start_slot end_slot,
    index (Semester.classes semester) i = Ok class_
    /\ index (DataStorage.slots storage) s = Ok start_slot
    /\ index (DataStorage.slots storage) e = Ok end_slot
    /\ block = {| ClassSchedule.class_ := class_;
                  ClassSchedule.start_slot := start_slot;
                  ClassSchedule.end_slot := end_slot |}.

(** The values that the solver leaves in the variables when it returns the
    assignment [a]. *)
Definition solution (a : assignment) : LpVariable -> option Q :=
  fun v => Some (inject_Z (a v)).

(** Which of the three preference fields of a day applies at position [r]
    of the day: the first before the lunch break, the second after it, the
    third from the tenth position on. *)
Definition day_part (r : Z) : Z := if r <? 4 then 0 else if r <? 9 then 1 else 2.

(** A semester as [load_classes] leaves it: built from a non-empty list of
    classes by [init_groups] and then [sort_classes]. *)
Definition loaded (semester : Semester.t) : Prop :=
  exists s0 s1,
    Semester.classes s0 <> []
    /\ Semester.init_groups s0 = Ok s1
    /\ semester = Semester.sort_classes s1.

(** The preferences of the teachers of a class can be used in a calendar of
    [n] slots: every preference that is not [None] is at the position of a
    slot and is an index of the list of the six coefficients. *)
Definition valid_preferences (n : Z) (class_ : Class_.t) : Prop :=
  forall teacher j p,
    In teacher (Class_.teachers class_) -> 0 <= j ->
    index (Teacher.slot_preferences teacher) j = Ok (Some p) ->
    j < n /\ - 6 <= p < 6.

(** The invariant of the first loop of [load_classes], after the rows
    [rows]: the two dictionaries list the same semesters in the same order,
    the semesters are numbered from 1 in that order, every semester holds the
    classes of the rows that carry its name, in order, and was created for
    a row. *)
Definition sname (kv : Z * Semester.t) : string := Semester.name (snd kv).

Definition in_semester (name : string) (row : parsing.class_row) : bool :=
  String.eqb (parsing.class_semester_name row) name.

(** The semester of the rows of [rows] that carry [name], before
    [init_groups]. *)
Definition bucket (id : Z) (name : string) (rows : list parsing.class_row) : Semester.t :=
  {| Semester.id := id; Semester.name := name;
     Semester.classes := map parsing.class_of_row (filter (in_semester name) rows);
     Semester.groups := [] |}.

Record semesters_inv (rows : list parsing.class_row) (st : parsing.locals) : Prop := {
  sinv_identifiers :
    snd (fst st) = map (fun kv => (sname kv, fst kv)) (fst (fst st));
  sinv_names : NoDup (map sname (fst (fst st)));
  sinv_keys : map fst (fst (fst st)) = range 1 (snd st);
  sinv_next : 1 <= snd st;
  sinv_semesters :
    forall kv, In kv (fst (fst st)) -> snd kv = bucket (fst kv) (sname kv) rows;
  sinv_seen :
    forall row, In row rows ->
      In (parsing.class_semester_name row) (map sname (fst (fst st)));
  sinv_used :
    forall kv, In kv (fst (fst st)) ->
      exists row, In row rows /\ parsing.class_semester_name row = sname kv
}.

(** Every teacher identifier that a row of the classes file lists is the
    identifier of a row of the teachers file. *)
Definition known_teachers (teachers_csv : list parsing.teacher_row)
    (classes_csv : list parsing.class_row) : Prop :=
  forall row id,
    In row classes_csv -> In id (parsing.class_teacher_ids row) ->
    exists teacher, In teacher teachers_csv /\ parsing.teacher_id teacher = id.

(** What makes the stored reciprocal of a class length [k] as good as the
    exact one for 0/1 values: it is positive, and [k - 1] times it is below
    1, so that a window that lacks a cell cannot reach 1. *)
Definition reciprocal_sound (k : Z) : bool :=
  match int_truediv 1 k with
  | inr r => negb (Qle_bool r 0) && negb (Qle_bool 1 (inject_Z (k - 1) * r))
  | inl _ => false
  end.

(** A model with the stored coefficients against the model with the exact
    ones: as many constraints, and every 0/1 assignment that satisfies the
    first satisfies the second. *)
Definition sound_for (model64 model : LpProblem) : Prop :=
  length model = length model64
  /\ forall a, binary a -> Forall (satisfies a) model64 -> Forall (satisfies a) model.


(** ** Sample data *)

Module Sample.

Definition slot (i : Z) : Slot.t :=
  {| Slot.id := i + 1; Slot.weekday := 1;
     Slot.start_time := EmptyString; Slot.end_time := EmptyString;
     Slot.is_lunch_break := false; Slot.is_evening := false |}.

Definition teacher (id : Z) : Teacher.t :=
  {| Teacher.id := id; Teacher.last_name := EmptyString;
     Teacher.first_name := EmptyString; Teacher.slot_preferences := [] |}.

Definition class_ (id : Z) (name group_name : string) (slot_count : Z)
    (teachers : list Teacher.t) : Class_.t :=
  {| Class_.id := id; Class_.name := name; Class_.group_name := group_name;
     Class_.slot_count := slot_count; Class_.teachers := teachers |}.

(** A calendar of [n] slots with the given teachers. *)
Definition storage (n : Z) (teachers : list Teacher.t) : DataStorage.t :=
  {| DataStorage.teachers := map (fun t => (Teacher.id t, t)) teachers;
     DataStorage.classes_by_semester := [];
     DataStorage.slots := map slot (range 0 n) |}.

(** A semester as the loader builds it from a list of classes. *)
Definition raw (classes : list Class_.t) : Semester.t :=
  {| Semester.id := 1; Semester.name := "S1"%string;
     Semester.classes := classes; Semester.groups := [] |}.

Definition load (classes : list Class_.t) : Semester.t :=
  match Semester.init_groups (raw classes) with
  | inr s => Semester.sort_classes s
  | inl _ => raw classes
  end.

(** The assignment that is 1 on the listed variables and 0 elsewhere. *)
Definition var_eqb (v w : LpVariable) : bool :=
  match v, w with
  | VarX s i j, VarX s' i' j' => (s =? s') && (i =? i') && (j =? j')
  | VarZ s i j k, VarZ s' i' j' k' => (s =? s') && (i =? i') && (j =? j') && (k =? k')
  | _, _ => false
  end.

Definition ones (vs : list LpVariable) : assignment :=
  fun v => if existsb (var_eqb v) vs then 1 else 0.

(** The solver values that are 1 on the listed variables and 0 elsewhere. *)
Definition values (vs : list LpVariable) : LpVariable -> option Q :=
  fun v => Some (inject_Z (ones vs v)).

(** One class of two slots in a calendar of two days of two slots, placed
    on the second day. *)
Definition two_days : DataStorage.t := storage 4 [].
Definition one_class : Semester.t := load [class_ 1 "A" "" 2 []].
Definition second_day : assignment := ones [VarX 1 0 2; VarX 1 0 3; VarZ 1 0 2 3].

(** One class of three slots in a calendar of ten slots, read at slots 3,
    4 and 5. *)
Definition ten_slots : DataStorage.t := storage 10 [].
Definition three_slot_class : Semester.t := load [class_ 1 "A" "" 3 []].
Definition at_3_4_5 : LpVariable -> option Q :=
  values [VarX 1 0 3; VarX 1 0 4; VarX 1 0 5].

(** The same row with the value 1/2 at slot 2. *)
Definition half_before_3_4_5 : LpVariable -> option Q :=
  fun v => if var_eqb v (VarX 1 0 2) then Some (1 # 2)%Q else at_3_4_5 v.

(** Two classes in a calendar of three slots: the first is nowhere, the
    second is at slots 0 and 2. *)
Definition three_slots : DataStorage.t := storage 3 [].
Definition class_B : Class_.t := class_ 2 "B" "" 2 [].
Definition two_classes : Semester.t := load [class_ 1 "A" "" 1 []; class_B].
Definition none_and_split : LpVariable -> option Q :=
  values [VarX 1 1 0; VarX 1 1 2].

(** A common class and two groups of one class each. *)
Definition two_groups : Semester.t :=
  raw [class_ 1 "A" "" 1 []; class_ 2 "B" "g1" 1 []; class_ 3 "C" "g2" 1 []].

(** The rows of a calendar of [n] slots, all on weekday 1. *)
Definition slot_rows (n : Z) : list parsing.slot_row :=
  map (fun i => {| parsing.slot_id := i + 1; parsing.slot_weekday := 1;
                   parsing.slot_start_time := EmptyString;
                   parsing.slot_end_time := EmptyString |})
      (range 0 n).

(** The converted rows of a teachers file with one teacher and of a classes
    file with one class of two slots, which that teacher gives. *)
Definition teacher_rows : list parsing.teacher_row :=
  [{| parsing.teacher_id := 7; parsing.teacher_last_name := "Doe"%string;
      parsing.teacher_first_name := "J"%string;
      parsing.teacher_preferences := [0; 0; 0; 0; 0; 0] |}].

Definition class_rows : list parsing.class_row :=
  [{| parsing.class_id := 1; parsing.class_name := "A"%string;
      parsing.class_semester_name := "S1"%string;
      parsing.class_group_name := EmptyString;
      parsing.class_slot_count := 2; parsing.class_teacher_ids := [7] |}].

(** Constants for a week of two class days, and the storage of one semester
    with one class of two slots and a calendar of two days of two slots. *)
Definition two_day_week : constants.t :=
  {| constants.NUMBER_OF_CLASS_DAYS := 2;
     constants.COEFFICIENT_PREFERENCE_NEUTRAL := 0;
     constants.COEFFICIENT_PREFERENCE_NOT_AVAILABLE := 100;
     constants.COEFFICIENT_PREFERENCE_IF_NOT_OTHERWISE_POSSIBLE := 10;
     constants.COEFFICIENT_PREFERENCE_PREFERABLY_NOT := 5;
     constants.COEFFICIENT_PREFERENCE_IDEALLY_YES := - (5);
     constants.COEFFICIENT_PREFERENCE_STRONG_PREFERENCE := - (10);
     constants.COEFFICIENT_SLOT_PENALTY_FIRST_HOUR := 1;
     constants.COEFFICIENT_SLOT_PENALTY_LUNCH_BREAK := 3;
     constants.COEFFICIENT_SLOT_PENALTY_EVENING_HOURS := 2 |}.

Definition one_semester : DataStorage.t :=
  {| DataStorage.teachers := [];
     DataStorage.classes_by_semester := [one_class];
     DataStorage.slots := map slot (range 0 4) |}.

End Sample.

(** * Proofs *)

(** ** The error monad and loops *)

Lemma bind_Ok {A B : Type} (c : result A) (k : A -> result B) (y : B) :
  bind c k = Ok y -> exists x, c = Ok x /\ k x = Ok y.
Proof.
  destruct c as [e | x]; simpl; intros H.
  - discriminate.
  - now exists x.
Qed.

Lemma bind_ret {A B : Type} (x : A) (k : A -> result B) : bind (Ok x) k = k x.
Proof. reflexivity. Qed.

Ltac inv_bind H :=
  let x := fresh "x" in
  let Hx := fresh "Hx" in
  apply bind_Ok in H; destruct H as (x & Hx & H).

Ltac inv_Ok H := (injection H as H) || discriminate H.

Lemma for_each_app {A S : Type} (l1 l2 : list A) (body : A -> S -> result S) (s : S) :
  for_each (l1 ++ l2) body s = bind (for_each l1 body s) (for_each l2 body).
Proof.
  revert s; induction l1 as [| x l1 IH]; intros s; simpl.
  - reflexivity.
  - destruct (body x s) as [e | s1]; simpl; auto.
Qed.

Lemma for_each_ext_in {A S : Type} (l : list A) (f g : A -> S -> result S) (s : S) :
  (forall x s, In x l -> f x s = g x s) -> for_each l f s = for_each l g s.
Proof.
  revert s; induction l as [| x l IH]; intros s Hfg; simpl.
  - reflexivity.
  - rewrite Hfg by now left.
    destruct (g x s) as [e | s1]; simpl; auto.
    apply IH. intros; apply Hfg; now right.
Qed.

(** A loop whose body never fails is a fold. *)
Lemma for_each_pure {A S : Type} (l : list A) (f : A -> S -> S) (s : S) :
  for_each l (fun x s => Ok (f x s)) s = Ok (fold_left (fun s x => f x s) l s).
Proof.
  revert s; induction l as [| x l IH]; intros s; simpl; auto.
Qed.

(** An invariant of the body is an invariant of the loop. *)
Lemma for_each_inv {A S : Type} (P : S -> Prop) (l : list A)
    (body : A -> S -> result S) (s s' : S) :
  (forall x s s', In x l -> P s -> body x s = Ok s' -> P s') ->
  P s -> for_each l body s = Ok s' -> P s'.
Proof.
  revert s; induction l as [| x l IH]; intros s Hbody Hs H; simpl in H.
  - inv_Ok H. now subst.
  - inv_bind H. apply (IH x0); auto.
    + intros y t t' Hy. apply Hbody. now right.
    + apply (Hbody x s); auto. now left.
Qed.

(** What a reflexive and transitive relation says of every step holds of the
    whole loop. *)
Lemma for_each_rel {A S : Type} (R : S -> S -> Prop) (l : list A)
    (body : A -> S -> result S) (s s' : S) :
  (forall s, R s s) ->
  (forall s1 s2 s3, R s1 s2 -> R s2 s3 -> R s1 s3) ->
  (forall x s s', In x l -> body x s = Ok s' -> R s s') ->
  for_each l body s = Ok s' -> R s s'.
Proof.
  intros Hrefl Htrans.
  revert s; induction l as [| y l IH]; intros s Hbody H; simpl in H.
  - inv_Ok H. subst. apply Hrefl.
  - inv_bind H. eapply Htrans.
    + eapply Hbody; eauto. now left.
    + apply IH; auto. intros z t t' Hz. apply Hbody. now right.
Qed.

(** Every iteration of a loop that ends normally ended normally. *)
Lemma for_each_step {A S : Type} (R : S -> S -> Prop) (l : list A)
    (body : A -> S -> result S) (s s' : S) (x : A) :
  (forall s, R s s) ->
  (forall s1 s2 s3, R s1 s2 -> R s2 s3 -> R s1 s3) ->
  (forall x s s', In x l -> body x s = Ok s' -> R s s') ->
  for_each l body s = Ok s' -> In x l ->
  exists s1 s2, R s s1 /\ body x s1 = Ok s2 /\ R s2 s'.
Proof.
  intros Hrefl Htrans.
  revert s; induction l as [| y l IH]; intros s Hbody H Hin; simpl in H.
  - destruct Hin.
  - inv_bind H. destruct Hin as [-> | Hin].
    + exists s, x0. repeat split; auto.
      apply (for_each_rel R l body); auto.
      intros z t t' Hz. apply Hbody. now right.
    + destruct (IH x0) as (s1 & s2 & H1 & H2 & H3); auto.
      { intros z t t' Hz. apply Hbody. now right. }
      exists s1, s2. repeat split; auto.
      eapply Htrans; [eapply Hbody; eauto; now left | auto].
Qed.

(** ** Ranges and indexing *)

Lemma range_In (lo hi x : Z) : In x (range lo hi) <-> lo <= x < hi.
Proof.
  unfold range. rewrite in_map_iff. split.
  - intros (t & <- & Ht). apply in_seq in Ht. lia.
  - intros Hx. exists (Z.to_nat (x - lo)). split; [lia |].
    apply in_seq. lia.
Qed.

Lemma range_nil (lo hi : Z) : hi <= lo -> range lo hi = [].
Proof.
  intros H. unfold range. replace (Z.to_nat (hi - lo)) with 0%nat by lia.
  reflexivity.
Qed.

Lemma range_cons (lo hi : Z) : lo < hi -> range lo hi = lo :: range (lo + 1) hi.
Proof.
  intros H. unfold range.
  replace (Z.to_nat (hi - lo)) with (S (Z.to_nat (hi - (lo + 1)))) by lia.
  simpl. f_equal; [lia |].
  rewrite <- seq_shift, map_map. apply map_ext. intros t. lia.
Qed.

Lemma range_snoc (lo hi : Z) : lo <= hi -> range lo (hi + 1) = range lo hi ++ [hi].
Proof.
  intros H. unfold range.
  replace (Z.to_nat (hi + 1 - lo)) with (Z.to_nat (hi - lo) + 1)%nat by lia.
  rewrite seq_app, map_app. simpl. do 2 f_equal. lia.
Qed.

Lemma range_length (lo hi : Z) : length (range lo hi) = Z.to_nat (hi - lo).
Proof. unfold range. now rewrite length_map, length_seq. Qed.

Lemma range_split (lo mid hi : Z) :
  lo <= mid <= hi -> range lo hi = range lo mid ++ range mid hi.
Proof.
  intros H. replace hi with (mid + Z.of_nat (Z.to_nat (hi - mid))) by lia.
  induction (Z.to_nat (hi - mid)) as [| d IH].
  - rewrite Z.add_0_r, (range_nil mid mid), app_nil_r by lia. reflexivity.
  - replace (mid + Z.of_nat (S d)) with (mid + Z.of_nat d + 1) by lia.
    rewrite !range_snoc by lia. rewrite IH. now rewrite app_assoc.
Qed.

Lemma index_bounds {A : Type} (l : list A) (i : Z) (x : A) :
  index l i = Ok x -> - len l <= i < len l.
Proof.
  unfold index. intros H.
  destruct (Z.ltb_spec i 0) as [Hneg | Hpos].
  - destruct (Z.ltb_spec (i + len l) 0); [discriminate |].
    destruct (nth_error l (Z.to_nat (i + len l))) eqn:E; [| discriminate].
    lia.
  - destruct (Z.ltb_spec i 0); [lia |].
    destruct (nth_error l (Z.to_nat i)) eqn:E; [| discriminate].
    assert ((Z.to_nat i < length l)%nat) by (apply nth_error_Some; congruence).
    unfold len. lia.
Qed.

Lemma index_nth {A : Type} (l : list A) (i : Z) :
  0 <= i -> index l i = match nth_error l (Z.to_nat i) with
                        | Some x => Ok x
                        | None => Raise IndexError
                        end.
Proof.
  intros H. unfold index.
  destruct (Z.ltb_spec i 0); [lia |].
  destruct (Z.ltb_spec i 0); [lia | reflexivity].
Qed.

Lemma index_map_range {A : Type} (f : Z -> A) (n i : Z) :
  0 <= i < n -> index (map f (range 0 n)) i = Ok (f i).
Proof.
  intros H. rewrite index_nth by lia.
  rewrite nth_error_map. unfold range.
  rewrite nth_error_map, nth_error_seq.
  destruct (Nat.ltb_spec (Z.to_nat i) (Z.to_nat (n - 0))); [| lia].
  simpl. do 2 f_equal. lia.
Qed.

Lemma index_In {A : Type} (l : list A) (i : Z) (x : A) :
  index l i = Ok x -> In x l.
Proof.
  unfold index. destruct (_ <? 0); [discriminate |].
  destruct (nth_error l _) eqn:E; intros H; inv_Ok H. subst.
  eapply nth_error_In; eauto.
Qed.

Lemma len_nonneg {A : Type} (l : list A) : 0 <= len l.
Proof. unfold len. lia. Qed.

Lemma len_app {A : Type} (l1 l2 : list A) : len (l1 ++ l2) = len l1 + len l2.
Proof. unfold len. rewrite length_app. lia. Qed.

Lemma len_map_range {A : Type} (f : Z -> A) (n : Z) :
  0 <= n -> len (map f (range 0 n)) = n.
Proof. intros H. unfold len. rewrite length_map, range_length. lia. Qed.

(** ** Values of expressions *)

Lemma value_lin (a : assignment) (e : LpAffineExpression) :
  (value a e == lin a (terms e) + constant e)%Q.
Proof.
  unfold value, lin. induction (terms e) as [| vc ts IH]; simpl.
  - lra.
  - rewrite IH. lra.
Qed.

Lemma lin_app (a : assignment) (t1 t2 : list (LpVariable * Q)) :
  (lin a (t1 ++ t2) == lin a t1 + lin a t2)%Q.
Proof.
  unfold lin. induction t1 as [| vc ts IH]; simpl.
  - lra.
  - rewrite IH. lra.
Qed.

Lemma lin_scale (a : assignment) (f : Q -> Q) (c : Q) (ts : list (LpVariable * Q)) :
  (forall q, f q == c * q)%Q ->
  (lin a (map (fun vc => (fst vc, f (snd vc))) ts) == c * lin a ts)%Q.
Proof.
  intros Hf. unfold lin. induction ts as [| vc ts IH]; simpl.
  - lra.
  - rewrite IH, Hf. lra.
Qed.

Lemma value_num (a : assignment) (q : Q) : (value a (as_expr (PyNum q)) == q)%Q.
Proof. reflexivity. Qed.

Lemma value_of_var (a : assignment) (v : LpVariable) :
  (value a (of_var v) == inject_Z (a v))%Q.
Proof. unfold value; simpl. lra. Qed.

Lemma value_add_var (a : assignment) (x : PyValue) (v : LpVariable) :
  (value a (as_expr (add_var x v)) == value a (as_expr x) + inject_Z (a v))%Q.
Proof.
  rewrite !value_lin. simpl. rewrite lin_app. simpl. lra.
Qed.

Lemma value_add_vars (a : assignment) (vs : list LpVariable) (x : PyValue) :
  (value a (as_expr (add_vars x vs)) == value a (as_expr x) + inject_Z (total a vs))%Q.
Proof.
  unfold add_vars. revert x; induction vs as [| v vs IH]; intros x; simpl.
  - unfold inject_Z. lra.
  - rewrite IH, value_add_var, inject_Z_plus. lra.
Qed.

Lemma value_add (a : assignment) (x y : PyValue) :
  (value a (as_expr (add x y)) == value a (as_expr x) + value a (as_expr y))%Q.
Proof.
  destruct x as [p | e], y as [q | e']; simpl;
    rewrite ?value_lin; simpl; rewrite ?lin_app; simpl; lra.
Qed.

Lemma value_add_num (a : assignment) (x : PyValue) (q : Q) :
  (value a (as_expr (add_num x q)) == value a (as_expr x) + q)%Q.
Proof.
  destruct x as [p | e]; simpl.
  - unfold value; simpl. lra.
  - rewrite !value_lin. simpl. lra.
Qed.

Lemma value_sub_num (a : assignment) (x : PyValue) (q : Q) :
  (value a (as_expr (sub_num x q)) == value a (as_expr x) - q)%Q.
Proof. unfold sub_num. rewrite value_add_num. lra. Qed.

Lemma value_neg (a : assignment) (x : PyValue) :
  (value a (as_expr (neg x)) == - value a (as_expr x))%Q.
Proof.
  destruct x as [p | e]; simpl.
  - unfold value; simpl. lra.
  - rewrite !value_lin. simpl.
    rewrite (lin_scale a (fun q => - q)%Q (-1)%Q) by (intros; lra). lra.
Qed.

Lemma value_truediv (a : assignment) (x y : PyValue) (k : Z) :
  truediv x k = Ok y ->
  k <> 0 /\ (value a (as_expr y) == value a (as_expr x) / inject_Z k)%Q.
Proof.
  unfold truediv. destruct (Z.eqb_spec k 0) as [| Hk]; [discriminate |].
  intros H. inv_Ok H. subst y. split; [assumption |].
  assert (Hq : ~ (inject_Z k == 0)%Q).
  { unfold Qeq, inject_Z; simpl. lia. }
  destruct x as [p | e]; simpl.
  - unfold value; simpl. lra.
  - rewrite !value_lin. simpl.
    rewrite (lin_scale a (fun q => q / inject_Z k)%Q (/ inject_Z k)%Q).
    + field. assumption.
    + intros q. field. assumption.
Qed.

Lemma total_app (a : assignment) (l1 l2 : list LpVariable) :
  total a (l1 ++ l2) = total a l1 + total a l2.
Proof. induction l1 as [| v l1 IH]; simpl; lia. Qed.

Lemma total_bounds (a : assignment) (vs : list LpVariable) :
  binary a -> 0 <= total a vs <= len vs.
Proof.
  intros Ha. unfold len. induction vs as [| v vs IH]; simpl length; simpl total.
  - lia.
  - specialize (Ha v). lia.
Qed.

(** A sum of 0/1 values that reaches the number of its terms has all its
    terms at 1, and a sum at 0 has them all at 0. *)
Lemma total_full (a : assignment) (vs : list LpVariable) :
  binary a -> total a vs = len vs -> forall v, In v vs -> a v = 1.
Proof.
  intros Ha. unfold len. induction vs as [| w vs IH]; simpl length; simpl total.
  - intros _ v [].
  - intros H v [<- | Hv].
    + pose proof (Ha w). pose proof (total_bounds a vs Ha). unfold len in *. lia.
    + apply IH; auto.
      pose proof (Ha w). pose proof (total_bounds a vs Ha). unfold len in *. lia.
Qed.

Lemma total_zero (a : assignment) (vs : list LpVariable) :
  binary a -> total a vs = 0 -> forall v, In v vs -> a v = 0.
Proof.
  intros Ha. induction vs as [| w vs IH]; simpl total.
  - intros _ v [].
  - intros H v [<- | Hv].
    + pose proof (Ha w). pose proof (total_bounds a vs Ha). lia.
    + apply IH; auto.
      pose proof (Ha w). pose proof (total_bounds a vs Ha). lia.
Qed.

Lemma inject_Z_le (x y : Z) : (inject_Z x <= inject_Z y)%Q <-> x <= y.
Proof. rewrite Zle_Qle. reflexivity. Qed.

Lemma inject_Z_eq (x y : Z) : (inject_Z x == inject_Z y)%Q <-> x = y.
Proof. apply inject_Z_injective. Qed.

(** ** The matrix of a schedule built by the constructor *)

Section Built.
Variables (semester : Semester.t) (storage : DataStorage.t).

Let self := SemesterSchedule.__init__ semester storage.
Let sid := Semester.id semester.
Let m := len (Semester.classes semester).
Let n := len (DataStorage.slots storage).

Lemma len_matrix : len (SemesterSchedule.variables_matrix self) = m.
Proof.
  simpl. unfold SemesterSchedule._create_variables_matrix.
  apply len_map_range, len_nonneg.
Qed.

Lemma cell_init (i j : Z) :
  0 <= i < m -> 0 <= j < n -> SemesterSchedule.cell self i j = Ok (VarX sid i j).
Proof.
  intros Hi Hj. unfold SemesterSchedule.cell. simpl.
  unfold SemesterSchedule._create_variables_matrix.
  rewrite index_map_range by assumption. simpl.
  now rewrite index_map_range.
Qed.

Lemma width_init : 0 < m -> SemesterSchedule.width self = Ok n.
Proof.
  intros Hm. unfold SemesterSchedule.width. simpl.
  unfold SemesterSchedule._create_variables_matrix.
  rewrite index_map_range by lia. simpl.
  f_equal. apply len_map_range, len_nonneg.
Qed.

Lemma sum_cells_init (js : list Z) (row col : Z -> Z) (x : PyValue) :
  (forall j, In j js -> 0 <= row j < m /\ 0 <= col j < n) ->
  SemesterSchedule.sum_cells self js row col x
  = Ok (add_vars x (map (fun j => VarX sid (row j) (col j)) js)).
Proof.
  unfold SemesterSchedule.sum_cells, add_vars.
  revert x; induction js as [| j js IH]; intros x Hjs; simpl.
  - reflexivity.
  - destruct (Hjs j) as [Hr Hc]; [now left |].
    rewrite cell_init by assumption. simpl.
    apply IH. intros; apply Hjs; now right.
Qed.

Lemma sum_row_init (i : Z) (x : PyValue) :
  0 <= i < m ->
  SemesterSchedule.sum_cells self (range 0 n) (fun _ => i) (fun j => j) x
  = Ok (add_vars x (row_vars sid i 0 n)).
Proof.
  intros Hi. rewrite sum_cells_init; [reflexivity |].
  intros j Hj. apply range_In in Hj. lia.
Qed.

Lemma window_sum_list (i : Z) (js : list Z) (x : PyValue) (k0 : option Z) :
  0 <= i < m -> (forall j, In j js -> 0 <= j < n) ->
  for_each js
    (fun k' st => v <- SemesterSchedule.cell self i k' ;; Ok (add_var (fst st) v, Some k'))
    (x, k0)
  = Ok (add_vars x (map (fun j => VarX sid i j) js),
        fold_left (fun _ j => Some j) js k0).
Proof.
  intros Hi. unfold add_vars.
  revert x k0; induction js as [| j js IH]; intros x k0 Hjs; simpl.
  - reflexivity.
  - rewrite cell_init; [| assumption | apply Hjs; now left]. simpl.
    apply IH. intros; apply Hjs; now right.
Qed.

Lemma window_sum_init (i j k : Z) (k0 : option Z) :
  0 <= i < m -> 0 <= j -> j + k <= n ->
  SemesterSchedule.window_sum self i j k k0
  = Ok (add_vars (PyNum 0) (row_vars sid i j (j + k)),
        if 0 <? k then Some (j + k - 1) else k0).
Proof.
  intros Hi Hj Hk. unfold SemesterSchedule.window_sum.
  rewrite window_sum_list; auto.
  - unfold row_vars. do 2 f_equal.
    destruct (Z.ltb_spec 0 k) as [Hpos | Hneg].
    + assert (E : range j (j + k) = range j (j + k - 1) ++ [j + k - 1]).
      { rewrite <- range_snoc by lia. f_equal. lia. }
      rewrite E, fold_left_app. reflexivity.
    + rewrite range_nil by lia. reflexivity.
  - intros t Ht. apply range_In in Ht. lia.
Qed.
End Built.

(** ** The indicator constraints of a window *)

Lemma Qle_div_iff (z x k : Z) :
  0 < k -> (inject_Z z <= inject_Z x / inject_Z k)%Q <-> z * k <= x.
Proof.
  intros Hk.
  assert (Hq : (0 < inject_Z k)%Q) by (unfold Qlt, inject_Z; simpl; lia).
  rewrite <- (Qmult_le_r _ _ _ Hq).
  assert (E : (inject_Z x / inject_Z k * inject_Z k == inject_Z x)%Q).
  { field. intros F. rewrite F in Hq. apply (Qlt_irrefl 0), Hq. }
  rewrite E, <- inject_Z_mult, <- Zle_Qle. reflexivity.
Qed.

Lemma Qle_minus_iff_Z (z x k : Z) :
  (inject_Z x - inject_Z k + 1 <= inject_Z z)%Q <-> x - k + 1 <= z.
Proof.
  unfold Qle, Qminus, Qplus, Qopp, inject_Z; simpl. lia.
Qed.

(** With the window sum at [x], the two constraints say [z <= x / k] and
    [z >= x - k + 1]. *)
Lemma indicator_constraints_Ok (z : LpVariable) (x : PyValue) (k : Z) (model : LpProblem) :
  k <> 0 ->
  exists c1 c2,
    SemesterSchedule.indicator_constraints z x k model = Ok (model ++ [c1; c2])
    /\ forall a,
         (satisfies a c1 <->
          (inject_Z (a z) <= value a (as_expr x) / inject_Z k)%Q)
         /\ (satisfies a c2 <->
             (value a (as_expr x) - inject_Z k + 1 <= inject_Z (a z))%Q).
Proof.
  intros Hk. unfold SemesterSchedule.indicator_constraints.
  destruct (truediv x k) as [e | q] eqn:Hq.
  { unfold truediv in Hq. destruct (Z.eqb_spec k 0); [contradiction | discriminate]. }
  simpl. eexists _, _. split.
  { rewrite <- app_assoc. reflexivity. }
  intros a. unfold satisfies; simpl.
  rewrite !value_of_var. split.
  - destruct (value_truediv a x q k Hq) as [_ E]. rewrite E. reflexivity.
  - rewrite value_add_num, value_sub_num. reflexivity.
Qed.

Lemma indicator_arith (z x k : Z) :
  1 <= k -> 0 <= x <= k -> 0 <= z <= 1 ->
  (z * k <= x /\ x - k + 1 <= z) <-> (z = 1 <-> x = k).
Proof.
  intros Hk Hx Hz. split.
  - intros [H1 H2]. split; intros E; subst; nia.
  - intros [H1 H2].
    assert (Hc : z = 0 \/ z = 1) by lia.
    destruct Hc as [-> | ->].
    + assert (x <> k) by (intros E; apply H2 in E; discriminate). lia.
    + rewrite H1 by reflexivity. lia.
Qed.

Lemma row_vars_len (sid i lo hi : Z) : lo <= hi -> len (row_vars sid i lo hi) = hi - lo.
Proof.
  intros H. unfold len, row_vars. rewrite length_map, range_length. lia.
Qed.

Lemma indicator_pair_iff (a : assignment) (z : LpVariable) (x : PyValue)
    (k xs : Z) (c1 c2 : LpConstraint) :
  1 <= k -> binary a ->
  (value a (as_expr x) == inject_Z xs)%Q -> 0 <= xs <= k ->
  (satisfies a c1 <-> (inject_Z (a z) <= value a (as_expr x) / inject_Z k)%Q) ->
  (satisfies a c2 <-> (value a (as_expr x) - inject_Z k + 1 <= inject_Z (a z))%Q) ->
  (satisfies a c1 <-> a z * k <= xs)
  /\ (satisfies a c2 <-> xs - k + 1 <= a z)
  /\ (satisfies a c1 /\ satisfies a c2 <-> (a z = 1 <-> xs = k)).
Proof.
  intros Hk Ha Hx Hb S1 S2.
  assert (H1 : satisfies a c1 <-> a z * k <= xs).
  { rewrite S1, Hx. apply Qle_div_iff. lia. }
  assert (H2 : satisfies a c2 <-> xs - k + 1 <= a z).
  { rewrite S2, Hx. apply Qle_minus_iff_Z. }
  split; [exact H1 |]. split; [exact H2 |].
  rewrite H1, H2. apply indicator_arith; auto.
Qed.

(** The indicator with the exact quotient.  For a row of a semester's
    matrix and a window of [k >= 1] cells starting at [j], the window loop
    returns the sum [x] of the [k] cells, an integer between 0 and [k] under
    a 0/1 assignment, and the two constraints that [truediv] gives for the
    indicator [z] say [z <= x / k] and [z >= x - k + 1]; they hold together
    exactly when [z] is 1 if and only if [x = k].  In particular [x < k]
    forces [z = 0] through the first and [x = k] forces [z = 1] through the
    second. *)
Theorem indicator_is_exact (semester : Semester.t) (storage : DataStorage.t)
    (i j k : Z) (k0 : option Z) (z : LpVariable) (a : assignment) :
  let self := SemesterSchedule.__init__ semester storage in
  let xs := total a (row_vars (Semester.id semester) i j (j + k)) in
  0 <= i < len (Semester.classes semester) ->
  0 <= j -> j + k <= len (DataStorage.slots storage) ->
  1 <= k ->
  binary a ->
  exists x c1 c2,
    SemesterSchedule.window_sum self i j k k0 = Ok (x, Some (j + k - 1))
    /\ SemesterSchedule.indicator_constraints z x k [] = Ok [c1; c2]
    /\ (value a (as_expr x) == inject_Z xs)%Q
    /\ 0 <= xs <= k
    /\ (satisfies a c1 <-> (inject_Z (a z) <= inject_Z xs / inject_Z k)%Q)
    /\ (satisfies a c2 <-> (inject_Z xs - inject_Z k + 1 <= inject_Z (a z))%Q)
    /\ (satisfies a c1 /\ satisfies a c2 <-> (a z = 1 <-> xs = k))
    /\ (xs < k -> satisfies a c1 -> a z = 0)
    /\ (xs = k -> satisfies a c2 -> a z = 1).
Proof.
  intros self xs Hi Hj Hjk Hk Ha.
  pose proof (window_sum_init semester storage i j k k0 Hi Hj Hjk) as Hw.
  destruct (Z.ltb_spec 0 k) as [_ | ?]; [| lia].
  set (x := add_vars (PyNum 0) (row_vars (Semester.id semester) i j (j + k))) in *.
  destruct (indicator_constraints_Ok z x k []) as (c1 & c2 & Hc & Hsat); [lia |].
  assert (Hx : (value a (as_expr x) == inject_Z xs)%Q).
  { subst x. rewrite value_add_vars, value_num. fold xs. lra. }
  assert (Hb : 0 <= xs <= k).
  { pose proof (total_bounds a (row_vars (Semester.id semester) i j (j + k)) Ha) as B.
    rewrite row_vars_len in B by lia. fold xs in B. lia. }
  destruct (indicator_pair_iff a z x k xs c1 c2 Hk Ha Hx Hb
              (proj1 (Hsat a)) (proj2 (Hsat a))) as (H1 & H2 & H3).
  exists x, c1, c2.
  split; [exact Hw |]. split; [exact Hc |]. split; [exact Hx |].
  split; [exact Hb |].
  split. { rewrite H1. symmetry. apply Qle_div_iff. lia. }
  split. { rewrite H2. symmetry. apply Qle_minus_iff_Z. }
  split; [exact H3 |].
  split.
  - intros Hlt Hs. apply H1 in Hs. pose proof (Ha z). nia.
  - intros He Hs. apply H2 in Hs. pose proof (Ha z). lia.
Qed.

(** ** The quotient that Python stores *)


(** The builder of the other statements is this one with the exact
    quotient. *)
Lemma consecutive_slots_with_truediv (NUMBER_OF_CLASS_DAYS : Z) (storage : DataStorage.t) :
  SemesterSchedule._set_constraints_consecutive_slots NUMBER_OF_CLASS_DAYS storage
  = SemesterSchedule._set_constraints_consecutive_slots_with NUMBER_OF_CLASS_DAYS storage
      truediv.
Proof. reflexivity. Qed.

(** ** Adding a comparison to a model *)

Lemma extends_refl (model : LpProblem) : extends model model.
Proof. exists []. now rewrite app_nil_r. Qed.

Lemma extends_trans (m1 m2 m3 : LpProblem) :
  extends m1 m2 -> extends m2 m3 -> extends m1 m3.
Proof.
  intros [e1 ->] [e2 ->]. exists (e1 ++ e2). now rewrite app_assoc.
Qed.

Lemma extends_Forall (a : assignment) (m1 m2 : LpProblem) :
  extends m1 m2 -> Forall (satisfies a) m2 -> Forall (satisfies a) m1.
Proof.
  intros [e ->] H. apply Forall_app in H. tauto.
Qed.

Lemma compare_num_holds (s : sense) (p q : Q) :
  compare_num s p q = true <-> holds s p q.
Proof.
  destruct s; simpl.
  - apply Qle_bool_iff.
  - apply Qle_bool_iff.
  - apply Qeq_bool_iff.
Qed.

Lemma satisfies_holds (a : assignment) (c : LpConstraint) :
  satisfies a c <-> holds (rel c) (value a (lhs c)) (value a (rhs c)).
Proof. unfold satisfies, holds. destruct (rel c); reflexivity. Qed.

(** Whatever [x] is, a model that accepted [x <rel> q] asks for it. *)
Lemma iadd_cmp (model model' : LpProblem) (s : sense) (x : PyValue) (q : Q) :
  iadd model (cmp s x q) = Ok model' ->
  extends model model'
  /\ forall a, Forall (satisfies a) model' -> holds s (value a (as_expr x)) q.
Proof.
  destruct x as [p | e]; simpl.
  - destruct (compare_num s p q) eqn:E; intros H; inv_Ok H. subst model'.
    split; [apply extends_refl |].
    intros a _. apply compare_num_holds in E. destruct s; exact E.
  - intros H. inv_Ok H. subst model'. split; [now eexists |].
    intros a Ha. apply Forall_app in Ha. destruct Ha as [_ Ha].
    inversion Ha as [| c l Hc _]; subst.
    apply satisfies_holds in Hc. exact Hc.
Qed.

Lemma add_vars_app (x : PyValue) (l1 l2 : list LpVariable) :
  add_vars x (l1 ++ l2) = add_vars (add_vars x l1) l2.
Proof. unfold add_vars. apply fold_left_app. Qed.

(** ** Sums over ranges *)

Lemma zsum_app (f : Z -> Z) (l1 l2 : list Z) :
  zsum f (l1 ++ l2) = zsum f l1 + zsum f l2.
Proof. induction l1 as [| j l1 IH]; simpl; lia. Qed.

Lemma zsum_ext_in (f g : Z -> Z) (js : list Z) :
  (forall j, In j js -> f j = g j) -> zsum f js = zsum g js.
Proof.
  induction js as [| j js IH]; intros H; simpl.
  - reflexivity.
  - rewrite (H j) by now left. rewrite IH; auto.
    intros; apply H; now right.
Qed.

Lemma zsum_index {A : Type} (f : Z -> Z) (g : A -> Z) (l : list A) :
  (forall i x, 0 <= i -> index l i = Ok x -> f i = g x) ->
  zsum f (range 0 (len l)) = fold_right (fun x acc => g x + acc) 0 l.
Proof.
  induction l as [| y l IH] using rev_ind; intros H.
  - reflexivity.
  - unfold len. rewrite length_app. simpl length.
    replace (Z.of_nat (length l + 1)) with (len l + 1) by (unfold len; lia).
    rewrite range_snoc by apply len_nonneg.
    rewrite zsum_app, fold_right_app. simpl.
    rewrite (H (len l) y).
    + rewrite IH.
      * clear. generalize (g y). intros c.
        induction l as [| x l IH]; simpl; lia.
      * intros i x Hi Hx. apply H; auto.
        rewrite index_nth in * by assumption.
        destruct (nth_error l (Z.to_nat i)) eqn:E; [| discriminate].
        rewrite nth_error_app1 by (apply nth_error_Some; congruence).
        rewrite E. exact Hx.
    + apply len_nonneg.
    + rewrite index_nth by apply len_nonneg.
      unfold len. rewrite Nat2Z.id, nth_error_app2, Nat.sub_diag by lia.
      reflexivity.
Qed.

(** ** The slot-count constraints and the unallocated-slot term *)

Section MatchSlotCount.
Variables (semester : Semester.t) (storage : DataStorage.t).

Let self := SemesterSchedule.__init__ semester storage.
Let sid := Semester.id semester.
Let m := len (Semester.classes semester).
Let n := len (DataStorage.slots storage).

(** One iteration of [_set_constraints_match_class_slot_count]. *)
Let match_body (i : Z) (model : LpProblem) : result LpProblem :=
  n <- SemesterSchedule.width self ;;
  x <- SemesterSchedule.sum_cells self (range 0 n) (fun _ => i) (fun j => j) (PyNum 0) ;;
  class_ <- index (Semester.classes (SemesterSchedule.semester self)) i ;;
  iadd model (cmp EQ x (inject_Z (Class_.slot_count class_))).

Lemma match_body_spec (i : Z) (model model' : LpProblem) :
  0 <= i < m -> match_body i model = Ok model' ->
  extends model model'
  /\ forall a class_,
       Forall (satisfies a) model' ->
       index (Semester.classes semester) i = Ok class_ ->
       total a (row_vars sid i 0 n) = Class_.slot_count class_.
Proof.
  intros Hi H. unfold match_body, self in H.
  rewrite width_init in H by (fold m; lia). simpl in H.
  rewrite sum_row_init in H by assumption. simpl in H.
  inv_bind H. apply iadd_cmp in H. destruct H as [Hext Hsat].
  split; [exact Hext |].
  intros a class_ Ha Hc. rewrite Hc in Hx. inv_Ok Hx. subst x.
  specialize (Hsat a Ha). simpl in Hsat.
  rewrite value_add_vars, value_num in Hsat.
  apply inject_Z_eq. rewrite <- Hsat. fold sid n. lra.
Qed.

(** Every row sums to the slot count of its class in every assignment
    that satisfies the emitted constraints. *)
Lemma match_class_slot_count_rows (model model' : LpProblem) (a : assignment)
    (i : Z) (class_ : Class_.t) :
  SemesterSchedule._set_constraints_match_class_slot_count self model = Ok model' ->
  Forall (satisfies a) model' ->
  0 <= i < m -> index (Semester.classes semester) i = Ok class_ ->
  total a (row_vars sid i 0 n) = Class_.slot_count class_.
Proof.
  intros H Ha Hi Hc.
  unfold SemesterSchedule._set_constraints_match_class_slot_count, self in H.
  rewrite len_matrix in H. fold m self in H.
  destruct (for_each_step extends (range 0 m) match_body model model' i)
    as (s1 & s2 & _ & Hbody & Hext).
  - apply extends_refl.
  - apply extends_trans.
  - intros x s s' Hx Hs. apply range_In in Hx.
    apply (match_body_spec x s s'); auto.
  - exact H.
  - apply range_In. exact Hi.
  - apply match_body_spec in Hbody; [| exact Hi].
    destruct Hbody as [_ Hrow]. apply Hrow; auto.
    eapply extends_Forall; eauto.
Qed.

Lemma unallocated_class_slots_Ok :
  SemesterSchedule._get_objective_function_unallocated_class_slots self
  = Ok (neg (fold_left (fun o i => add_vars o (row_vars sid i 0 n))
                       (range 0 m) (PyNum 0))).
Proof.
  unfold SemesterSchedule._get_objective_function_unallocated_class_slots, self.
  rewrite len_matrix. fold m.
  rewrite (for_each_ext_in (range 0 m) _
             (fun i o => Ok (add_vars o (row_vars sid i 0 n)))).
  - rewrite for_each_pure. reflexivity.
  - intros i o Hi. apply range_In in Hi.
    rewrite width_init by (fold m; lia). simpl.
    apply sum_row_init. exact Hi.
Qed.

Lemma value_rows (a : assignment) (rows : list Z) (o : PyValue) :
  (value a (as_expr (fold_left (fun o i => add_vars o (row_vars sid i 0 n)) rows o))
   == value a (as_expr o)
      + inject_Z (zsum (fun i => total a (row_vars sid i 0 n)) rows))%Q.
Proof.
  revert o; induction rows as [| i rows IH]; intros o; simpl.
  - unfold inject_Z. lra.
  - rewrite IH, value_add_vars, inject_Z_plus. lra.
Qed.
End MatchSlotCount.

(** C5.  When the slot-count constraints of a semester have been emitted,
    the unallocated-slot fragment is returned, and every assignment that
    satisfies those constraints gives it the value minus the sum of the slot
    counts of the semester's classes.  So two such assignments give it the
    same value, and adding it to the rest of the objective does not change
    how the rest compares them. *)
Theorem unallocated_term_is_constant (semester : Semester.t) (storage : DataStorage.t)
    (model : LpProblem) :
  let self := SemesterSchedule.__init__ semester storage in
  SemesterSchedule._set_constraints_match_class_slot_count self [] = Ok model ->
  exists o,
    SemesterSchedule._get_objective_function_unallocated_class_slots self = Ok o
    /\ (forall a, Forall (satisfies a) model ->
          (value a (as_expr o)
           == - inject_Z (slot_count_sum (Semester.classes semester)))%Q)
    /\ (forall a b, Forall (satisfies a) model -> Forall (satisfies b) model ->
          (value a (as_expr o) == value b (as_expr o))%Q)
    /\ (forall a b rest, Forall (satisfies a) model -> Forall (satisfies b) model ->
          ((value a (as_expr (add o rest)) <= value b (as_expr (add o rest)))%Q
           <-> (value a (as_expr rest) <= value b (as_expr rest))%Q)).
Proof.
  intros self H.
  eexists. split; [apply unallocated_class_slots_Ok |].
  assert (Hval : forall a, Forall (satisfies a) model ->
    (value a (as_expr (neg (fold_left
        (fun o i => add_vars o (row_vars (Semester.id semester) i 0
                                 (len (DataStorage.slots storage))))
        (range 0 (len (Semester.classes semester))) (PyNum 0))))
     == - inject_Z (slot_count_sum (Semester.classes semester)))%Q).
  { intros a Ha. rewrite value_neg, value_rows, value_num.
    rewrite (zsum_index _ Class_.slot_count (Semester.classes semester)).
    - unfold slot_count_sum. lra.
    - intros i c Hi Hc.
      apply (match_class_slot_count_rows semester storage [] model a i c); auto.
      split; [exact Hi |].
      unfold index in Hc. destruct (Z.ltb_spec i 0); [lia |].
      destruct (Z.ltb_spec i 0); [lia |].
      destruct (nth_error _ _) eqn:E; [| discriminate].
      assert (Hlt : (Z.to_nat i < length (Semester.classes semester))%nat)
        by (apply nth_error_Some; congruence).
      unfold len. lia. }
  split; [exact Hval |]. split.
  - intros a b Ha Hb. rewrite (Hval a Ha), (Hval b Hb). reflexivity.
  - intros a b rest Ha Hb. rewrite !value_add, (Hval a Ha), (Hval b Hb).
    split; intros; lra.
Qed.

(** ** The contiguity constraints *)

Section ConsecutiveSlots.
Variables (semester : Semester.t) (storage : DataStorage.t).
Variable slot_count_per_day : Z.

Let self := SemesterSchedule.__init__ semester storage.
Let sid := Semester.id semester.
Let m := len (Semester.classes semester).
Let n := len (DataStorage.slots storage).

Let body := SemesterSchedule.consecutive_slots_body self slot_count_per_day.

(** Whatever the slot count is, an iteration only adds constraints. *)
Lemma consecutive_body_extends (i k j : Z) (st st' : LpProblem * option Z * PyValue) :
  body i k j st = Ok st' -> extends (fst (fst st)) (fst (fst st')).
Proof.
  destruct st as [[model k0] Zs]. unfold body, SemesterSchedule.consecutive_slots_body.
  intros H. inv_bind H.
  destruct (x >? slot_count_per_day - k).
  - inv_Ok H. subst st'. apply extends_refl.
  - inv_bind H. destruct x0 as [xw kw]. inv_bind H. inv_bind H.
    inv_Ok H. subst st'. simpl.
    unfold SemesterSchedule.indicator_constraints in Hx2.
    inv_bind Hx2. inv_bind Hx2. simpl in Hx4, Hx2.
    inv_Ok Hx4. inv_Ok Hx2. subst. rewrite <- app_assoc. now eexists.
Qed.

(** For a class of [k >= 1] slots: a skipped start leaves the state as it
    is, and a kept start adds its indicator to [Z] and makes the indicator
    exact. *)
Lemma consecutive_body_spec (i k j : Z) (model model' : LpProblem)
    (k0 k1 : option Z) (Zs Zs' : PyValue) :
  0 <= i < m -> 1 <= k -> 0 <= j -> j + k <= n ->
  body i k j (model, k0, Zs) = Ok (model', k1, Zs') ->
  slot_count_per_day <> 0
  /\ extends model model'
  /\ Zs' = (if skipped slot_count_per_day k j then Zs
            else add_var Zs (z_var sid i k j))
  /\ (skipped slot_count_per_day k j = false ->
      forall a, binary a -> Forall (satisfies a) model' ->
        (a (z_var sid i k j) = 1 <-> total a (row_vars sid i j (j + k)) = k)).
Proof.
  intros Hi Hk Hj Hjk H.
  pose proof (consecutive_body_extends i k j _ _ H) as Hext. simpl in Hext.
  unfold body, SemesterSchedule.consecutive_slots_body in H.
  unfold mod_ in H. destruct (Z.eqb_spec slot_count_per_day 0) as [| Hspd];
    [discriminate |].
  simpl in H. unfold skipped.
  destruct (j mod slot_count_per_day >? slot_count_per_day - k).
  { inversion H; subst. repeat split; auto; discriminate. }
  unfold self in H. rewrite window_sum_init in H by assumption. simpl in H.
  destruct (Z.ltb_spec 0 k) as [_ | ?]; [| lia]. simpl in H.
  set (x := add_vars (PyNum 0) (row_vars (Semester.id semester) i j (j + k))) in H.
  set (z := VarZ (Semester.id semester) i j (j + k - 1)) in H.
  destruct (indicator_constraints_Ok z x k model) as (c1 & c2 & Hc & Hsat); [lia |].
  rewrite Hc in H. simpl in H. inversion H; subst model' k1 Zs'.
  split; [assumption |]. split; [assumption |]. split; [reflexivity |].
  intros _ a Ha Hall. unfold z_var. fold sid z.
  apply Forall_app in Hall. destruct Hall as [_ Hall].
  inversion Hall as [| ? ? Hc1 Hall']; subst.
  inversion Hall' as [| ? ? Hc2 _]; subst.
  set (xs := total a (row_vars sid i j (j + k))).
  assert (Hx : (value a (as_expr x) == inject_Z xs)%Q).
  { subst x. rewrite value_add_vars, value_num. fold sid xs. lra. }
  assert (Hb : 0 <= xs <= k).
  { pose proof (total_bounds a (row_vars sid i j (j + k)) Ha) as B.
    rewrite row_vars_len in B by lia. fold xs in B. lia. }
  destruct (indicator_pair_iff a z x k xs c1 c2 Hk Ha Hx Hb
              (proj1 (Hsat a)) (proj2 (Hsat a))) as (_ & _ & H3).
  apply H3. split; assumption.
Qed.
End ConsecutiveSlots.

Section ConsecutiveRows.
Variables (semester : Semester.t) (storage : DataStorage.t).
Variable slot_count_per_day : Z.

Let self := SemesterSchedule.__init__ semester storage.
Let sid := Semester.id semester.
Let m := len (Semester.classes semester).
Let n := len (DataStorage.slots storage).

Let body := SemesterSchedule.consecutive_slots_body self slot_count_per_day.
Let keep (k : Z) (js : list Z) : list Z :=
  filter (fun j => negb (skipped slot_count_per_day k j)) js.

(** The loop on the window starts of a class of [k >= 1] slots. *)
Lemma consecutive_loop_spec (i k : Z) (js : list Z) :
  0 <= i < m -> 1 <= k ->
  (forall j, In j js -> 0 <= j /\ j + k <= n) ->
  forall model k0 Zs model' k1 Zs',
    for_each js (body i k) (model, k0, Zs) = Ok (model', k1, Zs') ->
    extends model model'
    /\ Zs' = add_vars Zs (map (z_var sid i k) (keep k js))
    /\ (js <> [] -> slot_count_per_day <> 0)
    /\ (forall a j, binary a -> Forall (satisfies a) model' ->
          In j (keep k js) ->
          (a (z_var sid i k j) = 1 <-> total a (row_vars sid i j (j + k)) = k)).
Proof.
  intros Hi Hk. induction js as [| j js IH]; intros Hjs model k0 Zs model' k1 Zs' H.
  - simpl in H. inversion H; subst.
    split; [apply extends_refl |]. split; [reflexivity |].
    split; [congruence |]. intros a j _ _ [].
  - simpl in H. inv_bind H. destruct x as [[model1 k01] Zs1].
    destruct (Hjs j) as [Hj Hjk]; [now left |].
    destruct (consecutive_body_spec semester storage slot_count_per_day
                i k j model model1 k0 k01 Zs Zs1 Hi Hk Hj Hjk Hx)
      as (Hspd & Hext1 & HZ1 & Hiff1).
    destruct (IH (fun t Ht => Hjs t (or_intror Ht)) _ _ _ _ _ _ H)
      as (Hext2 & HZ2 & _ & Hiff2).
    split; [eapply extends_trans; eauto |].
    split.
    { subst Zs' Zs1. unfold keep. simpl.
      destruct (skipped slot_count_per_day k j); reflexivity. }
    split; [intros _; exact Hspd |].
    intros a t Ha Hall Ht. unfold keep in Ht. simpl in Ht.
    destruct (skipped slot_count_per_day k j) eqn:E; simpl in Ht.
    + apply Hiff2; auto.
    + destruct Ht as [<- | Ht].
      * apply Hiff1; auto. eapply extends_Forall; eauto.
      * apply Hiff2; auto.
Qed.

(** A row of a class with no slot to place makes the builder fail. *)
Lemma consecutive_row_zero (i : Z) (class_ : Class_.t) (st st' : LpProblem * option Z) :
  0 <= i < m ->
  index (Semester.classes semester) i = Ok class_ ->
  Class_.slot_count class_ = 0 ->
  SemesterSchedule.consecutive_slots_row self slot_count_per_day i st <> Ok st'.
Proof.
  intros Hi Hc Hk H. destruct st as [model k0].
  unfold SemesterSchedule.consecutive_slots_row in H. simpl in H.
  rewrite Hc in H. simpl in H. rewrite Hk in H.
  inv_bind H. inv_bind H. destruct x0 as [[model1 k1] Zs].
  assert (HZ : snd (model1, k1, Zs) = PyNum 0).
  { eapply (for_each_inv (fun s : LpProblem * option Z * PyValue => snd s = PyNum 0));
      [| | exact Hx0]; [| reflexivity].
    intros j [[mo ko] Zo] [[mo' ko'] Zo'] _ HP Hb. simpl in HP. subst Zo.
    unfold SemesterSchedule.consecutive_slots_body in Hb.
    inv_bind Hb. destruct (x0 >? slot_count_per_day - 0).
    - inversion Hb; subst. reflexivity.
    - exfalso. unfold SemesterSchedule.window_sum in Hb.
      rewrite (range_nil j (j + 0)) in Hb by lia. simpl in Hb.
      destruct ko; simpl in Hb; discriminate. }
  simpl in HZ. subst Zs. simpl in H. discriminate.
Qed.

(** Whatever the slot counts are, a row only adds constraints. *)
Lemma consecutive_row_extends (i : Z) (st st' : LpProblem * option Z) :
  SemesterSchedule.consecutive_slots_row self slot_count_per_day i st = Ok st' ->
  extends (fst st) (fst st').
Proof.
  destruct st as [model k0]. unfold SemesterSchedule.consecutive_slots_row.
  intros H. inv_bind H. inv_bind H. inv_bind H.
  destruct x1 as [[model1 k1] Zs]. inv_bind H. inv_Ok H. subst st'. simpl.
  apply iadd_cmp in Hx2. destruct Hx2 as [Hext _].
  eapply extends_trans; [| exact Hext].
  refine (for_each_rel
            (fun s s' : LpProblem * option Z * PyValue =>
               extends (fst (fst s)) (fst (fst s')))
            _ _ (model, k0, PyNum 0) (model1, k1, Zs) _ _ _ Hx1).
  - intros s. apply extends_refl.
  - intros s1 s2 s3. apply extends_trans.
  - intros j s s' _. apply consecutive_body_extends.
Qed.

(** The row of a class of [k >= 1] slots: exactly one of the indicators
    of the kept starts is 1, and each of them is exact. *)
Lemma consecutive_row_spec (i : Z) (class_ : Class_.t) (st st' : LpProblem * option Z) :
  0 <= i < m ->
  index (Semester.classes semester) i = Ok class_ ->
  1 <= Class_.slot_count class_ ->
  SemesterSchedule.consecutive_slots_row self slot_count_per_day i st = Ok st' ->
  let k := Class_.slot_count class_ in
  forall a, binary a -> Forall (satisfies a) (fst st') ->
    total a (map (z_var sid i k) (valid_starts slot_count_per_day n k)) = 1
    /\ slot_count_per_day <> 0
    /\ (forall j, In j (valid_starts slot_count_per_day n k) ->
          (a (z_var sid i k j) = 1 <-> total a (row_vars sid i j (j + k)) = k)).
Proof.
  intros Hi Hc Hk H k a Ha Hall. destruct st as [model k0].
  unfold SemesterSchedule.consecutive_slots_row in H. simpl in H.
  rewrite Hc in H. simpl in H. fold k in H.
  unfold self in H. rewrite width_init in H by (fold m; lia). simpl in H.
  inv_bind H. destruct x as [[model1 k1] Zs]. inv_bind H.
  inv_Ok H. subst st'. simpl in Hall.
  apply iadd_cmp in Hx0. destruct Hx0 as [Hext Hone].
  specialize (Hone a Hall). simpl in Hone.
  assert (Hjs : forall j, In j (range 0 (n - k + 1)) -> 0 <= j /\ j + k <= n).
  { intros j Hj. apply range_In in Hj. lia. }
  destruct (consecutive_loop_spec i k _ Hi Hk Hjs _ _ _ _ _ _ Hx)
    as (_ & HZ & Hspd & Hiff).
  subst Zs. rewrite value_add_vars, value_num in Hone.
  assert (Hsum : total a (map (z_var sid i k) (valid_starts slot_count_per_day n k)) = 1).
  { apply inject_Z_eq. unfold valid_starts. fold n in Hone.
    change (inject_Z 1) with 1%Q. rewrite <- Hone. unfold keep. lra. }
  split; [exact Hsum |]. split.
  - apply Hspd. intros E. unfold valid_starts in Hsum. fold n in E.
    rewrite E in Hsum. simpl in Hsum. discriminate.
  - intros j Hj. apply Hiff; auto. eapply extends_Forall; eauto.
Qed.
End ConsecutiveRows.

Lemma total_one_exists (a : assignment) (vs : list LpVariable) :
  binary a -> total a vs = 1 -> exists v, In v vs /\ a v = 1.
Proof.
  intros Ha. induction vs as [| w vs IH]; simpl; intros H.
  - discriminate.
  - pose proof (Ha w) as Hw. pose proof (total_bounds a vs Ha) as Hb.
    assert (Hc : a w = 1 \/ a w = 0) by lia.
    destruct Hc as [E | E].
    + exists w. auto.
    + destruct IH as (v & Hv & Hv1); [lia |]. exists v. auto.
Qed.

(** A row of 0/1 values whose sum is [k] and which has a window of [k]
    cells that sums to [k] is that window. *)
Lemma single_window (a : assignment) (sid i n k s : Z) :
  binary a -> 1 <= k -> 0 <= s -> s + k <= n ->
  total a (row_vars sid i 0 n) = k ->
  total a (row_vars sid i s (s + k)) = k ->
  forall t, 0 <= t < n -> (a (VarX sid i t) = 1 <-> s <= t < s + k).
Proof.
  intros Ha Hk Hs Hsk Hrow Hwin t Ht.
  assert (Hsplit : row_vars sid i 0 n
                   = row_vars sid i 0 s ++ row_vars sid i s (s + k)
                     ++ row_vars sid i (s + k) n).
  { unfold row_vars. rewrite <- !map_app. f_equal.
    rewrite (range_split 0 s n) by lia.
    rewrite (range_split s (s + k) n) by lia. reflexivity. }
  rewrite Hsplit, !total_app, Hwin in Hrow.
  pose proof (total_bounds a (row_vars sid i 0 s) Ha) as B1.
  pose proof (total_bounds a (row_vars sid i (s + k) n) Ha) as B2.
  assert (In_row : forall lo hi, lo <= t < hi -> In (VarX sid i t) (row_vars sid i lo hi)).
  { intros lo hi Hlh. unfold row_vars. apply in_map, range_In. exact Hlh. }
  split.
  - intros E.
    destruct (Z.lt_ge_cases t s) as [Hlt | Hge].
    + rewrite (total_zero a (row_vars sid i 0 s) Ha) in E; [discriminate | lia |].
      apply In_row. lia.
    + destruct (Z.lt_ge_cases t (s + k)) as [Hlt' | Hge']; [lia |].
      rewrite (total_zero a (row_vars sid i (s + k) n) Ha) in E; [discriminate | lia |].
      apply In_row. lia.
  - intros Hin. apply (total_full a (row_vars sid i s (s + k)) Ha).
    + rewrite row_vars_len by lia. lia.
    + apply In_row. exact Hin.
Qed.

(** C1.  Take the constraints that [_set_constraints_match_class_slot_count]
    and [_set_constraints_consecutive_slots] emit for a semester, and a 0/1
    assignment that satisfies them.  Then for every class row, with [k] the
    slot count of the class, there is a start [s] such that the cells of the
    row at 1 are exactly those of the [k] consecutive slots [s .. s + k - 1];
    the run lies inside the calendar and its start satisfies
    [s mod slots_per_day <= slots_per_day - k]: it does not run over the end
    of a day. *)
Theorem consecutive_slots_single_run (NUMBER_OF_CLASS_DAYS : Z)
    (semester : Semester.t) (storage : DataStorage.t)
    (model1 model2 : LpProblem) (a : assignment) (i : Z) (class_ : Class_.t) :
  let self := SemesterSchedule.__init__ semester storage in
  let n := len (DataStorage.slots storage) in
  let k := Class_.slot_count class_ in
  SemesterSchedule._set_constraints_match_class_slot_count self [] = Ok model1 ->
  SemesterSchedule._set_constraints_consecutive_slots NUMBER_OF_CLASS_DAYS storage self []
  = Ok model2 ->
  feasible a (model1 ++ model2) ->
  0 <= i -> index (Semester.classes semester) i = Ok class_ ->
  exists slot_count_per_day s,
    utils.get_slot_count_per_day NUMBER_OF_CLASS_DAYS storage = Ok slot_count_per_day
    /\ slot_count_per_day <> 0
    /\ 1 <= k
    /\ 0 <= s /\ s + k <= n
    /\ s mod slot_count_per_day <= slot_count_per_day - k
    /\ forall t, 0 <= t < n ->
         (a (VarX (Semester.id semester) i t) = 1 <-> s <= t < s + k).
Proof.
  intros self n k H1 H2 [Ha Hall] Hi0 Hc.
  apply Forall_app in Hall. destruct Hall as [Hall1 Hall2].
  assert (Hi : 0 <= i < len (Semester.classes semester)).
  { split; [exact Hi0 |]. rewrite index_nth in Hc by assumption.
    destruct (nth_error _ _) eqn:E; [| discriminate].
    assert ((Z.to_nat i < length (Semester.classes semester))%nat)
      by (apply nth_error_Some; congruence).
    unfold len. lia. }
  pose proof (match_class_slot_count_rows semester storage [] model1 a i class_
                H1 Hall1 Hi Hc) as Hrow.
  fold n k in Hrow.
  unfold SemesterSchedule._set_constraints_consecutive_slots in H2.
  inv_bind H2. rename x into spd. inv_bind H2. destruct x as [model2' k2].
  inv_Ok H2. subst model2'.
  unfold self in Hx0. rewrite len_matrix in Hx0. fold self in Hx0.
  destruct (for_each_step
              (fun s s' : LpProblem * option Z => extends (fst s) (fst s'))
              (range 0 (len (Semester.classes semester)))
              (SemesterSchedule.consecutive_slots_row self spd)
              ([], None) (model2, k2) i)
    as (s1 & s2 & _ & Hbody & Hext).
  { intros s. apply extends_refl. }
  { intros s1 s2 s3. apply extends_trans. }
  { intros x s s' _. apply consecutive_row_extends. }
  { exact Hx0. }
  { apply range_In. exact Hi. }
  simpl in Hext.
  assert (Hk : 1 <= k).
  { pose proof (total_bounds a (row_vars (Semester.id semester) i 0 n) Ha) as B.
    assert (Hk0 : k <> 0).
    { intros E. exact (consecutive_row_zero semester storage spd i class_ s1 s2
                         Hi Hc E Hbody). }
    lia. }
  destruct (consecutive_row_spec semester storage spd i class_ s1 s2 Hi Hc Hk Hbody a Ha)
    as (Hone & Hspd & Hiff).
  { eapply extends_Forall; eauto. }
  fold n k in Hone, Hiff.
  destruct (total_one_exists a _ Ha Hone) as (v & Hv & Hv1).
  apply in_map_iff in Hv. destruct Hv as (s & <- & Hs).
  pose proof Hs as Hs'. unfold valid_starts in Hs'.
  apply filter_In in Hs'. destruct Hs' as [Hrange Hkeep].
  apply range_In in Hrange. unfold skipped in Hkeep.
  destruct (Z.gtb_spec (s mod spd) (spd - k)) as [| Hle]; [discriminate |].
  exists spd, s.
  split; [exact Hx |]. split; [exact Hspd |]. split; [exact Hk |].
  split; [lia |]. split; [lia |]. split; [exact Hle |].
  apply single_window; auto; try lia.
  apply Hiff; auto.
Qed.

(** ** Sorting *)

Section SortedFacts.
Context {A K : Type} {ltb : K -> K -> bool} (key : A -> K).
Hypothesis ltb_asym : forall x y, ltb x y = true -> ltb y x = false.

(** [x] may come before [y]: [y]'s key is not below [x]'s. *)
Let before (x y : A) : Prop := ltb (key y) (key x) = false.

Lemma insert_perm (x : A) (l : list A) : Permutation (insert ltb key x l) (x :: l).
Proof.
  induction l as [| y l IH]; simpl.
  - apply Permutation_refl.
  - destruct (ltb (key y) (key x)).
    + eapply Permutation_trans; [apply perm_skip, IH | apply perm_swap].
    + apply Permutation_refl.
Qed.

Lemma sorted_perm (l : list A) : Permutation (sorted ltb key l) l.
Proof.
  induction l as [| x l IH]; simpl.
  - apply Permutation_refl.
  - eapply Permutation_trans; [apply insert_perm | apply perm_skip, IH].
Qed.

Lemma insert_Sorted (x : A) (l : list A) :
  Sorted before l -> Sorted before (insert ltb key x l).
Proof.
  induction l as [| y l IH]; simpl; intros H.
  - repeat constructor.
  - destruct (ltb (key y) (key x)) eqn:E.
    + inversion H as [| ? ? Hl Hhd]; subst. constructor; [apply IH, Hl |].
      destruct l as [| w l]; simpl.
      * constructor. apply ltb_asym, E.
      * destruct (ltb (key w) (key x)).
        -- inversion Hhd; subst. constructor. assumption.
        -- constructor. apply ltb_asym, E.
    + constructor; [exact H |]. constructor. exact E.
Qed.

Lemma sorted_Sorted (l : list A) : Sorted before (sorted ltb key l).
Proof.
  induction l as [| x l IH]; simpl.
  - constructor.
  - apply insert_Sorted, IH.
Qed.

Lemma sorted_length (l : list A) : length (sorted ltb key l) = length l.
Proof. apply Permutation_length, sorted_perm. Qed.

(** A list that is in order already is left as it is. *)
Lemma sorted_id (l : list A) : Sorted before l -> sorted ltb key l = l.
Proof.
  induction l as [| x l IH]; simpl; intros H.
  - reflexivity.
  - inversion H as [| ? ? Hl Hhd]; subst. rewrite IH by assumption.
    destruct l as [| y l]; simpl.
    + reflexivity.
    + inversion Hhd as [| ? ? Hb]; subst. unfold before in Hb. now rewrite Hb.
Qed.
End SortedFacts.

Lemma string_ltb_asym (s1 s2 : string) :
  String.ltb s1 s2 = true -> String.ltb s2 s1 = false.
Proof.
  unfold String.ltb. rewrite (String.compare_antisym s1 s2).
  destruct (String.compare s2 s1); simpl; congruence.
Qed.

Lemma string_ltb_leb (s1 s2 : string) :
  String.ltb s2 s1 = false <-> String.leb s1 s2 = true.
Proof.
  unfold String.ltb, String.leb. rewrite (String.compare_antisym s1 s2).
  destruct (String.compare s2 s1); simpl; split; congruence.
Qed.

Lemma Z_ltb_asym (x y : Z) : (x <? y) = true -> (y <? x) = false.
Proof. intros H. apply Z.ltb_lt in H. apply Z.ltb_ge. lia. Qed.

(** ** Dictionaries *)

Section DictFacts.
Context {K V : Type} {eqb : K -> K -> bool}.
Hypothesis eqb_spec : forall x y, reflect (x = y) (eqb x y).

Lemma dict_contains_In (d : dict K V) (k : K) :
  dict_contains eqb d k = true <-> In k (map fst d).
Proof.
  unfold dict_contains. rewrite existsb_exists, in_map_iff. split.
  - intros (kv & Hin & E). destruct (eqb_spec k (fst kv)); [| discriminate].
    exists kv. auto.
  - intros (kv & E & Hin). exists kv. split; [exact Hin |].
    destruct (eqb_spec k (fst kv)); congruence.
Qed.

Lemma dict_set_new (d : dict K V) (k : K) (v : V) :
  ~ In k (map fst d) -> dict_set eqb d k v = d ++ [(k, v)].
Proof.
  induction d as [| [k' v'] d IH]; simpl; intros H.
  - reflexivity.
  - destruct (eqb_spec k k') as [-> | _]; [tauto |].
    rewrite IH by tauto. reflexivity.
Qed.

Lemma dict_get_last (d : dict K V) (k : K) (v : V) :
  ~ In k (map fst d) -> dict_get eqb (d ++ [(k, v)]) k = Ok v.
Proof.
  induction d as [| [k' v'] d IH]; simpl; intros H.
  - destruct (eqb_spec k k); congruence.
  - destruct (eqb_spec k k') as [-> | _]; [tauto |]. apply IH. tauto.
Qed.

Lemma dict_set_last (d : dict K V) (k : K) (v v' : V) :
  ~ In k (map fst d) -> dict_set eqb (d ++ [(k, v)]) k v' = d ++ [(k, v')].
Proof.
  induction d as [| [k0 v0] d IH]; simpl; intros H.
  - destruct (eqb_spec k k); congruence.
  - destruct (eqb_spec k k0) as [-> | _]; [tauto |].
    rewrite IH by tauto. reflexivity.
Qed.

Lemma dict_get_first (d1 d2 : dict K V) (k : K) (v : V) :
  ~ In k (map fst d1) -> dict_get eqb (d1 ++ (k, v) :: d2) k = Ok v.
Proof.
  induction d1 as [| [k' v'] d1 IH]; simpl; intros H.
  - destruct (eqb_spec k k); congruence.
  - destruct (eqb_spec k k') as [-> | _]; [tauto |]. apply IH. tauto.
Qed.

Lemma dict_set_first (d1 d2 : dict K V) (k : K) (v v' : V) :
  ~ In k (map fst d1) ->
  dict_set eqb (d1 ++ (k, v) :: d2) k v' = d1 ++ (k, v') :: d2.
Proof.
  induction d1 as [| [k0 v0] d1 IH]; simpl; intros H.
  - destruct (eqb_spec k k); congruence.
  - destruct (eqb_spec k k0) as [-> | _]; [tauto |].
    rewrite IH by tauto. reflexivity.
Qed.
End DictFacts.

Lemma NoDup_app_left {A : Type} (l1 l2 : list A) (x : A) :
  NoDup (l1 ++ x :: l2) -> ~ In x l1 /\ ~ In x l2.
Proof.
  intros H. apply NoDup_remove_2 in H. rewrite in_app_iff in H. tauto.
Qed.

(** ** [init_groups] and [sort_classes] *)

Lemma in_group_refl (c : Class_.t) : in_group (Class_.group_name c) c = true.
Proof. unfold in_group. apply String.eqb_refl. Qed.

Lemma in_group_other (name : string) (c : Class_.t) :
  name <> Class_.group_name c -> in_group name c = false.
Proof.
  intros H. unfold in_group.
  destruct (String.eqb_spec (Class_.group_name c) name); congruence.
Qed.

Lemma filter_snoc_in (name : string) (cs : list Class_.t) (c : Class_.t) :
  name = Class_.group_name c ->
  filter (in_group name) (cs ++ [c]) = filter (in_group name) cs ++ [c].
Proof.
  intros ->. rewrite filter_app. simpl. now rewrite in_group_refl.
Qed.

Lemma filter_snoc_out (name : string) (cs : list Class_.t) (c : Class_.t) :
  name <> Class_.group_name c ->
  filter (in_group name) (cs ++ [c]) = filter (in_group name) cs.
Proof.
  intros H. rewrite filter_app. simpl. rewrite in_group_other by assumption.
  apply app_nil_r.
Qed.

Lemma NoDup_snoc {A : Type} (l : list A) (x : A) :
  NoDup l -> ~ In x l -> NoDup (l ++ [x]).
Proof.
  intros Hl Hx. apply (Permutation_NoDup (l := x :: l)).
  - apply Permutation_cons_append.
  - constructor; assumption.
Qed.

Lemma init_groups_body_existing (cs : list Class_.t) (c : Class_.t) (st : Semester.locals) :
  groups_inv cs st ->
  In (Class_.group_name c) (map gname (fst (fst st))) ->
  exists st', Semester.init_groups_body c st = Ok st' /\ groups_inv (cs ++ [c]) st'.
Proof.
  destruct st as [[groups identifiers] id].
  intros [Hid Hnames Hkeys Hfresh Hclasses Hseen Hcommon]; simpl in *.
  intros Hin.
  pose proof Hin as Hin'. apply in_map_iff in Hin'.
  destruct Hin' as ([gid g] & Hname & Hkv). unfold gname in Hname; simpl in Hname.
  apply in_split in Hkv. destruct Hkv as (g1 & g2 & Hsplit).
  subst groups.
  rewrite map_app in Hnames, Hkeys. simpl in Hnames, Hkeys.
  destruct (NoDup_app_left _ _ _ Hnames) as [Hn1 Hn2].
  destruct (NoDup_app_left _ _ _ Hkeys) as [Hk1 _].
  change (gname (gid, g)) with (Group.name g) in Hn1, Hn2.
  rewrite Hname in Hn1, Hn2.
  exists (g1 ++ (gid, Group.append g c) :: g2, identifiers, id). split.
  - unfold Semester.init_groups_body.
    assert (E : dict_contains String.eqb identifiers (Class_.group_name c) = true).
    { apply (dict_contains_In String.eqb_spec). subst identifiers.
      rewrite map_map. simpl. exact Hin. }
    rewrite E. simpl.
    assert (G1 : dict_get String.eqb identifiers (Class_.group_name c) = Ok gid).
    { subst identifiers. rewrite map_app. simpl.
      change (gname (gid, g)) with (Group.name g).
      rewrite Hname. apply (dict_get_first String.eqb_spec).
      rewrite map_map. simpl. exact Hn1. }
    rewrite G1. simpl.
    rewrite (dict_get_first Z.eqb_spec) by exact Hk1. simpl.
    rewrite (dict_set_first Z.eqb_spec) by exact Hk1. reflexivity.
  - constructor; simpl.
    + subst identifiers. rewrite !map_app. reflexivity.
    + rewrite map_app. simpl. exact Hnames.
    + rewrite map_app. simpl. exact Hkeys.
    + intros kv Hkv. apply in_app_iff in Hkv. simpl in Hkv.
      destruct Hkv as [Hkv | [<- | Hkv]].
      * apply Hfresh. apply in_app_iff. auto.
      * apply (Hfresh (gid, g)). apply in_app_iff. simpl. auto.
      * apply Hfresh. apply in_app_iff. simpl. auto.
    + intros kv Hkv. apply in_app_iff in Hkv. simpl in Hkv.
      destruct Hkv as [Hkv | [<- | Hkv]].
      * rewrite filter_snoc_out.
        -- apply Hclasses. apply in_app_iff. auto.
        -- intros E. apply Hn1. rewrite <- E. apply in_map. exact Hkv.
      * unfold gname; simpl. rewrite filter_snoc_in by exact Hname.
        f_equal. apply (Hclasses (gid, g)). apply in_app_iff. simpl. auto.
      * rewrite filter_snoc_out.
        -- apply Hclasses. apply in_app_iff. simpl. auto.
        -- intros E. apply Hn2. rewrite <- E. apply in_map. exact Hkv.
    + intros c' Hc'. rewrite map_app. simpl.
      change (gname (gid, Group.append g c)) with (gname (gid, g)).
      rewrite map_app in Hin, Hseen. simpl in Hin, Hseen.
      apply in_app_iff in Hc'. destruct Hc' as [Hc' | [<- | []]].
      * apply Hseen. exact Hc'.
      * exact Hin.
    + destruct Hcommon as (g0 & rest & Hg & Hg0 & Hrest).
      destruct g1 as [| x g1]; simpl in Hg.
      * injection Hg as E1 E2 E3. subst g0 rest gid.
        exists (Group.append g c), g2. simpl. repeat split; auto.
        intros kv Hkv. destruct (Hrest kv Hkv) as (c' & Hc' & Ec').
        exists c'. split; [apply in_app_iff; auto | exact Ec'].
      * injection Hg as E1 E2. subst x rest.
        exists g0, (g1 ++ (gid, Group.append g c) :: g2). simpl.
        repeat split; auto.
        intros kv Hkv. apply in_app_iff in Hkv. simpl in Hkv.
        destruct Hkv as [Hkv | [<- | Hkv]].
        -- destruct (Hrest kv) as (c' & Hc' & Ec'); [apply in_app_iff; auto |].
           exists c'. split; [apply in_app_iff; auto | exact Ec'].
        -- exists c. split; [apply in_app_iff; simpl; auto |].
           unfold gname; simpl. symmetry. exact Hname.
        -- destruct (Hrest kv) as (c' & Hc' & Ec'); [apply in_app_iff; simpl; auto |].
           exists c'. split; [apply in_app_iff; auto | exact Ec'].
Qed.

Lemma init_groups_body_new (cs : list Class_.t) (c : Class_.t) (st : Semester.locals) :
  groups_inv cs st ->
  ~ In (Class_.group_name c) (map gname (fst (fst st))) ->
  exists st', Semester.init_groups_body c st = Ok st' /\ groups_inv (cs ++ [c]) st'.
Proof.
  destruct st as [[groups identifiers] id].
  intros [Hid Hnames Hkeys Hfresh Hclasses Hseen Hcommon]; simpl in *.
  intros Hnew.
  set (nm := Class_.group_name c) in *.
  set (G := Group.__init__ id nm).
  assert (Hkid : ~ In id (map fst groups)).
  { intros H. apply in_map_iff in H. destruct H as (kv & E & Hkv).
    apply Hfresh in Hkv. lia. }
  assert (Hnid : ~ In nm (map fst identifiers)).
  { subst identifiers. rewrite map_map. simpl. exact Hnew. }
  exists (groups ++ [(id, Group.append G c)], identifiers ++ [(nm, id)], id + 1).
  split.
  - unfold Semester.init_groups_body. fold nm.
    assert (E : dict_contains String.eqb identifiers nm = false).
    { destruct (dict_contains String.eqb identifiers nm) eqn:E; [| reflexivity].
      apply (dict_contains_In String.eqb_spec) in E. contradiction. }
    rewrite E. simpl.
    rewrite (dict_set_new String.eqb_spec) by exact Hnid.
    rewrite (dict_set_new Z.eqb_spec) by exact Hkid.
    rewrite (dict_get_last String.eqb_spec) by exact Hnid. simpl.
    rewrite (dict_get_last Z.eqb_spec) by exact Hkid. simpl.
    rewrite (dict_set_last Z.eqb_spec) by exact Hkid. reflexivity.
  - constructor; simpl.
    + subst identifiers. rewrite map_app. reflexivity.
    + rewrite map_app. simpl. apply NoDup_snoc; assumption.
    + rewrite map_app. simpl. apply NoDup_snoc; assumption.
    + intros kv Hkv. apply in_app_iff in Hkv. simpl in Hkv.
      destruct Hkv as [Hkv | [<- | []]].
      * apply Hfresh in Hkv. lia.
      * simpl. lia.
    + intros kv Hkv. apply in_app_iff in Hkv. simpl in Hkv.
      destruct Hkv as [Hkv | [<- | []]].
      * rewrite filter_snoc_out.
        -- apply Hclasses. exact Hkv.
        -- intros E. apply Hnew. fold nm in E. rewrite <- E. apply in_map. exact Hkv.
      * unfold gname; simpl. rewrite filter_snoc_in by reflexivity.
        assert (E : filter (in_group nm) cs = []).
        { destruct (filter (in_group nm) cs) as [| c' l] eqn:E; [reflexivity |].
          exfalso. assert (Hc' : In c' (filter (in_group nm) cs)) by (rewrite E; now left).
          apply filter_In in Hc'. destruct Hc' as [Hc' Hg].
          unfold in_group in Hg. apply String.eqb_eq in Hg.
          apply Hnew. rewrite <- Hg. apply Hseen. exact Hc'. }
        rewrite E. reflexivity.
    + intros c' Hc'. rewrite map_app. apply in_app_iff.
      apply in_app_iff in Hc'. destruct Hc' as [Hc' | [<- | []]].
      * left. apply Hseen. exact Hc'.
      * right. simpl. left. reflexivity.
    + destruct Hcommon as (g0 & rest & Hg & Hg0 & Hrest). subst groups.
      exists g0, (rest ++ [(id, Group.append G c)]). simpl. repeat split; auto.
      intros kv Hkv. apply in_app_iff in Hkv. simpl in Hkv.
      destruct Hkv as [Hkv | [<- | []]].
      * destruct (Hrest kv Hkv) as (c' & Hc' & Ec').
        exists c'. split; [apply in_app_iff; auto | exact Ec'].
      * exists c. split; [apply in_app_iff; simpl; auto | reflexivity].
Qed.

Lemma init_groups_body_inv (cs : list Class_.t) (c : Class_.t) (st : Semester.locals) :
  groups_inv cs st ->
  exists st', Semester.init_groups_body c st = Ok st' /\ groups_inv (cs ++ [c]) st'.
Proof.
  intros Hinv.
  destruct (in_dec string_dec (Class_.group_name c) (map gname (fst (fst st)))).
  - apply init_groups_body_existing; assumption.
  - apply init_groups_body_new; assumption.
Qed.

Lemma init_groups_loop_inv (l cs : list Class_.t) (st : Semester.locals) :
  groups_inv cs st ->
  exists st', for_each l Semester.init_groups_body st = Ok st'
              /\ groups_inv (cs ++ l) st'.
Proof.
  revert cs st; induction l as [| c l IH]; intros cs st Hinv; simpl.
  - exists st. rewrite app_nil_r. auto.
  - destruct (init_groups_body_inv cs c st Hinv) as (st1 & E1 & Hinv1).
    rewrite E1. simpl.
    destruct (IH (cs ++ [c]) st1 Hinv1) as (st' & E' & Hinv').
    exists st'. rewrite <- app_assoc in Hinv'. auto.
Qed.

Lemma init_groups_start :
  groups_inv [] ([(1, Group.__init__ 1 EmptyString)], [(EmptyString, 1)], 2).
Proof.
  constructor; simpl.
  - reflexivity.
  - repeat constructor. intros [].
  - repeat constructor. intros [].
  - intros kv [<- | []]. simpl. lia.
  - intros kv [<- | []]. reflexivity.
  - intros c [].
  - exists (Group.__init__ 1 EmptyString), []. repeat split. intros kv [].
Qed.

Lemma fold_left_app_flat_map {A B : Type} (f : A -> list B) (l : list A) (acc : list B) :
  fold_left (fun acc x => acc ++ f x) l acc = acc ++ flat_map f l.
Proof.
  revert acc; induction l as [| x l IH]; intros acc; simpl.
  - now rewrite app_nil_r.
  - rewrite IH. now rewrite app_assoc.
Qed.

Lemma Permutation_flat_map_pointwise {A B : Type} (f g : A -> list B) (l : list A) :
  (forall x, In x l -> Permutation (f x) (g x)) ->
  Permutation (flat_map f l) (flat_map g l).
Proof.
  induction l as [| x l IH]; intros H; simpl.
  - apply Permutation_refl.
  - apply Permutation_app; [apply H; now left |].
    apply IH. intros; apply H; now right.
Qed.

(** Bucketing by distinct names that cover the list loses nothing and
    repeats nothing. *)
Lemma buckets_perm (names : list string) (cs : list Class_.t) :
  NoDup names ->
  (forall c, In c cs -> In (Class_.group_name c) names) ->
  Permutation (flat_map (fun name => filter (in_group name) cs) names) cs.
Proof.
  intros Hnd. induction cs as [| c cs IH]; intros Hcov.
  - clear. induction names as [| x names IHn]; simpl; auto.
  - eapply Permutation_trans; [| apply perm_skip, IH].
    2: { intros; apply Hcov; now right. }
    assert (Hc : In (Class_.group_name c) names) by (apply Hcov; now left).
    clear IH Hcov. induction names as [| x names IHn]; [destruct Hc |].
    inversion Hnd as [| ? ? Hx Hnd']; subst. simpl.
    destruct (string_dec x (Class_.group_name c)) as [-> | Hne].
    + rewrite in_group_refl. simpl. apply perm_skip.
      apply Permutation_app_head.
      apply Permutation_flat_map_pointwise. intros y Hy. simpl.
      rewrite in_group_other; [apply Permutation_refl |].
      intros ->. contradiction.
    + rewrite in_group_other by assumption.
      eapply Permutation_trans.
      * apply Permutation_app_head. apply IHn; auto.
        destruct Hc; [contradiction | assumption].
      * apply Permutation_sym, Permutation_middle.
Qed.

Lemma group_offsets_snd (offset : Z) (groups : list Group.t) :
  map snd (group_offsets offset groups) = groups.
Proof.
  revert offset; induction groups as [| g groups IH]; intros offset; simpl.
  - reflexivity.
  - now rewrite IH.
Qed.

(** The rows of the groups, taken group after group, are the rows of the
    matrix, each once and in order. *)
Lemma group_rows_partition (offset : Z) (groups : list Group.t) :
  flat_map group_rows (group_offsets offset groups)
  = range offset (offset + len (flat_map Group.classes groups)).
Proof.
  revert offset; induction groups as [| g groups IH]; intros offset; simpl.
  - rewrite range_nil; [reflexivity | unfold len; simpl; lia].
  - rewrite IH. unfold group_rows; simpl.
    rewrite len_app.
    rewrite (range_split offset (offset + len (Group.classes g))
               (offset + (len (Group.classes g)
                          + len (flat_map Group.classes groups)))).
    + do 2 f_equal. lia.
    + pose proof (len_nonneg (Group.classes g)).
      pose proof (len_nonneg (flat_map Group.classes groups)). lia.
Qed.

(** Row [offset + j] of the concatenation is class [j] of the group. *)
Lemma group_offsets_index (offset0 : Z) (groups : list Group.t)
    (og : Z * Group.t) (pre : list Class_.t) (j : Z) :
  offset0 = len pre ->
  In og (group_offsets offset0 groups) ->
  0 <= j < len (Group.classes (snd og)) ->
  index (pre ++ flat_map Group.classes groups) (fst og + j)
  = index (Group.classes (snd og)) j.
Proof.
  revert offset0 pre; induction groups as [| g groups IH];
    intros offset0 pre Hoff Hin Hj; simpl in Hin.
  - destruct Hin.
  - destruct Hin as [<- | Hin]; simpl.
    + subst offset0. pose proof (len_nonneg pre). simpl in Hj.
      rewrite !index_nth by lia.
      rewrite nth_error_app2 by (unfold len; lia).
      replace (Z.to_nat (len pre + j) - length pre)%nat with (Z.to_nat j)
        by (unfold len; lia).
      rewrite nth_error_app1 by (unfold len in Hj; lia).
      reflexivity.
    + rewrite app_assoc.
      apply (IH (offset0 + len (Group.classes g)) (pre ++ Group.classes g)); auto.
      subst offset0. now rewrite len_app.
Qed.

Lemma Sorted_map {A B : Type} (R : B -> B -> Prop) (f : A -> B) (l : list A) :
  Sorted (fun x y => R (f x) (f y)) l -> Sorted R (map f l).
Proof.
  induction 1 as [| x l Hl IH Hhd]; simpl; constructor; auto.
  destruct Hhd; simpl; constructor; auto.
Qed.

Lemma Sorted_impl {A : Type} (R R' : A -> A -> Prop) (l : list A) :
  (forall x y, R x y -> R' x y) -> Sorted R l -> Sorted R' l.
Proof.
  intros H. induction 1 as [| x l Hl IH Hhd]; constructor; auto.
  destruct Hhd; constructor; auto.
Qed.

Lemma sorted_by_name {A : Type} (key : A -> string) (l : list A) :
  Sorted (fun x y => name_le (key x) (key y)) (sorted String.ltb key l).
Proof.
  eapply Sorted_impl; [| apply (sorted_Sorted key string_ltb_asym)].
  intros x y H. apply string_ltb_leb. exact H.
Qed.

(** What [init_groups] leaves in [groups]: the common group, then the other
    groups sorted by name; every group holds the classes that carry its
    name, in the order of the class list. *)
Lemma init_groups_spec (s0 : Semester.t) :
  exists g0 rest,
    Semester.init_groups s0
    = Ok {| Semester.id := Semester.id s0; Semester.name := Semester.name s0;
            Semester.classes := Semester.classes s0;
            Semester.groups := g0 :: sorted String.ltb Group.name rest |}
    /\ Group.name g0 = EmptyString
    /\ (forall g, In g (g0 :: rest) ->
          Group.classes g = filter (in_group (Group.name g)) (Semester.classes s0))
    /\ (forall g, In g rest -> Group.classes g <> [])
    /\ NoDup (map Group.name (g0 :: rest))
    /\ (forall c, In c (Semester.classes s0) ->
          In (Class_.group_name c) (map Group.name (g0 :: rest))).
Proof.
  destruct (init_groups_loop_inv (Semester.classes s0) [] _ init_groups_start)
    as ([[groups identifiers] id] & Hloop & Hinv).
  simpl in Hinv.
  destruct Hinv as [_ Hnames _ _ Hclasses Hseen Hcommon]; simpl in *.
  destruct Hcommon as (g0 & rest & -> & Hg0 & Hrest).
  exists g0, (map snd rest). split.
  - unfold Semester.init_groups. rewrite Hloop. reflexivity.
  - split; [exact Hg0 |]. split.
    { intros g [<- | Hg].
      - apply (Hclasses (1, g0)). now left.
      - apply in_map_iff in Hg. destruct Hg as (kv & <- & Hkv).
        apply (Hclasses kv). now right. }
    split.
    { intros g Hg E. apply in_map_iff in Hg. destruct Hg as (kv & <- & Hkv).
      destruct (Hrest kv Hkv) as (c & Hc & Ec).
      rewrite (Hclasses kv) in E by now right.
      assert (Hin : In c (filter (in_group (gname kv)) (Semester.classes s0))).
      { apply filter_In. split; [exact Hc |]. rewrite <- Ec. apply in_group_refl. }
      rewrite E in Hin. destruct Hin. }
    split.
    { simpl. rewrite map_map. exact Hnames. }
    intros c Hc. simpl. rewrite map_map. apply Hseen. exact Hc.
Qed.

(** The groups and the classes of a semester after [init_groups] and
    [sort_classes]. *)
Lemma semester_groups_spec (s0 : Semester.t) :
  exists s1 common rest,
    Semester.init_groups s0 = Ok s1
    /\ let s2 := Semester.sort_classes s1 in
       Semester.groups s2 = common :: rest
       /\ Semester.common_group s2 = Ok common
       /\ Semester.non_common_groups s2 = rest
       /\ Group.name common = EmptyString
       /\ ((forall c, In c (Semester.classes s0) ->
              Class_.group_name c <> EmptyString) ->
           Group.classes common = [])
       /\ Sorted (fun g h => name_le (Group.name g) (Group.name h)) rest
       /\ (forall g, In g (common :: rest) ->
             Group.classes g
             = sorted String.ltb Class_.name
                 (filter (in_group (Group.name g)) (Semester.classes s0))
             /\ Sorted (fun c d => name_le (Class_.name c) (Class_.name d))
                       (Group.classes g))
       /\ (forall g, In g rest -> Group.classes g <> [])
       /\ Semester.id s2 = Semester.id s0
       /\ Semester.classes s2 = concat (map Group.classes (common :: rest))
       /\ Permutation (Semester.classes s2) (Semester.classes s0)
       /\ flat_map group_rows (group_offsets 0 (common :: rest))
          = range 0 (len (Semester.classes s2))
       /\ (forall og j,
             In og (group_offsets 0 (common :: rest)) ->
             0 <= j < len (Group.classes (snd og)) ->
             index (Semester.classes s2) (fst og + j)
             = index (Group.classes (snd og)) j).
Proof.
  destruct (init_groups_spec s0) as (g0 & rest & Hinit & Hg0 & Hcl & Hne & Hnd & Hcov).
  eexists _, (Group.sort_classes g0),
    (map Group.sort_classes (sorted String.ltb Group.name rest)).
  split; [exact Hinit |].
  assert (Hperm : Permutation (sorted String.ltb Group.name rest) rest)
    by apply sorted_perm.
  assert (Hclasses : Semester.classes (Semester.sort_classes
            {| Semester.id := Semester.id s0; Semester.name := Semester.name s0;
               Semester.classes := Semester.classes s0;
               Semester.groups := g0 :: sorted String.ltb Group.name rest |})
          = flat_map Group.classes
              (Group.sort_classes g0
               :: map Group.sort_classes (sorted String.ltb Group.name rest))).
  { unfold Semester.sort_classes. simpl Semester.classes.
    rewrite fold_left_app_flat_map. reflexivity. }
  cbv zeta.
  split; [reflexivity |]. split; [reflexivity |]. split; [reflexivity |].
  split; [exact Hg0 |].
  split.
  { intros Hnone. simpl. rewrite (Hcl g0) by now left. rewrite Hg0.
    destruct (filter (in_group EmptyString) (Semester.classes s0)) as [| c l] eqn:E;
      [reflexivity |].
    exfalso. assert (Hc : In c (filter (in_group EmptyString) (Semester.classes s0)))
      by (rewrite E; now left).
    apply filter_In in Hc. destruct Hc as [Hc Hn].
    unfold in_group in Hn. apply String.eqb_eq in Hn. exact (Hnone c Hc Hn). }
  split.
  { apply Sorted_map. simpl. apply sorted_by_name. }
  split.
  { intros g Hg.
    assert (Hex : exists g', In g' (g0 :: rest) /\ g = Group.sort_classes g').
    { destruct Hg as [<- | Hg]; [exists g0; split; [now left | reflexivity] |].
      apply in_map_iff in Hg. destruct Hg as (g' & <- & Hg').
      exists g'. split; [right | reflexivity].
      eapply Permutation_in; eauto. }
    destruct Hex as (g' & Hg' & ->). simpl. rewrite (Hcl g' Hg'). split.
    - reflexivity.
    - apply sorted_by_name. }
  split.
  { intros g Hg E. apply in_map_iff in Hg. destruct Hg as (g' & <- & Hg').
    assert (Hin : In g' rest) by (eapply Permutation_in; eauto).
    simpl in E. apply (f_equal (@length _)) in E.
    rewrite sorted_length in E. apply (Hne g' Hin).
    destruct (Group.classes g'); [reflexivity | discriminate]. }
  split; [reflexivity |].
  split.
  { rewrite Hclasses. apply flat_map_concat_map. }
  split.
  { rewrite Hclasses.
    eapply Permutation_trans; [| apply (buckets_perm _ _ Hnd Hcov)].
    rewrite <- (map_cons Group.sort_classes).
    rewrite flat_map_concat_map, map_map, <- flat_map_concat_map.
    eapply Permutation_trans.
    - apply Permutation_flat_map_pointwise.
      intros g _. simpl. apply sorted_perm.
    - eapply Permutation_trans.
      + apply Permutation_flat_map.
        apply perm_skip. exact Hperm.
      + rewrite (flat_map_concat_map _ (map Group.name (g0 :: rest))), map_map,
          <- flat_map_concat_map.
        apply Permutation_flat_map_pointwise. intros g Hg.
        rewrite (Hcl g Hg). apply Permutation_refl. }
  split.
  { rewrite Hclasses. apply group_rows_partition. }
  intros og j Hog Hj. rewrite Hclasses.
  exact (group_offsets_index 0 _ og [] j eq_refl Hog Hj).
Qed.

(** C10.  For every semester, [init_groups] returns, and after
    [sort_classes] the group list is the common group, whose name is empty,
    followed by the other groups sorted by name.  The common group is there
    even when no class has an empty group name, and is empty then.  Every
    group holds the classes that carry its name, sorted by name, and the
    class list is the concatenation of the class lists of the groups, in
    group order, a rearrangement of the classes the semester had.  So
    [common_group] is defined, and the rows of the groups, each group
    starting where the previous one ends, are the rows of the class list,
    each once: row [offset + j] is class [j] of the group at [offset]. *)
Theorem groups_after_init_and_sort (s0 : Semester.t) :
  exists s1 common rest,
    Semester.init_groups s0 = Ok s1
    /\ let s2 := Semester.sort_classes s1 in
       Semester.groups s2 = common :: rest
       /\ Semester.common_group s2 = Ok common
       /\ Semester.non_common_groups s2 = rest
       /\ Group.name common = EmptyString
       /\ ((forall c, In c (Semester.classes s0) ->
              Class_.group_name c <> EmptyString) ->
           Group.classes common = [])
       /\ Sorted (fun g h => name_le (Group.name g) (Group.name h)) rest
       /\ (forall g, In g (common :: rest) ->
             Group.classes g
             = sorted String.ltb Class_.name
                 (filter (in_group (Group.name g)) (Semester.classes s0))
             /\ Sorted (fun c d => name_le (Class_.name c) (Class_.name d))
                       (Group.classes g))
       /\ Semester.classes s2 = concat (map Group.classes (common :: rest))
       /\ Permutation (Semester.classes s2) (Semester.classes s0)
       /\ flat_map group_rows (group_offsets 0 (common :: rest))
          = range 0 (len (Semester.classes s2))
       /\ (forall og j,
             In og (group_offsets 0 (common :: rest)) ->
             0 <= j < len (Group.classes (snd og)) ->
             index (Semester.classes s2) (fst og + j)
             = index (Group.classes (snd og)) j).
Proof.
  destruct (semester_groups_spec s0)
    as (s1 & common & rest & H1 & H2 & H3 & H4 & H5 & H6 & H7 & H8 & _ & _ & H9
        & H10 & H11 & H12).
  exists s1, common, rest. cbv zeta. repeat (split; [assumption |]). assumption.
Qed.

(** ** The per-slot limits of the groups *)

Lemma add_vars_is_expr (x : PyValue) (vs : list LpVariable) :
  vs <> [] -> exists e, add_vars x vs = PyExpr e.
Proof.
  intros Hvs. destruct vs as [| v vs]; [contradiction |].
  unfold add_vars. simpl. clear Hvs.
  assert (H : forall y, (exists e, y = PyExpr e) ->
                        exists e, fold_left add_var vs y = PyExpr e).
  { induction vs as [| w vs IH]; intros y Hy; simpl; auto.
    apply IH. unfold add_var. eauto. }
  apply H. unfold add_var. eauto.
Qed.

Lemma add_is_expr_r (x y : PyValue) :
  (exists e, y = PyExpr e) -> exists e, add x y = PyExpr e.
Proof. intros [e ->]. destruct x; simpl; eauto. Qed.

Lemma iadd_le_one (model : LpProblem) (x : PyValue) :
  (exists e, x = PyExpr e) -> iadd model (cmp LE x 1) = Ok (model ++ [le_one x]).
Proof. intros [e ->]. reflexivity. Qed.

Lemma satisfies_le_one (a : assignment) (x : PyValue) :
  satisfies a (le_one x) <-> (value a (as_expr x) <= 1)%Q.
Proof. unfold satisfies, le_one; simpl. reflexivity. Qed.

Lemma col_vars_nonempty (sid i lo hi : Z) : lo < hi -> col_vars sid i lo hi <> [].
Proof.
  intros H. unfold col_vars. rewrite range_cons by assumption. discriminate.
Qed.

Lemma value_column_sum (a : assignment) (sid i lo hi : Z) :
  (value a (as_expr (column_sum sid i lo hi))
   == inject_Z (total a (col_vars sid i lo hi)))%Q.
Proof. unfold column_sum. rewrite value_add_vars, value_num. lra. Qed.

Lemma satisfies_common_limit (a : assignment) (sid i c : Z) :
  satisfies a (common_limit sid i c) <-> total a (col_vars sid i 0 c) <= 1.
Proof.
  unfold common_limit. rewrite satisfies_le_one, value_column_sum.
  change 1%Q with (inject_Z 1). apply inject_Z_le.
Qed.

Lemma satisfies_group_limit (a : assignment) (sid i c : Z) (og : Z * Group.t) :
  satisfies a (group_limit sid i c og)
  <-> total a (col_vars sid i 0 c)
      + total a (col_vars sid i (fst og) (fst og + len (Group.classes (snd og)))) <= 1.
Proof.
  unfold group_limit.
  rewrite satisfies_le_one, value_add, !value_column_sum, <- inject_Z_plus.
  change 1%Q with (inject_Z 1). apply inject_Z_le.
Qed.

Lemma len_pos {A : Type} (l : list A) : l <> [] -> 0 < len l.
Proof. destruct l; [contradiction |]. intros _. unfold len. simpl. lia. Qed.

Section ClassLimits.
Variables (semester : Semester.t) (storage : DataStorage.t).
Variables (common : Group.t) (rest : list Group.t).

Let self := SemesterSchedule.__init__ semester storage.
Let sid := Semester.id semester.
Let m := len (Semester.classes semester).
Let n := len (DataStorage.slots storage).
Let c := len (Group.classes common).

Hypothesis Hgroups : Semester.groups semester = common :: rest.
Hypothesis Hrows : m = len (flat_map Group.classes (common :: rest)).
Hypothesis Hnonempty : forall g, In g rest -> Group.classes g <> [].
Hypothesis Hm : 0 < m.

Lemma column_sum_cells (i lo hi : Z) :
  0 <= i < n -> 0 <= lo -> hi <= m ->
  SemesterSchedule.sum_cells self (range 0 (hi - lo)) (fun j => lo + j) (fun _ => i)
    (PyNum 0)
  = Ok (column_sum sid i lo hi).
Proof.
  intros Hi Hlo Hhi. unfold self. rewrite sum_cells_init.
  - unfold column_sum, col_vars. do 2 f_equal.
    unfold range. rewrite !map_map, Z.sub_0_r.
    apply map_ext. intros t. unfold sid. f_equal; lia.
  - intros j Hj. apply range_In in Hj. fold m n. lia.
Qed.

Lemma class_limits_groups_loop (i : Z) (gs : list Group.t) :
  0 <= i < n ->
  forall offset model,
    0 <= offset -> offset + len (flat_map Group.classes gs) <= m ->
    (forall g, In g gs -> Group.classes g <> []) ->
    for_each gs (SemesterSchedule.class_limits_group self i (column_sum sid i 0 c))
      (model, offset)
    = Ok (model ++ map (group_limit sid i c) (group_offsets offset gs),
          offset + len (flat_map Group.classes gs)).
Proof.
  intros Hi. induction gs as [| g gs IH]; intros offset model Hoff Hlen Hne; simpl.
  - rewrite app_nil_r. unfold Ok. do 2 f_equal. unfold len; simpl. lia.
  - simpl in Hlen. rewrite len_app in Hlen.
    pose proof (len_nonneg (flat_map Group.classes gs)).
    pose proof (len_pos (Group.classes g) (Hne g (or_introl eq_refl))).
    pose proof (column_sum_cells i offset (offset + len (Group.classes g))
                  Hi Hoff ltac:(lia)) as Hsum.
    replace (offset + len (Group.classes g) - offset)
      with (len (Group.classes g)) in Hsum by lia.
    rewrite Hsum. simpl.
    rewrite iadd_le_one.
    + simpl. rewrite IH; try lia.
      * rewrite <- app_assoc, len_app. unfold Ok. do 2 f_equal. lia.
      * intros g' Hg'. apply Hne. now right.
    + apply add_is_expr_r. apply add_vars_is_expr.
      apply col_vars_nonempty. lia.
Qed.

Lemma class_limits_slot_Ok (i : Z) (model : LpProblem) :
  0 <= i < n ->
  SemesterSchedule.class_limits_slot self i model
  = Ok (model ++ slot_limits sid i common rest).
Proof.
  intros Hi. unfold SemesterSchedule.class_limits_slot.
  unfold Semester.common_group, Semester.non_common_groups. simpl.
  rewrite Hgroups. simpl.
  assert (Hc : c <= m).
  { rewrite Hrows. simpl. rewrite len_app. fold c.
    pose proof (len_nonneg (flat_map Group.classes rest)). lia. }
  pose proof (column_sum_cells i 0 c Hi ltac:(lia) Hc) as Hsum.
  rewrite Z.sub_0_r in Hsum. fold c.
  change (fun j : Z => 0 + j) with (fun j : Z => j) in Hsum.
  rewrite Hsum. simpl.
  unfold slot_limits. fold c.
  assert (Hlen : c + len (flat_map Group.classes rest) <= m).
  { rewrite Hrows. simpl. rewrite len_app. fold c. lia. }
  assert (Hc0 : rest = [] -> 0 < c).
  { intros E. pose proof Hm as Hm'. rewrite Hrows, E in Hm'. simpl in Hm'.
    rewrite app_nil_r in Hm'. exact Hm'. }
  pose proof Hnonempty as Hne.
  pose proof (len_nonneg (Group.classes common)) as Hc1. fold c in Hc1.
  revert Hlen Hc0 Hne. generalize rest. intros gs Hlen Hc0 Hne.
  destruct gs as [| g gs].
  - rewrite iadd_le_one; [reflexivity |].
    apply add_vars_is_expr, col_vars_nonempty. auto.
  - rewrite class_limits_groups_loop; auto.
Qed.

Lemma class_limits_per_slot_Ok (model : LpProblem) :
  SemesterSchedule._set_constraints_class_limits_per_slot self model
  = Ok (model ++ flat_map (fun i => slot_limits sid i common rest) (range 0 n)).
Proof.
  unfold SemesterSchedule._set_constraints_class_limits_per_slot.
  unfold self. rewrite width_init by exact Hm. simpl. fold self n.
  assert (H : forall js model,
             (forall i, In i js -> 0 <= i < n) ->
             for_each js (SemesterSchedule.class_limits_slot self) model
             = Ok (model ++ flat_map (fun i => slot_limits sid i common rest) js)).
  { induction js as [| i js IH]; intros mo Hjs; simpl.
    - now rewrite app_nil_r.
    - rewrite class_limits_slot_Ok by (apply Hjs; now left). simpl.
      rewrite IH by (intros; apply Hjs; now right).
      now rewrite app_assoc. }
  apply H. intros i Hi. apply range_In in Hi. exact Hi.
Qed.
End ClassLimits.

(** ** Two groups at the same slot *)

Lemma total_map_zsum (a : assignment) (f : Z -> LpVariable) (js : list Z) :
  total a (map f js) = zsum (fun j => a (f j)) js.
Proof. induction js as [| j js IH]; simpl; congruence. Qed.

Lemma zsum_zero (f : Z -> Z) (js : list Z) :
  (forall j, In j js -> f j = 0) -> zsum f js = 0.
Proof.
  induction js as [| j js IH]; intros H; simpl.
  - reflexivity.
  - rewrite (H j) by now left. rewrite IH; [reflexivity |].
    intros; apply H; now right.
Qed.

Lemma zsum_single (f : Z -> Z) (lo hi r0 : Z) :
  lo <= r0 < hi ->
  (forall r, lo <= r < hi -> r <> r0 -> f r = 0) ->
  zsum f (range lo hi) = f r0.
Proof.
  intros Hr H.
  rewrite (range_split lo r0 hi) by lia.
  rewrite (range_cons r0 hi) by lia.
  rewrite zsum_app. simpl.
  rewrite !zsum_zero; [lia | |].
  - intros j Hj. apply range_In in Hj. apply H; lia.
  - intros j Hj. apply range_In in Hj. apply H; lia.
Qed.

Lemma two_rows_binary (r1 r2 i0 : Z) : binary (two_rows r1 r2 i0).
Proof.
  intros [s r i | s i j k]; simpl; [| lia].
  destruct ((i =? i0) && ((r =? r1) || (r =? r2))); lia.
Qed.

Lemma two_rows_zero (r1 r2 i0 sid r i : Z) :
  r <> r1 -> r <> r2 -> two_rows r1 r2 i0 (VarX sid r i) = 0.
Proof.
  intros H1 H2. simpl.
  destruct (Z.eqb_spec r r1); [contradiction |].
  destruct (Z.eqb_spec r r2); [contradiction |].
  now rewrite andb_false_r.
Qed.

Lemma two_rows_column_zero (r1 r2 i0 sid i lo hi : Z) :
  ~ lo <= r1 < hi -> ~ lo <= r2 < hi ->
  total (two_rows r1 r2 i0) (col_vars sid i lo hi) = 0.
Proof.
  intros H1 H2. unfold col_vars. rewrite total_map_zsum.
  apply zsum_zero. intros j Hj. apply range_In in Hj.
  apply two_rows_zero; lia.
Qed.

(** A stretch of rows that does not hold both [r1] and [r2] has at most one
    cell at 1 in every column. *)
Lemma two_rows_column (r1 r2 i0 sid i lo hi : Z) :
  ~ (lo <= r1 < hi /\ lo <= r2 < hi) ->
  total (two_rows r1 r2 i0) (col_vars sid i lo hi) <= 1.
Proof.
  intros H.
  assert (C : (lo <= r1 < hi /\ ~ lo <= r2 < hi)
              \/ (~ lo <= r1 < hi /\ lo <= r2 < hi)
              \/ (~ lo <= r1 < hi /\ ~ lo <= r2 < hi)) by lia.
  destruct C as [[A B] | [[A B] | [A B]]].
  - unfold col_vars. rewrite total_map_zsum.
    rewrite (zsum_single _ lo hi r1 A).
    + pose proof (two_rows_binary r1 r2 i0 (VarX sid r1 i)). lia.
    + intros r Hr Hne. apply two_rows_zero; lia.
  - unfold col_vars. rewrite total_map_zsum.
    rewrite (zsum_single _ lo hi r2 B).
    + pose proof (two_rows_binary r1 r2 i0 (VarX sid r2 i)). lia.
    + intros r Hr Hne. apply two_rows_zero; lia.
  - rewrite two_rows_column_zero by assumption. lia.
Qed.

Lemma group_offsets_lower (offset : Z) (groups : list Group.t) (og : Z * Group.t) :
  In og (group_offsets offset groups) -> offset <= fst og.
Proof.
  revert offset; induction groups as [| g groups IH]; intros offset; simpl.
  - intros [].
  - intros [<- | H]; simpl; [lia |].
    apply IH in H. pose proof (len_nonneg (Group.classes g)). lia.
Qed.

(** The rows of a group end before the rows of a later group begin. *)
Lemma group_offsets_monotone (groups : list Group.t) :
  forall offset p q og og',
    nth_error (group_offsets offset groups) p = Some og ->
    nth_error (group_offsets offset groups) q = Some og' ->
    (p < q)%nat ->
    fst og + len (Group.classes (snd og)) <= fst og'.
Proof.
  induction groups as [| g groups IH]; intros offset p q og og' Hp Hq Hpq; simpl in *.
  - destruct p; discriminate.
  - destruct q as [| q]; [lia |]. simpl in Hq.
    destruct p as [| p]; simpl in Hp.
    + inversion Hp; subst. simpl.
      apply nth_error_In in Hq. apply group_offsets_lower in Hq. exact Hq.
    + apply (IH (offset + len (Group.classes g)) p q); auto. lia.
Qed.

(** So a row lies in the rows of one group only. *)
Lemma group_rows_disjoint (groups : list Group.t) (offset : Z) (p q : nat)
    (og og' : Z * Group.t) (r : Z) :
  nth_error (group_offsets offset groups) p = Some og ->
  nth_error (group_offsets offset groups) q = Some og' ->
  In r (group_rows og) -> In r (group_rows og') -> p = q.
Proof.
  intros Hp Hq Hr Hr'. unfold group_rows in *.
  apply range_In in Hr. apply range_In in Hr'.
  destruct (Nat.lt_trichotomy p q) as [Hlt | [Heq | Hgt]]; [| exact Heq |].
  - pose proof (group_offsets_monotone groups offset p q og og' Hp Hq Hlt). lia.
  - pose proof (group_offsets_monotone groups offset q p og' og Hq Hp Hgt). lia.
Qed.

(** C4.  For a semester as the loader builds it ([init_groups], then
    [sort_classes], from a class list that is not empty), the builder
    returns, and what it emits is, slot after slot: with no non-common
    group, the one constraint that bounds the sum of the rows of the common
    group at that slot by 1; otherwise, for each non-common group in turn,
    one constraint that bounds the sum of the rows of the common group plus
    the sum of the rows of that group by 1.  So an assignment that satisfies
    them has at most one cell at 1 per slot among the rows of the common
    group and of any one non-common group; and an assignment with one row of
    each of two different non-common groups at 1 in the same slot satisfies
    them all. *)
Theorem class_limits_per_slot_exact (s0 : Semester.t) (storage : DataStorage.t) :
  Semester.classes s0 <> [] ->
  exists s1 common rest,
    Semester.init_groups s0 = Ok s1
    /\ let semester := Semester.sort_classes s1 in
       let self := SemesterSchedule.__init__ semester storage in
       let sid := Semester.id semester in
       let n := len (DataStorage.slots storage) in
       let c := len (Group.classes common) in
       let model := flat_map (fun i => slot_limits sid i common rest) (range 0 n) in
       Semester.common_group semester = Ok common
       /\ Semester.non_common_groups semester = rest
       /\ SemesterSchedule._set_constraints_class_limits_per_slot self [] = Ok model
       /\ (forall a i,
             satisfies a (common_limit sid i c) <-> total a (col_vars sid i 0 c) <= 1)
       /\ (forall a i og,
             satisfies a (group_limit sid i c og)
             <-> total a (col_vars sid i 0 c)
                 + total a (col_vars sid i (fst og)
                              (fst og + len (Group.classes (snd og)))) <= 1)
       /\ (forall a i, Forall (satisfies a) model -> 0 <= i < n ->
             match rest with
             | [] => total a (col_vars sid i 0 c) <= 1
             | _ => forall og, In og (group_offsets c rest) ->
                      total a (col_vars sid i 0 c)
                      + total a (col_vars sid i (fst og)
                                   (fst og + len (Group.classes (snd og)))) <= 1
             end)
       /\ (forall p q og1 og2 r1 r2 i0,
             p <> q ->
             nth_error (group_offsets c rest) p = Some og1 ->
             nth_error (group_offsets c rest) q = Some og2 ->
             In r1 (group_rows og1) -> In r2 (group_rows og2) ->
             0 <= i0 < n ->
             let a := two_rows r1 r2 i0 in
             binary a /\ Forall (satisfies a) model
             /\ a (VarX sid r1 i0) = 1 /\ a (VarX sid r2 i0) = 1).
Proof.
  intros Hcs.
  destruct (semester_groups_spec s0)
    as (s1 & common & rest & Hinit & Hg & Hcg & Hncg & _ & _ & _ & _ & Hne & _
        & Hcl & Hperm & _ & _).
  exists s1, common, rest. split; [exact Hinit |].
  cbv zeta in *.
  set (semester := Semester.sort_classes s1) in *.
  set (sid := Semester.id semester).
  set (n := len (DataStorage.slots storage)).
  set (c := len (Group.classes common)).
  assert (Hrows : len (Semester.classes semester)
                  = len (flat_map Group.classes (common :: rest))).
  { rewrite Hcl, flat_map_concat_map. reflexivity. }
  assert (Hm : 0 < len (Semester.classes semester)).
  { apply len_pos. intros E. rewrite E in Hperm.
    apply Permutation_nil in Hperm. contradiction. }
  split; [exact Hcg |]. split; [exact Hncg |].
  split.
  { exact (class_limits_per_slot_Ok semester storage common rest Hg Hrows Hne Hm []). }
  split; [intros a i; apply satisfies_common_limit |].
  split; [intros a i og; apply satisfies_group_limit |].
  split.
  { intros a i Hall Hi. rewrite Forall_forall in Hall.
    assert (Hslot : forall x, In x (slot_limits sid i common rest) -> satisfies a x).
    { intros x Hx. apply Hall. apply in_flat_map. exists i.
      split; [apply range_In; exact Hi | exact Hx]. }
    unfold slot_limits in Hslot. fold c in Hslot.
    destruct rest as [| g gs].
    - apply satisfies_common_limit. apply Hslot. now left.
    - intros og Hog. apply satisfies_group_limit. apply Hslot.
      apply in_map. exact Hog. }
  intros p q og1 og2 r1 r2 i0 Hpq Hp Hq Hr1 Hr2 Hi0.
  assert (Hlow1 : c <= r1).
  { apply nth_error_In, group_offsets_lower in Hp.
    unfold group_rows in Hr1. apply range_In in Hr1. lia. }
  assert (Hlow2 : c <= r2).
  { apply nth_error_In, group_offsets_lower in Hq.
    unfold group_rows in Hr2. apply range_In in Hr2. lia. }
  split; [apply two_rows_binary |]. split.
  - apply Forall_forall. intros x Hx. apply in_flat_map in Hx.
    destruct Hx as (i & _ & Hx). unfold slot_limits in Hx. fold c in Hx.
    destruct rest as [| g gs] eqn:Erest; [destruct p; discriminate |].
    rewrite <- Erest in *. apply in_map_iff in Hx. destruct Hx as (og & <- & Hog).
    apply satisfies_group_limit. fold c.
    rewrite two_rows_column_zero by lia. simpl.
    apply two_rows_column. intros [In1 In2].
    apply In_nth_error in Hog. destruct Hog as (t & Ht).
    assert (E1 : p = t).
    { apply (group_rows_disjoint rest c p t og1 og r1 Hp Ht Hr1).
      unfold group_rows. apply range_In. exact In1. }
    assert (E2 : q = t).
    { apply (group_rows_disjoint rest c q t og2 og r2 Hq Ht Hr2).
      unfold group_rows. apply range_In. exact In2. }
    congruence.
  - simpl. rewrite !Z.eqb_refl. simpl.
    split; [reflexivity |]. now rewrite orb_true_r.
Qed.

(** ** The teacher constraints *)

Lemma enumerate_In {A : Type} (l : list A) (j : Z) (x : A) :
  In (j, x) (enumerate l) -> 0 <= j < len l.
Proof.
  unfold enumerate. intros H. apply in_combine_l in H.
  apply range_In in H. exact H.
Qed.

Section GlobalConstraints.
Variables (semesters : list Semester.t) (storage : DataStorage.t).

Let semester_schedules :=
  map (fun semester => SemesterSchedule.__init__ semester storage) semesters.
Let n := len (DataStorage.slots storage).

Lemma teacher_classes_loop (semester : Semester.t) (teacher : Teacher.t) (i : Z)
    (jcs : list (Z * Class_.t)) (x : PyValue) :
  0 <= i < n ->
  (forall jc, In jc jcs -> 0 <= fst jc < len (Semester.classes semester)) ->
  for_each jcs
    (fun jc x =>
       if Class_.contains_teacher (snd jc) teacher
       then v <- SemesterSchedule.cell (SemesterSchedule.__init__ semester storage)
                   (fst jc) i ;;
            Ok (add_var x v)
       else Ok x)
    x
  = Ok (add_vars x
          (map (fun jc => VarX (Semester.id semester) (fst jc) i)
               (filter (fun jc => Class_.contains_teacher (snd jc) teacher) jcs))).
Proof.
  intros Hi. revert x; induction jcs as [| jc jcs IH]; intros x Hjcs; simpl.
  - reflexivity.
  - destruct (Class_.contains_teacher (snd jc) teacher).
    + rewrite cell_init; [| apply Hjcs; now left | exact Hi]. simpl.
      apply IH. intros; apply Hjcs; now right.
    + apply IH. intros; apply Hjcs; now right.
Qed.

Lemma teacher_slot_sum_Ok (teacher : Teacher.t) (i : Z) :
  0 <= i < n ->
  main.teacher_slot_sum semester_schedules teacher i
  = Ok (add_vars (PyNum 0) (teacher_vars semesters teacher i)).
Proof.
  intros Hi. unfold main.teacher_slot_sum, semester_schedules, teacher_vars.
  generalize (PyNum 0). induction semesters as [| s l IH]; intros x; simpl.
  - reflexivity.
  - rewrite teacher_classes_loop; auto.
    + simpl. rewrite IH. now rewrite add_vars_app.
    + intros [j c] Hjc. simpl. apply enumerate_In in Hjc. exact Hjc.
Qed.

Lemma teacher_limit_Ok (teacher : Teacher.t) (i : Z) (model : LpProblem) :
  0 <= i < n ->
  (x <- main.teacher_slot_sum semester_schedules teacher i ;; iadd model (cmp LE x 1))
  = Ok (model ++ teacher_limit semesters teacher i).
Proof.
  intros Hi. rewrite teacher_slot_sum_Ok by exact Hi. simpl.
  unfold teacher_limit.
  destruct (teacher_vars semesters teacher i) as [| v vs] eqn:E.
  - simpl. now rewrite app_nil_r.
  - apply iadd_le_one. apply add_vars_is_expr. discriminate.
Qed.

Lemma set_global_constraints_Ok (model : LpProblem) :
  main.set_global_constraints model semester_schedules storage
  = Ok (model
        ++ flat_map (fun teacher =>
                       flat_map (teacher_limit semesters teacher) (range 0 n))
                    (dict_values (DataStorage.teachers storage))).
Proof.
  unfold main.set_global_constraints. fold n.
  revert model.
  induction (dict_values (DataStorage.teachers storage)) as [| t ts IH];
    intros model; simpl.
  - now rewrite app_nil_r.
  - assert (H : forall js mo,
               (forall i, In i js -> 0 <= i < n) ->
               for_each js
                 (fun i model =>
                    x <- main.teacher_slot_sum semester_schedules t i ;;
                    iadd model (cmp LE x 1)) mo
               = Ok (mo ++ flat_map (teacher_limit semesters t) js)).
    { induction js as [| i js IHjs]; intros mo Hjs; simpl.
      - now rewrite app_nil_r.
      - rewrite teacher_limit_Ok by (apply Hjs; now left). simpl.
        rewrite IHjs by (intros; apply Hjs; now right).
        now rewrite app_assoc. }
    rewrite H by (intros i Hi; apply range_In in Hi; exact Hi). simpl.
    rewrite IH. now rewrite app_assoc.
Qed.
End GlobalConstraints.

(** A sum of 0/1 values that is at most 1 has no two terms at 1. *)
Lemma total_le_one_unique (a : assignment) (vs : list LpVariable) (p q : nat)
    (v w : LpVariable) :
  binary a -> total a vs <= 1 ->
  nth_error vs p = Some v -> nth_error vs q = Some w -> p <> q ->
  ~ (a v = 1 /\ a w = 1).
Proof.
  intros Ha. revert p q. induction vs as [| u vs IH]; intros p q Hle Hp Hq Hpq [Hv Hw].
  - destruct p; discriminate.
  - simpl in Hle. pose proof (total_bounds a vs Ha) as Hb. pose proof (Ha u) as Hu.
    assert (Hin : forall t x, nth_error vs t = Some x -> a x = 1 -> 1 <= total a vs).
    { clear - Ha. induction vs as [| y vs IH]; intros t x Ht Hx.
      - destruct t; discriminate.
      - simpl. pose proof (total_bounds a vs Ha). pose proof (Ha y).
        destruct t as [| t]; simpl in Ht.
        + inversion Ht; subst. lia.
        + specialize (IH t x Ht Hx). lia. }
    destruct p as [| p], q as [| q]; simpl in Hp, Hq.
    + contradiction.
    + inversion Hp; subst. pose proof (Hin q w Hq Hw). lia.
    + inversion Hq; subst. pose proof (Hin p v Hp Hv). lia.
    + apply (IH p q); auto. lia.
Qed.

Lemma enumerate_snd {A : Type} (l : list A) : map snd (enumerate l) = l.
Proof.
  unfold enumerate.
  assert (H : forall (l1 : list Z) (l2 : list A),
             length l1 = length l2 -> map snd (combine l1 l2) = l2).
  { induction l1 as [| x l1 IH]; intros [| y l2] E; simpl in *;
      try discriminate; try reflexivity.
    f_equal. apply IH. lia. }
  apply H. rewrite range_length. unfold len. lia.
Qed.

Lemma teacher_vars_nonempty (semesters : list Semester.t) (teacher : Teacher.t) (i : Z) :
  teacher_vars semesters teacher i <> []
  <-> exists semester class_,
        In semester semesters /\ In class_ (Semester.classes semester)
        /\ Class_.contains_teacher class_ teacher = true.
Proof.
  split.
  - intros H. destruct (teacher_vars semesters teacher i) as [| v vs] eqn:E;
      [contradiction |].
    assert (Hv : In v (teacher_vars semesters teacher i)) by (rewrite E; now left).
    unfold teacher_vars in Hv. apply in_flat_map in Hv.
    destruct Hv as (s & Hs & Hv). unfold semester_teacher_vars in Hv.
    apply in_map_iff in Hv. destruct Hv as ([j c] & _ & Hjc).
    apply filter_In in Hjc. destruct Hjc as [Hjc Hc].
    exists s, c. repeat split; auto.
    unfold enumerate in Hjc. apply in_combine_r in Hjc. exact Hjc.
  - intros (s & c & Hs & Hc & Ht) E.
    rewrite <- (enumerate_snd (Semester.classes s)) in Hc.
    apply in_map_iff in Hc. destruct Hc as ([j c'] & Ec & Hjc). simpl in Ec. subst c'.
    assert (Hv : In (VarX (Semester.id s) j i) (teacher_vars semesters teacher i)).
    { unfold teacher_vars. apply in_flat_map. exists s. split; [exact Hs |].
      unfold semester_teacher_vars.
      apply (in_map (fun jc => VarX (Semester.id s) (fst jc) i) _ (j, c)).
      apply filter_In. auto. }
    rewrite E in Hv. destruct Hv.
Qed.

(** C3, as the code has it.  [set_global_constraints] returns, and what it
    adds is, teacher after teacher and slot after slot: for a teacher who is
    in at least one class of the semesters, the one constraint that bounds by
    1 the sum of the cells of that slot over every semester and every class
    of it that contains the teacher; for a teacher who is in no class, nothing
    (the sum is the integer 0 and [0 <= 1] is [True]).  In every 0/1
    assignment that satisfies the constraints, for every teacher of the
    catalog and every slot, that sum is at most 1: no two of those cells are
    at 1. *)
Theorem teacher_constraints (semesters : list Semester.t) (storage : DataStorage.t) :
  let semester_schedules :=
    map (fun semester => SemesterSchedule.__init__ semester storage) semesters in
  let n := len (DataStorage.slots storage) in
  let model :=
    flat_map (fun teacher => flat_map (teacher_limit semesters teacher) (range 0 n))
             (dict_values (DataStorage.teachers storage)) in
  main.set_global_constraints [] semester_schedules storage = Ok model
  /\ (forall teacher i,
        (exists semester class_,
            In semester semesters /\ In class_ (Semester.classes semester)
            /\ Class_.contains_teacher class_ teacher = true) ->
        exists c,
          teacher_limit semesters teacher i = [c]
          /\ forall a, satisfies a c <-> total a (teacher_vars semesters teacher i) <= 1)
  /\ (forall teacher i,
        ~ (exists semester class_,
              In semester semesters /\ In class_ (Semester.classes semester)
              /\ Class_.contains_teacher class_ teacher = true) ->
        teacher_limit semesters teacher i = [])
  /\ (forall a teacher i,
        binary a -> Forall (satisfies a) model ->
        In teacher (dict_values (DataStorage.teachers storage)) -> 0 <= i < n ->
        total a (teacher_vars semesters teacher i) <= 1
        /\ forall p q v w,
             p <> q ->
             nth_error (teacher_vars semesters teacher i) p = Some v ->
             nth_error (teacher_vars semesters teacher i) q = Some w ->
             ~ (a v = 1 /\ a w = 1)).
Proof.
  intros semester_schedules n model.
  assert (Hlimit : forall teacher i a,
             Forall (satisfies a) (teacher_limit semesters teacher i) ->
             total a (teacher_vars semesters teacher i) <= 1).
  { intros teacher i a H. unfold teacher_limit in H.
    destruct (teacher_vars semesters teacher i) as [| v vs] eqn:E.
    - simpl. lia.
    - apply Forall_inv in H.
      rewrite satisfies_le_one, value_add_vars, value_num in H.
      apply inject_Z_le. change (inject_Z 1) with 1%Q. lra. }
  split; [apply (set_global_constraints_Ok semesters storage []) |].
  split.
  { intros teacher i Hex. apply (teacher_vars_nonempty semesters teacher i) in Hex.
    unfold teacher_limit.
    destruct (teacher_vars semesters teacher i) as [| v vs] eqn:E; [contradiction |].
    eexists. split; [reflexivity |].
    intros a. rewrite satisfies_le_one, value_add_vars, value_num.
    rewrite <- (inject_Z_le (total a (v :: vs)) 1). change (inject_Z 1) with 1%Q.
    split; intros; lra. }
  split.
  { intros teacher i Hno. unfold teacher_limit.
    destruct (teacher_vars semesters teacher i) as [| v vs] eqn:E; [reflexivity |].
    exfalso. apply Hno. apply (teacher_vars_nonempty semesters teacher i).
    rewrite E. discriminate. }
  intros a teacher i Ha Hall Ht Hi.
  assert (Hle : total a (teacher_vars semesters teacher i) <= 1).
  { apply Hlimit. apply Forall_forall. intros c Hc.
    rewrite Forall_forall in Hall. apply Hall.
    apply in_flat_map. exists teacher. split; [exact Ht |].
    apply in_flat_map. exists i. split; [apply range_In; exact Hi | exact Hc]. }
  split; [exact Hle |].
  intros p q v w Hpq Hp Hq.
  exact (total_le_one_unique a _ p q v w Ha Hle Hp Hq Hpq).
Qed.

(** C3 as it is written fails for a teacher who is in no class: nothing is
    added for the teacher [7] and the only slot. *)
Lemma teacher_without_class_adds_nothing :
  let storage := Sample.storage 1 [Sample.teacher 7] in
  let semester := Sample.load [Sample.class_ 1 "A" "" 1 []] in
  dict_values (DataStorage.teachers storage) = [Sample.teacher 7]
  /\ len (DataStorage.slots storage) = 1
  /\ main.set_global_constraints []
       [SemesterSchedule.__init__ semester storage] storage = Ok [].
Proof. repeat split. Qed.

(** ** The schedule extractor *)

Lemma isclose_zero (v : Q) : isclose v 0 = Qeq_bool v 0.
Proof.
  unfold isclose. destruct (Qeq_bool v 0) eqn:E; [reflexivity |].
  assert (Hv : ~ (v == 0)%Q).
  { intros H. apply Qeq_bool_iff in H. congruence. }
  assert (Hpos : (0 < Qabs v)%Q).
  { destruct (Qlt_le_dec 0 (Qabs v)) as [H | H]; [exact H |].
    exfalso. apply Hv. pose proof (Qabs_nonneg v) as Hn.
    assert (Hz : (Qabs v == 0)%Q) by (apply Qle_antisym; assumption).
    apply Qabs_Qle_condition with (y := 0%Q) in H.
    destruct H as [H1 H2]. apply Qle_antisym; [exact H2 |].
    setoid_replace 0%Q with (- 0)%Q by reflexivity. exact H1. }
  assert (Hd : (Qabs (0 - v) == Qabs v)%Q).
  { setoid_replace (0 - v)%Q with (- v)%Q by ring. apply Qabs_opp. }
  assert (F1 : Qle_bool (Qabs (0 - v)) (Qabs (rel_tol * 0)) = false).
  { destruct (Qle_bool (Qabs (0 - v)) (Qabs (rel_tol * 0))) eqn:F; [| reflexivity].
    apply Qle_bool_iff in F. rewrite Hd in F.
    setoid_replace (rel_tol * 0)%Q with 0%Q in F by ring.
    simpl in F. exfalso. apply (Qlt_not_le _ _ Hpos). exact F. }
  assert (F2 : Qle_bool (Qabs (0 - v)) (Qabs (rel_tol * v)) = false).
  { destruct (Qle_bool (Qabs (0 - v)) (Qabs (rel_tol * v))) eqn:F; [| reflexivity].
    apply Qle_bool_iff in F. rewrite Hd, Qabs_Qmult in F.
    unfold rel_tol in F. simpl (Qabs (1 # 1000000000)) in F.
    exfalso. lra. }
  assert (F3 : Qle_bool (Qabs (0 - v)) abs_tol = false).
  { destruct (Qle_bool (Qabs (0 - v)) abs_tol) eqn:F; [| reflexivity].
    apply Qle_bool_iff in F. rewrite Hd in F. unfold abs_tol in F.
    exfalso. apply (Qlt_not_le _ _ Hpos). exact F. }
  rewrite F1, F2, F3. reflexivity.
Qed.

(** A value that is not 0 is read as assigned. *)
Lemma is_true_nonzero (v : Q) : ~ (v == 0)%Q -> SemesterSchedule.is_true v = true.
Proof.
  intros Hv. unfold SemesterSchedule.is_true. rewrite isclose_zero.
  destruct (Qeq_bool v 0) eqn:E; [| reflexivity].
  apply Qeq_bool_iff in E. contradiction.
Qed.

(** C6, as the code has it.  The reading compares the value with 0, not
    with 1.  The value 0 is read as unassigned, and every value at distance
    at least 1/2 from 0 is read as assigned: so is every value within a
    tolerance of 1 (of at most 1/2), and so is a value far from both 0 and
    1.  Nothing is said here of the nonzero values close to 0. *)
Theorem is_true_compares_with_zero (v : Q) :
  ((v == 0)%Q -> SemesterSchedule.is_true v = false)
  /\ ((1 # 2 <= Qabs v)%Q -> SemesterSchedule.is_true v = true)
  /\ (forall tol, (0 <= tol <= 1 # 2)%Q -> (Qabs (v - 1) <= tol)%Q ->
        SemesterSchedule.is_true v = true).
Proof.
  split; [| split].
  - intros Hv. unfold SemesterSchedule.is_true. rewrite isclose_zero.
    apply Qeq_bool_iff in Hv. rewrite Hv. reflexivity.
  - intros Hv. apply is_true_nonzero. intros E. rewrite E in Hv.
    simpl in Hv. lra.
  - intros tol Htol Hv. apply is_true_nonzero. intros E. rewrite E in Hv.
    setoid_replace (0 - 1)%Q with (- (1))%Q in Hv by ring.
    rewrite Qabs_opp in Hv. simpl in Hv. lra.
Qed.

(** C6 as it is written fails at 0.5, which is far from 1 and is read as
    assigned. *)
Lemma one_half_is_assigned :
  (Qabs ((1 # 2) - 1) == 1 # 2)%Q /\ SemesterSchedule.is_true (1 # 2) = true.
Proof. split; reflexivity. Qed.

Lemma run_length_nonneg (b : Z -> bool) (k : nat) : 0 <= run_length b k.
Proof. induction k as [| k IH]; simpl; [lia |]. destruct (b _); lia. Qed.

Lemma run_length_le (b : Z -> bool) (k : nat) : run_length b k <= Z.of_nat k.
Proof. induction k as [| k IH]; simpl run_length; [lia |]. destruct (b _); lia. Qed.

Lemma run_length_succ (b : Z -> bool) (j : Z) :
  0 <= j ->
  run_length b (Z.to_nat (j + 1))
  = if b j then run_length b (Z.to_nat j) + 1 else 0.
Proof.
  intros Hj. replace (Z.to_nat (j + 1)) with (S (Z.to_nat j)) by lia.
  simpl. rewrite Z2Nat.id by exact Hj. reflexivity.
Qed.

Lemma run_length_prev (b : Z -> bool) (j : Z) :
  1 <= j -> (0 <? run_length b (Z.to_nat j)) = b (j - 1).
Proof.
  intros Hj. replace j with (j - 1 + 1) at 1 by lia.
  rewrite run_length_succ by lia.
  pose proof (run_length_nonneg b (Z.to_nat (j - 1))).
  destruct (b (j - 1)); [apply Z.ltb_lt; lia | reflexivity].
Qed.

Lemma index_Ok {A : Type} (l : list A) (i : Z) :
  0 <= i < len l -> exists x, index l i = Ok x.
Proof.
  intros H. rewrite index_nth by lia.
  destruct (nth_error l (Z.to_nat i)) eqn:E; [eauto |].
  apply nth_error_None in E. unfold len in H. lia.
Qed.

Lemma filter_nil {A : Type} (f : A -> bool) (l : list A) :
  (forall x, In x l -> f x = false) -> filter f l = [].
Proof.
  induction l as [| x l IH]; intros H; simpl; [reflexivity |].
  rewrite (H x) by now left. apply IH. intros; apply H; now right.
Qed.

Section ExtractorRow.
Variables (semester : Semester.t) (storage : DataStorage.t).
Variable varValue : LpVariable -> option Q.

Let self := SemesterSchedule.__init__ semester storage.
Let sid := Semester.id semester.
Let m := len (Semester.classes semester).
Let n := len (DataStorage.slots storage).

Variables (i : Z) (class_ : Class_.t).
Hypothesis Hi : 0 <= i < m.
Hypothesis Hclass : index (Semester.classes semester) i = Ok class_.

(** Every cell of the row has a value. *)
Hypothesis solved : forall j, 0 <= j < n -> varValue (VarX sid i j) <> None.

Let b := cell_true varValue sid i.
Let body := SemesterSchedule.get_class_schedules_body storage varValue self i.
Let ends_upto (k : Z) := filter (is_run_end b n) (range 0 k).

Lemma run_block_Ok (e : Z) :
  0 <= e < n -> b e = true -> exists block, run_block storage class_ b e block.
Proof.
  intros He Hb. unfold run_block, ClassSchedule.__init__.
  pose proof (run_length_le b (Z.to_nat (e + 1))) as Hle.
  pose proof (run_length_nonneg b (Z.to_nat e)) as Hge.
  rewrite run_length_succ in * by lia. rewrite Hb in *.
  destruct (index_Ok (DataStorage.slots storage) e He) as (se & Hse).
  destruct (index_Ok (DataStorage.slots storage)
              (e - (run_length b (Z.to_nat e) + 1) + 1)) as (ss & Hss).
  { fold n. lia. }
  rewrite Hss, Hse. simpl. eauto.
Qed.

(** The state of the scan before the iteration on [j]: the blocks of the
    runs that ended before [j - 1], the length of the run that reaches
    [j - 1], and whether there is one. *)
Let scanned (cs : list ClassSchedule.t) (j : Z)
    (st : list ClassSchedule.t * Z * bool) : Prop :=
  exists blocks,
    fst (fst st) = cs ++ blocks
    /\ Forall2 (run_block storage class_ b) (ends_upto (j - 1)) blocks
    /\ snd (fst st) = run_length b (Z.to_nat j)
    /\ snd st = (0 <? run_length b (Z.to_nat j)).

Lemma body_eq (j : Z) (cs : list ClassSchedule.t) (sc : Z) (prev : bool) :
  0 <= j < n ->
  body j (cs, sc, prev)
  = (let slot_count := if b j then sc + 1 else sc in
     if prev && negb (b j) then
       block <- ClassSchedule.__init__ storage class_ (j - 1) slot_count ;;
       Ok (cs ++ [block], 0, b j)
     else if b j && (j =? n - 1) then
       block <- ClassSchedule.__init__ storage class_ (n - 1) slot_count ;;
       Ok (cs ++ [block], slot_count, b j)
     else Ok (cs, slot_count, b j)).
Proof.
  intros Hj. unfold body, SemesterSchedule.get_class_schedules_body.
  unfold self. rewrite cell_init by assumption. simpl. fold sid.
  unfold b, cell_true.
  destruct (varValue (VarX sid i j)) as [v |] eqn:E.
  - simpl. rewrite Hclass. reflexivity.
  - exfalso. exact (solved j Hj E).
Qed.

Lemma ends_upto_snoc (k : Z) :
  0 <= k ->
  ends_upto (k + 1) = ends_upto k ++ (if is_run_end b n k then [k] else []).
Proof.
  intros Hk. unfold ends_upto. rewrite range_snoc by exact Hk.
  rewrite filter_app. reflexivity.
Qed.

Lemma ends_upto_nonpos (k : Z) : k <= 0 -> ends_upto k = [].
Proof. intros Hk. unfold ends_upto. now rewrite range_nil. Qed.

(** An iteration that is not the last one. *)
Lemma scan_step (cs : list ClassSchedule.t) (j : Z)
    (st : list ClassSchedule.t * Z * bool) :
  0 <= j < n - 1 -> scanned cs j st ->
  exists st', body j st = Ok st' /\ scanned cs (j + 1) st'.
Proof.
  intros Hj (blocks & Hcs & Hblocks & Hsc & Hprev).
  destruct st as [[cs' sc] prev]. simpl in Hcs, Hsc, Hprev. subst cs' sc prev.
  rewrite body_eq by lia.
  pose proof (run_length_nonneg b (Z.to_nat j)) as Hge.
  destruct (Z.eqb_spec j (n - 1)) as [| _]; [lia |].
  rewrite andb_false_r.
  replace (j + 1 - 1) with j by lia.
  destruct (Z.eq_dec j 0) as [-> | Hj0].
  - (* nothing was read before the first cell *)
    simpl (Z.to_nat 0). simpl run_length. simpl (0 <? 0). simpl.
    rewrite ends_upto_nonpos in Hblocks by lia.
    eexists. split; [reflexivity |].
    exists blocks. simpl.
    rewrite ends_upto_nonpos by lia.
    repeat split; auto.
    destruct (b 0); reflexivity.
  - rewrite (run_length_prev b j) by lia.
    assert (Hend : is_run_end b n (j - 1) = b (j - 1) && negb (b j)).
    { unfold is_run_end. replace (j - 1 + 1) with j by lia.
      destruct (Z.eqb_spec (j - 1) (n - 1)); [lia | reflexivity]. }
    assert (Hsnoc : ends_upto j
                    = ends_upto (j - 1)
                      ++ (if is_run_end b n (j - 1) then [j - 1] else [])).
    { replace j with (j - 1 + 1) at 1 by lia. apply ends_upto_snoc. lia. }
    rewrite Hend in Hsnoc.
    destruct (b (j - 1)) eqn:Eprev, (b j) eqn:Ecur; simpl.
    + eexists. split; [reflexivity |].
      exists blocks. simpl. replace (j + 1 - 1) with j by lia.
      rewrite Hsnoc, app_nil_r.
      rewrite run_length_succ, Ecur by lia.
      repeat split; auto. symmetry. apply Z.ltb_lt. lia.
    + destruct (run_block_Ok (j - 1)) as (block & Hblock); [lia | exact Eprev |].
      unfold run_block in Hblock. replace (j - 1 + 1) with j in Hblock by lia.
      rewrite Hblock. simpl.
      eexists. split; [reflexivity |].
      exists (blocks ++ [block]). simpl. replace (j + 1 - 1) with j by lia.
      rewrite Hsnoc.
      rewrite run_length_succ, Ecur by lia.
      repeat split; auto.
      * now rewrite app_assoc.
      * apply Forall2_app; [exact Hblocks |]. constructor; [| constructor].
        unfold run_block. replace (j - 1 + 1) with j by lia. exact Hblock.
    + eexists. split; [reflexivity |].
      exists blocks. simpl. replace (j + 1 - 1) with j by lia.
      rewrite Hsnoc, app_nil_r.
      rewrite run_length_succ, Ecur by lia.
      repeat split; auto. symmetry. apply Z.ltb_lt. lia.
    + eexists. split; [reflexivity |].
      exists blocks. simpl. replace (j + 1 - 1) with j by lia.
      rewrite Hsnoc, app_nil_r.
      rewrite run_length_succ, Ecur by lia.
      assert (E0 : run_length b (Z.to_nat j) = 0).
      { pose proof (run_length_prev b j ltac:(lia)) as P. rewrite Eprev in P.
        apply Z.ltb_ge in P. lia. }
      repeat split; auto.
Qed.

(** The last iteration. *)
Lemma scan_last (cs : list ClassSchedule.t) (st : list ClassSchedule.t * Z * bool) :
  1 <= n -> scanned cs (n - 1) st ->
  exists st' blocks,
    body (n - 1) st = Ok st'
    /\ fst (fst st') = cs ++ blocks
    /\ Forall2 (run_block storage class_ b) (run_ends b n) blocks.
Proof.
  intros Hn (blocks & Hcs & Hblocks & Hsc & Hprev).
  destruct st as [[cs' sc] prev]. simpl in Hcs, Hsc, Hprev. subst cs' sc prev.
  rewrite body_eq by lia. rewrite Z.eqb_refl, andb_true_r.
  pose proof (run_length_nonneg b (Z.to_nat (n - 1))) as Hge.
  assert (Hlast : is_run_end b n (n - 1) = b (n - 1)).
  { unfold is_run_end. rewrite Z.eqb_refl. simpl. apply andb_true_r. }
  assert (Hends : run_ends b n
                  = ends_upto (n - 1) ++ (if b (n - 1) then [n - 1] else [])).
  { unfold run_ends. replace n with (n - 1 + 1) at 2 by lia.
    rewrite range_snoc by lia. rewrite filter_app. simpl.
    rewrite Hlast. reflexivity. }
  assert (Hblock : b (n - 1) = true ->
                   exists block,
                     ClassSchedule.__init__ storage class_ (n - 1)
                       (run_length b (Z.to_nat (n - 1)) + 1) = Ok block
                     /\ run_block storage class_ b (n - 1) block).
  { intros Eb. destruct (run_block_Ok (n - 1)) as (block & Hb); [lia | exact Eb |].
    exists block. split; [| exact Hb]. unfold run_block in Hb.
    rewrite run_length_succ, Eb in Hb by lia. exact Hb. }
  destruct (Z.eq_dec n 1) as [En | En].
  - (* a row of one cell *)
    replace (n - 1) with 0 in * by lia.
    simpl (Z.to_nat 0) in *. simpl run_length in *. simpl (0 <? 0).
    rewrite ends_upto_nonpos in Hblocks by lia. inversion Hblocks; subst blocks.
    rewrite Hends, (ends_upto_nonpos 0) by lia. simpl.
    destruct (b 0) eqn:Ecur; simpl.
    + destruct (Hblock eq_refl) as (block & Hinit & Hrun).
      simpl in Hinit. rewrite Hinit. simpl.
      eexists _, [block]. simpl. rewrite app_nil_r. repeat split; auto.
    + eexists _, []. simpl. repeat split; auto.
  - rewrite (run_length_prev b (n - 1)) by lia.
    assert (Hend : is_run_end b n (n - 1 - 1) = b (n - 1 - 1) && negb (b (n - 1))).
    { unfold is_run_end. replace (n - 1 - 1 + 1) with (n - 1) by lia.
      destruct (Z.eqb_spec (n - 1 - 1) (n - 1)); [lia | reflexivity]. }
    assert (Hsnoc : ends_upto (n - 1)
                    = ends_upto (n - 1 - 1)
                      ++ (if is_run_end b n (n - 1 - 1) then [n - 1 - 1] else [])).
    { replace (n - 1) with (n - 1 - 1 + 1) at 1 by lia. apply ends_upto_snoc. lia. }
    rewrite Hend in Hsnoc. rewrite Hends, Hsnoc.
    destruct (b (n - 1 - 1)) eqn:Eprev, (b (n - 1)) eqn:Ecur; simpl.
    + destruct (Hblock eq_refl) as (block & Hinit & Hrun).
      rewrite Hinit. simpl.
      eexists _, (blocks ++ [block]). simpl. repeat split.
      * now rewrite app_assoc.
      * rewrite app_nil_r. apply Forall2_app; [exact Hblocks |].
        constructor; [exact Hrun | constructor].
    + destruct (run_block_Ok (n - 1 - 1)) as (block & Hb); [lia | exact Eprev |].
      pose proof Hb as Hb'. unfold run_block in Hb'.
      replace (n - 1 - 1 + 1) with (n - 1) in Hb' by lia.
      rewrite Hb'. simpl.
      eexists _, (blocks ++ [block]). simpl. repeat split.
      * now rewrite app_assoc.
      * rewrite app_nil_r. apply Forall2_app; [exact Hblocks |].
        constructor; [exact Hb | constructor].
    + destruct (Hblock eq_refl) as (block & Hinit & Hrun).
      rewrite Hinit. simpl.
      eexists _, (blocks ++ [block]). simpl. repeat split.
      * now rewrite app_assoc.
      * rewrite app_nil_r. apply Forall2_app; [exact Hblocks |].
        constructor; [exact Hrun | constructor].
    + eexists _, blocks. simpl. repeat split; auto.
      rewrite !app_nil_r. exact Hblocks.
Qed.

(** The scan of the cells before [k]. *)
Lemma scan_prefix (cs : list ClassSchedule.t) (k : nat) :
  Z.of_nat k <= n - 1 ->
  exists st,
    for_each (range 0 (Z.of_nat k)) body (cs, 0, false) = Ok st
    /\ scanned cs (Z.of_nat k) st.
Proof.
  induction k as [| k IH]; intros Hk.
  - exists (cs, 0, false). split; [reflexivity |].
    exists []. simpl. rewrite app_nil_r, ends_upto_nonpos by lia.
    repeat split; auto.
  - destruct IH as (st & Hloop & Hst); [lia |].
    destruct (scan_step cs (Z.of_nat k) st) as (st' & Hbody & Hst'); [lia | exact Hst |].
    exists st'. replace (Z.of_nat (S k)) with (Z.of_nat k + 1) by lia.
    split; [| exact Hst'].
    rewrite range_snoc by lia. rewrite for_each_app, Hloop. simpl.
    rewrite Hbody. reflexivity.
Qed.

(** The scan of a row appends the blocks of its maximal runs, in order. *)
Lemma get_class_schedules_row_Ok (cs : list ClassSchedule.t) :
  exists blocks,
    SemesterSchedule.get_class_schedules_row storage varValue self i cs
    = Ok (cs ++ blocks)
    /\ Forall2 (run_block storage class_ b) (run_ends b n) blocks.
Proof.
  unfold SemesterSchedule.get_class_schedules_row. fold n body.
  destruct (Z_le_dec n 0) as [Hn | Hn].
  - exists []. unfold run_ends. rewrite range_nil by lia. simpl.
    rewrite app_nil_r. split; [reflexivity | constructor].
  - destruct (scan_prefix cs (Z.to_nat (n - 1))) as (st & Hloop & Hst); [lia |].
    rewrite Z2Nat.id in Hloop, Hst by lia.
    destruct (scan_last cs st) as (st' & blocks & Hbody & Hcs & Hblocks);
      [lia | exact Hst |].
    exists blocks. split; [| exact Hblocks].
    replace n with (n - 1 + 1) at 1 by lia.
    rewrite range_snoc by lia. rewrite for_each_app, Hloop. simpl.
    rewrite Hbody. simpl. destruct st' as [[cs' sc] prev]. simpl in Hcs.
    now subst cs'.
Qed.
End ExtractorRow.

Section Extractor.
Variables (semester : Semester.t) (storage : DataStorage.t).
Variable varValue : LpVariable -> option Q.

Let self := SemesterSchedule.__init__ semester storage.
Let sid := Semester.id semester.
Let m := len (Semester.classes semester).
Let n := len (DataStorage.slots storage).

(** Every cell of the matrix has a value. *)
Hypothesis solved :
  forall i j, 0 <= i < m -> 0 <= j < n -> varValue (VarX sid i j) <> None.

Lemma get_class_schedules_rows (rows : list Z) (cs : list ClassSchedule.t) :
  (forall i, In i rows -> 0 <= i < m) ->
  exists bss,
    Forall2 (row_blocks semester storage varValue) rows bss
    /\ for_each rows (SemesterSchedule.get_class_schedules_row storage varValue self) cs
       = Ok (cs ++ concat bss).
Proof.
  revert cs; induction rows as [| i rows IH]; intros cs Hrows.
  - exists []. split; [constructor |]. simpl. now rewrite app_nil_r.
  - assert (Hi : 0 <= i < m) by (apply Hrows; now left).
    destruct (index_Ok (Semester.classes semester) i Hi) as (class_ & Hclass).
    destruct (get_class_schedules_row_Ok semester storage varValue i class_
                Hi Hclass (fun j Hj => solved i j Hi Hj) cs)
      as (blocks & Hrow & Hblocks).
    destruct (IH (cs ++ blocks)) as (bss & Hbss & Hloop).
    { intros; apply Hrows; now right. }
    exists (blocks :: bss). split.
    + constructor; [| exact Hbss]. exists class_. split; [exact Hclass | exact Hblocks].
    + simpl. unfold self in *. rewrite Hrow. simpl. rewrite Hloop.
      now rewrite app_assoc.
Qed.

Lemma get_class_schedules_Ok :
  exists bss,
    Forall2 (row_blocks semester storage varValue) (range 0 m) bss
    /\ SemesterSchedule.get_class_schedules storage varValue self
       = Ok (sorted Z.ltb start_id (concat bss)).
Proof.
  destruct (get_class_schedules_rows (range 0 m) [])
    as (bss & Hbss & Hloop).
  { intros i Hi. apply range_In in Hi. exact Hi. }
  exists bss. split; [exact Hbss |].
  unfold SemesterSchedule.get_class_schedules. simpl Semester.classes. fold m.
  unfold self in *. rewrite Hloop. reflexivity.
Qed.
End Extractor.

Lemma sorted_by_start_id (blocks : list ClassSchedule.t) :
  Sorted (fun x y => start_id x <= start_id y) (sorted Z.ltb start_id blocks).
Proof.
  eapply Sorted_impl; [| apply (sorted_Sorted start_id Z_ltb_asym)].
  intros x y H. simpl in H. apply Z.ltb_ge in H. exact H.
Qed.

(** C9, as the code has it.  When every cell of the matrix has a value, the
    extractor returns, whatever the rows hold: it never signals anything.
    What it returns is, sorted by the identifier of the start slot, one
    block for each maximal run of true cells of each row: none for a row
    without a run, several for a row with several runs. *)
Theorem extractor_emits_every_run (semester : Semester.t) (storage : DataStorage.t)
    (varValue : LpVariable -> option Q) :
  let self := SemesterSchedule.__init__ semester storage in
  let sid := Semester.id semester in
  let m := len (Semester.classes semester) in
  let n := len (DataStorage.slots storage) in
  (forall i j, 0 <= i < m -> 0 <= j < n -> varValue (VarX sid i j) <> None) ->
  exists bss,
    SemesterSchedule.get_class_schedules storage varValue self
    = Ok (sorted Z.ltb start_id (concat bss))
    /\ Forall2 (row_blocks semester storage varValue) (range 0 m) bss
    /\ Forall2 (fun i blocks =>
                  length blocks = length (run_ends (cell_true varValue sid i) n))
               (range 0 m) bss.
Proof.
  intros self sid m n Hsolved.
  destruct (get_class_schedules_Ok semester storage varValue Hsolved)
    as (bss & Hbss & Hget).
  exists bss. split; [exact Hget |]. split; [exact Hbss |].
  revert Hbss. apply Forall2_impl.
  intros i blocks (class_ & _ & H). symmetry. eapply Forall2_length. exact H.
Qed.

(** ** Rows with one run *)

Section SingleRun.
Variables (b : Z -> bool) (n s e : Z).
Hypothesis Hse : 0 <= s <= e /\ e < n.
Hypothesis Hrun : forall j, 0 <= j < n -> (b j = true <-> s <= j <= e).

Lemma single_run_false (j : Z) : 0 <= j < n -> ~ s <= j <= e -> b j = false.
Proof.
  intros Hj Hout. destruct (b j) eqn:E; [| reflexivity].
  apply Hrun in E; [contradiction | exact Hj].
Qed.

Lemma single_run_true (j : Z) : s <= j <= e -> b j = true.
Proof. intros Hj. apply Hrun; lia. Qed.

Lemma run_ends_single : run_ends b n = [e].
Proof.
  unfold run_ends.
  rewrite (range_split 0 e n) by lia. rewrite (range_cons e n) by lia.
  rewrite filter_app. simpl.
  assert (He : is_run_end b n e = true).
  { unfold is_run_end. rewrite single_run_true by lia. simpl.
    destruct (Z.eqb_spec e (n - 1)); [reflexivity |]. simpl.
    rewrite single_run_false by lia. reflexivity. }
  rewrite He. rewrite !filter_nil; [reflexivity | |].
  - intros j Hj. apply range_In in Hj. unfold is_run_end.
    rewrite (single_run_false j) by lia. reflexivity.
  - intros j Hj. apply range_In in Hj. unfold is_run_end.
    destruct (Z_lt_dec j s) as [Hlt | Hge].
    + rewrite (single_run_false j) by lia. reflexivity.
    + rewrite (single_run_true j) by lia. simpl.
      destruct (Z.eqb_spec j (n - 1)); [lia |]. simpl.
      rewrite (single_run_true (j + 1)) by lia. reflexivity.
Qed.

Lemma run_length_before : run_length b (Z.to_nat s) = 0.
Proof.
  destruct (Z.eq_dec s 0) as [-> | Hs]; [reflexivity |].
  replace s with (s - 1 + 1) by lia. rewrite run_length_succ by lia.
  rewrite single_run_false by lia. reflexivity.
Qed.

Lemma run_length_single : run_length b (Z.to_nat (e + 1)) = e - s + 1.
Proof.
  assert (H : forall k : nat,
             s + Z.of_nat k <= e ->
             run_length b (Z.to_nat (s + Z.of_nat k + 1)) = Z.of_nat k + 1).
  { induction k as [| k IH]; intros Hk.
    - rewrite run_length_succ by lia. rewrite single_run_true by lia.
      rewrite Z.add_0_r, run_length_before. reflexivity.
    - rewrite run_length_succ by lia. rewrite single_run_true by lia.
      replace (s + Z.of_nat (S k)) with (s + Z.of_nat k + 1) by lia.
      rewrite IH by lia. lia. }
  specialize (H (Z.to_nat (e - s)) ltac:(lia)).
  replace (s + Z.of_nat (Z.to_nat (e - s)) + 1) with (e + 1) in H by lia.
  rewrite H. lia.
Qed.
End SingleRun.

Lemma concat_singletons {A B : Type} (R : A -> B -> Prop) (l : list A)
    (bss : list (list B)) :
  Forall2 (fun x bs => exists y, bs = [y] /\ R x y) l bss ->
  Forall2 R l (concat bss).
Proof.
  induction 1 as [| x bs l bss (y & -> & Hy) _ IH]; simpl; constructor; auto.
Qed.

Lemma Forall2_range_impl {B : Type} (R R' : Z -> B -> Prop) (lo hi : Z) (l : list B) :
  (forall i y, lo <= i < hi -> R i y -> R' i y) ->
  Forall2 R (range lo hi) l -> Forall2 R' (range lo hi) l.
Proof.
  intros H. generalize (fun i => proj1 (range_In lo hi i)).
  generalize (range lo hi). intros js Hjs F.
  induction F as [| i y js l Hiy _ IH]; constructor.
  - apply H; [apply Hjs; now left | exact Hiy].
  - apply IH. intros; apply Hjs; now right.
Qed.

(** C7, as the code has it.  The cells of a run are those that the
    extractor reads as true: it compares a value with 0, so that a value such
    as 0.5, which is not close to 1, is in a run too.  When every row of the
    solved matrix has exactly one maximal run of such cells, from slot [s i]
    to slot [e i] for row [i], the extractor returns one block per class, in
    which the start slot is the slot of index [s i], that is [e i] minus the
    length of the run plus 1, and the end slot the slot of index [e i], and
    it returns them sorted by the identifier of the start slot. *)
Theorem one_block_per_class (semester : Semester.t) (storage : DataStorage.t)
    (varValue : LpVariable -> option Q) (s e : Z -> Z) :
  let self := SemesterSchedule.__init__ semester storage in
  let sid := Semester.id semester in
  let m := len (Semester.classes semester) in
  let n := len (DataStorage.slots storage) in
  (forall i j, 0 <= i < m -> 0 <= j < n -> varValue (VarX sid i j) <> None) ->
  (forall i, 0 <= i < m ->
     0 <= s i <= e i /\ e i < n
     /\ forall j, 0 <= j < n -> (cell_true varValue sid i j = true <-> s i <= j <= e i)) ->
  exists blocks schedules,
    SemesterSchedule.get_class_schedules storage varValue self = Ok schedules
    /\ schedules = sorted Z.ltb start_id blocks
    /\ Forall2 (fun i block => block_of semester storage i (s i) (e i) block)
               (range 0 m) blocks
    /\ (forall i, 0 <= i < m ->
          s i = e i - run_length (cell_true varValue sid i) (Z.to_nat (e i + 1)) + 1)
    /\ Z.of_nat (length schedules) = m
    /\ Permutation schedules blocks
    /\ Sorted (fun x y => start_id x <= start_id y) schedules.
Proof.
  intros self sid m n Hsolved Hone.
  destruct (get_class_schedules_Ok semester storage varValue Hsolved)
    as (bss & Hbss & Hget).
  assert (Hlen : forall i, 0 <= i < m ->
            run_length (cell_true varValue sid i) (Z.to_nat (e i + 1)) = e i - s i + 1).
  { intros i Hi. destruct (Hone i Hi) as (H1 & H2 & H3).
    apply (run_length_single _ n (s i) (e i)); [lia | exact H3]. }
  assert (Hblocks : Forall2 (fun i block => block_of semester storage i (s i) (e i) block)
                            (range 0 m) (concat bss)).
  { apply concat_singletons. revert Hbss. apply Forall2_range_impl.
    intros i blocks Hi (class_ & Hclass & Hruns).
    destruct (Hone i Hi) as (H1 & H2 & H3).
    fold sid n in Hruns.
    rewrite (run_ends_single _ n (s i) (e i)) in Hruns by (auto; lia).
    inversion Hruns as [| ? block ? ? Hblock Hnil]; subst. inversion Hnil; subst.
    exists block. split; [reflexivity |].
    unfold run_block in Hblock. rewrite (Hlen i Hi) in Hblock.
    unfold ClassSchedule.__init__ in Hblock.
    replace (e i - (e i - s i + 1) + 1) with (s i) in Hblock by lia.
    inv_bind Hblock. inv_bind Hblock. inv_Ok Hblock.
    exists class_, x, x0. auto. }
  exists (concat bss), (sorted Z.ltb start_id (concat bss)).
  split; [exact Hget |]. split; [reflexivity |]. split; [exact Hblocks |].
  split; [intros i Hi; rewrite (Hlen i Hi); lia |].
  split.
  { rewrite sorted_length. apply Forall2_length in Hblocks.
    rewrite <- Hblocks, range_length. pose proof (len_nonneg (Semester.classes semester)).
    fold m in H. lia. }
  split; [apply sorted_perm | apply sorted_by_start_id].
Qed.

(** ** Inconsistent configurations *)

(** The row of a class that is longer than a day makes the builder fail:
    every start is skipped, or the modulo fails, and [Z == 1] is [False]. *)
Lemma consecutive_row_oversized (semester : Semester.t) (storage : DataStorage.t)
    (slot_count_per_day i : Z) (class_ : Class_.t) (st st' : LpProblem * option Z) :
  0 <= slot_count_per_day ->
  index (Semester.classes semester) i = Ok class_ ->
  slot_count_per_day < Class_.slot_count class_ ->
  SemesterSchedule.consecutive_slots_row (SemesterSchedule.__init__ semester storage)
    slot_count_per_day i st <> Ok st'.
Proof.
  intros Hspd Hc Hk H. destruct st as [model k0].
  unfold SemesterSchedule.consecutive_slots_row in H. simpl in H.
  rewrite Hc in H. simpl in H.
  inv_bind H. inv_bind H. destruct x0 as [[model1 k1] Zs].
  assert (HZ : snd (model1, k1, Zs) = PyNum 0).
  { eapply (for_each_inv (fun s : LpProblem * option Z * PyValue => snd s = PyNum 0));
      [| | exact Hx0]; [| reflexivity].
    intros j [[mo ko] Zo] [[mo' ko'] Zo'] _ HP Hb. simpl in HP. subst Zo.
    unfold SemesterSchedule.consecutive_slots_body in Hb.
    inv_bind Hb. unfold mod_ in Hx1.
    destruct (Z.eqb_spec slot_count_per_day 0) as [| Hne]; [discriminate |].
    inv_Ok Hx1. subst x0.
    pose proof (Z.mod_pos_bound j slot_count_per_day ltac:(lia)) as Hmod.
    destruct (Z.gtb_spec (j mod slot_count_per_day)
                (slot_count_per_day - Class_.slot_count class_)) as [_ | Hle]; [| lia].
    inversion Hb; subst. reflexivity. }
  simpl in HZ. subst Zs. simpl in H. discriminate.
Qed.


(** *** The errors of the builders *)




Section BuilderErrors.
Variables (semester : Semester.t) (storage : DataStorage.t).

Let self := SemesterSchedule.__init__ semester storage.


End BuilderErrors.



(** ** The theorems on sample data *)

Lemma ones_binary (vs : list LpVariable) : binary (Sample.ones vs).
Proof. intros v. unfold Sample.ones. destruct (existsb _ vs); lia. Qed.

Ltac by_computation :=
  vm_compute; repeat split; try reflexivity; try discriminate.

Lemma consecutive_slots_single_run_witness :
  exists slot_count_per_day s,
    utils.get_slot_count_per_day 2 Sample.two_days = Ok slot_count_per_day
    /\ slot_count_per_day <> 0
    /\ 1 <= 2
    /\ 0 <= s /\ s + 2 <= 4
    /\ s mod slot_count_per_day <= slot_count_per_day - 2
    /\ forall t, 0 <= t < 4 ->
         (Sample.second_day (VarX 1 0 t) = 1 <-> s <= t < s + 2).
Proof.
  refine (consecutive_slots_single_run 2 Sample.one_class Sample.two_days _ _
            Sample.second_day 0 (Sample.class_ 1 "A" "" 2 []) _ _ _ _ _).
  - vm_compute. reflexivity.
  - vm_compute. reflexivity.
  - split; [apply ones_binary |].
    repeat constructor; by_computation.
  - lia.
  - reflexivity.
Defined.

Lemma indicator_is_exact_witness :
  exists x c1 c2,
    SemesterSchedule.window_sum
      (SemesterSchedule.__init__ Sample.one_class Sample.two_days) 0 2 2 None
    = Ok (x, Some 3)
    /\ SemesterSchedule.indicator_constraints (VarZ 1 0 2 3) x 2 [] = Ok [c1; c2]
    /\ (satisfies Sample.second_day c1 /\ satisfies Sample.second_day c2
        <-> (Sample.second_day (VarZ 1 0 2 3) = 1
             <-> total Sample.second_day (row_vars 1 0 2 4) = 2)).
Proof.
  destruct (indicator_is_exact Sample.one_class Sample.two_days 0 2 2 None
              (VarZ 1 0 2 3) Sample.second_day)
    as (x & c1 & c2 & Hw & Hc & _ & _ & _ & _ & Hiff & _).
  - by_computation.
  - lia.
  - by_computation.
  - lia.
  - apply ones_binary.
  - exists x, c1, c2. split; [exact Hw |]. split; [exact Hc | exact Hiff].
Defined.

Lemma unallocated_term_is_constant_witness :
  exists model o,
    SemesterSchedule._set_constraints_match_class_slot_count
      (SemesterSchedule.__init__ Sample.one_class Sample.two_days) [] = Ok model
    /\ SemesterSchedule._get_objective_function_unallocated_class_slots
         (SemesterSchedule.__init__ Sample.one_class Sample.two_days) = Ok o
    /\ Forall (satisfies Sample.second_day) model
    /\ (value Sample.second_day (as_expr o) == - (2))%Q.
Proof.
  destruct (SemesterSchedule._set_constraints_match_class_slot_count
              (SemesterSchedule.__init__ Sample.one_class Sample.two_days) [])
    as [error | model] eqn:E; [vm_compute in E; discriminate |].
  destruct (unallocated_term_is_constant Sample.one_class Sample.two_days model E)
    as (o & Ho & Hvalue & _).
  assert (Hall : Forall (satisfies Sample.second_day) model).
  { vm_compute in E. injection E as <-. repeat constructor; by_computation. }
  exists model, o. split; [reflexivity |]. split; [exact Ho |].
  split; [exact Hall |]. exact (Hvalue Sample.second_day Hall).
Defined.

Lemma class_limits_per_slot_exact_witness :
  exists s1 model,
    Semester.init_groups Sample.two_groups = Ok s1
    /\ SemesterSchedule._set_constraints_class_limits_per_slot
         (SemesterSchedule.__init__ (Semester.sort_classes s1) Sample.two_days) []
       = Ok model.
Proof.
  destruct (class_limits_per_slot_exact Sample.two_groups Sample.two_days)
    as (s1 & common & rest & Hinit & _ & _ & Hset & _).
  - discriminate.
  - exists s1. eexists. split; [exact Hinit | exact Hset].
Defined.

Lemma one_block_per_class_witness :
  exists blocks schedules,
    SemesterSchedule.get_class_schedules Sample.ten_slots Sample.at_3_4_5
      (SemesterSchedule.__init__ Sample.three_slot_class Sample.ten_slots)
    = Ok schedules
    /\ schedules = sorted Z.ltb start_id blocks
    /\ Forall2 (fun i block =>
                  block_of Sample.three_slot_class Sample.ten_slots i 3 5 block)
               (range 0 1) blocks.
Proof.
  destruct (one_block_per_class Sample.three_slot_class Sample.ten_slots
              Sample.at_3_4_5 (fun _ => 3) (fun _ => 5))
    as (blocks & schedules & Hget & Hsorted & Hblocks & _).
  - intros i j _ _. discriminate.
  - intros i Hi. change (0 <= i < 1) in Hi.
    assert (Ei : i = 0) by lia. subst i.
    split; [lia |]. split; [reflexivity |].
    intros j Hj. change (0 <= j < 10) in Hj.
    assert (Ej : j = 0 \/ j = 1 \/ j = 2 \/ j = 3 \/ j = 4 \/ j = 5 \/ j = 6
                 \/ j = 7 \/ j = 8 \/ j = 9) by lia.
    repeat (destruct Ej as [Ej | Ej]); subst j;
      (split; [intros H; vm_compute in H; try discriminate H; lia
              | intros H; try lia; vm_compute; reflexivity]).
  - exists blocks, schedules. split; [exact Hget |]. split; [exact Hsorted |].
    exact Hblocks.
Defined.

(** C7 as it is written fails on a row whose values within a tolerance of
    1 are exactly those of the slots 3, 4 and 5, with the value 1/2 at slot
    2: read against 0, the cell of slot 2 is true too, and the one block that
    the extractor returns starts at the slot of index 2, not at the slot of
    index 3 where the run of the values close to 1 starts. *)
Lemma half_cell_joins_the_block :
  (forall tol j, (0 <= tol < 1 # 2)%Q -> 0 <= j < 10 ->
     exists v, Sample.half_before_3_4_5 (VarX 1 0 j) = Some v
               /\ ((Qabs (v - 1) <= tol)%Q <-> 3 <= j <= 5))
  /\ SemesterSchedule.get_class_schedules Sample.ten_slots Sample.half_before_3_4_5
       (SemesterSchedule.__init__ Sample.three_slot_class Sample.ten_slots)
     = Ok [{| ClassSchedule.class_ := Sample.class_ 1 "A" "" 3 [];
              ClassSchedule.start_slot := Sample.slot 2;
              ClassSchedule.end_slot := Sample.slot 5 |}]
  /\ index (DataStorage.slots Sample.ten_slots) 2 = Ok (Sample.slot 2)
  /\ index (DataStorage.slots Sample.ten_slots) 3 = Ok (Sample.slot 3)
  /\ Sample.slot 2 <> Sample.slot 3.
Proof.
  split.
  { intros tol j Htol Hj.
    assert (Ej : j = 0 \/ j = 1 \/ j = 2 \/ j = 3 \/ j = 4 \/ j = 5 \/ j = 6
                 \/ j = 7 \/ j = 8 \/ j = 9) by lia.
    repeat (destruct Ej as [Ej | Ej]); subst j;
      (eexists; split; [vm_compute; reflexivity |]);
      (split; [intros H; simpl in H; try lia; exfalso; lra
              | intros H; try lia; simpl; lra]). }
  split; [vm_compute; reflexivity |].
  split; [reflexivity |]. split; [reflexivity |]. discriminate.
Qed.


Lemma extractor_emits_every_run_witness :
  exists bss,
    SemesterSchedule.get_class_schedules Sample.three_slots Sample.none_and_split
      (SemesterSchedule.__init__ Sample.two_classes Sample.three_slots)
    = Ok (sorted Z.ltb start_id (concat bss))
    /\ Forall2 (fun i blocks =>
                  length blocks
                  = length (run_ends (cell_true Sample.none_and_split 1 i) 3))
               (range 0 2) bss.
Proof.
  destruct (extractor_emits_every_run Sample.two_classes Sample.three_slots
              Sample.none_and_split)
    as (bss & Hget & _ & Hlen).
  - intros i j _ _. discriminate.
  - exists bss. split; [exact Hget | exact Hlen].
Defined.

(** C9 as it is written fails on a matrix whose first row has no run and
    whose second row has two: the extractor returns two blocks of the second
    class and none of the first, and signals nothing. *)
Lemma anomalies_are_not_surfaced :
  run_ends (cell_true Sample.none_and_split 1 0) 3 = []
  /\ run_ends (cell_true Sample.none_and_split 1 1) 3 = [0; 2]
  /\ exists b1 b2,
       SemesterSchedule.get_class_schedules Sample.three_slots Sample.none_and_split
         (SemesterSchedule.__init__ Sample.two_classes Sample.three_slots)
       = Ok [b1; b2]
       /\ ClassSchedule.class_ b1 = Sample.class_B
       /\ ClassSchedule.class_ b2 = Sample.class_B.
Proof.
  split; [reflexivity |]. split; [reflexivity |].
  eexists _, _. split; [vm_compute; reflexivity |]. split; reflexivity.
Qed.

(** * More of the builders *)

(** ** The builders only append *)

(** A loop whose body commutes with a change of the state commutes with it. *)
Lemma for_each_frame {A S : Type} (lift : S -> S) (l : list A)
    (body : A -> S -> result S) :
  (forall x s, body x (lift s) = s' <- body x s ;; Ok (lift s')) ->
  forall s, for_each l body (lift s) = s' <- for_each l body s ;; Ok (lift s').
Proof.
  intros Hbody. induction l as [| x l IH]; intros s; simpl.
  - reflexivity.
  - rewrite Hbody. destruct (body x s) as [e | s1]; simpl; [reflexivity |].
    apply IH.
Qed.

Lemma iadd_frame (model m : LpProblem) (c : Comparison) :
  iadd (model ++ m) c = m' <- iadd m c ;; Ok (model ++ m').
Proof.
  destruct c as [[|] | c]; simpl; try reflexivity.
  now rewrite app_assoc.
Qed.

Lemma indicator_constraints_frame (z : LpVariable) (x : PyValue) (k : Z)
    (model m : LpProblem) :
  SemesterSchedule.indicator_constraints z x k (model ++ m)
  = m' <- SemesterSchedule.indicator_constraints z x k m ;; Ok (model ++ m').
Proof.
  unfold SemesterSchedule.indicator_constraints.
  destruct (truediv x k) as [e | q]; simpl; [reflexivity |].
  now rewrite !app_assoc.
Qed.

Lemma match_class_slot_count_frame (self : SemesterSchedule.t) (model m : LpProblem) :
  SemesterSchedule._set_constraints_match_class_slot_count self (model ++ m)
  = m' <- SemesterSchedule._set_constraints_match_class_slot_count self m ;;
    Ok (model ++ m').
Proof.
  unfold SemesterSchedule._set_constraints_match_class_slot_count.
  apply (for_each_frame (fun m : LpProblem => (model ++ m : LpProblem))).
  intros i s.
  destruct (SemesterSchedule.width self) as [e | n]; simpl; [reflexivity |].
  destruct (SemesterSchedule.sum_cells self (range 0 n) (fun _ => i) (fun j => j)
              (PyNum 0)) as [e | x]; simpl; [reflexivity |].
  destruct (index (Semester.classes (SemesterSchedule.semester self)) i)
    as [e | class_]; simpl; [reflexivity |].
  apply iadd_frame.
Qed.

Lemma consecutive_body_frame (self : SemesterSchedule.t) (spd i k : Z)
    (model : LpProblem) (j : Z) (st : LpProblem * option Z * PyValue) :
  SemesterSchedule.consecutive_slots_body self spd i k j
    ((model ++ fst (fst st) : LpProblem), snd (fst st), snd st)
  = st' <- SemesterSchedule.consecutive_slots_body self spd i k j st ;;
    Ok ((model ++ fst (fst st') : LpProblem), snd (fst st'), snd st').
Proof.
  destruct st as [[mj kj] Zj]. unfold SemesterSchedule.consecutive_slots_body. simpl.
  destruct (mod_ j spd) as [e | r]; simpl; [reflexivity |].
  destruct (r >? spd - k); [reflexivity |].
  destruct (SemesterSchedule.window_sum self i j k kj) as [e | [x k']]; simpl;
    [reflexivity |].
  destruct k' as [k' |]; simpl; [| reflexivity].
  rewrite indicator_constraints_frame.
  destruct (SemesterSchedule.indicator_constraints _ x _ mj); reflexivity.
Qed.

Lemma consecutive_row_frame (self : SemesterSchedule.t) (spd : Z)
    (model : LpProblem) (i : Z) (st : LpProblem * option Z) :
  SemesterSchedule.consecutive_slots_row self spd i ((model ++ fst st : LpProblem), snd st)
  = st' <- SemesterSchedule.consecutive_slots_row self spd i st ;;
    Ok ((model ++ fst st' : LpProblem), snd st').
Proof.
  destruct st as [mo k0]. unfold SemesterSchedule.consecutive_slots_row. simpl.
  destruct (index (Semester.classes (SemesterSchedule.semester self)) i)
    as [e | class_]; simpl; [reflexivity |].
  destruct (SemesterSchedule.width self) as [e | n]; simpl; [reflexivity |].
  pose proof (for_each_frame
                (fun st : LpProblem * option Z * PyValue =>
                   ((model ++ fst (fst st) : LpProblem), snd (fst st), snd st))
                (range 0 (n - Class_.slot_count class_ + 1))
                (SemesterSchedule.consecutive_slots_body self spd i
                   (Class_.slot_count class_))
                (consecutive_body_frame self spd i (Class_.slot_count class_) model)
                (mo, k0, PyNum 0)) as F.
  cbn [fst snd] in F. rewrite F.
  destruct (for_each _ _ (mo, k0, PyNum 0)) as [e | [[m' k1] Zs]]; simpl;
    [reflexivity |].
  rewrite iadd_frame. destruct (iadd m' (cmp EQ Zs 1)); reflexivity.
Qed.

Lemma consecutive_slots_frame (NUMBER_OF_CLASS_DAYS : Z) (storage : DataStorage.t)
    (self : SemesterSchedule.t) (model m : LpProblem) :
  SemesterSchedule._set_constraints_consecutive_slots NUMBER_OF_CLASS_DAYS storage self
    (model ++ m)
  = m' <- SemesterSchedule._set_constraints_consecutive_slots NUMBER_OF_CLASS_DAYS
            storage self m ;;
    Ok (model ++ m').
Proof.
  unfold SemesterSchedule._set_constraints_consecutive_slots.
  destruct (utils.get_slot_count_per_day NUMBER_OF_CLASS_DAYS storage) as [e | spd];
    simpl; [reflexivity |].
  pose proof (for_each_frame
                (fun st : LpProblem * option Z => ((model ++ fst st : LpProblem), snd st))
                (range 0 (len (SemesterSchedule.variables_matrix self)))
                (SemesterSchedule.consecutive_slots_row self spd)
                (consecutive_row_frame self spd model) (m, None)) as F.
  cbn [fst snd] in F. rewrite F.
  destruct (for_each _ _ (m, None)) as [e | [m' k]]; reflexivity.
Qed.

Lemma class_limits_group_frame (self : SemesterSchedule.t) (i : Z) (ccv : PyValue)
    (model : LpProblem) (group : Group.t) (st : LpProblem * Z) :
  SemesterSchedule.class_limits_group self i ccv group ((model ++ fst st : LpProblem), snd st)
  = st' <- SemesterSchedule.class_limits_group self i ccv group st ;;
    Ok ((model ++ fst st' : LpProblem), snd st').
Proof.
  destruct st as [mo offset]. unfold SemesterSchedule.class_limits_group. simpl.
  destruct (SemesterSchedule.sum_cells self _ _ _ (PyNum 0)) as [e | gcv]; simpl;
    [reflexivity |].
  rewrite iadd_frame. destruct (iadd mo _); reflexivity.
Qed.

Lemma class_limits_per_slot_frame (self : SemesterSchedule.t) (model m : LpProblem) :
  SemesterSchedule._set_constraints_class_limits_per_slot self (model ++ m)
  = m' <- SemesterSchedule._set_constraints_class_limits_per_slot self m ;;
    Ok (model ++ m').
Proof.
  unfold SemesterSchedule._set_constraints_class_limits_per_slot.
  destruct (SemesterSchedule.width self) as [e | n]; simpl; [reflexivity |].
  apply (for_each_frame (fun m : LpProblem => (model ++ m : LpProblem))).
  intros i s. unfold SemesterSchedule.class_limits_slot.
  destruct (Semester.common_group (SemesterSchedule.semester self))
    as [e | common]; simpl; [reflexivity |].
  destruct (SemesterSchedule.sum_cells self _ (fun j => j) (fun _ => i) (PyNum 0))
    as [e | ccv]; simpl; [reflexivity |].
  destruct (Semester.non_common_groups (SemesterSchedule.semester self))
    as [| g gs] eqn:E; [apply iadd_frame |].
  pose proof (for_each_frame
                (fun st : LpProblem * Z => ((model ++ fst st : LpProblem), snd st))
                (g :: gs)
                (SemesterSchedule.class_limits_group self i ccv)
                (class_limits_group_frame self i ccv model)
                (s, len (Group.classes common))) as F.
  cbn [fst snd] in F. rewrite F.
  destruct (for_each (g :: gs) (SemesterSchedule.class_limits_group self i ccv)
              (s, len (Group.classes common))) as [e | [m' o]]; reflexivity.
Qed.

(** What [set_constraints] gives on a model is what it gives on an empty
    model, after the constraints the model already holds. *)
Lemma set_constraints_frame (NUMBER_OF_CLASS_DAYS : Z) (storage : DataStorage.t)
    (self : SemesterSchedule.t) (model : LpProblem) :
  SemesterSchedule.set_constraints NUMBER_OF_CLASS_DAYS storage self model
  = c1 <- SemesterSchedule._set_constraints_match_class_slot_count self [] ;;
    c2 <- SemesterSchedule._set_constraints_consecutive_slots NUMBER_OF_CLASS_DAYS
            storage self [] ;;
    c3 <- SemesterSchedule._set_constraints_class_limits_per_slot self [] ;;
    Ok (model ++ c1 ++ c2 ++ c3).
Proof.
  unfold SemesterSchedule.set_constraints.
  pose proof (match_class_slot_count_frame self model []) as F1.
  rewrite app_nil_r in F1. rewrite F1.
  destruct (SemesterSchedule._set_constraints_match_class_slot_count self [])
    as [e | c1]; simpl; [reflexivity |].
  pose proof (consecutive_slots_frame NUMBER_OF_CLASS_DAYS storage self (model ++ c1) [])
    as F2.
  rewrite app_nil_r in F2. rewrite F2.
  destruct (SemesterSchedule._set_constraints_consecutive_slots _ storage self [])
    as [e | c2]; simpl; [reflexivity |].
  pose proof (class_limits_per_slot_frame self ((model ++ c1) ++ c2) []) as F3.
  rewrite app_nil_r in F3. rewrite F3.
  destruct (SemesterSchedule._set_constraints_class_limits_per_slot self [])
    as [e | c3]; simpl; [reflexivity |].
  now rewrite <- !app_assoc.
Qed.

(** X1.  [set_constraints] only appends, and what it appends, or the error it
    ends with, does not depend on what the model already holds: it is what
    the three builders give on an empty model, one after the other, in the
    order slot counts, contiguity, per-slot limits. *)
Theorem set_constraints_appends (NUMBER_OF_CLASS_DAYS : Z) (storage : DataStorage.t)
    (self : SemesterSchedule.t) (model : LpProblem) :
  SemesterSchedule.set_constraints NUMBER_OF_CLASS_DAYS storage self model
  = c1 <- SemesterSchedule._set_constraints_match_class_slot_count self [] ;;
    c2 <- SemesterSchedule._set_constraints_consecutive_slots NUMBER_OF_CLASS_DAYS
            storage self [] ;;
    c3 <- SemesterSchedule._set_constraints_class_limits_per_slot self [] ;;
    Ok (model ++ c1 ++ c2 ++ c3).
Proof. apply set_constraints_frame. Qed.

(** The same for the teachers' constraints. *)
Lemma set_global_constraints_frame (model : LpProblem)
    (semester_schedules : list SemesterSchedule.t) (storage : DataStorage.t) :
  main.set_global_constraints model semester_schedules storage
  = cs <- main.set_global_constraints [] semester_schedules storage ;;
    Ok (model ++ cs).
Proof.
  unfold main.set_global_constraints.
  pose proof (for_each_frame (fun m : LpProblem => (model ++ m : LpProblem))
                (dict_values (DataStorage.teachers storage))
                (fun teacher model =>
                   for_each (range 0 (len (DataStorage.slots storage)))
                     (fun i model =>
                        x <- main.teacher_slot_sum semester_schedules teacher i ;;
                        iadd model (cmp LE x 1))
                     model)) as F.
  cbv beta in F. rewrite <- (app_nil_r model) at 1. apply F.
  intros teacher s.
  apply (for_each_frame (fun m : LpProblem => (model ++ m : LpProblem))).
  intros i m.
  destruct (main.teacher_slot_sum semester_schedules teacher i) as [e | x]; simpl;
    [reflexivity |].
  apply iadd_frame.
Qed.

(** X2.  [set_global_constraints] only appends too, and what it appends or
    the error it ends with does not depend on the model it is given. *)
Theorem set_global_constraints_appends (model : LpProblem)
    (semester_schedules : list SemesterSchedule.t) (storage : DataStorage.t) :
  main.set_global_constraints model semester_schedules storage
  = cs <- main.set_global_constraints [] semester_schedules storage ;;
    Ok (model ++ cs).
Proof. apply set_global_constraints_frame. Qed.

(** ** When the model of a semester can be built *)

Section BuildersSucceed.
Variables (semester : Semester.t) (storage : DataStorage.t).
Variable slot_count_per_day : Z.

Let self := SemesterSchedule.__init__ semester storage.
Let sid := Semester.id semester.
Let m := len (Semester.classes semester).
Let n := len (DataStorage.slots storage).

Hypothesis Hn : 1 <= n.

Let match_row (i : Z) (model : LpProblem) : result LpProblem :=
  n <- SemesterSchedule.width self ;;
  x <- SemesterSchedule.sum_cells self (range 0 n) (fun _ => i) (fun j => j) (PyNum 0) ;;
  class_ <- index (Semester.classes (SemesterSchedule.semester self)) i ;;
  iadd model (cmp EQ x (inject_Z (Class_.slot_count class_))).

Lemma match_class_slot_count_Ok (rows : list Z) (model : LpProblem) :
  (forall i, In i rows -> 0 <= i < m) ->
  exists model', for_each rows match_row model = Ok model'.
Proof.
  revert model; induction rows as [| i rows IH]; intros model Hrows; simpl.
  - eauto.
  - assert (Hi : 0 <= i < m) by (apply Hrows; now left).
    assert (Hrow : exists model1, match_row i model = Ok model1).
    { unfold match_row, self. rewrite width_init by (fold m; lia). simpl.
      rewrite sum_row_init by exact Hi. simpl.
      destruct (index_Ok (Semester.classes semester) i Hi) as (class_ & Hc).
      rewrite Hc. simpl.
      destruct (add_vars_is_expr (PyNum 0)
                  (row_vars (Semester.id semester) i 0
                     (len (DataStorage.slots storage)))) as (e & He).
      { unfold row_vars. rewrite range_cons by (fold n; lia). discriminate. }
      rewrite He. simpl. eauto. }
    destruct Hrow as (model1 & Hrow). rewrite Hrow. simpl.
    apply IH. intros; apply Hrows; now right.
Qed.

Lemma consecutive_loop_Ok (i k : Z) (js : list Z) :
  0 <= i < m -> 1 <= k -> slot_count_per_day <> 0 ->
  (forall j, In j js -> 0 <= j /\ j + k <= n) ->
  forall st, exists st',
    for_each js (SemesterSchedule.consecutive_slots_body self slot_count_per_day i k) st
    = Ok st'.
Proof.
  intros Hi Hk Hspd. induction js as [| j js IH]; intros Hjs st; simpl.
  - eauto.
  - destruct (Hjs j) as [Hj Hjk]; [now left |].
    assert (Hbody : exists st1,
               SemesterSchedule.consecutive_slots_body self slot_count_per_day i k j st
               = Ok st1).
    { destruct st as [[model k0] Zs].
      unfold SemesterSchedule.consecutive_slots_body, mod_.
      destruct (Z.eqb_spec slot_count_per_day 0); [contradiction |]. simpl.
      destruct (j mod slot_count_per_day >? slot_count_per_day - k); [eauto |].
      unfold self. rewrite window_sum_init by assumption. simpl.
      destruct (Z.ltb_spec 0 k); [| lia]. simpl.
      destruct (indicator_constraints_Ok
                  (VarZ (Semester.id semester) i j (j + k - 1))
                  (add_vars (PyNum 0) (row_vars (Semester.id semester) i j (j + k)))
                  k model) as (c1 & c2 & Hc & _); [lia |].
      rewrite Hc. simpl. eauto. }
    destruct Hbody as (st1 & Hst1). rewrite Hst1. simpl.
    apply IH. intros; apply Hjs; now right.
Qed.

Lemma consecutive_row_Ok (i : Z) (class_ : Class_.t) (st : LpProblem * option Z) :
  0 <= i < m ->
  index (Semester.classes semester) i = Ok class_ ->
  1 <= Class_.slot_count class_ <= slot_count_per_day ->
  Class_.slot_count class_ <= n ->
  exists st',
    SemesterSchedule.consecutive_slots_row self slot_count_per_day i st = Ok st'.
Proof.
  intros Hi Hc Hk Hkn. destruct st as [model k0].
  unfold SemesterSchedule.consecutive_slots_row. simpl.
  rewrite Hc. simpl. set (k := Class_.slot_count class_) in *.
  unfold self. rewrite width_init by (fold m; lia). simpl. fold self n.
  assert (Hjs : forall j, In j (range 0 (n - k + 1)) -> 0 <= j /\ j + k <= n).
  { intros j Hj. apply range_In in Hj. lia. }
  destruct (consecutive_loop_Ok i k (range 0 (n - k + 1)) Hi ltac:(lia) ltac:(lia)
              Hjs (model, k0, PyNum 0)) as ([[model1 k1] Zs] & Hloop).
  rewrite Hloop. simpl.
  destruct (consecutive_loop_spec semester storage slot_count_per_day i k
              (range 0 (n - k + 1)) Hi ltac:(lia) Hjs _ _ _ _ _ _ Hloop)
    as (_ & HZ & _).
  destruct (add_vars_is_expr (PyNum 0)
              (map (z_var (Semester.id semester) i k)
                 (filter (fun j => negb (skipped slot_count_per_day k j))
                    (range 0 (n - k + 1))))) as (e & He).
  { rewrite range_cons by lia. simpl.
    unfold skipped at 1. rewrite Z.mod_0_l by lia.
    destruct (Z.gtb_spec 0 (slot_count_per_day - k)); [lia |]. discriminate. }
  rewrite HZ, He. simpl. eauto.
Qed.

Lemma consecutive_rows_Ok (rows : list Z) :
  (forall i class_, 0 <= i < m -> index (Semester.classes semester) i = Ok class_ ->
     1 <= Class_.slot_count class_ <= slot_count_per_day
     /\ Class_.slot_count class_ <= n) ->
  (forall i, In i rows -> 0 <= i < m) ->
  forall st, exists st',
    for_each rows (SemesterSchedule.consecutive_slots_row self slot_count_per_day) st
    = Ok st'.
Proof.
  intros Hk. induction rows as [| i rows IH]; intros Hrows st; simpl.
  - eauto.
  - assert (Hi : 0 <= i < m) by (apply Hrows; now left).
    destruct (index_Ok (Semester.classes semester) i Hi) as (class_ & Hc).
    destruct (Hk i class_ Hi Hc) as [Hk1 Hk2].
    destruct (consecutive_row_Ok i class_ st Hi Hc Hk1 Hk2) as (st1 & Hst1).
    rewrite Hst1. simpl. apply IH. intros; apply Hrows; now right.
Qed.
End BuildersSucceed.

(** When the contiguity builder returns, every row was built. *)
Lemma consecutive_slots_row_ran (NUMBER_OF_CLASS_DAYS : Z) (semester : Semester.t)
    (storage : DataStorage.t) (model model' : LpProblem) (i : Z) :
  SemesterSchedule._set_constraints_consecutive_slots NUMBER_OF_CLASS_DAYS storage
    (SemesterSchedule.__init__ semester storage) model = Ok model' ->
  0 <= i < len (Semester.classes semester) ->
  exists slot_count_per_day st st',
    utils.get_slot_count_per_day NUMBER_OF_CLASS_DAYS storage = Ok slot_count_per_day
    /\ SemesterSchedule.consecutive_slots_row
         (SemesterSchedule.__init__ semester storage) slot_count_per_day i st = Ok st'.
Proof.
  intros H Hi. unfold SemesterSchedule._set_constraints_consecutive_slots in H.
  inv_bind H. inv_bind H. rewrite len_matrix in Hx0.
  destruct (for_each_step
              (fun s s' : LpProblem * option Z => True)
              (range 0 (len (Semester.classes semester)))
              (SemesterSchedule.consecutive_slots_row
                 (SemesterSchedule.__init__ semester storage) x)
              (model, None) x0 i)
    as (s1 & s2 & _ & Hbody & _); auto.
  { apply range_In. exact Hi. }
  exists x, s1, s2. auto.
Qed.

Lemma In_index {A : Type} (l : list A) (x : A) :
  In x l -> exists i, 0 <= i < len l /\ index l i = Ok x.
Proof.
  intros H. apply In_nth_error in H. destruct H as (k & Hk).
  exists (Z.of_nat k). split.
  - assert ((k < length l)%nat) by (apply nth_error_Some; congruence).
    unfold len. lia.
  - rewrite index_nth by lia. rewrite Nat2Z.id, Hk. reflexivity.
Qed.

(** When the three builders succeed on a semester as the loader builds it. *)
Lemma set_constraints_Ok_iff (NUMBER_OF_CLASS_DAYS : Z) (s0 : Semester.t)
    (storage : DataStorage.t) :
  0 < NUMBER_OF_CLASS_DAYS ->
  Semester.classes s0 <> [] ->
  (forall c, In c (Semester.classes s0) -> 0 <= Class_.slot_count c) ->
  exists s1,
    Semester.init_groups s0 = Ok s1
    /\ ((exists model,
           SemesterSchedule.set_constraints NUMBER_OF_CLASS_DAYS storage
             (SemesterSchedule.__init__ (Semester.sort_classes s1) storage) []
           = Ok model)
        <-> forall c, In c (Semester.classes s0) ->
              1 <= Class_.slot_count c
              <= len (DataStorage.slots storage) / NUMBER_OF_CLASS_DAYS).
Proof.
  intros Hdays Hcs Hpos.
  destruct (semester_groups_spec s0)
    as (s1 & common & rest & Hinit & Hg & _ & _ & _ & _ & _ & _ & Hne & _
        & Hcl & Hperm & _ & _).
  exists s1. split; [exact Hinit |].
  cbv zeta in *.
  set (semester := Semester.sort_classes s1) in *.
  set (n := len (DataStorage.slots storage)).
  set (spd := n / NUMBER_OF_CLASS_DAYS).
  assert (Hspd : utils.get_slot_count_per_day NUMBER_OF_CLASS_DAYS storage = Ok spd).
  { unfold utils.get_slot_count_per_day, utils.get_slot_count_per_day_, floordiv.
    destruct (Z.eqb_spec NUMBER_OF_CLASS_DAYS 0); [lia | reflexivity]. }
  assert (Hn0 : 0 <= n) by apply len_nonneg.
  assert (Hspd0 : 0 <= spd) by (apply Z.div_pos; lia).
  assert (Hspdn : spd <= n).
  { apply Z.div_le_upper_bound; [lia | nia]. }
  assert (Hrows : len (Semester.classes semester)
                  = len (flat_map Group.classes (common :: rest))).
  { rewrite Hcl, flat_map_concat_map. reflexivity. }
  assert (Hm : 0 < len (Semester.classes semester)).
  { apply len_pos. intros E. rewrite E in Hperm.
    apply Permutation_nil in Hperm. contradiction. }
  split.
  - intros (model & Hset) c Hc.
    assert (Hc' : In c (Semester.classes semester)).
    { eapply Permutation_in; [apply Permutation_sym; exact Hperm | exact Hc]. }
    destruct (In_index _ _ Hc') as (i & Hi & Hidx).
    unfold SemesterSchedule.set_constraints in Hset.
    inv_bind Hset. inv_bind Hset.
    destruct (consecutive_slots_row_ran _ _ _ _ _ i Hx0 Hi)
      as (spd' & st & st' & Hspd' & Hrow).
    rewrite Hspd in Hspd'. inv_Ok Hspd'. subst spd'.
    pose proof (Hpos c Hc) as Hk0.
    destruct (Z_le_dec (Class_.slot_count c) spd) as [Hle | Hgt].
    + split; [| exact Hle].
      destruct (Z.eq_dec (Class_.slot_count c) 0) as [E | E]; [| lia].
      exfalso. exact (consecutive_row_zero semester storage spd i c st st' Hi Hidx E Hrow).
    + exfalso.
      exact (consecutive_row_oversized semester storage spd i c st st' Hspd0 Hidx
               ltac:(lia) Hrow).
  - intros Hk.
    assert (Hn : 1 <= n).
    { destruct (Semester.classes s0) as [| c cs] eqn:E; [contradiction |].
      pose proof (Hk c (or_introl eq_refl)). lia. }
    assert (Hrow : forall i class_,
               0 <= i < len (Semester.classes semester) ->
               index (Semester.classes semester) i = Ok class_ ->
               1 <= Class_.slot_count class_ <= spd /\ Class_.slot_count class_ <= n).
    { intros i c Hi Hidx. apply index_In in Hidx.
      assert (Hc : In c (Semester.classes s0))
        by (eapply Permutation_in; [exact Hperm | exact Hidx]).
      pose proof (Hk c Hc). fold n spd in H. lia. }
    destruct (match_class_slot_count_Ok semester storage Hn
                (range 0 (len (Semester.classes semester))) [])
      as (c1 & H1).
    { intros i Hi. apply range_In in Hi. exact Hi. }
    assert (E1 : SemesterSchedule._set_constraints_match_class_slot_count
                   (SemesterSchedule.__init__ semester storage) [] = Ok c1).
    { unfold SemesterSchedule._set_constraints_match_class_slot_count.
      rewrite len_matrix. exact H1. }
    destruct (consecutive_rows_Ok semester storage spd
                (range 0 (len (Semester.classes semester))) Hrow
                (fun i Hi => proj1 (range_In _ _ i) Hi) (c1, @None Z))
      as ([c2 k2] & H2).
    assert (E2 : SemesterSchedule._set_constraints_consecutive_slots
                   NUMBER_OF_CLASS_DAYS storage
                   (SemesterSchedule.__init__ semester storage) c1 = Ok c2).
    { unfold SemesterSchedule._set_constraints_consecutive_slots.
      rewrite Hspd, bind_ret, len_matrix, H2. reflexivity. }
    unfold SemesterSchedule.set_constraints.
    rewrite E1, bind_ret, E2, bind_ret.
    rewrite (class_limits_per_slot_Ok semester storage common rest Hg Hrows Hne Hm).
    eauto.
Qed.

(** X3.  For a semester as the loader builds it, with a positive number of
    class days and no negative slot count, [set_constraints] returns a model
    exactly when every class has at least one slot and at most as many as a
    day has; otherwise it ends with an error. *)
Theorem set_constraints_succeeds_iff (NUMBER_OF_CLASS_DAYS : Z) (s0 : Semester.t)
    (storage : DataStorage.t) :
  0 < NUMBER_OF_CLASS_DAYS ->
  Semester.classes s0 <> [] ->
  (forall c, In c (Semester.classes s0) -> 0 <= Class_.slot_count c) ->
  exists s1,
    Semester.init_groups s0 = Ok s1
    /\ ((exists model,
           SemesterSchedule.set_constraints NUMBER_OF_CLASS_DAYS storage
             (SemesterSchedule.__init__ (Semester.sort_classes s1) storage) []
           = Ok model)
        <-> forall c, In c (Semester.classes s0) ->
              1 <= Class_.slot_count c
              <= len (DataStorage.slots storage) / NUMBER_OF_CLASS_DAYS).
Proof. apply set_constraints_Ok_iff. Qed.

Lemma set_constraints_succeeds_iff_witness :
  exists s1 model,
    Semester.init_groups (Sample.raw [Sample.class_ 1 "A" "" 2 []]) = Ok s1
    /\ SemesterSchedule.set_constraints 2 Sample.two_days
         (SemesterSchedule.__init__ (Semester.sort_classes s1) Sample.two_days) []
       = Ok model.
Proof.
  destruct (set_constraints_succeeds_iff 2 (Sample.raw [Sample.class_ 1 "A" "" 2 []])
              Sample.two_days)
    as (s1 & Hinit & Hiff).
  - lia.
  - discriminate.
  - intros c [<- | []]. simpl. lia.
  - destruct (proj2 Hiff) as (model & Hmodel).
    + intros c [<- | []]. split; [simpl; lia | vm_compute; discriminate].
    + exists s1, model. split; [exact Hinit | exact Hmodel].
Defined.

(** ** From the constraints to the blocks *)

Lemma set_constraints_parts (NUMBER_OF_CLASS_DAYS : Z) (storage : DataStorage.t)
    (self : SemesterSchedule.t) (model : LpProblem) :
  SemesterSchedule.set_constraints NUMBER_OF_CLASS_DAYS storage self [] = Ok model ->
  exists c1 c2 c3,
    SemesterSchedule._set_constraints_match_class_slot_count self [] = Ok c1
    /\ SemesterSchedule._set_constraints_consecutive_slots NUMBER_OF_CLASS_DAYS
         storage self [] = Ok c2
    /\ SemesterSchedule._set_constraints_class_limits_per_slot self [] = Ok c3
    /\ model = c1 ++ c2 ++ c3.
Proof.
  rewrite set_constraints_frame. intros H.
  inv_bind H. inv_bind H. inv_bind H. inv_Ok H.
  exists x, x0, x1. auto.
Qed.

(** A feasible row is one window that fits in a day. *)
Lemma feasible_row_is_window (NUMBER_OF_CLASS_DAYS : Z)
    (semester : Semester.t) (storage : DataStorage.t)
    (model1 model2 : LpProblem) (a : assignment) (i : Z) (class_ : Class_.t) :
  let self := SemesterSchedule.__init__ semester storage in
  let n := len (DataStorage.slots storage) in
  let k := Class_.slot_count class_ in
  SemesterSchedule._set_constraints_match_class_slot_count self [] = Ok model1 ->
  SemesterSchedule._set_constraints_consecutive_slots NUMBER_OF_CLASS_DAYS storage self []
  = Ok model2 ->
  binary a -> Forall (satisfies a) model1 -> Forall (satisfies a) model2 ->
  0 <= i < len (Semester.classes semester) ->
  index (Semester.classes semester) i = Ok class_ ->
  exists slot_count_per_day s,
    utils.get_slot_count_per_day NUMBER_OF_CLASS_DAYS storage = Ok slot_count_per_day
    /\ slot_count_per_day <> 0
    /\ 1 <= k
    /\ 0 <= s /\ s + k <= n
    /\ s mod slot_count_per_day <= slot_count_per_day - k
    /\ forall t, 0 <= t < n ->
         (a (VarX (Semester.id semester) i t) = 1 <-> s <= t < s + k).
Proof.
  intros self n k H1 H2 Ha Hall1 Hall2 Hi Hc.
  pose proof (match_class_slot_count_rows semester storage [] model1 a i class_
                H1 Hall1 Hi Hc) as Hrow.
  fold n k in Hrow.
  unfold SemesterSchedule._set_constraints_consecutive_slots in H2.
  inv_bind H2. rename x into spd. inv_bind H2. destruct x as [model2' k2].
  inv_Ok H2. subst model2'.
  unfold self in Hx0. rewrite len_matrix in Hx0. fold self in Hx0.
  destruct (for_each_step
              (fun s s' : LpProblem * option Z => extends (fst s) (fst s'))
              (range 0 (len (Semester.classes semester)))
              (SemesterSchedule.consecutive_slots_row self spd)
              ([], None) (model2, k2) i)
    as (s1 & s2 & _ & Hbody & Hext).
  { intros s. apply extends_refl. }
  { intros s1 s2 s3. apply extends_trans. }
  { intros x s s' _. apply consecutive_row_extends. }
  { exact Hx0. }
  { apply range_In. exact Hi. }
  simpl in Hext.
  assert (Hk : 1 <= k).
  { pose proof (total_bounds a (row_vars (Semester.id semester) i 0 n) Ha) as B.
    assert (Hk0 : k <> 0).
    { intros E. exact (consecutive_row_zero semester storage spd i class_ s1 s2
                         Hi Hc E Hbody). }
    lia. }
  destruct (consecutive_row_spec semester storage spd i class_ s1 s2 Hi Hc Hk Hbody a Ha)
    as (Hone & Hspd & Hiff).
  { eapply extends_Forall; eauto. }
  fold n k in Hone, Hiff.
  destruct (total_one_exists a _ Ha Hone) as (v & Hv & Hv1).
  apply in_map_iff in Hv. destruct Hv as (s & <- & Hs).
  pose proof Hs as Hs'. unfold valid_starts in Hs'.
  apply filter_In in Hs'. destruct Hs' as [Hrange Hkeep].
  apply range_In in Hrange. unfold skipped in Hkeep.
  destruct (Z.gtb_spec (s mod spd) (spd - k)) as [| Hle]; [discriminate |].
  exists spd, s.
  split; [exact Hx |]. split; [exact Hspd |]. split; [exact Hk |].
  split; [lia |]. split; [lia |]. split; [exact Hle |].
  apply single_window; auto; try lia.
  apply Hiff; auto.
Qed.

(** A window that fits in a day starts and ends on the same day. *)
Lemma window_same_day (slot_count_per_day s k : Z) :
  slot_count_per_day <> 0 -> 1 <= k ->
  s mod slot_count_per_day <= slot_count_per_day - k ->
  0 < slot_count_per_day
  /\ s / slot_count_per_day = (s + k - 1) / slot_count_per_day.
Proof.
  intros Hspd Hk Hmod.
  assert (Hpos : 0 < slot_count_per_day).
  { destruct (Z.lt_trichotomy slot_count_per_day 0) as [Hneg | [E | Hpos]];
      [| contradiction | exact Hpos].
    pose proof (Z.mod_neg_bound s slot_count_per_day Hneg). lia. }
  split; [exact Hpos |].
  pose proof (Z.mod_pos_bound s slot_count_per_day Hpos) as Hb.
  pose proof (Z.div_mod s slot_count_per_day Hspd) as Hs.
  apply (Z.div_unique _ _ _ (s mod slot_count_per_day + k - 1)); lia.
Qed.

Lemma cell_true_solution (a : assignment) (sid i j : Z) :
  binary a -> (cell_true (solution a) sid i j = true <-> a (VarX sid i j) = 1).
Proof.
  intros Ha. unfold cell_true, solution, SemesterSchedule.is_true.
  rewrite isclose_zero. pose proof (Ha (VarX sid i j)) as Hb.
  assert (Hc : a (VarX sid i j) = 0 \/ a (VarX sid i j) = 1) by lia.
  destruct Hc as [-> | ->]; split; intros H; try reflexivity; discriminate.
Qed.

(** X4.  The builders and the extractor fit together.  When [set_constraints]
    has built the model of a semester and the solver returns a 0/1 assignment
    that satisfies it, the extractor, reading that assignment, returns exactly
    one block per class, sorted by the identifier of the start slot; the
    block of a class of [k] slots goes from a slot [s] to the slot
    [s + k - 1], which is on the same day, and the cells of the class that
    the assignment sets are exactly those of the block. *)
Theorem feasible_model_round_trip (NUMBER_OF_CLASS_DAYS : Z)
    (semester : Semester.t) (storage : DataStorage.t)
    (model : LpProblem) (a : assignment) :
  let self := SemesterSchedule.__init__ semester storage in
  let sid := Semester.id semester in
  let m := len (Semester.classes semester) in
  let n := len (DataStorage.slots storage) in
  SemesterSchedule.set_constraints NUMBER_OF_CLASS_DAYS storage self [] = Ok model ->
  feasible a model ->
  exists slot_count_per_day blocks,
    utils.get_slot_count_per_day NUMBER_OF_CLASS_DAYS storage = Ok slot_count_per_day
    /\ 0 < slot_count_per_day
    /\ SemesterSchedule.get_class_schedules storage (solution a) self
       = Ok (sorted Z.ltb start_id blocks)
    /\ Forall2 (fun i block =>
                  exists class_ s,
                    index (Semester.classes semester) i = Ok class_
                    /\ 0 <= s /\ s + Class_.slot_count class_ <= n
                    /\ s / slot_count_per_day
                       = (s + Class_.slot_count class_ - 1) / slot_count_per_day
                    /\ (forall t, 0 <= t < n ->
                          (a (VarX sid i t) = 1
                           <-> s <= t <= s + Class_.slot_count class_ - 1))
                    /\ block_of semester storage i s
                         (s + Class_.slot_count class_ - 1) block)
               (range 0 m) blocks.
Proof.
  intros self sid m n Hset [Ha Hall].
  destruct (set_constraints_parts _ _ _ _ Hset) as (c1 & c2 & c3 & H1 & H2 & _ & ->).
  apply Forall_app in Hall. destruct Hall as [Hall1 Hall].
  apply Forall_app in Hall. destruct Hall as [Hall2 _].
  assert (Hsolved : forall i j, 0 <= i < m -> 0 <= j < n ->
            solution a (VarX sid i j) <> None) by (intros; discriminate).
  destruct (get_class_schedules_Ok semester storage (solution a) Hsolved)
    as (bss & Hbss & Hget).
  pose proof H2 as Hspd. unfold SemesterSchedule._set_constraints_consecutive_slots in Hspd.
  inv_bind Hspd. rename x into spd. clear Hspd.
  assert (Hrows : forall i class_, 0 <= i < m ->
            index (Semester.classes semester) i = Ok class_ ->
            exists s,
              spd <> 0 /\ 1 <= Class_.slot_count class_
              /\ 0 <= s /\ s + Class_.slot_count class_ <= n
              /\ s mod spd <= spd - Class_.slot_count class_
              /\ forall t, 0 <= t < n ->
                   (a (VarX sid i t) = 1 <-> s <= t < s + Class_.slot_count class_)).
  { intros i class_ Hi Hc.
    destruct (feasible_row_is_window NUMBER_OF_CLASS_DAYS semester storage c1 c2 a i
                class_ H1 H2 Ha Hall1 Hall2 Hi Hc)
      as (spd' & s & Hspd' & Hnz & Hk & Hs & Hsk & Hmod & Hcells).
    rewrite Hx in Hspd'. inv_Ok Hspd'. subst spd'.
    exists s. auto 10. }
  assert (Hm : 0 < m).
  { destruct (Z.lt_ge_cases 0 m) as [H | H]; [exact H |].
    exfalso. destruct (set_constraints_parts _ _ _ _ Hset) as (_ & _ & c & _ & _ & H3 & _).
    unfold SemesterSchedule._set_constraints_class_limits_per_slot in H3.
    inv_bind H3. unfold SemesterSchedule.width in Hx0. inv_bind Hx0.
    unfold self in Hx1. simpl in Hx1.
    pose proof (len_nonneg (Semester.classes semester)) as Hm0. fold m in Hm0.
    assert (E : m = 0) by lia. unfold m in E. rewrite E in Hx1. discriminate. }
  assert (Hpos : 0 < spd).
  { destruct (index_Ok (Semester.classes semester) 0 ltac:(fold m; lia)) as (c0 & Hc0).
    destruct (Hrows 0 c0 ltac:(lia) Hc0) as (s & Hnz & Hk & _ & _ & Hmod & _).
    apply (window_same_day spd s (Class_.slot_count c0)); assumption. }
  exists spd, (concat bss).
  split; [exact Hx |]. split; [exact Hpos |]. split; [exact Hget |].
  apply concat_singletons. revert Hbss. apply Forall2_range_impl.
  intros i blocks Hi (class_ & Hclass & Hruns).
  destruct (Hrows i class_ Hi Hclass) as (s & Hnz & Hk & Hs & Hsk & Hmod & Hcells).
  set (k := Class_.slot_count class_) in *.
  assert (Hrun : forall j, 0 <= j < n ->
            (cell_true (solution a) sid i j = true <-> s <= j <= s + k - 1)).
  { intros j Hj. rewrite cell_true_solution by exact Ha.
    rewrite (Hcells j Hj). lia. }
  fold sid n in Hruns.
  rewrite (run_ends_single _ n s (s + k - 1)) in Hruns by (auto; lia).
  inversion Hruns as [| ? block ? ? Hblock Hnil]; subst. inversion Hnil; subst.
  exists block. split; [reflexivity |].
  unfold run_block in Hblock.
  rewrite (run_length_single _ n s (s + k - 1)) in Hblock by (auto; lia).
  unfold ClassSchedule.__init__ in Hblock.
  replace (s + k - 1 - (s + k - 1 - s + 1) + 1) with s in Hblock by lia.
  inv_bind Hblock. inv_bind Hblock. inv_Ok Hblock.
  exists class_, s. split; [exact Hclass |]. split; [exact Hs |].
  split; [exact Hsk |].
  split; [apply (window_same_day spd s k); assumption |].
  split.
  - intros t Ht. rewrite (Hcells t Ht). lia.
  - exists class_, x, x0. auto.
Qed.

Lemma feasible_model_round_trip_witness :
  exists model blocks,
    SemesterSchedule.set_constraints 2 Sample.two_days
      (SemesterSchedule.__init__ Sample.one_class Sample.two_days) [] = Ok model
    /\ feasible Sample.second_day model
    /\ SemesterSchedule.get_class_schedules Sample.two_days (solution Sample.second_day)
         (SemesterSchedule.__init__ Sample.one_class Sample.two_days)
       = Ok (sorted Z.ltb start_id blocks)
    /\ length blocks = 1%nat.
Proof.
  destruct (SemesterSchedule.set_constraints 2 Sample.two_days
              (SemesterSchedule.__init__ Sample.one_class Sample.two_days) [])
    as [error | model] eqn:E; [vm_compute in E; discriminate |].
  assert (Hfeasible : feasible Sample.second_day model).
  { split; [apply ones_binary |].
    vm_compute in E. injection E as <-. repeat constructor; by_computation. }
  destruct (feasible_model_round_trip 2 Sample.one_class Sample.two_days model
              Sample.second_day E Hfeasible)
    as (spd & blocks & _ & _ & Hget & Hblocks).
  exists model, blocks. split; [reflexivity |]. split; [exact Hfeasible |].
  split; [exact Hget |].
  apply Forall2_length in Hblocks. rewrite <- Hblocks. reflexivity.
Defined.

(** ** What the blocks of the extractor are *)

(** The cells counted by [run_length] are true and the cell before them is
    false. *)
Lemma run_length_run (b : Z -> bool) (k : nat) :
  (forall j, Z.of_nat k - run_length b k <= j < Z.of_nat k -> b j = true)
  /\ (0 < Z.of_nat k - run_length b k -> b (Z.of_nat k - run_length b k - 1) = false).
Proof.
  induction k as [| k [IH1 IH2]].
  - simpl. split; intros; lia.
  - cbn [run_length]. destruct (b (Z.of_nat k)) eqn:E.
    + split.
      * intros j Hj. destruct (Z.eq_dec j (Z.of_nat k)) as [-> | Hne]; [exact E |].
        apply IH1. lia.
      * intros H.
        replace (Z.of_nat (S k) - (run_length b k + 1) - 1)
          with (Z.of_nat k - run_length b k - 1) by lia.
        apply IH2. lia.
    + split.
      * intros j Hj. lia.
      * intros _. replace (Z.of_nat (S k) - 0 - 1) with (Z.of_nat k) by lia. exact E.
Qed.

(** Every true cell is followed by the end of its run. *)
Lemma run_end_after (b : Z -> bool) (n : Z) (d : nat) (j : Z) :
  0 <= j < n -> n - 1 - j <= Z.of_nat d -> b j = true ->
  exists e, j <= e < n /\ is_run_end b n e = true
            /\ forall t, j <= t <= e -> b t = true.
Proof.
  revert j. induction d as [| d IH]; intros j Hj Hd Hb.
  - exists j. split; [lia |]. split.
    + unfold is_run_end. rewrite Hb. simpl.
      assert (E : j = n - 1) by lia. rewrite E, Z.eqb_refl. reflexivity.
    + intros t Ht. assert (E : t = j) by lia. now subst t.
  - destruct (Z.eq_dec j (n - 1)) as [E | Hne].
    + apply (IH j); [exact Hj | lia | exact Hb].
    + destruct (b (j + 1)) eqn:Hnext.
      * destruct (IH (j + 1)) as (e & He & Hend & Hrun); [lia | lia | exact Hnext |].
        exists e. split; [lia |]. split; [exact Hend |].
        intros t Ht. destruct (Z.eq_dec t j) as [-> | Htj]; [exact Hb |].
        apply Hrun. lia.
      * exists j. split; [lia |]. split.
        -- unfold is_run_end. rewrite Hb, Hnext. simpl. apply orb_true_r.
        -- intros t Ht. assert (E : t = j) by lia. now subst t.
Qed.

Lemma Forall2_In_l {A B : Type} (R : A -> B -> Prop) (l : list A) (l' : list B) (x : A) :
  Forall2 R l l' -> In x l -> exists y, In y l' /\ R x y.
Proof.
  induction 1 as [| x0 y0 l l' H0 _ IH]; intros Hin; [contradiction |].
  destruct Hin as [-> | Hin].
  - exists y0. split; [now left | exact H0].
  - destruct (IH Hin) as (y & Hy & Hxy). exists y. split; [now right | exact Hxy].
Qed.

Lemma Forall2_In_r {A B : Type} (R : A -> B -> Prop) (l : list A) (l' : list B) (y : B) :
  Forall2 R l l' -> In y l' -> exists x, In x l /\ R x y.
Proof.
  induction 1 as [| x0 y0 l l' H0 _ IH]; intros Hin; [contradiction |].
  destruct Hin as [-> | Hin].
  - exists x0. split; [now left | exact H0].
  - destruct (IH Hin) as (x & Hx & Hxy). exists x. split; [now right | exact Hxy].
Qed.

(** The block of a run end goes from the first cell of the run to its last
    cell. *)
Lemma run_block_is_maximal_run (semester : Semester.t) (storage : DataStorage.t)
    (b : Z -> bool) (i : Z) (class_ : Class_.t) (e : Z) (block : ClassSchedule.t) :
  let n := len (DataStorage.slots storage) in
  index (Semester.classes semester) i = Ok class_ ->
  In e (run_ends b n) ->
  run_block storage class_ b e block ->
  exists s,
    0 <= s <= e /\ e < n
    /\ block_of semester storage i s e block
    /\ (forall j, s <= j <= e -> b j = true)
    /\ (0 < s -> b (s - 1) = false)
    /\ (e < n - 1 -> b (e + 1) = false).
Proof.
  intros n Hclass He Hblock.
  unfold run_ends in He. apply filter_In in He. destruct He as [He Hend].
  apply range_In in He. unfold is_run_end in Hend.
  apply andb_true_iff in Hend. destruct Hend as [Hbe Hnext].
  set (L := run_length b (Z.to_nat (e + 1))) in *.
  assert (HL : 1 <= L <= e + 1).
  { pose proof (run_length_le b (Z.to_nat (e + 1))) as Hle. fold L in Hle.
    unfold L. rewrite run_length_succ by lia. rewrite Hbe.
    pose proof (run_length_nonneg b (Z.to_nat e)).
    unfold L in Hle. rewrite run_length_succ, Hbe in Hle by lia. lia. }
  destruct (run_length_run b (Z.to_nat (e + 1))) as [Hrun Hbefore].
  fold L in Hrun, Hbefore. rewrite Z2Nat.id in Hrun, Hbefore by lia.
  exists (e - L + 1). split; [lia |]. split; [lia |]. split.
  - unfold run_block in Hblock. fold L in Hblock.
    unfold ClassSchedule.__init__ in Hblock.
    inv_bind Hblock. inv_bind Hblock. inv_Ok Hblock.
    exists class_, x, x0. auto.
  - split; [intros j Hj; apply Hrun; lia |]. split.
    + intros Hs. replace (e - L + 1 - 1) with (e + 1 - L - 1) by lia.
      apply Hbefore. lia.
    + intros Hlast. apply orb_true_iff in Hnext. destruct Hnext as [E | E].
      * apply Z.eqb_eq in E. fold n in E. lia.
      * apply negb_true_iff in E. exact E.
Qed.

(** X5.  What the extractor returns, whatever the solved matrix holds, as
    long as every cell has a value: every block it returns is a maximal run
    of assigned cells of the row of its class (the cells from its start slot
    to its end slot are assigned, the cell before and the cell after are not),
    and every assigned cell lies in a returned block of its class: no
    assigned cell is lost and no unassigned cell is reported. *)
Theorem extractor_blocks_are_maximal_runs (semester : Semester.t)
    (storage : DataStorage.t) (varValue : LpVariable -> option Q) :
  let self := SemesterSchedule.__init__ semester storage in
  let sid := Semester.id semester in
  let m := len (Semester.classes semester) in
  let n := len (DataStorage.slots storage) in
  (forall i j, 0 <= i < m -> 0 <= j < n -> varValue (VarX sid i j) <> None) ->
  exists schedules,
    SemesterSchedule.get_class_schedules storage varValue self = Ok schedules
    /\ (forall block, In block schedules ->
          exists i s e,
            0 <= i < m /\ 0 <= s <= e /\ e < n
            /\ block_of semester storage i s e block
            /\ (forall j, s <= j <= e -> cell_true varValue sid i j = true)
            /\ (0 < s -> cell_true varValue sid i (s - 1) = false)
            /\ (e < n - 1 -> cell_true varValue sid i (e + 1) = false))
    /\ (forall i j, 0 <= i < m -> 0 <= j < n -> cell_true varValue sid i j = true ->
          exists block s e,
            In block schedules
            /\ block_of semester storage i s e block
            /\ s <= j <= e).
Proof.
  intros self sid m n Hsolved.
  destruct (get_class_schedules_Ok semester storage varValue Hsolved)
    as (bss & Hbss & Hget).
  exists (sorted Z.ltb start_id (concat bss)). split; [exact Hget |]. split.
  - intros block Hin.
    apply (Permutation_in _ (sorted_perm start_id (concat bss))) in Hin.
    apply in_concat in Hin. destruct Hin as (blocks & Hblocks & Hin).
    destruct (Forall2_In_r _ _ _ _ Hbss Hblocks) as (i & Hi & class_ & Hclass & Hruns).
    apply range_In in Hi.
    destruct (Forall2_In_r _ _ _ _ Hruns Hin) as (e & He & Hblock).
    destruct (run_block_is_maximal_run semester storage _ i class_ e block
                Hclass He Hblock)
      as (s & Hs & Hen & Hb & Hrun & Hbefore & Hafter).
    exists i, s, e. auto 10.
  - intros i j Hi Hj Hcell.
    destruct (Forall2_In_l _ _ _ i Hbss) as (blocks & Hblocks & class_ & Hclass & Hruns).
    { apply range_In. exact Hi. }
    fold sid n in Hruns.
    destruct (run_end_after (cell_true varValue sid i) n (Z.to_nat (n - 1 - j)) j
                Hj ltac:(lia) Hcell)
      as (e & He & Hend & Hrun).
    assert (Hin : In e (run_ends (cell_true varValue sid i) n)).
    { unfold run_ends. apply filter_In. split; [apply range_In; lia | exact Hend]. }
    destruct (Forall2_In_l _ _ _ e Hruns Hin) as (block & Hblock & Hrb).
    destruct (run_block_is_maximal_run semester storage _ i class_ e block
                Hclass Hin Hrb)
      as (s & Hs & Hen & Hb & Hrun' & Hbefore & Hafter).
    exists block, s, e. split.
    + apply (Permutation_in _ (Permutation_sym (sorted_perm start_id (concat bss)))).
      apply in_concat. exists blocks. auto.
    + split; [exact Hb |]. split; [| lia].
      destruct (Z_le_dec s j) as [Hle | Hgt]; [exact Hle |].
      exfalso. assert (Hs0 : 0 < s) by lia.
      pose proof (Hbefore Hs0) as F. rewrite Hrun in F by lia. discriminate.
Qed.

Lemma extractor_blocks_are_maximal_runs_witness :
  exists schedules,
    SemesterSchedule.get_class_schedules Sample.three_slots Sample.none_and_split
      (SemesterSchedule.__init__ Sample.two_classes Sample.three_slots)
    = Ok schedules
    /\ exists block s e,
         In block schedules
         /\ block_of Sample.two_classes Sample.three_slots 1 s e block
         /\ s <= 2 <= e.
Proof.
  destruct (extractor_blocks_are_maximal_runs Sample.two_classes Sample.three_slots
              Sample.none_and_split)
    as (schedules & Hget & _ & Hcover).
  - intros i j _ _. discriminate.
  - exists schedules. split; [exact Hget |].
    apply (Hcover 1 2); [vm_compute; split; congruence | vm_compute; split; congruence
                         | reflexivity].
Defined.

(** ** Sorting twice *)

Lemma group_sort_classes_idempotent (group : Group.t) :
  Group.sort_classes (Group.sort_classes group) = Group.sort_classes group.
Proof.
  unfold Group.sort_classes. simpl. f_equal.
  apply (sorted_id Class_.name). apply (sorted_Sorted Class_.name string_ltb_asym).
Qed.

(** X6.  [Semester.sort_classes] is idempotent: on a semester whose classes
    were sorted already, it changes neither the groups nor the class list. *)
Theorem sort_classes_idempotent (semester : Semester.t) :
  Semester.sort_classes (Semester.sort_classes semester)
  = Semester.sort_classes semester.
Proof.
  unfold Semester.sort_classes. cbn [Semester.groups Semester.id Semester.name].
  rewrite map_map.
  rewrite (map_ext _ _ (fun g => group_sort_classes_idempotent g)).
  reflexivity.
Qed.

(** * The loaders *)

(** ** The calendar *)

Lemma nth_error_combine_seq {A : Type} (o : Z) (l : list A) (s k : nat) (x : A) :
  nth_error l k = Some x ->
  nth_error (combine (map (fun t => o + Z.of_nat t) (seq s (length l))) l) k
  = Some (o + Z.of_nat (s + k)%nat, x).
Proof.
  revert s k; induction l as [| y l IH]; intros s k H.
  - destruct k; discriminate.
  - destruct k as [| k]; simpl in *.
    + injection H as ->. now rewrite Nat.add_0_r.
    + rewrite (IH (S s) k H). do 3 f_equal. lia.
Qed.

Lemma enumerate_index {A : Type} (l : list A) (i : Z) (x : A) :
  0 <= i -> index l i = Ok x -> index (enumerate l) i = Ok (i, x).
Proof.
  intros Hi H. rewrite index_nth in H by exact Hi. rewrite index_nth by exact Hi.
  destruct (nth_error l (Z.to_nat i)) eqn:E; inv_Ok H. subst a.
  unfold enumerate, range, len.
  replace (Z.to_nat (Z.of_nat (length l) - 0)) with (length l) by lia.
  rewrite (nth_error_combine_seq 0 l 0 _ x E). do 2 f_equal. lia.
Qed.

Lemma enumerate_length {A : Type} (l : list A) : length (enumerate l) = length l.
Proof.
  unfold enumerate. rewrite length_combine, range_length. unfold len. lia.
Qed.

Section LoadSlots.
Variable NUMBER_OF_CLASS_DAYS : Z.

(** The slot that the loop builds from the row [snd ir] at position
    [fst ir]. *)
Let slot_at (slot_count_per_day : Z) (ir : Z * parsing.slot_row) : Slot.t :=
  {| Slot.id := parsing.slot_id (snd ir);
     Slot.weekday := parsing.slot_weekday (snd ir);
     Slot.start_time := parsing.slot_start_time (snd ir);
     Slot.end_time := parsing.slot_end_time (snd ir);
     Slot.is_lunch_break := fst ir mod slot_count_per_day =? 4;
     Slot.is_evening := fst ir mod slot_count_per_day >=? 9 |}.

Let body (slot_count_per_day : Z) (ir : Z * parsing.slot_row) (data : list Slot.t)
  : result (list Slot.t) :=
  let '(i, row) := ir in
  lunch <- mod_ i slot_count_per_day ;;
  evening <- mod_ i slot_count_per_day ;;
  let item :=
    {| Slot.id := parsing.slot_id row;
       Slot.weekday := parsing.slot_weekday row;
       Slot.start_time := parsing.slot_start_time row;
       Slot.end_time := parsing.slot_end_time row;
       Slot.is_lunch_break := lunch =? 4;
       Slot.is_evening := evening >=? 9 |} in
  Ok (data ++ [item]).

Lemma load_slots_loop (slot_count_per_day : Z) (l : list (Z * parsing.slot_row))
    (data : list Slot.t) :
  slot_count_per_day <> 0 ->
  for_each l (body slot_count_per_day) data
  = Ok (data ++ map (slot_at slot_count_per_day) l).
Proof.
  intros Hspd. revert data; induction l as [| [i row] l IH]; intros data; simpl.
  - now rewrite app_nil_r.
  - unfold mod_. destruct (Z.eqb_spec slot_count_per_day 0); [contradiction |].
    simpl. rewrite IH. now rewrite <- app_assoc.
Qed.

Lemma load_slots_loop_zero (l : list (Z * parsing.slot_row)) (data : list Slot.t) :
  l <> [] -> for_each l (body 0) data = Raise ZeroDivisionError.
Proof. destruct l as [| [i row] l]; [contradiction | reflexivity]. Qed.

Lemma load_slots_Ok (rows : list parsing.slot_row) :
  NUMBER_OF_CLASS_DAYS <> 0 ->
  rows = [] \/ len rows / NUMBER_OF_CLASS_DAYS <> 0 ->
  parsing.load_slots NUMBER_OF_CLASS_DAYS rows
  = Ok (map (slot_at (len rows / NUMBER_OF_CLASS_DAYS)) (enumerate rows)).
Proof.
  intros Hdays Hspd. unfold parsing.load_slots, utils.get_slot_count_per_day_, floordiv.
  destruct (Z.eqb_spec NUMBER_OF_CLASS_DAYS 0); [contradiction |].
  rewrite bind_ret. destruct Hspd as [-> | Hspd]; [reflexivity |].
  exact (load_slots_loop _ (enumerate rows) [] Hspd).
Qed.

Lemma load_slots_Raise (rows : list parsing.slot_row) :
  NUMBER_OF_CLASS_DAYS = 0 \/ (rows <> [] /\ len rows / NUMBER_OF_CLASS_DAYS = 0) ->
  parsing.load_slots NUMBER_OF_CLASS_DAYS rows = Raise ZeroDivisionError.
Proof.
  intros H. unfold parsing.load_slots, utils.get_slot_count_per_day_, floordiv.
  destruct (Z.eqb_spec NUMBER_OF_CLASS_DAYS 0) as [E | Hdays]; [reflexivity |].
  destruct H as [E | [Hrows Hspd]]; [contradiction |].
  rewrite bind_ret, Hspd. apply (load_slots_loop_zero (enumerate rows) []).
  intros E. apply (f_equal (@length _)) in E. rewrite enumerate_length in E.
  destruct rows; [contradiction | simpl in E; discriminate].
Qed.

Lemma load_slots_index (rows : list parsing.slot_row) (slots : list Slot.t)
    (i : Z) (row : parsing.slot_row) :
  parsing.load_slots NUMBER_OF_CLASS_DAYS rows = Ok slots ->
  0 <= i -> index rows i = Ok row ->
  index slots i = Ok (slot_at (len rows / NUMBER_OF_CLASS_DAYS) (i, row))
  /\ len slots = len rows.
Proof.
  intros Hload Hi Hrow.
  destruct (Z.eq_dec NUMBER_OF_CLASS_DAYS 0) as [Hdays | Hdays].
  { rewrite load_slots_Raise in Hload by (now left). discriminate. }
  assert (Hne : rows <> []).
  { intros ->. apply index_In in Hrow. contradiction. }
  destruct (Z.eq_dec (len rows / NUMBER_OF_CLASS_DAYS) 0) as [Hspd | Hspd].
  { rewrite load_slots_Raise in Hload by (right; auto). discriminate. }
  rewrite load_slots_Ok in Hload by auto. inv_Ok Hload. subst slots. split.
  - rewrite index_nth by exact Hi. rewrite nth_error_map.
    pose proof (enumerate_index rows i row Hi Hrow) as He.
    rewrite index_nth in He by exact Hi.
    destruct (nth_error (enumerate rows) (Z.to_nat i)); inv_Ok He. subst p.
    reflexivity.
  - unfold len. now rewrite length_map, enumerate_length.
Qed.
End LoadSlots.

(** [load_slots] on converted rows: when it raises, when it returns, and
    what it returns. *)
Lemma load_slots_cases (NUMBER_OF_CLASS_DAYS : Z) (rows : list parsing.slot_row) :
  let slot_count_per_day := len rows / NUMBER_OF_CLASS_DAYS in
  (parsing.load_slots NUMBER_OF_CLASS_DAYS rows = Raise ZeroDivisionError
   <-> NUMBER_OF_CLASS_DAYS = 0 \/ (rows <> [] /\ slot_count_per_day = 0))
  /\ ((exists slots, parsing.load_slots NUMBER_OF_CLASS_DAYS rows = Ok slots)
      <-> NUMBER_OF_CLASS_DAYS <> 0 /\ (rows = [] \/ slot_count_per_day <> 0))
  /\ forall slots,
       parsing.load_slots NUMBER_OF_CLASS_DAYS rows = Ok slots ->
       len slots = len rows
       /\ utils.get_slot_count_per_day_ NUMBER_OF_CLASS_DAYS (len slots)
          = Ok slot_count_per_day
       /\ forall i row,
            0 <= i -> index rows i = Ok row ->
            exists slot,
              index slots i = Ok slot
              /\ Slot.id slot = parsing.slot_id row
              /\ Slot.weekday slot = parsing.slot_weekday row
              /\ Slot.start_time slot = parsing.slot_start_time row
              /\ Slot.end_time slot = parsing.slot_end_time row
              /\ (Slot.is_lunch_break slot = true <-> i mod slot_count_per_day = 4)
              /\ (Slot.is_evening slot = true <-> 9 <= i mod slot_count_per_day)
              /\ Slot.is_lunch_break slot && Slot.is_evening slot = false.
Proof.
  intros spd.
  assert (Hcases : (NUMBER_OF_CLASS_DAYS = 0 \/ (rows <> [] /\ spd = 0))
                   \/ (NUMBER_OF_CLASS_DAYS <> 0 /\ (rows = [] \/ spd <> 0))).
  { destruct (Z.eq_dec NUMBER_OF_CLASS_DAYS 0); [now left; left |].
    destruct rows as [| r rows']; [right; auto |].
    destruct (Z.eq_dec spd 0); [left; right; split; [discriminate | assumption] |].
    right. auto. }
  split; [| split].
  - split.
    + intros H. destruct Hcases as [Hbad | [Hdays Hspd]]; [exact Hbad |].
      rewrite load_slots_Ok in H by assumption. discriminate.
    + apply load_slots_Raise.
  - split.
    + intros (slots & H). destruct Hcases as [Hbad | Hgood]; [| exact Hgood].
      rewrite load_slots_Raise in H by assumption. discriminate.
    + intros [Hdays Hspd]. eexists. apply load_slots_Ok; assumption.
  - intros slots Hload.
    assert (Hlen : len slots = len rows).
    { destruct Hcases as [Hbad | [Hdays Hspd]].
      - rewrite load_slots_Raise in Hload by assumption. discriminate.
      - rewrite load_slots_Ok in Hload by assumption. inv_Ok Hload. subst slots.
        unfold len. now rewrite length_map, enumerate_length. }
    split; [exact Hlen |]. split.
    + rewrite Hlen. unfold utils.get_slot_count_per_day_, floordiv.
      destruct (Z.eqb_spec NUMBER_OF_CLASS_DAYS 0) as [E | _]; [| reflexivity].
      rewrite load_slots_Raise in Hload by (now left). discriminate.
    + intros i row Hi Hrow.
      destruct (load_slots_index NUMBER_OF_CLASS_DAYS rows slots i row Hload Hi Hrow)
        as [Hslot _].
      eexists. split; [exact Hslot |]. cbn. fold spd.
      split; [reflexivity |]. split; [reflexivity |]. split; [reflexivity |].
      split; [reflexivity |]. split; [apply Z.eqb_eq |]. split.
      * rewrite Z.geb_le. reflexivity.
      * destruct (Z.eqb_spec (i mod spd) 4) as [E | _]; [| reflexivity].
        rewrite E. reflexivity.
Qed.

(** X7.  The calendar that [load_slots] returns.  Whenever it returns, it
    returns one slot per row, in order, with the fields of the row; the slot
    at position [i] is a lunch break exactly when [i] is the fifth position
    of its day and an evening slot exactly when it is at the tenth position
    or later, never both; and the slots-per-day that the builders compute
    later from the loaded calendar is the one the flags were computed
    with. *)
Theorem load_slots_flags (NUMBER_OF_CLASS_DAYS : Z) (rows : list parsing.slot_row)
    (slots : list Slot.t) :
  let slot_count_per_day := len rows / NUMBER_OF_CLASS_DAYS in
  parsing.load_slots NUMBER_OF_CLASS_DAYS rows = Ok slots ->
  len slots = len rows
  /\ utils.get_slot_count_per_day_ NUMBER_OF_CLASS_DAYS (len slots)
     = Ok slot_count_per_day
  /\ forall i row,
       0 <= i -> index rows i = Ok row ->
       exists slot,
         index slots i = Ok slot
         /\ Slot.id slot = parsing.slot_id row
         /\ Slot.weekday slot = parsing.slot_weekday row
         /\ Slot.start_time slot = parsing.slot_start_time row
         /\ Slot.end_time slot = parsing.slot_end_time row
         /\ (Slot.is_lunch_break slot = true <-> i mod slot_count_per_day = 4)
         /\ (Slot.is_evening slot = true <-> 9 <= i mod slot_count_per_day)
         /\ Slot.is_lunch_break slot && Slot.is_evening slot = false.
Proof.
  intros spd H.
  exact (proj2 (proj2 (load_slots_cases NUMBER_OF_CLASS_DAYS rows)) slots H).
Qed.

Lemma load_slots_flags_witness :
  exists slots,
    parsing.load_slots 2 (Sample.slot_rows 4) = Ok slots /\ len slots = 4.
Proof.
  destruct (parsing.load_slots 2 (Sample.slot_rows 4)) as [error | slots] eqn:E;
    [vm_compute in E; discriminate |].
  destruct (load_slots_flags 2 (Sample.slot_rows 4) slots E) as (Hlen & _).
  exists slots. split; [reflexivity | exact Hlen].
Defined.

(** X19.  On converted rows, [load_slots] ends with [ZeroDivisionError]
    exactly when the number of class days is 0, or when there are rows and
    their count divided by the number of class days is 0 (with a positive
    number of days: fewer rows than days), and it returns exactly in the
    other cases. *)
Theorem load_slots_outcome (NUMBER_OF_CLASS_DAYS : Z) (rows : list parsing.slot_row) :
  let slot_count_per_day := len rows / NUMBER_OF_CLASS_DAYS in
  (parsing.load_slots NUMBER_OF_CLASS_DAYS rows = Raise ZeroDivisionError
   <-> NUMBER_OF_CLASS_DAYS = 0 \/ (rows <> [] /\ slot_count_per_day = 0))
  /\ ((exists slots, parsing.load_slots NUMBER_OF_CLASS_DAYS rows = Ok slots)
      <-> NUMBER_OF_CLASS_DAYS <> 0 /\ (rows = [] \/ slot_count_per_day <> 0)).
Proof.
  intros spd.
  destruct (load_slots_cases NUMBER_OF_CLASS_DAYS rows) as (H1 & H2 & _).
  split; [exact H1 | exact H2].
Qed.

(** ** The teachers' preferences *)

Lemma expand_preference_shift (i x : Z) :
  parsing.expand_preference (3 + i) x = parsing.expand_preference i x.
Proof.
  unfold parsing.expand_preference.
  replace ((3 + i) mod 3) with (i mod 3); [reflexivity |].
  replace (3 + i) with (i + 1 * 3) by lia. now rewrite Z.mod_add by lia.
Qed.

Lemma flat_map_expand_shift (o : Z) (ts : list nat) (fields : list Z) :
  flat_map (fun ix => parsing.expand_preference (fst ix) (snd ix))
           (combine (map (fun t => 3 + (o + Z.of_nat t)) ts) fields)
  = flat_map (fun ix => parsing.expand_preference (fst ix) (snd ix))
             (combine (map (fun t => o + Z.of_nat t) ts) fields).
Proof.
  revert fields; induction ts as [| t ts IH]; intros [| x fields];
    cbn [map combine flat_map fst snd]; try reflexivity.
  rewrite expand_preference_shift, IH. reflexivity.
Qed.

Lemma slot_preferences_flat_map (fields : list Z) :
  parsing.slot_preferences fields
  = flat_map (fun ix => parsing.expand_preference (fst ix) (snd ix)) (enumerate fields).
Proof.
  unfold parsing.slot_preferences.
  exact (fold_left_app_flat_map
           (fun ix => parsing.expand_preference (fst ix) (snd ix)) (enumerate fields) []).
Qed.

(** The three fields of a day give its fifteen preferences: four for the
    morning, none for the lunch break, four for the afternoon and six for the
    evening; the fields that follow are those of the next days. *)
Lemma slot_preferences_day (x0 x1 x2 : Z) (fields : list Z) :
  parsing.slot_preferences (x0 :: x1 :: x2 :: fields)
  = repeat (Some x0) 4 ++ [None] ++ repeat (Some x1) 4 ++ repeat (Some x2) 6
    ++ parsing.slot_preferences fields.
Proof.
  rewrite !slot_preferences_flat_map. unfold enumerate, range, len.
  replace (Z.to_nat (Z.of_nat (length (x0 :: x1 :: x2 :: fields)) - 0))
    with (S (S (S (length fields)))) by (simpl length; lia).
  replace (Z.to_nat (Z.of_nat (length fields) - 0)) with (length fields) by lia.
  cbn [seq map combine flat_map].
  rewrite <- !seq_shift, !map_map.
  rewrite (map_ext (fun t => 0 + Z.of_nat (S (S (S t))))
                   (fun t => 3 + (0 + Z.of_nat t))) by (intros; lia).
  rewrite flat_map_expand_shift. reflexivity.
Qed.

Lemma index_app_r {A : Type} (l1 l2 : list A) (i : Z) :
  len l1 <= i -> index (l1 ++ l2) i = index l2 (i - len l1).
Proof.
  intros H. pose proof (len_nonneg l1) as H1.
  rewrite !index_nth by lia. rewrite nth_error_app2 by (unfold len in H; lia).
  replace (Z.to_nat i - length l1)%nat with (Z.to_nat (i - len l1))
    by (unfold len; lia).
  reflexivity.
Qed.

Lemma slot_preferences_index (days : nat) :
  forall fields j,
    len fields = 3 * Z.of_nat days -> 0 <= j < 15 * Z.of_nat days ->
    index (parsing.slot_preferences fields) j
    = if j mod 15 =? 4 then Ok None
      else x <- index fields (3 * (j / 15) + day_part (j mod 15)) ;; Ok (Some x).
Proof.
  induction days as [| days IH]; intros fields j Hlen Hj; [lia |].
  destruct fields as [| x0 [| x1 [| x2 fields]]];
    try (unfold len in Hlen; simpl in Hlen; lia).
  rewrite slot_preferences_day.
  destruct (Z_lt_dec j 15) as [Hlt | Hge].
  - assert (E : j = 0 \/ j = 1 \/ j = 2 \/ j = 3 \/ j = 4 \/ j = 5 \/ j = 6 \/ j = 7
                \/ j = 8 \/ j = 9 \/ j = 10 \/ j = 11 \/ j = 12 \/ j = 13 \/ j = 14)
      by lia.
    repeat (destruct E as [E | E]); subst j; reflexivity.
  - change (repeat (Some x0) 4 ++ [None] ++ repeat (Some x1) 4 ++ repeat (Some x2) 6
            ++ parsing.slot_preferences fields)
      with ((repeat (Some x0) 4 ++ [None] ++ repeat (Some x1) 4 ++ repeat (Some x2) 6)
            ++ parsing.slot_preferences fields).
    rewrite index_app_r by (cbn; lia).
    change (len (repeat (Some x0) 4 ++ [None] ++ repeat (Some x1) 4
                 ++ repeat (Some x2) 6)) with 15.
    rewrite IH; [| unfold len in *; simpl length in Hlen; lia | lia].
    assert (Hmod : (j - 15) mod 15 = j mod 15).
    { replace (j - 15) with (j + (-1) * 15) by lia. now rewrite Z.mod_add by lia. }
    assert (Hdiv : (j - 15) / 15 = j / 15 - 1).
    { replace (j - 15) with (j + (-1) * 15) by lia. rewrite Z.div_add by lia. lia. }
    rewrite Hmod, Hdiv.
    destruct (j mod 15 =? 4); [reflexivity |].
    assert (Hq : 1 <= j / 15) by (apply Z.div_le_lower_bound; lia).
    assert (Hp : 0 <= day_part (j mod 15) <= 2).
    { unfold day_part. destruct (_ <? 4); [lia |]. destruct (_ <? 9); lia. }
    f_equal.
    rewrite !index_nth by lia.
    replace (Z.to_nat (3 * (j / 15) + day_part (j mod 15)))
      with (S (S (S (Z.to_nat (3 * (j / 15 - 1) + day_part (j mod 15)))))) by lia.
    reflexivity.
Qed.

Lemma slot_preferences_length (days : nat) :
  forall fields,
    len fields = 3 * Z.of_nat days ->
    len (parsing.slot_preferences fields) = 15 * Z.of_nat days.
Proof.
  induction days as [| days IH]; intros fields Hlen.
  - destruct fields; [reflexivity | unfold len in Hlen; simpl in Hlen; lia].
  - destruct fields as [| x0 [| x1 [| x2 fields]]];
      try (unfold len in Hlen; simpl in Hlen; lia).
    rewrite slot_preferences_day. rewrite !len_app.
    rewrite IH by (unfold len in *; simpl length in Hlen; lia).
    change (len (repeat (Some x0) 4)) with 4. change (len [@None Z]) with 1.
    change (len (repeat (Some x1) 4)) with 4. change (len (repeat (Some x2) 6)) with 6.
    lia.
Qed.

(** X8.  With a calendar of fifteen slots per day and three preference
    fields per day in a teacher's row, the expanded preferences line up with
    the calendar that [load_slots] builds: there is one preference per slot;
    the preference of a slot is [None] exactly when the slot is the lunch
    break; an evening slot has the third field of its day, a slot before the
    lunch break the first and a slot between the lunch break and the evening
    the second. *)
Theorem preferences_follow_the_calendar (NUMBER_OF_CLASS_DAYS : Z)
    (rows : list parsing.slot_row) (fields : list Z) :
  0 < NUMBER_OF_CLASS_DAYS ->
  len rows = 15 * NUMBER_OF_CLASS_DAYS ->
  len fields = 3 * NUMBER_OF_CLASS_DAYS ->
  exists slots,
    parsing.load_slots NUMBER_OF_CLASS_DAYS rows = Ok slots
    /\ len (parsing.slot_preferences fields) = len slots
    /\ forall j slot,
         0 <= j -> index slots j = Ok slot ->
         if Slot.is_lunch_break slot
         then index (parsing.slot_preferences fields) j = Ok None
         else exists x,
                index (parsing.slot_preferences fields) j = Ok (Some x)
                /\ index fields
                     (3 * (j / 15)
                      + (if Slot.is_evening slot then 2
                         else if j mod 15 <? 4 then 0 else 1))
                   = Ok x.
Proof.
  intros Hdays Hrows Hfields.
  assert (Hspd : len rows / NUMBER_OF_CLASS_DAYS = 15).
  { rewrite Hrows. apply Z.div_mul. lia. }
  assert (Hload := load_slots_Ok NUMBER_OF_CLASS_DAYS rows ltac:(lia)
                     ltac:(right; rewrite Hspd; discriminate)).
  eexists. split; [exact Hload |].
  set (slots := map _ (enumerate rows)) in *.
  set (d := Z.to_nat NUMBER_OF_CLASS_DAYS).
  assert (Hd : NUMBER_OF_CLASS_DAYS = Z.of_nat d) by (unfold d; lia).
  assert (Hlen : len slots = len rows).
  { unfold slots, len. now rewrite length_map, enumerate_length. }
  split.
  { rewrite (slot_preferences_length d) by (rewrite Hfields, Hd; reflexivity). lia. }
  intros j slot Hj Hslot.
  assert (Hjn : j < len slots).
  { rewrite index_nth in Hslot by exact Hj.
    destruct (nth_error slots (Z.to_nat j)) eqn:E; inv_Ok Hslot.
    assert ((Z.to_nat j < length slots)%nat) by (apply nth_error_Some; congruence).
    unfold len. lia. }
  destruct (index_Ok rows j ltac:(lia)) as (row & Hrow).
  destruct (load_slots_index NUMBER_OF_CLASS_DAYS rows slots j row Hload Hj Hrow)
    as [Hslot' _].
  rewrite Hslot in Hslot'. inv_Ok Hslot'. subst slot. cbn [Slot.is_lunch_break Slot.is_evening fst].
  rewrite Hspd.
  pose proof (slot_preferences_index d fields j ltac:(lia) ltac:(lia)) as Hpref.
  pose proof (Z.mod_pos_bound j 15 ltac:(lia)) as Hr.
  destruct (Z.eqb_spec (j mod 15) 4) as [E4 | N4]; [exact Hpref |].
  assert (Hq : 0 <= j / 15 < NUMBER_OF_CLASS_DAYS).
  { split; [apply Z.div_pos; lia | apply Z.div_lt_upper_bound; lia]. }
  assert (Hp : 0 <= day_part (j mod 15) <= 2).
  { unfold day_part. destruct (_ <? 4); [lia |]. destruct (_ <? 9); lia. }
  destruct (index_Ok fields (3 * (j / 15) + day_part (j mod 15)) ltac:(lia))
    as (x & Hx).
  rewrite Hx in Hpref. exists x. split; [exact Hpref |].
  rewrite <- Hx. do 2 f_equal. unfold day_part.
  destruct (Z.geb_spec (j mod 15) 9) as [H9 | H9].
  - destruct (Z.ltb_spec (j mod 15) 4); [lia |].
    destruct (Z.ltb_spec (j mod 15) 9); [lia | reflexivity].
  - destruct (Z.ltb_spec (j mod 15) 4); [reflexivity |].
    destruct (Z.ltb_spec (j mod 15) 9); [reflexivity | lia].
Qed.

Lemma preferences_follow_the_calendar_witness :
  exists slots,
    parsing.load_slots 1 (Sample.slot_rows 15) = Ok slots
    /\ len (parsing.slot_preferences [5; 0; 3]) = len slots.
Proof.
  destruct (preferences_follow_the_calendar 1 (Sample.slot_rows 15) [5; 0; 3])
    as (slots & Hload & Hlen & _).
  - lia.
  - reflexivity.
  - reflexivity.
  - exists slots. split; [exact Hload | exact Hlen].
Defined.

(** ** The catalog of teachers *)

Lemma dict_set_keys {V : Type} (d : dict Z V) (k : Z) (v : V) :
  map fst (dict_set Z.eqb d k v)
  = if dict_contains Z.eqb d k then map fst d else map fst d ++ [k].
Proof.
  induction d as [| [k' v'] d IH]; simpl; [reflexivity |].
  destruct (Z.eqb_spec k k') as [-> | Hne]; simpl; [reflexivity |].
  rewrite IH. unfold dict_contains. destruct (existsb _ d); reflexivity.
Qed.

Lemma dict_set_In {V : Type} (d : dict Z V) (k : Z) (v : V) (kv : Z * V) :
  In kv (dict_set Z.eqb d k v) -> kv = (k, v) \/ In kv d.
Proof.
  induction d as [| [k' v'] d IH]; simpl.
  - intros [<- | []]. now left.
  - destruct (Z.eqb_spec k k') as [-> | Hne]; simpl.
    + intros [<- | H]; [now left | right; now right].
    + intros [<- | H]; [right; now left |].
      destruct (IH H) as [E | Hin]; [now left | right; now right].
Qed.

Lemma dict_get_In {V : Type} (d : dict Z V) (k : Z) (v : V) :
  dict_get Z.eqb d k = Ok v -> In (k, v) d.
Proof.
  induction d as [| [k' v'] d IH]; simpl; [discriminate |].
  destruct (Z.eqb_spec k k') as [-> | Hne].
  - intros H. inv_Ok H. subst. now left.
  - intros H. right. exact (IH H).
Qed.

Lemma dict_get_keys {V : Type} (d : dict Z V) (k : Z) :
  (In k (map fst d) -> exists v, dict_get Z.eqb d k = Ok v)
  /\ (~ In k (map fst d) -> dict_get Z.eqb d k = Raise KeyError).
Proof.
  induction d as [| [k' v'] d [IH1 IH2]]; simpl.
  - split; [contradiction | reflexivity].
  - destruct (Z.eqb_spec k k') as [-> | Hne].
    + split; [eauto | tauto].
    + split.
      * intros [E | H]; [congruence | exact (IH1 H)].
      * intros H. apply IH2. tauto.
Qed.

(** The catalog that [load_teachers] builds: every teacher is filed under
    its own identifier, and the identifiers are those of the rows. *)
Lemma load_teachers_inv (rows : list parsing.teacher_row) :
  let teachers := parsing.load_teachers rows in
  (forall kv, In kv teachers -> Teacher.id (snd kv) = fst kv)
  /\ forall k, In k (map fst teachers)
               <-> exists row, In row rows /\ parsing.teacher_id row = k.
Proof.
  unfold parsing.load_teachers.
  induction rows as [| row rows [IH1 IH2]] using rev_ind.
  - simpl. split; [contradiction |]. intros k. split; [contradiction |].
    intros (row & [] & _).
  - rewrite fold_left_app. cbn [fold_left Teacher.id]. split.
    + intros kv Hin. apply dict_set_In in Hin. destruct Hin as [-> | Hin];
        [reflexivity | exact (IH1 kv Hin)].
    + intros k. rewrite dict_set_keys.
      destruct (dict_contains Z.eqb _ (parsing.teacher_id row)) eqn:E.
      * rewrite IH2. split.
        -- intros (r & Hr & Hk). exists r. split; [apply in_or_app; now left | exact Hk].
        -- intros (r & Hr & Hk). apply in_app_or in Hr. destruct Hr as [Hr | [<- | []]].
           ++ exists r. auto.
           ++ apply IH2. apply (dict_contains_In Z.eqb_spec). now rewrite Hk in E.
      * rewrite in_app_iff, IH2. split.
        -- intros [(r & Hr & Hk) | [<- | []]].
           ++ exists r. split; [apply in_or_app; now left | exact Hk].
           ++ exists row. split; [apply in_or_app; right; now left | reflexivity].
        -- intros (r & Hr & Hk). apply in_app_or in Hr. destruct Hr as [Hr | [<- | []]].
           ++ left. exists r. auto.
           ++ right. now left.
Qed.

Lemma class_teachers_loop (teachers : dict Z Teacher.t) (teacher_ids : list Z)
    (class_teachers : list Teacher.t) :
  (forall id, In id teacher_ids -> In id (map fst teachers)) ->
  exists found,
    for_each teacher_ids
      (fun teacher_id class_teachers =>
         teacher <- dict_get Z.eqb teachers teacher_id ;;
         Ok (class_teachers ++ [teacher]))
      class_teachers
    = Ok (class_teachers ++ found)
    /\ Forall2 (fun id teacher => In (id, teacher) teachers) teacher_ids found.
Proof.
  revert class_teachers; induction teacher_ids as [| id ids IH];
    intros class_teachers Hall.
  - exists []. split; [simpl; now rewrite app_nil_r | constructor].
  - destruct (proj1 (dict_get_keys teachers id) (Hall id (or_introl eq_refl)))
      as (teacher & Hget).
    destruct (IH (class_teachers ++ [teacher])) as (found & Hloop & Hfound).
    { intros; apply Hall; now right. }
    exists (teacher :: found). split.
    + cbn [for_each]. rewrite Hget, !bind_ret, Hloop. now rewrite <- app_assoc.
    + constructor; [apply dict_get_In; exact Hget | exact Hfound].
Qed.

Lemma class_teachers_loop_missing (teachers : dict Z Teacher.t) (teacher_ids : list Z)
    (class_teachers : list Teacher.t) :
  (exists id, In id teacher_ids /\ ~ In id (map fst teachers)) ->
  for_each teacher_ids
    (fun teacher_id class_teachers =>
       teacher <- dict_get Z.eqb teachers teacher_id ;;
       Ok (class_teachers ++ [teacher]))
    class_teachers
  = Raise KeyError.
Proof.
  revert class_teachers; induction teacher_ids as [| id ids IH];
    intros class_teachers (missing & Hin & Hmissing).
  - contradiction.
  - cbn [for_each]. destruct (in_dec Z.eq_dec id (map fst teachers)) as [Hid | Hid].
    + destruct (proj1 (dict_get_keys teachers id) Hid) as (teacher & Hget).
      rewrite Hget, !bind_ret. apply IH. exists missing. split; [| exact Hmissing].
      destruct Hin as [-> | Hin]; [contradiction | exact Hin].
    + rewrite (proj2 (dict_get_keys teachers id) Hid). reflexivity.
Qed.

Lemma found_in_catalog (teachers : dict Z Teacher.t) (teacher_ids : list Z)
    (found : list Teacher.t) :
  (forall kv, In kv teachers -> Teacher.id (snd kv) = fst kv) ->
  Forall2 (fun id teacher => In (id, teacher) teachers) teacher_ids found ->
  map Teacher.id found = teacher_ids
  /\ Forall (fun teacher => In teacher (dict_values teachers)) found.
Proof.
  intros Hid. induction 1 as [| id teacher ids found Hin _ [IH1 IH2]]; simpl.
  - split; [reflexivity | constructor].
  - split.
    + pose proof (Hid _ Hin) as E. simpl in E. rewrite E. f_equal. exact IH1.
    + constructor; [| exact IH2].
      unfold dict_values. apply in_map_iff. exists (id, teacher). auto.
Qed.

(** X9.  The resolution of the teachers of a class against the catalog that
    [load_teachers] builds.  It ends with [KeyError] exactly when the class
    lists an identifier that no row of the teachers' file has.  Otherwise it
    returns, for each listed identifier in order, a teacher of the catalog
    with that identifier, so that afterwards [contains_teacher] holds for a
    teacher exactly when the identifier of that teacher is listed. *)
Theorem class_teachers_spec (rows : list parsing.teacher_row) (teacher_ids : list Z) :
  let teachers := parsing.load_teachers rows in
  (DataStorage.class_teachers teachers teacher_ids = Raise KeyError
   <-> exists id, In id teacher_ids
                  /\ forall row, In row rows -> parsing.teacher_id row <> id)
  /\ ((exists class_teachers,
         DataStorage.class_teachers teachers teacher_ids = Ok class_teachers)
      <-> forall id, In id teacher_ids ->
            exists row, In row rows /\ parsing.teacher_id row = id)
  /\ forall class_teachers,
       DataStorage.class_teachers teachers teacher_ids = Ok class_teachers ->
       map Teacher.id class_teachers = teacher_ids
       /\ Forall (fun teacher => In teacher (dict_values teachers)) class_teachers
       /\ forall class_ teacher,
            Class_.teachers class_ = class_teachers ->
            (Class_.contains_teacher class_ teacher = true
             <-> In (Teacher.id teacher) teacher_ids).
Proof.
  intros teachers.
  destruct (load_teachers_inv rows) as [Hid Hkeys]. fold teachers in Hid, Hkeys.
  assert (Hcases : (exists id, In id teacher_ids /\ ~ In id (map fst teachers))
                   \/ (forall id, In id teacher_ids -> In id (map fst teachers))).
  { clear. induction teacher_ids as [| id ids [IH | IH]].
    - right. contradiction.
    - left. destruct IH as (x & Hx & Hm). exists x. split; [now right | exact Hm].
    - destruct (in_dec Z.eq_dec id (map fst teachers)) as [H | H].
      + right. intros x [<- | Hx]; [exact H | exact (IH x Hx)].
      + left. exists id. split; [now left | exact H]. }
  assert (Hmissing : (exists id, In id teacher_ids /\ ~ In id (map fst teachers))
                     <-> exists id, In id teacher_ids
                           /\ forall row, In row rows -> parsing.teacher_id row <> id).
  { split; intros (id & Hin & H); exists id; (split; [exact Hin |]).
    - intros row Hrow E. apply H, Hkeys. eauto.
    - intros Hk. apply Hkeys in Hk. destruct Hk as (row & Hrow & E). exact (H row Hrow E). }
  assert (Hpresent : (forall id, In id teacher_ids -> In id (map fst teachers))
                     <-> forall id, In id teacher_ids ->
                           exists row, In row rows /\ parsing.teacher_id row = id).
  { split; intros H id Hin; apply Hkeys, H, Hin. }
  unfold DataStorage.class_teachers.
  split; [| split].
  - rewrite <- Hmissing. split; [| apply class_teachers_loop_missing].
    intros H. destruct Hcases as [Hc | Hc]; [exact Hc |].
    destruct (class_teachers_loop teachers teacher_ids [] Hc) as (found & Hloop & _).
    rewrite Hloop in H. discriminate.
  - rewrite <- Hpresent. split.
    + intros (found & H). destruct Hcases as [Hc | Hc]; [| exact Hc].
      rewrite (class_teachers_loop_missing teachers teacher_ids [] Hc) in H. discriminate.
    + intros Hc. destruct (class_teachers_loop teachers teacher_ids [] Hc)
        as (found & Hloop & _). eauto.
  - intros class_teachers H.
    destruct Hcases as [Hc | Hc].
    { rewrite (class_teachers_loop_missing teachers teacher_ids [] Hc) in H.
      discriminate. }
    destruct (class_teachers_loop teachers teacher_ids [] Hc) as (found & Hloop & Hfound).
    rewrite Hloop in H. inv_Ok H. simpl in H. subst class_teachers.
    destruct (found_in_catalog teachers teacher_ids found Hid Hfound) as [Hids Hvalues].
    split; [exact Hids |]. split; [exact Hvalues |].
    + intros class_ teacher Hts. unfold Class_.contains_teacher. rewrite Hts.
      rewrite existsb_exists, <- Hids, in_map_iff. split.
      * intros (x & Hx & E). apply Z.eqb_eq in E. eauto.
      * intros (x & E & Hx). exists x. split; [exact Hx | apply Z.eqb_eq; auto].
Qed.

(** * The whole model *)

Section MainLoop.
Variables (cs : constants.t) (storage : DataStorage.t).

Let days := constants.NUMBER_OF_CLASS_DAYS cs.
Let schedule (semester : Semester.t) := SemesterSchedule.__init__ semester storage.

Let body (semester : Semester.t)
    (st : PyValue * LpProblem * list SemesterSchedule.t)
  : result (PyValue * LpProblem * list SemesterSchedule.t) :=
  let '(objective_function, model, semester_schedules) := st in
  let semester_schedule := SemesterSchedule.__init__ semester storage in
  fragment <- SemesterSchedule.get_objective_function cs storage semester_schedule ;;
  model <- SemesterSchedule.set_constraints (constants.NUMBER_OF_CLASS_DAYS cs)
             storage semester_schedule model ;;
  Ok (add objective_function fragment, model,
      semester_schedules ++ [semester_schedule]).

Lemma main_loop (semesters : list Semester.t) :
  forall objective0 model0 schedules0 objective model schedules,
    for_each semesters body (objective0, model0, schedules0)
    = Ok (objective, model, schedules) ->
    exists fragments parts,
      Forall2 (fun semester fragment =>
                 SemesterSchedule.get_objective_function cs storage (schedule semester)
                 = Ok fragment)
              semesters fragments
      /\ Forall2 (fun semester part =>
                    SemesterSchedule.set_constraints days storage (schedule semester) []
                    = Ok part)
                 semesters parts
      /\ objective = fold_left add fragments objective0
      /\ model = model0 ++ concat parts
      /\ schedules = schedules0 ++ map schedule semesters.
Proof.
  induction semesters as [| semester semesters IH];
    intros objective0 model0 schedules0 objective model schedules H.
  - simpl in H. inv_Ok H. subst. exists [], []. simpl.
    rewrite !app_nil_r. repeat split; constructor.
  - cbn [for_each] in H. inv_bind H. destruct x as [[objective1 model1] schedules1].
    unfold body in Hx. inv_bind Hx. rename x into fragment. inv_bind Hx.
    rename x into model1'. inv_Ok Hx. subst.
    rewrite set_constraints_frame in Hx1. inv_bind Hx1. rename x into c1.
    inv_bind Hx1. rename x into c2. inv_bind Hx1. rename x into c3. inv_Ok Hx1.
    subst model1.
    destruct (IH _ _ _ _ _ _ H) as (fragments & parts & Hf & Hp & -> & -> & ->).
    exists (fragment :: fragments), ((c1 ++ c2 ++ c3) :: parts).
    split; [constructor; [exact Hx0 | exact Hf] |].
    split.
    + constructor; [| exact Hp].
      rewrite set_constraints_frame. unfold days, schedule.
      rewrite Hx, bind_ret, Hx2, bind_ret, Hx3. reflexivity.
    + split; [reflexivity |]. split.
      * simpl. now rewrite <- !app_assoc.
      * simpl. now rewrite <- app_assoc.
Qed.
End MainLoop.

Lemma Forall2_map_left {A B C : Type} (f : A -> B) (R : B -> C -> Prop)
    (l : list A) (l' : list C) :
  Forall2 (fun x y => R (f x) y) l l' -> Forall2 R (map f l) l'.
Proof. induction 1; simpl; constructor; assumption. Qed.

(** X10.  What [main] hands to the solver.  When [main] reaches the solve,
    the schedules it keeps are those of the semesters of the storage, in
    order; the objective function is the sum of their objective functions;
    and the constraints are those that [set_constraints] gives for each
    semester on its own, in order, followed by those that
    [set_global_constraints] gives for the teachers. *)
Theorem main_model_structure (cs : constants.t) (storage : DataStorage.t)
    (objective_function : PyValue) (model : LpProblem)
    (semester_schedules : list SemesterSchedule.t) :
  main.main cs storage = Ok (objective_function, model, semester_schedules) ->
  semester_schedules
  = map (fun semester => SemesterSchedule.__init__ semester storage)
        (DataStorage.classes_by_semester storage)
  /\ exists fragments parts teachers_part,
       Forall2 (fun semester_schedule fragment =>
                  SemesterSchedule.get_objective_function cs storage semester_schedule
                  = Ok fragment)
               semester_schedules fragments
       /\ Forall2 (fun semester_schedule part =>
                     SemesterSchedule.set_constraints (constants.NUMBER_OF_CLASS_DAYS cs)
                       storage semester_schedule []
                     = Ok part)
                  semester_schedules parts
       /\ main.set_global_constraints [] semester_schedules storage = Ok teachers_part
       /\ objective_function = fold_left add fragments (PyNum 0)
       /\ model = concat parts ++ teachers_part.
Proof.
  unfold main.main. intros H. inv_bind H.
  destruct x as [[objective1 model1] schedules1]. inv_bind H. inv_Ok H. subst.
  destruct (main_loop cs storage _ _ _ _ _ _ _ Hx)
    as (fragments & parts & Hf & Hp & -> & -> & ->).
  simpl in *. split; [reflexivity |].
  rewrite set_global_constraints_frame in Hx0. inv_bind Hx0. inv_Ok Hx0. subst.
  rename x into teachers_part. exists fragments, parts, teachers_part.
  split; [apply Forall2_map_left; exact Hf |].
  split; [apply Forall2_map_left; exact Hp |].
  auto.
Qed.

Lemma main_model_structure_witness :
  exists objective_function model,
    main.main Sample.two_day_week Sample.one_semester
    = Ok (objective_function, model,
          [SemesterSchedule.__init__ Sample.one_class Sample.one_semester]).
Proof.
  destruct (main.main Sample.two_day_week Sample.one_semester)
    as [error | [[objective_function model] semester_schedules]] eqn:E;
    [vm_compute in E; discriminate |].
  destruct (main_model_structure _ _ _ _ _ E) as [-> _].
  exists objective_function, model. reflexivity.
Defined.

(** * Classes that share students *)

Lemma semester_group_names_NoDup (s0 : Semester.t) :
  exists s1,
    Semester.init_groups s0 = Ok s1
    /\ NoDup (map Group.name (Semester.groups (Semester.sort_classes s1))).
Proof.
  destruct (init_groups_spec s0) as (g0 & rest & Hinit & _ & _ & _ & Hnd & _).
  eexists. split; [exact Hinit |].
  cbn [Semester.sort_classes Semester.groups].
  rewrite map_map.
  rewrite (map_ext (fun g => Group.name (Group.sort_classes g)) Group.name)
    by reflexivity.
  eapply Permutation_NoDup; [| exact Hnd].
  apply Permutation_map, perm_skip, Permutation_sym, sorted_perm.
Qed.

Lemma total_ge_one (a : assignment) (vs : list LpVariable) (v : LpVariable) :
  binary a -> In v vs -> a v = 1 -> 1 <= total a vs.
Proof.
  intros Ha. induction vs as [| w vs IH]; intros Hin Hv; [contradiction |].
  simpl. pose proof (total_bounds a vs Ha). pose proof (Ha w).
  destruct Hin as [-> | Hin]; [lia |]. specialize (IH Hin Hv). lia.
Qed.

Lemma col_vars_In (sid j lo hi r : Z) :
  lo <= r < hi -> In (VarX sid r j) (col_vars sid j lo hi).
Proof.
  intros H. unfold col_vars.
  apply (in_map (fun i => VarX sid i j)), range_In. exact H.
Qed.

Lemma col_vars_nth (sid j lo hi r : Z) :
  lo <= r < hi ->
  nth_error (col_vars sid j lo hi) (Z.to_nat (r - lo)) = Some (VarX sid r j).
Proof.
  intros H. unfold col_vars, range. rewrite map_map, nth_error_map, nth_error_seq.
  destruct (Nat.ltb_spec (Z.to_nat (r - lo)) (Z.to_nat (hi - lo))); [| lia].
  simpl. do 2 f_equal. lia.
Qed.

(** Two rows of the same range of a column are not both at 1 when the sum
    of the range is at most 1. *)
Lemma col_vars_unique (a : assignment) (sid j lo hi r1 r2 : Z) :
  binary a -> total a (col_vars sid j lo hi) <= 1 ->
  lo <= r1 < hi -> lo <= r2 < hi -> r1 <> r2 ->
  a (VarX sid r1 j) = 1 -> a (VarX sid r2 j) = 1 -> False.
Proof.
  intros Ha Hle H1 H2 Hne Hv Hw.
  apply (total_le_one_unique a _ (Z.to_nat (r1 - lo)) (Z.to_nat (r2 - lo))
           (VarX sid r1 j) (VarX sid r2 j) Ha Hle); auto using col_vars_nth.
  lia.
Qed.

Lemma group_offsets_In_snd (offset : Z) (groups : list Group.t) (og : Z * Group.t) :
  In og (group_offsets offset groups) -> In (snd og) groups.
Proof.
  revert offset; induction groups as [| g groups IH]; intros offset; simpl;
    [contradiction |].
  intros [<- | H]; [now left | right; exact (IH _ H)].
Qed.

Lemma group_offsets_same_group (offset : Z) (groups : list Group.t)
    (og1 og2 : Z * Group.t) :
  NoDup (map Group.name groups) ->
  In og1 (group_offsets offset groups) -> In og2 (group_offsets offset groups) ->
  Group.name (snd og1) = Group.name (snd og2) -> og1 = og2.
Proof.
  revert offset; induction groups as [| g groups IH]; intros offset Hnd H1 H2 E;
    [contradiction |].
  simpl in Hnd. inversion Hnd as [| ? ? Hnotin Hnd']; subst.
  assert (Hother : forall og, In og (group_offsets (offset + len (Group.classes g)) groups) ->
            Group.name (snd og) <> Group.name g).
  { intros og Hog Heq. apply Hnotin. rewrite <- Heq.
    apply in_map, (group_offsets_In_snd _ _ _ Hog). }
  simpl in H1, H2. destruct H1 as [<- | H1], H2 as [<- | H2].
  - reflexivity.
  - exfalso. simpl in E. exact (Hother og2 H2 (eq_sym E)).
  - exfalso. simpl in E. exact (Hother og1 H1 E).
  - exact (IH _ Hnd' H1 H2 E).
Qed.

(** The per-slot limits in terms of the classes and of their group names. *)
Lemma class_limits_on_classes (s0 : Semester.t) (storage : DataStorage.t) :
  Semester.classes s0 <> [] ->
  exists s1 model,
    Semester.init_groups s0 = Ok s1
    /\ let semester := Semester.sort_classes s1 in
       SemesterSchedule._set_constraints_class_limits_per_slot
         (SemesterSchedule.__init__ semester storage) [] = Ok model
       /\ forall a i1 i2 class1 class2 j,
            feasible a model ->
            0 <= i1 -> index (Semester.classes semester) i1 = Ok class1 ->
            0 <= i2 -> index (Semester.classes semester) i2 = Ok class2 ->
            i1 <> i2 ->
            0 <= j < len (DataStorage.slots storage) ->
            Class_.group_name class1 = Class_.group_name class2
            \/ Class_.group_name class1 = EmptyString
            \/ Class_.group_name class2 = EmptyString ->
            ~ (a (VarX (Semester.id semester) i1 j) = 1
               /\ a (VarX (Semester.id semester) i2 j) = 1).
Proof.
  intros Hcs.
  destruct (semester_groups_spec s0)
    as (s1 & common & rest & Hinit & Hg & _ & _ & Hcommon & _ & _ & Hgc & Hne & _
        & Hcl & Hperm & Hpart & Hidx).
  destruct (semester_group_names_NoDup s0) as (s1' & Hinit' & Hnd).
  rewrite Hinit in Hinit'. inv_Ok Hinit'. subst s1'.
  exists s1. eexists. split; [exact Hinit |].
  cbv zeta in *.
  set (semester := Semester.sort_classes s1) in *.
  set (sid := Semester.id semester).
  set (n := len (DataStorage.slots storage)).
  set (c := len (Group.classes common)).
  rewrite Hg in Hnd.
  assert (Hrows : len (Semester.classes semester)
                  = len (flat_map Group.classes (common :: rest))).
  { rewrite Hcl, flat_map_concat_map. reflexivity. }
  assert (Hm : 0 < len (Semester.classes semester)).
  { apply len_pos. intros E. rewrite E in Hperm.
    apply Permutation_nil in Hperm. contradiction. }
  split.
  { exact (class_limits_per_slot_Ok semester storage common rest Hg Hrows Hne Hm []). }
  intros a i1 i2 class1 class2 j [Ha Hall] Hi1 Hc1 Hi2 Hc2 Hdiff Hj Hshare [Hv1 Hv2].
  simpl in Hall. rewrite Forall_forall in Hall.
  assert (Hslot : forall x, In x (slot_limits sid j common rest) -> satisfies a x).
  { intros x Hx. apply Hall. apply in_flat_map. exists j.
    split; [apply range_In; exact Hj | exact Hx]. }
  (* every row belongs to a group, which gives its class its name *)
  assert (Hrow : forall i class_,
             0 <= i -> index (Semester.classes semester) i = Ok class_ ->
             exists og, In og (group_offsets 0 (common :: rest))
                        /\ fst og <= i < fst og + len (Group.classes (snd og))
                        /\ Class_.group_name class_ = Group.name (snd og)).
  { intros i class_ Hi Hc.
    assert (Hin : In i (range 0 (len (Semester.classes semester)))).
    { apply range_In. split; [exact Hi |]. rewrite index_nth in Hc by exact Hi.
      destruct (nth_error _ (Z.to_nat i)) eqn:E; inv_Ok Hc.
      assert ((Z.to_nat i < length (Semester.classes semester))%nat)
        by (apply nth_error_Some; congruence).
      unfold len. lia. }
    rewrite <- Hpart in Hin. apply in_flat_map in Hin.
    destruct Hin as (og & Hog & Hin). unfold group_rows in Hin. apply range_In in Hin.
    exists og. split; [exact Hog |]. split; [exact Hin |].
    pose proof (Hidx og (i - fst og) Hog ltac:(lia)) as E.
    replace (fst og + (i - fst og)) with i in E by lia. rewrite Hc in E.
    symmetry in E. apply index_In in E.
    destruct (Hgc (snd og) (group_offsets_In_snd _ _ _ Hog)) as [Hsorted _].
    rewrite Hsorted in E.
    apply (Permutation_in _ (sorted_perm Class_.name _)) in E.
    apply filter_In in E. destruct E as [_ E]. unfold in_group in E.
    apply String.eqb_eq in E. exact E. }
  destruct (Hrow i1 class1 Hi1 Hc1) as (og1 & Hog1 & Hr1 & Hn1).
  destruct (Hrow i2 class2 Hi2 Hc2) as (og2 & Hog2 & Hr2 & Hn2).
  (* the sum of the common rows and of the rows of any one group *)
  assert (Hcommon_le : total a (col_vars sid j 0 c) <= 1).
  { unfold slot_limits in Hslot. fold c in Hslot. destruct rest as [| g gs].
    - apply satisfies_common_limit. apply Hslot. now left.
    - pose proof (total_bounds a (col_vars sid j c (c + len (Group.classes g))) Ha).
      assert (H1 : satisfies a (group_limit sid j c (c, g))).
      { apply Hslot. simpl. now left. }
      apply satisfies_group_limit in H1. simpl in H1. lia. }
  assert (Hgroup_le : forall og, In og (group_offsets c rest) ->
            total a (col_vars sid j 0 c)
            + total a (col_vars sid j (fst og) (fst og + len (Group.classes (snd og))))
            <= 1).
  { intros og Hog. apply satisfies_group_limit. apply Hslot.
    unfold slot_limits. fold c. destruct rest as [| g gs]; [contradiction |].
    apply in_map. exact Hog. }
  assert (Hnames : forall og, In og (group_offsets c rest) ->
            Group.name (snd og) <> EmptyString).
  { intros og Hog E. simpl in Hnd. inversion Hnd as [| ? ? Hnotin _]; subst.
    apply Hnotin. rewrite Hcommon, <- E.
    apply in_map, (group_offsets_In_snd _ _ _ Hog). }
  change (group_offsets 0 (common :: rest))
    with ((0, common) :: group_offsets (0 + c) rest) in Hog1, Hog2.
  rewrite Z.add_0_l in Hog1, Hog2.
  destruct Hog1 as [<- | Hog1], Hog2 as [<- | Hog2]; simpl in Hr1, Hr2, Hn1, Hn2.
  - fold c in Hr1, Hr2.
    exact (col_vars_unique a sid j 0 c i1 i2 Ha Hcommon_le Hr1 Hr2 Hdiff Hv1 Hv2).
  - fold c in Hr1. pose proof (Hgroup_le og2 Hog2) as Hle.
    pose proof (total_ge_one a _ _ Ha (col_vars_In sid j 0 c i1 Hr1) Hv1).
    pose proof (total_ge_one a _ _ Ha (col_vars_In sid j _ _ i2 Hr2) Hv2).
    lia.
  - fold c in Hr2. pose proof (Hgroup_le og1 Hog1) as Hle.
    pose proof (total_ge_one a _ _ Ha (col_vars_In sid j 0 c i2 Hr2) Hv2).
    pose proof (total_ge_one a _ _ Ha (col_vars_In sid j _ _ i1 Hr1) Hv1).
    lia.
  - assert (E : og1 = og2).
    { simpl in Hnd. inversion Hnd as [| ? ? _ Hnd']; subst.
      apply (group_offsets_same_group c rest og1 og2 Hnd' Hog1 Hog2).
      destruct Hshare as [E | [E | E]].
      - congruence.
      - exfalso. apply (Hnames og1 Hog1). congruence.
      - exfalso. apply (Hnames og2 Hog2). congruence. }
    subst og2. pose proof (Hgroup_le og1 Hog1) as Hle.
    pose proof (total_bounds a (col_vars sid j 0 c) Ha).
    assert (Hle' : total a (col_vars sid j (fst og1)
                              (fst og1 + len (Group.classes (snd og1)))) <= 1) by lia.
    exact (col_vars_unique a sid j _ _ i1 i2 Ha Hle' Hr1 Hr2 Hdiff Hv1 Hv2).
Qed.

(** X11.  The per-slot limits, read on the classes.  For a semester as the
    loader builds it, in every 0/1 assignment that satisfies the constraints
    of [_set_constraints_class_limits_per_slot], two different classes of the
    semester that share students (they carry the same group name, or one of
    them is common to all groups) never occupy the same slot. *)
Theorem shared_students_never_overlap (s0 : Semester.t) (storage : DataStorage.t) :
  Semester.classes s0 <> [] ->
  exists s1 model,
    Semester.init_groups s0 = Ok s1
    /\ let semester := Semester.sort_classes s1 in
       SemesterSchedule._set_constraints_class_limits_per_slot
         (SemesterSchedule.__init__ semester storage) [] = Ok model
       /\ forall a i1 i2 class1 class2 j,
            feasible a model ->
            0 <= i1 -> index (Semester.classes semester) i1 = Ok class1 ->
            0 <= i2 -> index (Semester.classes semester) i2 = Ok class2 ->
            i1 <> i2 ->
            0 <= j < len (DataStorage.slots storage) ->
            Class_.group_name class1 = Class_.group_name class2
            \/ Class_.group_name class1 = EmptyString
            \/ Class_.group_name class2 = EmptyString ->
            ~ (a (VarX (Semester.id semester) i1 j) = 1
               /\ a (VarX (Semester.id semester) i2 j) = 1).
Proof. apply class_limits_on_classes. Qed.

(** * When [main] reaches the solver *)

Lemma for_each_Ok {A S : Type} (l : list A) (body : A -> S -> result S) :
  (forall x s, In x l -> exists s', body x s = Ok s') ->
  forall s, exists s', for_each l body s = Ok s'.
Proof.
  induction l as [| x l IH]; intros Hbody s; simpl; [eauto |].
  destruct (Hbody x s (or_introl eq_refl)) as (s1 & H1). rewrite H1, bind_ret.
  apply IH. intros; apply Hbody; now right.
Qed.

(** Every iteration of a loop that ends normally ended normally, from some
    state. *)
Lemma for_each_ran {A S : Type} (l : list A) (body : A -> S -> result S)
    (s s' : S) (x : A) :
  for_each l body s = Ok s' -> In x l -> exists s1 s2, body x s1 = Ok s2.
Proof.
  intros H Hin.
  destruct (for_each_step (fun _ _ => True) l body s s' x) as (s1 & s2 & _ & Hb & _);
    auto.
  exists s1, s2. exact Hb.
Qed.

Lemma index_Ok_wrap {A : Type} (l : list A) (i : Z) :
  - len l <= i < len l -> exists x, index l i = Ok x.
Proof.
  intros H. unfold index.
  destruct (Z.ltb_spec i 0) as [Hneg | Hpos].
  - destruct (Z.ltb_spec (i + len l) 0); [lia |].
    destruct (nth_error l (Z.to_nat (i + len l))) eqn:E; [eauto |].
    apply nth_error_None in E. unfold len in *. lia.
  - destruct (Z.ltb_spec i 0); [lia |].
    destruct (nth_error l (Z.to_nat i)) eqn:E; [eauto |].
    apply nth_error_None in E. unfold len in *. lia.
Qed.

Lemma combine_seq_In {A : Type} (o : Z) (l : list A) (s : nat) (j : Z) (x : A) :
  In (j, x) (combine (map (fun t => o + Z.of_nat t) (seq s (length l))) l) ->
  exists k, j = o + Z.of_nat (s + k)%nat /\ nth_error l k = Some x.
Proof.
  revert s; induction l as [| y l IH]; intros s H; simpl in H; [contradiction |].
  destruct H as [E | H].
  - inversion E; subst. exists 0%nat. split; [f_equal; lia | reflexivity].
  - destruct (IH (S s) H) as (k & -> & Hk). exists (S k).
    split; [f_equal; lia | exact Hk].
Qed.

Lemma enumerate_In_index {A : Type} (l : list A) (j : Z) (x : A) :
  In (j, x) (enumerate l) <-> 0 <= j /\ index l j = Ok x.
Proof.
  split.
  - intros H. unfold enumerate, range, len in H.
    replace (Z.to_nat (Z.of_nat (length l) - 0)) with (length l) in H by lia.
    apply combine_seq_In in H. destruct H as (k & -> & Hk).
    split; [lia |]. rewrite index_nth by lia.
    replace (Z.to_nat (0 + Z.of_nat (0 + k))) with k by lia.
    now rewrite Hk.
  - intros [Hj H]. apply (index_In (enumerate l) j). apply enumerate_index; assumption.
Qed.

Section ObjectiveSucceeds.
Variables (cs : constants.t) (semester : Semester.t) (storage : DataStorage.t).

Let self := SemesterSchedule.__init__ semester storage.
Let sid := Semester.id semester.
Let m := len (Semester.classes semester).
Let n := len (DataStorage.slots storage).
Let days := constants.NUMBER_OF_CLASS_DAYS cs.

Lemma add_term_Ok (i : Z) (class_ : Class_.t) (variable : LpVariable) (coefficient : Q)
    (objective_function : PyValue) :
  index (Semester.classes semester) i = Ok class_ ->
  Class_.slot_count class_ <> 0 ->
  exists o, SemesterSchedule.add_term self i variable coefficient objective_function
            = Ok o.
Proof.
  intros Hc Hk. unfold SemesterSchedule.add_term. simpl. rewrite Hc, bind_ret.
  unfold truediv. destruct (Z.eqb_spec (Class_.slot_count class_) 0); [contradiction |].
  rewrite bind_ret. eauto.
Qed.

Lemma cell_inv (i j : Z) (v : LpVariable) :
  0 <= i < m -> 0 <= j -> SemesterSchedule.cell self i j = Ok v -> j < n.
Proof.
  intros Hi Hj H. unfold SemesterSchedule.cell in H. simpl in H.
  unfold SemesterSchedule._create_variables_matrix in H.
  rewrite index_map_range in H by exact Hi. rewrite bind_ret in H.
  apply index_bounds in H. rewrite len_map_range in H by apply len_nonneg.
  fold n in H. lia.
Qed.

Lemma preferences_body_Ok (i : Z) (class_ : Class_.t) (teacher : Teacher.t)
    (jp : Z * option Z) (objective_function : PyValue) :
  0 <= i < m ->
  index (Semester.classes semester) i = Ok class_ ->
  Class_.slot_count class_ <> 0 ->
  valid_preferences n class_ ->
  In teacher (Class_.teachers class_) ->
  In jp (enumerate (Teacher.slot_preferences teacher)) ->
  exists o,
    SemesterSchedule.teachers_slot_preferences_body cs self i jp objective_function
    = Ok o.
Proof.
  intros Hi Hc Hk Hvalid Ht Hjp. destruct jp as [j [p |]]; simpl; [| eauto].
  apply enumerate_In_index in Hjp. destruct Hjp as [Hj Hp].
  destruct (Hvalid teacher j p Ht Hj Hp) as [Hjn Hp6].
  unfold self. rewrite cell_init by (fold n; auto). rewrite bind_ret.
  destruct (index_Ok_wrap (SemesterSchedule.preference_coefficients cs) p Hp6)
    as (coefficient & Hcoef).
  rewrite Hcoef, bind_ret. apply (add_term_Ok i class_); assumption.
Qed.

Lemma teachers_slot_preferences_Ok :
  (forall class_, In class_ (Semester.classes semester) ->
     Class_.slot_count class_ <> 0 /\ valid_preferences n class_) ->
  exists o,
    SemesterSchedule._get_objective_function_teachers_slot_preferences cs self = Ok o.
Proof.
  intros Hall. unfold SemesterSchedule._get_objective_function_teachers_slot_preferences.
  unfold self. rewrite len_matrix. fold self m.
  apply for_each_Ok. intros i o Hi. apply range_In in Hi.
  destruct (index_Ok (Semester.classes semester) i Hi) as (class_ & Hc).
  simpl. rewrite Hc, bind_ret.
  destruct (Hall class_ (index_In _ _ _ Hc)) as [Hk Hvalid].
  apply for_each_Ok. intros teacher o1 Ht.
  apply for_each_Ok. intros jp o2 Hjp.
  apply (preferences_body_Ok i class_ teacher); assumption.
Qed.

Lemma teachers_slot_preferences_inv (o : PyValue) :
  SemesterSchedule._get_objective_function_teachers_slot_preferences cs self = Ok o ->
  forall class_, In class_ (Semester.classes semester) -> valid_preferences n class_.
Proof.
  unfold SemesterSchedule._get_objective_function_teachers_slot_preferences.
  unfold self. rewrite len_matrix. fold self m.
  intros H class_ Hin teacher j p Ht Hj Hp.
  destruct (In_index _ _ Hin) as (i & Hi & Hc).
  destruct (for_each_ran _ _ _ _ i H) as (o1 & o2 & H1); [apply range_In; exact Hi |].
  simpl in H1. rewrite Hc, bind_ret in H1.
  destruct (for_each_ran _ _ _ _ teacher H1 Ht) as (o3 & o4 & H2).
  destruct (for_each_ran _ _ _ _ (j, Some p) H2) as (o5 & o6 & H3).
  { apply enumerate_In_index. auto. }
  simpl in H3. inv_bind H3. inv_bind H3. split.
  - exact (cell_inv i j _ Hi Hj Hx).
  - apply index_bounds in Hx0. exact Hx0.
Qed.

Lemma penalize_first_hour_Ok :
  0 < days -> 1 <= n ->
  (forall class_, In class_ (Semester.classes semester) -> Class_.slot_count class_ <> 0) ->
  exists o, SemesterSchedule._get_objective_function_penalize_first_hour cs storage self
            = Ok o.
Proof.
  intros Hdays Hn Hall.
  unfold SemesterSchedule._get_objective_function_penalize_first_hour.
  unfold utils.get_slot_count_per_day, utils.get_slot_count_per_day_, floordiv.
  fold days n. destruct (Z.eqb_spec days 0); [lia |]. rewrite bind_ret.
  unfold self. rewrite len_matrix. fold self m.
  apply for_each_Ok. intros i o Hi. apply range_In in Hi.
  apply for_each_Ok. intros d o1 Hd. apply range_In in Hd.
  assert (Hcol : 0 <= d * (n / days) < n).
  { pose proof (Z.mul_div_le n days Hdays) as Hle.
    assert (Hspd : 0 <= n / days) by (apply Z.div_pos; lia).
    split; [nia |].
    destruct (Z.eq_dec (n / days) 0) as [E | E]; [rewrite E; lia | nia]. }
  unfold self. rewrite cell_init by (fold n; auto). rewrite bind_ret.
  destruct (index_Ok (Semester.classes semester) i Hi) as (class_ & Hc).
  apply (add_term_Ok i class_); [exact Hc |]. apply Hall, (index_In _ _ _ Hc).
Qed.

Lemma penalize_flagged_Ok (flag : Slot.t -> bool) (coefficient : Q) :
  0 < m ->
  (forall class_, In class_ (Semester.classes semester) -> Class_.slot_count class_ <> 0) ->
  exists o, SemesterSchedule.penalize_flagged storage flag coefficient self = Ok o.
Proof.
  intros Hm Hall. unfold SemesterSchedule.penalize_flagged.
  unfold self. rewrite len_matrix. fold self m.
  apply for_each_Ok. intros i o Hi. apply range_In in Hi.
  unfold self. rewrite width_init by exact Hm. rewrite bind_ret. fold self n.
  apply for_each_Ok. intros j o1 Hj. apply range_In in Hj.
  destruct (index_Ok (DataStorage.slots storage) j Hj) as (slot & Hslot).
  rewrite Hslot, bind_ret. destruct (flag slot); [| eauto].
  unfold self. rewrite cell_init by (fold n; auto). rewrite bind_ret.
  destruct (index_Ok (Semester.classes semester) i Hi) as (class_ & Hc).
  apply (add_term_Ok i class_); [exact Hc |]. apply Hall, (index_In _ _ _ Hc).
Qed.

Lemma get_objective_function_Ok :
  0 < days -> 1 <= n -> 0 < m ->
  (forall class_, In class_ (Semester.classes semester) ->
     Class_.slot_count class_ <> 0 /\ valid_preferences n class_) ->
  exists o, SemesterSchedule.get_objective_function cs storage self = Ok o.
Proof.
  intros Hdays Hn Hm Hall.
  assert (Hk : forall class_, In class_ (Semester.classes semester) ->
            Class_.slot_count class_ <> 0) by (intros; now apply Hall).
  unfold SemesterSchedule.get_objective_function. cbn [for_each].
  unfold self. rewrite (unallocated_class_slots_Ok semester storage). fold self.
  rewrite !bind_ret.
  destruct (teachers_slot_preferences_Ok Hall) as (o2 & H2). rewrite H2, !bind_ret.
  destruct (penalize_first_hour_Ok Hdays Hn Hk) as (o3 & H3). rewrite H3, !bind_ret.
  unfold SemesterSchedule._get_objective_function_penalize_lunch_break,
    SemesterSchedule._get_objective_function_penalize_evening_hours.
  destruct (penalize_flagged_Ok Slot.is_lunch_break
              (constants.COEFFICIENT_SLOT_PENALTY_LUNCH_BREAK cs) Hm Hk) as (o4 & H4).
  rewrite H4, !bind_ret.
  destruct (penalize_flagged_Ok Slot.is_evening
              (constants.COEFFICIENT_SLOT_PENALTY_EVENING_HOURS cs) Hm Hk) as (o5 & H5).
  rewrite H5, !bind_ret. eauto.
Qed.

Lemma get_objective_function_inv (o : PyValue) :
  SemesterSchedule.get_objective_function cs storage self = Ok o ->
  forall class_, In class_ (Semester.classes semester) -> valid_preferences n class_.
Proof.
  unfold SemesterSchedule.get_objective_function. cbn [for_each]. intros H.
  inv_bind H. inv_bind Hx. inv_Ok Hx. subst. inv_bind H. inv_bind Hx.
  exact (teachers_slot_preferences_inv _ Hx1).
Qed.
End ObjectiveSucceeds.

Lemma loaded_classes (semester : Semester.t) :
  loaded semester ->
  exists s0 s1,
    Semester.classes s0 <> []
    /\ Semester.init_groups s0 = Ok s1
    /\ semester = Semester.sort_classes s1
    /\ Permutation (Semester.classes semester) (Semester.classes s0)
    /\ 0 < len (Semester.classes semester).
Proof.
  intros (s0 & s1 & Hne & Hinit & ->).
  destruct (semester_groups_spec s0)
    as (s1' & common & rest & Hinit' & _ & _ & _ & _ & _ & _ & _ & _ & _ & _ & Hperm & _).
  rewrite Hinit in Hinit'. inv_Ok Hinit'. subst s1'. cbv zeta in Hperm.
  exists s0, s1. split; [exact Hne |]. split; [exact Hinit |]. split; [reflexivity |].
  split; [exact Hperm |].
  apply len_pos. intros E. rewrite E in Hperm. apply Permutation_nil in Hperm.
  contradiction.
Qed.

Lemma loaded_constraints_iff (NUMBER_OF_CLASS_DAYS : Z) (semester : Semester.t)
    (storage : DataStorage.t) :
  0 < NUMBER_OF_CLASS_DAYS ->
  loaded semester ->
  (forall class_, In class_ (Semester.classes semester) -> 0 <= Class_.slot_count class_) ->
  ((exists model,
      SemesterSchedule.set_constraints NUMBER_OF_CLASS_DAYS storage
        (SemesterSchedule.__init__ semester storage) [] = Ok model)
   <-> forall class_, In class_ (Semester.classes semester) ->
         1 <= Class_.slot_count class_
         <= len (DataStorage.slots storage) / NUMBER_OF_CLASS_DAYS).
Proof.
  intros Hdays Hloaded Hpos.
  destruct (loaded_classes semester Hloaded) as (s0 & s1 & Hne & Hinit & -> & Hperm & _).
  destruct (set_constraints_Ok_iff NUMBER_OF_CLASS_DAYS s0 storage Hdays Hne)
    as (s1' & Hinit' & Hiff).
  { intros c Hc. apply Hpos. eapply Permutation_in; [apply Permutation_sym |]; eauto. }
  rewrite Hinit in Hinit'. inv_Ok Hinit'. subst s1'.
  rewrite Hiff. split; intros H c Hc; apply H.
  - eapply Permutation_in; eauto.
  - eapply Permutation_in; [apply Permutation_sym |]; eauto.
Qed.

Lemma Forall2_In_left {A B : Type} (R : A -> B -> Prop) (l : list A) (l' : list B) (x : A) :
  Forall2 R l l' -> In x l -> exists y, R x y.
Proof.
  intros H Hin. destruct (Forall2_In_l R l l' x H Hin) as (y & _ & Hy). eauto.
Qed.

(** When the loop of [main] and the teachers' constraints succeed. *)
Lemma main_Ok_iff (cs : constants.t) (storage : DataStorage.t) :
  let days := constants.NUMBER_OF_CLASS_DAYS cs in
  let n := len (DataStorage.slots storage) in
  0 < days ->
  (forall semester, In semester (DataStorage.classes_by_semester storage) ->
     loaded semester
     /\ forall class_, In class_ (Semester.classes semester) ->
          0 <= Class_.slot_count class_) ->
  ((exists result, main.main cs storage = Ok result)
   <-> forall semester class_,
         In semester (DataStorage.classes_by_semester storage) ->
         In class_ (Semester.classes semester) ->
         1 <= Class_.slot_count class_ <= n / days /\ valid_preferences n class_).
Proof.
  intros days n Hdays Hstorage. unfold main.main. split.
  - intros ([[objective model] schedules] & H). inv_bind H.
    destruct x as [[objective1 model1] schedules1].
    destruct (main_loop cs storage _ _ _ _ _ _ _ Hx)
      as (fragments & parts & Hf & Hp & _).
    intros semester class_ Hs Hc.
    destruct (Hstorage semester Hs) as [Hloaded Hpos].
    destruct (Forall2_In_left _ _ _ semester Hf Hs) as (fragment & Hfragment).
    destruct (Forall2_In_left _ _ _ semester Hp Hs) as (part & Hpart).
    split.
    + apply (proj1 (loaded_constraints_iff days semester storage Hdays Hloaded Hpos));
        eauto.
    + exact (get_objective_function_inv cs semester storage fragment Hfragment class_ Hc).
  - intros Hvalid.
    match goal with
    | |- exists _, bind (for_each ?l ?body _) _ = _ =>
        assert (Hloop : forall st, exists st', for_each l body st = Ok st')
    end.
    { apply for_each_Ok. intros semester [[objective model] schedules] Hs.
      destruct (Hstorage semester Hs) as [Hloaded Hpos].
      destruct (loaded_classes semester Hloaded) as (s0 & s1 & _ & _ & _ & _ & Hm).
      assert (Hk : forall class_, In class_ (Semester.classes semester) ->
                1 <= Class_.slot_count class_ <= n / days)
        by (intros c Hc; apply (Hvalid semester c Hs Hc)).
      assert (Hn : 1 <= n).
      { destruct (index_Ok (Semester.classes semester) 0 ltac:(lia)) as (c & Hc).
        pose proof (Hk c (index_In _ _ _ Hc)) as Hc1.
        assert (1 <= n / days) by lia.
        pose proof (Z.mul_div_le n days Hdays). nia. }
      destruct (get_objective_function_Ok cs semester storage Hdays Hn Hm)
        as (fragment & Hfragment).
      { intros c Hc. split; [pose proof (Hk c Hc); lia | apply (Hvalid semester c Hs Hc)]. }
      cbv zeta. rewrite Hfragment, bind_ret.
      destruct (proj2 (loaded_constraints_iff days semester storage Hdays Hloaded Hpos) Hk)
        as (part & Hpart).
      rewrite set_constraints_frame.
      rewrite set_constraints_frame in Hpart. fold days.
      destruct (SemesterSchedule._set_constraints_match_class_slot_count _ [])
        as [e | c1]; [discriminate |]. rewrite bind_ret in *.
      destruct (SemesterSchedule._set_constraints_consecutive_slots days storage _ [])
        as [e | c2]; [discriminate |]. rewrite bind_ret in *.
      destruct (SemesterSchedule._set_constraints_class_limits_per_slot _ [])
        as [e | c3]; [discriminate |]. rewrite !bind_ret. eauto. }
    destruct (Hloop (PyNum 0, [], [])) as ([[objective model] schedules] & Hrun).
    rewrite Hrun, bind_ret.
    destruct (main_loop cs storage _ _ _ _ _ _ _ Hrun) as (_ & _ & _ & _ & _ & _ & ->).
    simpl app.
    rewrite (set_global_constraints_Ok (DataStorage.classes_by_semester storage) storage).
    rewrite bind_ret. eauto.
Qed.

(** X12.  When [main] reaches the solver.  Take a storage whose semesters
    are as the loader builds them and whose classes have no negative slot
    count, and a positive number of class days.  Then [main] builds its model
    and reaches the solve exactly when every class has at least one slot and
    at most as many as a day has, and every preference of a teacher of a
    class that is not [None] is at the position of a slot and is one of the
    six levels; otherwise it ends with an error before solving. *)
Theorem main_reaches_the_solver_iff (cs : constants.t) (storage : DataStorage.t) :
  let days := constants.NUMBER_OF_CLASS_DAYS cs in
  let n := len (DataStorage.slots storage) in
  0 < days ->
  (forall semester, In semester (DataStorage.classes_by_semester storage) ->
     loaded semester
     /\ forall class_, In class_ (Semester.classes semester) ->
          0 <= Class_.slot_count class_) ->
  ((exists result, main.main cs storage = Ok result)
   <-> forall semester class_,
         In semester (DataStorage.classes_by_semester storage) ->
         In class_ (Semester.classes semester) ->
         1 <= Class_.slot_count class_ <= n / days /\ valid_preferences n class_).
Proof. apply main_Ok_iff. Qed.

Lemma one_class_loaded : loaded Sample.one_class.
Proof.
  exists (Sample.raw [Sample.class_ 1 "A" "" 2 []]). eexists.
  split; [discriminate |]. split; [vm_compute; reflexivity | reflexivity].
Qed.

Lemma main_reaches_the_solver_iff_witness :
  exists result, main.main Sample.two_day_week Sample.one_semester = Ok result.
Proof.
  apply (main_reaches_the_solver_iff Sample.two_day_week Sample.one_semester).
  - simpl. lia.
  - intros semester [<- | []]. split; [exact one_class_loaded |].
    intros class_ [<- | []]. simpl. lia.
  - intros semester class_ [<- | []] [<- | []]. split.
    + split; [simpl; lia | vm_compute; discriminate].
    + intros teacher j p [].
Defined.

Lemma shared_students_never_overlap_witness :
  exists s1 model,
    Semester.init_groups Sample.two_groups = Ok s1
    /\ SemesterSchedule._set_constraints_class_limits_per_slot
         (SemesterSchedule.__init__ (Semester.sort_classes s1) Sample.two_days) []
       = Ok model.
Proof.
  destruct (shared_students_never_overlap Sample.two_groups Sample.two_days)
    as (s1 & model & Hinit & Hset & _).
  - discriminate.
  - exists s1, model. split; [exact Hinit | exact Hset].
Defined.

(** * The objective function *)

Lemma value_mul_var (a : assignment) (v : LpVariable) (q : Q) :
  (value a (as_expr (mul_var v q)) == q * inject_Z (a v))%Q.
Proof.
  unfold mul_var. destruct (Qeq_bool q 0) eqn:E; unfold value; simpl.
  - apply Qeq_bool_iff in E. rewrite E. lra.
  - lra.
Qed.

Lemma total_ext (a a' : assignment) (vs : list LpVariable) :
  (forall v, In v vs -> a v = a' v) -> total a vs = total a' vs.
Proof.
  induction vs as [| v vs IH]; intros H; simpl; [reflexivity |].
  rewrite (H v) by now left. rewrite IH; [reflexivity |].
  intros; apply H; now right.
Qed.

Section ObjectiveValue.
Variables (cs : constants.t) (semester : Semester.t) (storage : DataStorage.t).

Let self := SemesterSchedule.__init__ semester storage.
Let sid := Semester.id semester.
Let m := len (Semester.classes semester).
Let n := len (DataStorage.slots storage).

(** Two assignments that give the same timetable to the semester. *)
Let same_cells (a a' : assignment) : Prop :=
  forall i j, 0 <= i < m -> 0 <= j < n -> a (VarX sid i j) = a' (VarX sid i j).

(** What holds of the objective function all along its construction: its
    value depends on the cells of the semester only, and it is 0 when they
    all are. *)
Let cells_only (o : PyValue) : Prop :=
  (forall a a', same_cells a a' -> (value a (as_expr o) == value a' (as_expr o))%Q)
  /\ (value (fun _ => 0%Z) (as_expr o) == 0)%Q.

Lemma cell_is_a_cell (i c : Z) (v : LpVariable) :
  0 <= i < m -> SemesterSchedule.cell self i c = Ok v ->
  exists j, 0 <= j < n /\ v = VarX sid i j.
Proof.
  intros Hi H. unfold SemesterSchedule.cell in H. simpl in H.
  unfold SemesterSchedule._create_variables_matrix in H.
  rewrite index_map_range in H by exact Hi. rewrite bind_ret in H.
  apply index_In, in_map_iff in H. destruct H as (j & <- & Hj).
  apply range_In in Hj. exists j. auto.
Qed.

Lemma cells_only_zero : cells_only (PyNum 0).
Proof. split; [intros a a' _; reflexivity | reflexivity]. Qed.

Lemma cells_only_add (x y : PyValue) :
  cells_only x -> cells_only y -> cells_only (add x y).
Proof.
  intros [Hx Hx0] [Hy Hy0]. split.
  - intros a a' H. rewrite !value_add, (Hx a a' H), (Hy a a' H). reflexivity.
  - rewrite value_add, Hx0, Hy0. lra.
Qed.

Lemma add_term_cells_only (i c : Z) (variable : LpVariable) (coefficient : Q)
    (o o' : PyValue) :
  0 <= i < m ->
  SemesterSchedule.cell self i c = Ok variable ->
  SemesterSchedule.add_term self i variable coefficient o = Ok o' ->
  cells_only o -> cells_only o'.
Proof.
  intros Hi Hcell H Ho. destruct (cell_is_a_cell i c variable Hi Hcell) as (j & Hj & ->).
  unfold SemesterSchedule.add_term in H. inv_bind H. inv_bind H. inv_Ok H. subst o'.
  apply cells_only_add; [exact Ho |]. split.
  - intros a a' Hsame.
    destruct (value_truediv a _ _ _ Hx0) as [_ E]. rewrite E.
    destruct (value_truediv a' _ _ _ Hx0) as [_ E']. rewrite E'.
    rewrite !value_mul_var, (Hsame i j Hi Hj). reflexivity.
  - destruct (value_truediv (fun _ => 0%Z) _ _ _ Hx0) as [Hk E]. rewrite E.
    rewrite value_mul_var. simpl inject_Z.
    assert (Hq : ~ (inject_Z (Class_.slot_count x) == 0)%Q).
    { unfold Qeq, inject_Z; simpl. lia. }
    field. exact Hq.
Qed.

Lemma unallocated_cells_only (o : PyValue) :
  SemesterSchedule._get_objective_function_unallocated_class_slots self = Ok o ->
  cells_only o.
Proof.
  unfold self. rewrite (unallocated_class_slots_Ok semester storage).
  intros H. inv_Ok H. subst o.
  assert (Hrows : forall a a', same_cells a a' ->
            zsum (fun i => total a (row_vars (Semester.id semester) i 0
                                      (len (DataStorage.slots storage))))
                 (range 0 (len (Semester.classes semester)))
            = zsum (fun i => total a' (row_vars (Semester.id semester) i 0
                                         (len (DataStorage.slots storage))))
                   (range 0 (len (Semester.classes semester)))).
  { intros a a' Hsame. apply zsum_ext_in. intros i Hi. apply range_In in Hi.
    apply total_ext. intros v Hv. unfold row_vars in Hv.
    apply in_map_iff in Hv. destruct Hv as (j & <- & Hj). apply range_In in Hj.
    apply Hsame; assumption. }
  split.
  - intros a a' Hsame.
    rewrite !value_neg, !(value_rows semester storage), (Hrows a a' Hsame).
    reflexivity.
  - rewrite value_neg, (value_rows semester storage), value_num.
    rewrite zsum_zero; [change (inject_Z 0) with 0%Q; lra |].
    intros i _. clear. induction (row_vars _ i 0 _) as [| v vs IH]; simpl; lia.
Qed.

Lemma teachers_slot_preferences_cells_only (o : PyValue) :
  SemesterSchedule._get_objective_function_teachers_slot_preferences cs self = Ok o ->
  cells_only o.
Proof.
  unfold SemesterSchedule._get_objective_function_teachers_slot_preferences.
  unfold self. rewrite len_matrix. fold self m.
  apply for_each_inv; [| apply cells_only_zero].
  intros i o1 o1' Hi Ho1 H. apply range_In in Hi. inv_bind H.
  revert H. apply for_each_inv; [| exact Ho1].
  intros teacher o2 o2' _ Ho2. apply for_each_inv; [| exact Ho2].
  intros [j [p |]] o3 o3' _ Ho3 H; simpl in H; [| inv_Ok H; now subst].
  inv_bind H. inv_bind H.
  exact (add_term_cells_only i j _ _ _ _ Hi Hx0 H Ho3).
Qed.

Lemma penalize_first_hour_cells_only (o : PyValue) :
  SemesterSchedule._get_objective_function_penalize_first_hour cs storage self = Ok o ->
  cells_only o.
Proof.
  unfold SemesterSchedule._get_objective_function_penalize_first_hour.
  intros H. inv_bind H. revert H.
  unfold self. rewrite len_matrix. fold self m.
  apply for_each_inv; [| apply cells_only_zero].
  intros i o1 o1' Hi Ho1. apply range_In in Hi.
  apply for_each_inv; [| exact Ho1].
  intros d o2 o2' _ Ho2 H. inv_bind H.
  exact (add_term_cells_only i _ _ _ _ _ Hi Hx0 H Ho2).
Qed.

Lemma penalize_flagged_cells_only (flag : Slot.t -> bool) (coefficient : Q) (o : PyValue) :
  SemesterSchedule.penalize_flagged storage flag coefficient self = Ok o ->
  cells_only o.
Proof.
  unfold SemesterSchedule.penalize_flagged.
  unfold self. rewrite len_matrix. fold self m.
  apply for_each_inv; [| apply cells_only_zero].
  intros i o1 o1' Hi Ho1 H. apply range_In in Hi. inv_bind H.
  revert H. apply for_each_inv; [| exact Ho1].
  intros j o2 o2' _ Ho2 H. inv_bind H.
  destruct (flag x0); [| inv_Ok H; now subst].
  inv_bind H. exact (add_term_cells_only i j _ _ _ _ Hi Hx1 H Ho2).
Qed.

Lemma get_objective_function_cells_only (o : PyValue) :
  SemesterSchedule.get_objective_function cs storage self = Ok o -> cells_only o.
Proof.
  unfold SemesterSchedule.get_objective_function. cbn [for_each]. intros H.
  inv_bind H. inv_bind Hx. inv_Ok Hx. subst.
  inv_bind H. inv_bind Hx. inv_Ok Hx. subst.
  inv_bind H. inv_bind Hx. inv_Ok Hx. subst.
  inv_bind H. inv_bind Hx. inv_Ok Hx. subst.
  inv_bind H. inv_bind Hx. inv_Ok Hx. subst.
  inv_Ok H. subst o.
  repeat apply cells_only_add.
  - change (cells_only (add (PyNum 0) x0)).
    apply cells_only_add; [apply cells_only_zero |].
    eapply unallocated_cells_only; eassumption.
  - eapply teachers_slot_preferences_cells_only; eassumption.
  - eapply penalize_first_hour_cells_only; eassumption.
  - eapply penalize_flagged_cells_only; eassumption.
  - eapply penalize_flagged_cells_only; eassumption.
Qed.
End ObjectiveValue.

(** X13.  The objective function of a semester is a function of its
    timetable.  Whatever the coefficients, when [get_objective_function]
    returns, the value of what it returns depends only on the values of the
    cells of the semester's matrix: two assignments that agree on these
    cells, whatever they give to the indicator variables or to the cells of
    other semesters, have the same objective value; and the objective has no
    constant part: it is 0 when no cell is set. *)
Theorem objective_depends_on_the_timetable (cs : constants.t) (semester : Semester.t)
    (storage : DataStorage.t) (objective_function : PyValue) :
  let self := SemesterSchedule.__init__ semester storage in
  let sid := Semester.id semester in
  let m := len (Semester.classes semester) in
  let n := len (DataStorage.slots storage) in
  SemesterSchedule.get_objective_function cs storage self = Ok objective_function ->
  (forall a a',
     (forall i j, 0 <= i < m -> 0 <= j < n -> a (VarX sid i j) = a' (VarX sid i j)) ->
     (value a (as_expr objective_function) == value a' (as_expr objective_function))%Q)
  /\ (value (fun _ => 0%Z) (as_expr objective_function) == 0)%Q.
Proof.
  intros self sid m n H.
  exact (get_objective_function_cells_only cs semester storage objective_function H).
Qed.

Lemma objective_depends_on_the_timetable_witness :
  exists objective_function,
    SemesterSchedule.get_objective_function Sample.two_day_week Sample.two_days
      (SemesterSchedule.__init__ Sample.one_class Sample.two_days)
    = Ok objective_function
    /\ (value (fun _ => 0%Z) (as_expr objective_function) == 0)%Q.
Proof.
  destruct (SemesterSchedule.get_objective_function Sample.two_day_week Sample.two_days
              (SemesterSchedule.__init__ Sample.one_class Sample.two_days))
    as [error | objective_function] eqn:E; [vm_compute in E; discriminate |].
  exists objective_function. split; [reflexivity |].
  exact (proj2 (objective_depends_on_the_timetable Sample.two_day_week Sample.one_class
                  Sample.two_days objective_function E)).
Defined.

(** * Unsolved cells *)

(** X14.  The extractor returns exactly when every cell of the matrix has a
    value; with a cell that the solver left without a value, it ends with an
    error. *)
Theorem extractor_returns_iff_solved (semester : Semester.t) (storage : DataStorage.t)
    (varValue : LpVariable -> option Q) :
  let self := SemesterSchedule.__init__ semester storage in
  let sid := Semester.id semester in
  let m := len (Semester.classes semester) in
  let n := len (DataStorage.slots storage) in
  (exists schedules,
     SemesterSchedule.get_class_schedules storage varValue self = Ok schedules)
  <-> forall i j, 0 <= i < m -> 0 <= j < n -> varValue (VarX sid i j) <> None.
Proof.
  intros self sid m n. split.
  - intros (schedules & H) i j Hi Hj Hnone.
    unfold SemesterSchedule.get_class_schedules in H. inv_bind H. clear H.
    destruct (for_each_ran _ _ _ _ i Hx) as (cs1 & cs2 & Hrow);
      [apply range_In; exact Hi |].
    unfold SemesterSchedule.get_class_schedules_row in Hrow. inv_bind Hrow. clear Hrow.
    destruct (for_each_ran _ _ _ _ j Hx0) as ([[cs3 sc] prev] & st & Hbody);
      [apply range_In; exact Hj |].
    unfold SemesterSchedule.get_class_schedules_body in Hbody.
    unfold self in Hbody. rewrite cell_init in Hbody by assumption.
    rewrite bind_ret in Hbody. fold sid in Hbody. rewrite Hnone in Hbody.
    discriminate.
  - intros Hsolved.
    destruct (get_class_schedules_Ok semester storage varValue Hsolved) as (bss & _ & H).
    eauto.
Qed.

(** * The printed form of a block *)

(** X15.  The line that [ClassSchedule.__str__] builds.  It is built exactly
    when the weekday of the start slot is between -4 and 5, and ends with
    [IndexError] otherwise.  The line starts with the name of a day,
    padded with spaces to eight characters and followed by three spaces, so
    that what follows starts at the same column on every line.  The name is
    that of the day at position [weekday - 1] for the weekdays 1 to 5, and,
    Python's negative indices counting from the end, that of the day
    [weekday + 5] for the weekdays -4 to 0: weekday 0 is printed as
    Vendredi. *)
Theorem str_weekday (self : ClassSchedule.t) :
  let weekday := Slot.weekday (ClassSchedule.start_slot self) in
  ((exists line, ClassSchedule.__str__ self = Ok line) <-> - 4 <= weekday <= 5)
  /\ (~ - 4 <= weekday <= 5 -> ClassSchedule.__str__ self = Raise IndexError)
  /\ forall line,
       ClassSchedule.__str__ self = Ok line ->
       exists day rest,
         index ClassSchedule.weekdays ((weekday - 1) mod 5) = Ok day
         /\ line = (ljust day 8 ++ "   " ++ rest)%string
         /\ str_len (ljust day 8) = 8.
Proof.
  intros weekday.
  assert (Hbad : ~ - 4 <= weekday <= 5 -> ClassSchedule.__str__ self = Raise IndexError).
  { intros Hw. unfold ClassSchedule.__str__. fold weekday.
    assert (E : index ClassSchedule.weekdays (weekday - 1) = Raise IndexError).
    { destruct (index ClassSchedule.weekdays (weekday - 1)) as [e | day] eqn:E.
      - unfold index in E. destruct (_ <? 0); [| destruct (_ <? 0)];
          try (inv_Ok E; subst; reflexivity);
          destruct (nth_error _ _); inv_Ok E; subst; reflexivity.
      - apply index_bounds in E. change (len ClassSchedule.weekdays) with 5 in E. lia. }
    rewrite E. reflexivity. }
  assert (Hgood : - 4 <= weekday <= 5 ->
            exists day rest,
              ClassSchedule.__str__ self = Ok (ljust day 8 ++ "   " ++ rest)%string
              /\ index ClassSchedule.weekdays ((weekday - 1) mod 5) = Ok day
              /\ str_len (ljust day 8) = 8).
  { intros Hw. unfold ClassSchedule.__str__. fold weekday.
    assert (E : weekday = -4 \/ weekday = -3 \/ weekday = -2 \/ weekday = -1
                \/ weekday = 0 \/ weekday = 1 \/ weekday = 2 \/ weekday = 3
                \/ weekday = 4 \/ weekday = 5) by lia.
    destruct (index_Ok_wrap ClassSchedule.weekdays (weekday - 1)) as (day & Hday).
    { change (len ClassSchedule.weekdays) with 5. lia. }
    rewrite Hday, bind_ret. exists day. eexists. split; [reflexivity |].
    repeat (destruct E as [E | E]); rewrite E in *;
      vm_compute in Hday; inv_Ok Hday; subst day; split; reflexivity. }
  split; [| split].
  - split.
    + intros (line & H). destruct (Z_le_dec (-4) weekday) as [H1 | H1];
        [destruct (Z_le_dec weekday 5) as [H2 | H2]; [lia |] |];
        rewrite Hbad in H by lia; discriminate.
    + intros Hw. destruct (Hgood Hw) as (day & rest & H & _). eauto.
  - exact Hbad.
  - intros line H.
    destruct (Z_le_dec (-4) weekday) as [H1 | H1];
      [destruct (Z_le_dec weekday 5) as [H2 | H2] |];
      try (rewrite Hbad in H by lia; discriminate).
    destruct (Hgood ltac:(lia)) as (day & rest & H' & Hday & Hlen).
    rewrite H in H'. inv_Ok H'. subst line. exists day, rest. auto.
Qed.

(** * The classes file *)

Lemma range_NoDup (lo hi : Z) : NoDup (range lo hi).
Proof.
  destruct (Z_le_dec hi lo) as [Hle | Hgt].
  - rewrite range_nil by exact Hle. constructor.
  - remember (Z.to_nat (hi - lo)) as d eqn:Hd.
    revert lo Hgt Hd. induction d as [| d IH]; intros lo Hgt Hd; [lia |].
    rewrite range_cons by lia. constructor.
    + intros H. apply range_In in H. lia.
    + destruct (Z_le_dec hi (lo + 1)) as [Hle | Hgt'].
      * rewrite range_nil by exact Hle. constructor.
      * apply IH; lia.
Qed.

Lemma in_semester_refl (row : parsing.class_row) :
  in_semester (parsing.class_semester_name row) row = true.
Proof. apply String.eqb_refl. Qed.

Lemma rows_snoc_in (name : string) (rows : list parsing.class_row)
    (row : parsing.class_row) :
  parsing.class_semester_name row = name ->
  filter (in_semester name) (rows ++ [row]) = filter (in_semester name) rows ++ [row].
Proof.
  intros E. rewrite filter_app. simpl. unfold in_semester at 2.
  rewrite E, String.eqb_refl. reflexivity.
Qed.

Lemma rows_snoc_out (name : string) (rows : list parsing.class_row)
    (row : parsing.class_row) :
  parsing.class_semester_name row <> name ->
  filter (in_semester name) (rows ++ [row]) = filter (in_semester name) rows.
Proof.
  intros E. rewrite filter_app. simpl. unfold in_semester at 2.
  destruct (String.eqb_spec (parsing.class_semester_name row) name); [contradiction |].
  apply app_nil_r.
Qed.

Lemma bucket_append (id : Z) (name : string) (rows : list parsing.class_row)
    (row : parsing.class_row) :
  parsing.class_semester_name row = name ->
  parsing.append (bucket id name rows) (parsing.class_of_row row)
  = bucket id name (rows ++ [row]).
Proof.
  intros E. unfold parsing.append, bucket. simpl.
  rewrite rows_snoc_in by exact E. now rewrite map_app.
Qed.

Lemma bucket_other (id : Z) (name : string) (rows : list parsing.class_row)
    (row : parsing.class_row) :
  parsing.class_semester_name row <> name ->
  bucket id name (rows ++ [row]) = bucket id name rows.
Proof. intros E. unfold bucket. now rewrite rows_snoc_out by exact E. Qed.

Lemma semesters_keys_NoDup (rows : list parsing.class_row) (st : parsing.locals) :
  semesters_inv rows st -> NoDup (map fst (fst (fst st))).
Proof. intros H. rewrite (sinv_keys _ _ H). apply range_NoDup. Qed.

Lemma load_classes_body_existing (rows : list parsing.class_row)
    (row : parsing.class_row) (st : parsing.locals) :
  semesters_inv rows st ->
  In (parsing.class_semester_name row) (map sname (fst (fst st))) ->
  exists st', parsing.load_classes_body row st = Ok st'
              /\ semesters_inv (rows ++ [row]) st'.
Proof.
  intros Hinv Hin. pose proof (semesters_keys_NoDup rows st Hinv) as Hnd.
  destruct st as [[semesters identifiers] id].
  destruct Hinv as [Hid Hnames Hkeys Hnext Hsem Hseen Hused]; simpl in *.
  pose proof Hin as Hin'. apply in_map_iff in Hin'.
  destruct Hin' as ([sid semester] & Hname & Hkv). unfold sname in Hname; simpl in Hname.
  pose proof (Hsem _ Hkv) as Hbucket. simpl in Hbucket.
  apply in_split in Hkv. destruct Hkv as (s1 & s2 & Hsplit). subst semesters.
  rewrite map_app in Hnames, Hnd. simpl in Hnames, Hnd.
  destruct (NoDup_app_left _ _ _ Hnames) as [Hn1 Hn2].
  destruct (NoDup_app_left _ _ _ Hnd) as [Hk1 _].
  change (sname (sid, semester)) with (Semester.name semester) in Hn1, Hn2, Hbucket.
  rewrite Hname in Hn1, Hn2, Hbucket.
  set (name := parsing.class_semester_name row) in *.
  exists (s1 ++ (sid, bucket sid name (rows ++ [row])) :: s2, identifiers, id). split.
  - unfold parsing.load_classes_body. fold name.
    assert (E : dict_contains String.eqb identifiers name = true).
    { apply (dict_contains_In String.eqb_spec). subst identifiers.
      rewrite map_map. simpl. exact Hin. }
    rewrite E. simpl.
    assert (G1 : dict_get String.eqb identifiers name = Ok sid).
    { subst identifiers. rewrite map_app. simpl.
      change (sname (sid, semester)) with (Semester.name semester).
      rewrite Hname. apply (dict_get_first String.eqb_spec).
      rewrite map_map. simpl. exact Hn1. }
    rewrite G1. simpl.
    rewrite (dict_get_first Z.eqb_spec) by exact Hk1. simpl.
    rewrite (dict_set_first Z.eqb_spec) by exact Hk1.
    rewrite Hbucket, bucket_append by reflexivity. reflexivity.
  - constructor; simpl.
    + subst identifiers. rewrite !map_app. simpl. unfold sname. simpl.
      rewrite Hname. reflexivity.
    + rewrite map_app. simpl. unfold sname at 2. simpl. rewrite <- Hname.
      exact Hnames.
    + rewrite map_app. simpl. rewrite map_app in Hkeys. exact Hkeys.
    + exact Hnext.
    + intros kv Hkv. apply in_app_iff in Hkv. simpl in Hkv.
      destruct Hkv as [Hkv | [<- | Hkv]].
      * rewrite bucket_other.
        -- apply Hsem. apply in_app_iff. auto.
        -- intros E. apply Hn1. fold name in E. rewrite E. apply in_map. exact Hkv.
      * reflexivity.
      * rewrite bucket_other.
        -- apply Hsem. apply in_app_iff. simpl. auto.
        -- intros E. apply Hn2. fold name in E. rewrite E. apply in_map. exact Hkv.
    + intros row' Hrow'. rewrite map_app. simpl.
      change (sname (sid, bucket sid name (rows ++ [row]))) with name.
      rewrite <- Hname. change (Semester.name semester) with (sname (sid, semester)).
      rewrite <- (map_cons sname), <- map_app.
      apply in_app_iff in Hrow'. destruct Hrow' as [Hrow' | [<- | []]].
      * apply Hseen. exact Hrow'.
      * exact Hin.
    + intros kv Hkv. apply in_app_iff in Hkv. simpl in Hkv.
      destruct Hkv as [Hkv | [<- | Hkv]].
      * destruct (Hused kv) as (r & Hr & Er); [apply in_app_iff; auto |].
        exists r. split; [apply in_app_iff; auto | exact Er].
      * exists row. split; [apply in_app_iff; simpl; auto | reflexivity].
      * destruct (Hused kv) as (r & Hr & Er); [apply in_app_iff; simpl; auto |].
        exists r. split; [apply in_app_iff; auto | exact Er].
Qed.

Lemma load_classes_body_new (rows : list parsing.class_row)
    (row : parsing.class_row) (st : parsing.locals) :
  semesters_inv rows st ->
  ~ In (parsing.class_semester_name row) (map sname (fst (fst st))) ->
  exists st', parsing.load_classes_body row st = Ok st'
              /\ semesters_inv (rows ++ [row]) st'.
Proof.
  intros Hinv Hnew. pose proof (semesters_keys_NoDup rows st Hinv) as Hnd.
  destruct st as [[semesters identifiers] id].
  destruct Hinv as [Hid Hnames Hkeys Hnext Hsem Hseen Hused]; simpl in *.
  set (name := parsing.class_semester_name row) in *.
  assert (Hkid : ~ In id (map fst semesters)).
  { rewrite Hkeys. intros H. apply range_In in H. lia. }
  assert (Hnid : ~ In name (map fst identifiers)).
  { subst identifiers. rewrite map_map. simpl. exact Hnew. }
  assert (Hnone : filter (in_semester name) rows = []).
  { apply filter_nil. intros r Hr. unfold in_semester.
    destruct (String.eqb_spec (parsing.class_semester_name r) name) as [E | E];
      [| reflexivity].
    exfalso. apply Hnew. rewrite <- E. apply Hseen. exact Hr. }
  exists (semesters ++ [(id, bucket id name (rows ++ [row]))],
          identifiers ++ [(name, id)], id + 1).
  split.
  - unfold parsing.load_classes_body. fold name.
    assert (E : dict_contains String.eqb identifiers name = false).
    { destruct (dict_contains String.eqb identifiers name) eqn:E; [| reflexivity].
      apply (dict_contains_In String.eqb_spec) in E. contradiction. }
    rewrite E. simpl.
    rewrite (dict_set_new String.eqb_spec) by exact Hnid.
    rewrite (dict_set_new Z.eqb_spec) by exact Hkid.
    rewrite (dict_get_last String.eqb_spec) by exact Hnid. simpl.
    rewrite (dict_get_last Z.eqb_spec) by exact Hkid. simpl.
    rewrite (dict_set_last Z.eqb_spec) by exact Hkid.
    do 4 f_equal. unfold parsing.append, bucket, Semester.__init__. simpl.
    rewrite rows_snoc_in by reflexivity. rewrite Hnone. reflexivity.
  - constructor; simpl.
    + subst identifiers. rewrite map_app. reflexivity.
    + rewrite map_app. simpl. apply NoDup_snoc; assumption.
    + rewrite map_app, Hkeys. simpl. rewrite range_snoc by lia. reflexivity.
    + lia.
    + intros kv Hkv. apply in_app_iff in Hkv. simpl in Hkv.
      destruct Hkv as [Hkv | [<- | []]].
      * rewrite bucket_other.
        -- apply Hsem. exact Hkv.
        -- intros E. apply Hnew. fold name in E. rewrite E. apply in_map. exact Hkv.
      * reflexivity.
    + intros row' Hrow'. rewrite map_app. apply in_app_iff.
      apply in_app_iff in Hrow'. destruct Hrow' as [Hrow' | [<- | []]].
      * left. apply Hseen. exact Hrow'.
      * right. simpl. left. reflexivity.
    + intros kv Hkv. apply in_app_iff in Hkv. simpl in Hkv.
      destruct Hkv as [Hkv | [<- | []]].
      * destruct (Hused kv Hkv) as (r & Hr & Er).
        exists r. split; [apply in_app_iff; auto | exact Er].
      * exists row. split; [apply in_app_iff; simpl; auto | reflexivity].
Qed.

Lemma load_classes_loop_inv (l rows : list parsing.class_row) (st : parsing.locals) :
  semesters_inv rows st ->
  exists st', for_each l parsing.load_classes_body st = Ok st'
              /\ semesters_inv (rows ++ l) st'.
Proof.
  revert rows st; induction l as [| row l IH]; intros rows st Hinv; simpl.
  - exists st. rewrite app_nil_r. auto.
  - assert (Hbody : exists st1, parsing.load_classes_body row st = Ok st1
                                /\ semesters_inv (rows ++ [row]) st1).
    { destruct (in_dec string_dec (parsing.class_semester_name row)
                  (map sname (fst (fst st)))).
      - apply load_classes_body_existing; assumption.
      - apply load_classes_body_new; assumption. }
    destruct Hbody as (st1 & E1 & Hinv1). rewrite E1, bind_ret.
    destruct (IH (rows ++ [row]) st1 Hinv1) as (st' & E' & Hinv').
    exists st'. rewrite <- app_assoc in Hinv'. auto.
Qed.

Lemma load_classes_start : semesters_inv [] ([], [], 1).
Proof.
  constructor; simpl; try reflexivity; try (intros ? []); try lia. constructor.
Qed.

Lemma init_groups_keeps (s0 : Semester.t) :
  exists s1,
    Semester.init_groups s0 = Ok s1
    /\ Semester.id (Semester.sort_classes s1) = Semester.id s0
    /\ Semester.name (Semester.sort_classes s1) = Semester.name s0.
Proof.
  destruct (init_groups_spec s0) as (g0 & rest & Hinit & _).
  eexists. split; [exact Hinit |]. split; reflexivity.
Qed.

Lemma load_classes_second_loop (l done : list Semester.t) :
  exists out,
    for_each l
      (fun semester done =>
         semester <- Semester.init_groups semester ;;
         Ok (done ++ [Semester.sort_classes semester]))
      done
    = Ok (done ++ out)
    /\ Forall2 (fun s0 s2 =>
                  exists s1, Semester.init_groups s0 = Ok s1
                             /\ s2 = Semester.sort_classes s1)
               l out.
Proof.
  revert done; induction l as [| s0 l IH]; intros done.
  - exists []. split; [simpl; now rewrite app_nil_r | constructor].
  - destruct (init_groups_keeps s0) as (s1 & Hinit & _).
    destruct (IH (done ++ [Semester.sort_classes s1])) as (out & Hloop & Hout).
    exists (Semester.sort_classes s1 :: out). split.
    + cbn [for_each]. rewrite Hinit, !bind_ret, Hloop. now rewrite <- app_assoc.
    + constructor; [eauto | exact Hout].
Qed.

(** What [load_classes] returns. *)
Lemma load_classes_Ok (rows : list parsing.class_row) :
  exists buckets semesters,
    parsing.load_classes rows = Ok semesters
    /\ map Semester.id buckets = range 1 (len buckets + 1)
    /\ NoDup (map Semester.name buckets)
    /\ (forall row, In row rows ->
          In (parsing.class_semester_name row) (map Semester.name buckets))
    /\ (forall s0, In s0 buckets ->
          s0 = bucket (Semester.id s0) (Semester.name s0) rows
          /\ Semester.classes s0 <> [])
    /\ Forall2 (fun s0 s2 =>
                  exists s1, Semester.init_groups s0 = Ok s1
                             /\ s2 = Semester.sort_classes s1)
               buckets semesters.
Proof.
  destruct (load_classes_loop_inv rows [] _ load_classes_start)
    as ([[semesters identifiers] id] & Hloop & Hinv).
  simpl app in Hinv.
  destruct Hinv as [Hid Hnames Hkeys Hnext Hsem Hseen Hused]; simpl in *.
  destruct (load_classes_second_loop (dict_values semesters) []) as (out & Hout & Hall).
  exists (dict_values semesters), out. unfold parsing.load_classes.
  rewrite Hloop, bind_ret. split; [exact Hout |].
  assert (Hids : map Semester.id (dict_values semesters) = map fst semesters).
  { unfold dict_values. rewrite map_map. apply map_ext_in.
    intros kv Hkv. rewrite (Hsem kv Hkv). reflexivity. }
  split.
  { rewrite Hids, Hkeys. f_equal.
    assert (E : len (dict_values semesters) = len (range 1 id)).
    { unfold len, dict_values. rewrite length_map, <- (length_map fst), Hkeys.
      reflexivity. }
    rewrite E. unfold len. rewrite range_length. lia. }
  split.
  { unfold dict_values. rewrite map_map. exact Hnames. }
  split.
  { intros row Hrow. unfold dict_values. rewrite map_map. apply Hseen, Hrow. }
  split; [| exact Hall].
  intros s0 Hs0. unfold dict_values in Hs0. apply in_map_iff in Hs0.
  destruct Hs0 as (kv & <- & Hkv). pose proof (Hsem kv Hkv) as E. split.
  - rewrite E at 1. rewrite E. reflexivity.
  - destruct (Hused kv Hkv) as (row & Hrow & Hname). rewrite E. simpl.
    intros Hnil. apply map_eq_nil in Hnil.
    assert (Hin : In row (filter (in_semester (sname kv)) rows)).
    { apply filter_In. split; [exact Hrow |]. rewrite <- Hname.
      apply in_semester_refl. }
    rewrite Hnil in Hin. contradiction.
Qed.

(** The semesters that [load_classes] returns. *)
Lemma load_classes_semesters (rows : list parsing.class_row) :
  exists semesters,
    parsing.load_classes rows = Ok semesters
    /\ map Semester.id semesters = range 1 (len semesters + 1)
    /\ NoDup (map Semester.name semesters)
    /\ (forall row, In row rows ->
          In (parsing.class_semester_name row) (map Semester.name semesters))
    /\ forall semester, In semester semesters ->
         loaded semester
         /\ Permutation (Semester.classes semester)
              (map parsing.class_of_row
                 (filter (in_semester (Semester.name semester)) rows)).
Proof.
  destruct (load_classes_Ok rows)
    as (buckets & semesters & Hload & Hids & Hnames & Hseen & Hbuckets & Hall).
  assert (Hsame : map Semester.id semesters = map Semester.id buckets
                  /\ map Semester.name semesters = map Semester.name buckets).
  { clear - Hall. induction Hall as [| s0 s2 l out (s1 & Hinit & ->) _ [IH1 IH2]];
      [split; reflexivity |].
    destruct (init_groups_keeps s0) as (s1' & Hinit' & Hid & Hname).
    rewrite Hinit in Hinit'. inv_Ok Hinit'. subst s1'.
    cbn [map]. rewrite Hid, Hname, IH1, IH2. split; reflexivity. }
  destruct Hsame as [Hsid Hsname].
  exists semesters. split; [exact Hload |]. split.
  { rewrite Hsid, Hids. do 2 f_equal. unfold len.
    rewrite (Forall2_length Hall). reflexivity. }
  split; [rewrite Hsname; exact Hnames |].
  split; [rewrite Hsname; exact Hseen |].
  intros semester Hs.
  destruct (Forall2_In_r _ _ _ _ Hall Hs) as (s0 & Hs0 & s1 & Hinit & ->).
  destruct (Hbuckets s0 Hs0) as [Hbucket Hne].
  assert (Hloaded : loaded (Semester.sort_classes s1)).
  { exists s0, s1. auto. }
  split; [exact Hloaded |].
  destruct (init_groups_keeps s0) as (s1'' & Hinit'' & _ & Hname).
  rewrite Hinit in Hinit''. inv_Ok Hinit''. subst s1''.
  rewrite Hname.
  destruct (semester_groups_spec s0)
    as (s1'' & common & rest & Hinit'' & _ & _ & _ & _ & _ & _ & _ & _ & _ & _ & Hp & _).
  rewrite Hinit in Hinit''. inv_Ok Hinit''. subst s1''. cbv zeta in Hp.
  apply (f_equal Semester.classes) in Hbucket. simpl in Hbucket.
  rewrite <- Hbucket. exact Hp.
Qed.

(** X16.  What [load_classes] returns.  Whenever it returns, the semesters
    are numbered 1, 2, ... in the order of the list, so that no two of them
    share an identifier, and no two share a name; every row has its semester;
    and every semester is as the model builders expect it: it is built by
    [init_groups] and [sort_classes] from a non-empty list of classes, and
    its classes are, up to their order, those of the rows that carry its
    name. *)
Theorem load_classes_result (rows : list parsing.class_row)
    (semesters : list Semester.t) :
  parsing.load_classes rows = Ok semesters ->
  map Semester.id semesters = range 1 (len semesters + 1)
  /\ NoDup (map Semester.name semesters)
  /\ (forall row, In row rows ->
        In (parsing.class_semester_name row) (map Semester.name semesters))
  /\ forall semester, In semester semesters ->
       loaded semester
       /\ Permutation (Semester.classes semester)
            (map parsing.class_of_row
               (filter (in_semester (Semester.name semester)) rows)).
Proof.
  intros H. destruct (load_classes_semesters rows) as (semesters' & H' & Hall).
  rewrite H in H'. inv_Ok H'. subst semesters'. exact Hall.
Qed.

Lemma load_classes_result_witness :
  exists semester,
    parsing.load_classes Sample.class_rows = Ok [semester]
    /\ Semester.id semester = 1.
Proof.
  destruct (parsing.load_classes Sample.class_rows) as [error | semesters] eqn:E;
    [vm_compute in E; discriminate |].
  destruct (load_classes_result Sample.class_rows semesters E) as (Hids & _).
  destruct semesters as [| semester [| s2 rest]];
    [vm_compute in E; discriminate | | vm_compute in E; discriminate].
  exists semester. split; [reflexivity |].
  injection Hids as Hid. exact Hid.
Defined.

(** X20.  On converted rows [load_classes] returns: every row finds the
    identifier of its semester and the semester of that identifier, and
    [init_groups] returns on every semester. *)
Theorem load_classes_returns (rows : list parsing.class_row) :
  exists semesters, parsing.load_classes rows = Ok semesters.
Proof.
  destruct (load_classes_semesters rows) as (semesters & H & _). eauto.
Qed.

(** * The storage *)

(** ** Changing the teachers of the classes of a semester *)

Section MapClasses.
Variable f : Class_.t -> Class_.t.
Hypothesis f_name : forall c, Class_.name (f c) = Class_.name c.
Hypothesis f_group_name : forall c, Class_.group_name (f c) = Class_.group_name c.

Let map_group (group : Group.t) : Group.t :=
  {| Group.id := Group.id group; Group.name := Group.name group;
     Group.classes := map f (Group.classes group) |}.

Let map_semester (semester : Semester.t) : Semester.t :=
  {| Semester.id := Semester.id semester; Semester.name := Semester.name semester;
     Semester.classes := map f (Semester.classes semester);
     Semester.groups := map map_group (Semester.groups semester) |}.

Let map_values (groups : dict Z Group.t) : dict Z Group.t :=
  map (fun kv => (fst kv, map_group (snd kv))) groups.

Let map_locals (st : Semester.locals) : Semester.locals :=
  (map_values (fst (fst st)), snd (fst st), snd st).

Lemma dict_get_map_values (groups : dict Z Group.t) (k : Z) :
  dict_get Z.eqb (map_values groups) k
  = g <- dict_get Z.eqb groups k ;; Ok (map_group g).
Proof.
  induction groups as [| [k' g] groups IH]; simpl; [reflexivity |].
  destruct (Z.eqb k k'); [reflexivity | exact IH].
Qed.

Lemma dict_set_map_values (groups : dict Z Group.t) (k : Z) (g : Group.t) :
  dict_set Z.eqb (map_values groups) k (map_group g)
  = map_values (dict_set Z.eqb groups k g).
Proof.
  induction groups as [| [k' g'] groups IH]; simpl; [reflexivity |].
  destruct (Z.eqb k k'); simpl; [reflexivity |]. now rewrite IH.
Qed.

Lemma append_map_group (g : Group.t) (c : Class_.t) :
  Group.append (map_group g) (f c) = map_group (Group.append g c).
Proof. unfold Group.append, map_group. simpl. now rewrite map_app. Qed.

Lemma init_groups_body_map (c : Class_.t) (st : Semester.locals) :
  Semester.init_groups_body (f c) (map_locals st)
  = st' <- Semester.init_groups_body c st ;; Ok (map_locals st').
Proof.
  destruct st as [[groups identifiers] id].
  unfold Semester.init_groups_body, map_locals. cbn [fst snd].
  rewrite f_group_name.
  destruct (negb (dict_contains String.eqb identifiers (Class_.group_name c))).
  - pose proof (dict_set_map_values groups id
                  (Group.__init__ id (Class_.group_name c))) as E0.
    change (map_group (Group.__init__ id (Class_.group_name c)))
      with (Group.__init__ id (Class_.group_name c)) in E0.
    rewrite !E0.
    destruct (dict_get String.eqb _ (Class_.group_name c)) as [e | gid];
      [reflexivity |].
    rewrite !bind_ret, dict_get_map_values.
    destruct (dict_get Z.eqb _ gid) as [e | g]; [reflexivity |].
    rewrite !bind_ret, append_map_group, dict_set_map_values. reflexivity.
  - destruct (dict_get String.eqb identifiers (Class_.group_name c)) as [e | gid];
      [reflexivity |].
    rewrite !bind_ret, dict_get_map_values.
    destruct (dict_get Z.eqb groups gid) as [e | g]; [reflexivity |].
    rewrite !bind_ret, append_map_group, dict_set_map_values. reflexivity.
Qed.

Lemma init_groups_loop_map (classes : list Class_.t) (st : Semester.locals) :
  for_each (map f classes) Semester.init_groups_body (map_locals st)
  = st' <- for_each classes Semester.init_groups_body st ;; Ok (map_locals st').
Proof.
  revert st; induction classes as [| c classes IH]; intros st; cbn [map for_each];
    [reflexivity |].
  rewrite init_groups_body_map.
  destruct (Semester.init_groups_body c st) as [e | st1]; [reflexivity |].
  rewrite !bind_ret. apply IH.
Qed.

Lemma insert_map {A K : Type} (ltb : K -> K -> bool) (key : A -> K) (g : A -> A)
    (x : A) (l : list A) :
  (forall y, key (g y) = key y) ->
  insert ltb key (g x) (map g l) = map g (insert ltb key x l).
Proof.
  intros Hkey. induction l as [| y l IH]; simpl; [reflexivity |].
  rewrite !Hkey. destruct (ltb (key y) (key x)); simpl; [now rewrite IH | reflexivity].
Qed.

Lemma sorted_map {A K : Type} (ltb : K -> K -> bool) (key : A -> K) (g : A -> A)
    (l : list A) :
  (forall y, key (g y) = key y) ->
  sorted ltb key (map g l) = map g (sorted ltb key l).
Proof.
  intros Hkey. induction l as [| x l IH]; simpl; [reflexivity |].
  rewrite IH. apply insert_map. exact Hkey.
Qed.

Lemma sort_classes_map_group (group : Group.t) :
  Group.sort_classes (map_group group) = map_group (Group.sort_classes group).
Proof.
  unfold Group.sort_classes, map_group. simpl. f_equal.
  apply sorted_map. exact f_name.
Qed.

Lemma flat_map_classes_map (groups : list Group.t) :
  flat_map Group.classes (map map_group groups)
  = map f (flat_map Group.classes groups).
Proof.
  induction groups as [| g groups IH]; simpl; [reflexivity |].
  rewrite map_app, IH. reflexivity.
Qed.

(** [init_groups] and [sort_classes] do not look at the teachers: they give
    the same semester whether the teachers are changed before or after. *)
Lemma init_and_sort_map (s0 s1 : Semester.t) :
  Semester.init_groups s0 = Ok s1 ->
  exists s1',
    Semester.init_groups
      {| Semester.id := Semester.id s0; Semester.name := Semester.name s0;
         Semester.classes := map f (Semester.classes s0);
         Semester.groups := Semester.groups s0 |}
    = Ok s1'
    /\ Semester.sort_classes s1' = map_semester (Semester.sort_classes s1).
Proof.
  unfold Semester.init_groups. intros H. cbn [Semester.classes Semester.id Semester.name].
  change ([(1, Group.__init__ 1 EmptyString)], [(EmptyString, 1)], 2)
    with (map_locals ([(1, Group.__init__ 1 EmptyString)], [(EmptyString, 1)], 2)).
  rewrite init_groups_loop_map.
  destruct (for_each (Semester.classes s0) Semester.init_groups_body _)
    as [e | [[groups identifiers] id]]; [discriminate |].
  rewrite bind_ret in H. rewrite !bind_ret. unfold map_locals. cbn [fst snd].
  inv_bind H. rename x into g0. inv_Ok H. subst s1.
  assert (Hvalues : dict_values (map_values groups) = map map_group (dict_values groups)).
  { unfold dict_values, map_values. rewrite !map_map. reflexivity. }
  rewrite Hvalues.
  assert (Hg0 : index (map map_group (dict_values groups)) 0 = Ok (map_group g0)).
  { rewrite index_nth in * by lia. simpl Z.to_nat in *. rewrite nth_error_map.
    destruct (nth_error (dict_values groups) 0); inv_Ok Hx. now subst. }
  rewrite Hg0, bind_ret. eexists. split; [reflexivity |].
  unfold Semester.sort_classes, map_semester.
  cbn [Semester.id Semester.name Semester.groups Semester.classes].
  assert (Hgroups :
            map Group.sort_classes
              ([map_group g0]
               ++ sorted String.ltb Group.name (skipn 1 (map map_group (dict_values groups))))
            = map map_group
                (map Group.sort_classes
                   ([g0] ++ sorted String.ltb Group.name (skipn 1 (dict_values groups))))).
  { rewrite skipn_map, (sorted_map String.ltb Group.name map_group) by reflexivity.
    cbn [app]. rewrite <- (map_cons map_group), !map_map. apply map_ext.
    intros g. apply sort_classes_map_group. }
  rewrite Hgroups. f_equal.
  rewrite !fold_left_app_flat_map, !app_nil_l. apply flat_map_classes_map.
Qed.

Lemma loaded_map (semester : Semester.t) :
  loaded semester -> loaded (map_semester semester).
Proof.
  intros (s0 & s1 & Hne & Hinit & ->).
  destruct (init_and_sort_map s0 s1 Hinit) as (s1' & Hinit' & Hsort).
  eexists _, s1'. split; [| split; [exact Hinit' | symmetry; exact Hsort]].
  simpl. intros E. apply map_eq_nil in E. contradiction.
Qed.
End MapClasses.

(** ** Resolving the teachers *)

Section Resolve.
Variable teachers_csv : list parsing.teacher_row.

Let teachers := parsing.load_teachers teachers_csv.

(** The class that the resolution leaves, or the class itself when the
    resolution fails. *)
Let resolved (class_ : Class_.t) : Class_.t :=
  match DataStorageInit.resolve teachers class_ with
  | inr class_' => class_'
  | inl _ => class_
  end.

Let known (teacher_ids : list Z) : Prop :=
  forall id, In id teacher_ids ->
    exists row, In row teachers_csv /\ parsing.teacher_id row = id.

Lemma class_teachers_cases (teacher_ids : list Z) :
  (known teacher_ids
   /\ exists found,
        DataStorage.class_teachers teachers teacher_ids = Ok found
        /\ map Teacher.id found = teacher_ids
        /\ Forall (fun teacher => In teacher (dict_values teachers)) found)
  \/ (~ known teacher_ids
      /\ DataStorage.class_teachers teachers teacher_ids = Raise KeyError).
Proof.
  destruct (load_teachers_inv teachers_csv) as [Hid Hkeys]. fold teachers in Hid, Hkeys.
  assert (Hcases : (exists id, In id teacher_ids /\ ~ In id (map fst teachers))
                   \/ (forall id, In id teacher_ids -> In id (map fst teachers))).
  { clear. induction teacher_ids as [| id ids [IH | IH]].
    - right. contradiction.
    - left. destruct IH as (x & Hx & Hm). exists x. split; [now right | exact Hm].
    - destruct (in_dec Z.eq_dec id (map fst teachers)) as [H | H].
      + right. intros x [<- | Hx]; [exact H | exact (IH x Hx)].
      + left. exists id. split; [now left | exact H]. }
  destruct Hcases as [(id & Hin & Hmissing) | Hall].
  - right. split.
    + intros Hknown. apply Hmissing, Hkeys, Hknown, Hin.
    + apply class_teachers_loop_missing. eauto.
  - left. split.
    + intros id Hin. apply Hkeys, Hall, Hin.
    + destruct (class_teachers_loop teachers teacher_ids [] Hall)
        as (found & Hloop & Hfound).
      destruct (found_in_catalog teachers teacher_ids found Hid Hfound) as [Hids Hvalues].
      exists found. auto.
Qed.

Lemma resolve_cases (class_ : Class_.t) :
  let teacher_ids := map Teacher.id (Class_.teachers class_) in
  (known teacher_ids
   /\ exists found,
        DataStorageInit.resolve teachers class_
        = Ok {| Class_.id := Class_.id class_; Class_.name := Class_.name class_;
                Class_.group_name := Class_.group_name class_;
                Class_.slot_count := Class_.slot_count class_;
                Class_.teachers := found |}
        /\ map Teacher.id found = teacher_ids
        /\ Forall (fun teacher => In teacher (dict_values teachers)) found)
  \/ (~ known teacher_ids /\ DataStorageInit.resolve teachers class_ = Raise KeyError).
Proof.
  intros teacher_ids. unfold DataStorageInit.resolve. fold teacher_ids.
  destruct (class_teachers_cases teacher_ids)
    as [(Hknown & found & Hfound & Hids & Hvalues) | (Hunknown & Hraise)].
  - left. split; [exact Hknown |]. exists found. rewrite Hfound. auto.
  - right. split; [exact Hunknown |]. rewrite Hraise. reflexivity.
Qed.

Lemma resolved_name (class_ : Class_.t) :
  Class_.name (resolved class_) = Class_.name class_.
Proof.
  unfold resolved.
  destruct (resolve_cases class_) as [(_ & found & -> & _) | (_ & ->)]; reflexivity.
Qed.

Lemma resolved_group_name (class_ : Class_.t) :
  Class_.group_name (resolved class_) = Class_.group_name class_.
Proof.
  unfold resolved.
  destruct (resolve_cases class_) as [(_ & found & -> & _) | (_ & ->)]; reflexivity.
Qed.

Lemma resolve_all_loop (classes done : list Class_.t) :
  (forall class_, In class_ classes ->
     known (map Teacher.id (Class_.teachers class_))) ->
  for_each classes
    (fun class_ done =>
       class_ <- DataStorageInit.resolve teachers class_ ;; Ok (done ++ [class_]))
    done
  = Ok (done ++ map resolved classes).
Proof.
  revert done; induction classes as [| c classes IH]; intros done Hall;
    cbn [for_each map].
  - now rewrite app_nil_r.
  - assert (E : DataStorageInit.resolve teachers c = Ok (resolved c)).
    { unfold resolved.
      destruct (resolve_cases c) as [(_ & found & -> & _) | (Hunknown & _)];
        [reflexivity |].
      exfalso. apply Hunknown, Hall. now left. }
    rewrite E, !bind_ret, IH by (intros; apply Hall; now right).
    now rewrite <- app_assoc.
Qed.

Lemma resolve_all_missing (classes done : list Class_.t) :
  (exists class_, In class_ classes
                  /\ ~ known (map Teacher.id (Class_.teachers class_))) ->
  for_each classes
    (fun class_ done =>
       class_ <- DataStorageInit.resolve teachers class_ ;; Ok (done ++ [class_]))
    done
  = Raise KeyError.
Proof.
  revert done; induction classes as [| c classes IH]; intros done (bad & Hin & Hbad);
    [contradiction |].
  cbn [for_each].
  destruct (resolve_cases c) as [(Hknown & found & -> & _) | (_ & ->)];
    [| reflexivity].
  rewrite !bind_ret. apply IH. exists bad. split; [| exact Hbad].
  destruct Hin as [-> | Hin]; [contradiction | exact Hin].
Qed.

(** The resolution of a semester whose groups hold classes of its class
    list. *)
Lemma resolve_semester_Ok (semester : Semester.t) :
  (forall class_, In class_ (Semester.classes semester) ->
     known (map Teacher.id (Class_.teachers class_))) ->
  (forall group class_, In group (Semester.groups semester) ->
     In class_ (Group.classes group) -> In class_ (Semester.classes semester)) ->
  DataStorageInit.resolve_semester teachers semester
  = Ok {| Semester.id := Semester.id semester; Semester.name := Semester.name semester;
          Semester.classes := map resolved (Semester.classes semester);
          Semester.groups :=
            map (fun group =>
                   {| Group.id := Group.id group; Group.name := Group.name group;
                      Group.classes := map resolved (Group.classes group) |})
                (Semester.groups semester) |}.
Proof.
  intros Hknown Hgroups. unfold DataStorageInit.resolve_semester.
  unfold DataStorageInit.resolve_all at 1.
  rewrite (resolve_all_loop _ [] Hknown), bind_ret. cbn [app].
  assert (Hloop : forall groups done,
            (forall group, In group groups -> In group (Semester.groups semester)) ->
            for_each groups
              (fun group done =>
                 group <- DataStorageInit.resolve_group teachers group ;;
                 Ok (done ++ [group]))
              done
            = Ok (done
                  ++ map (fun group =>
                            {| Group.id := Group.id group; Group.name := Group.name group;
                               Group.classes := map resolved (Group.classes group) |})
                         groups)).
  { induction groups as [| g groups IH]; intros done Hin; cbn [for_each map].
    - now rewrite app_nil_r.
    - unfold DataStorageInit.resolve_group at 1, DataStorageInit.resolve_all.
      rewrite (resolve_all_loop (Group.classes g) []).
      + rewrite !bind_ret. cbn [app].
        rewrite IH by (intros; apply Hin; now right). now rewrite <- app_assoc.
      + intros c Hc. apply Hknown, (Hgroups g c); [apply Hin; now left | exact Hc]. }
  rewrite (Hloop _ [] (fun group H => H)), bind_ret. reflexivity.
Qed.

Lemma resolve_semester_missing (semester : Semester.t) :
  (exists class_, In class_ (Semester.classes semester)
                  /\ ~ known (map Teacher.id (Class_.teachers class_))) ->
  DataStorageInit.resolve_semester teachers semester = Raise KeyError.
Proof.
  intros Hbad. unfold DataStorageInit.resolve_semester, DataStorageInit.resolve_all.
  rewrite (resolve_all_missing _ [] Hbad). reflexivity.
Qed.
End Resolve.

(** ** The constructor *)

Lemma sort_classes_groups_in (s1 : Semester.t) (group : Group.t) (class_ : Class_.t) :
  In group (Semester.groups (Semester.sort_classes s1)) ->
  In class_ (Group.classes group) ->
  In class_ (Semester.classes (Semester.sort_classes s1)).
Proof.
  intros Hg Hc. unfold Semester.sort_classes in *. simpl in *.
  rewrite fold_left_app_flat_map. simpl. apply in_flat_map. eauto.
Qed.

Lemma class_of_row_teacher_ids (row : parsing.class_row) :
  map Teacher.id (Class_.teachers (parsing.class_of_row row))
  = parsing.class_teacher_ids row.
Proof.
  unfold parsing.class_of_row. simpl. rewrite map_map. simpl. apply map_id.
Qed.

Section StorageInit.
Variable NUMBER_OF_CLASS_DAYS : Z.
Variable teachers_csv : list parsing.teacher_row.
Variable classes_csv : list parsing.class_row.
Variable slots_csv : list parsing.slot_row.

Let teachers := parsing.load_teachers teachers_csv.

Let resolved (class_ : Class_.t) : Class_.t :=
  match DataStorageInit.resolve teachers class_ with
  | inr class_' => class_'
  | inl _ => class_
  end.

Let resolved_semester (semester : Semester.t) : Semester.t :=
  {| Semester.id := Semester.id semester; Semester.name := Semester.name semester;
     Semester.classes := map resolved (Semester.classes semester);
     Semester.groups :=
       map (fun group =>
              {| Group.id := Group.id group; Group.name := Group.name group;
                 Group.classes := map resolved (Group.classes group) |})
           (Semester.groups semester) |}.

Let known (teacher_ids : list Z) : Prop :=
  forall id, In id teacher_ids ->
    exists row, In row teachers_csv /\ parsing.teacher_id row = id.

(** The classes of the semesters that [load_classes] returns are those of
    the rows. *)
Lemma loaded_class_row (semesters : list Semester.t) (semester : Semester.t)
    (class_ : Class_.t) :
  parsing.load_classes classes_csv = Ok semesters ->
  In semester semesters -> In class_ (Semester.classes semester) ->
  exists row,
    In row classes_csv
    /\ parsing.class_semester_name row = Semester.name semester
    /\ class_ = parsing.class_of_row row.
Proof.
  intros Hload Hs Hc.
  destruct (load_classes_semesters classes_csv)
    as (semesters' & Hload' & _ & _ & _ & Hall).
  rewrite Hload in Hload'. inv_Ok Hload'. subst semesters'.
  destruct (Hall semester Hs) as [_ Hperm].
  apply (Permutation_in _ Hperm) in Hc. apply in_map_iff in Hc.
  destruct Hc as (row & <- & Hrow). apply filter_In in Hrow.
  destruct Hrow as [Hrow Hname]. unfold in_semester in Hname.
  apply String.eqb_eq in Hname. exists row. auto.
Qed.

Lemma row_is_loaded (semesters : list Semester.t) (row : parsing.class_row) :
  parsing.load_classes classes_csv = Ok semesters ->
  In row classes_csv ->
  exists semester,
    In semester semesters
    /\ In (parsing.class_of_row row) (Semester.classes semester).
Proof.
  intros Hload Hrow.
  destruct (load_classes_semesters classes_csv)
    as (semesters' & Hload' & _ & _ & Hseen & Hall).
  rewrite Hload in Hload'. inv_Ok Hload'. subst semesters'.
  pose proof (Hseen row Hrow) as Hname. apply in_map_iff in Hname.
  destruct Hname as (semester & Hname & Hs). exists semester. split; [exact Hs |].
  destruct (Hall semester Hs) as [_ Hperm].
  apply (Permutation_in _ (Permutation_sym Hperm)). apply in_map.
  apply filter_In. split; [exact Hrow |]. unfold in_semester. rewrite Hname.
  apply String.eqb_refl.
Qed.

Lemma resolve_loop_Ok (semesters done : list Semester.t) :
  (forall semester, In semester semesters ->
     loaded semester
     /\ forall class_, In class_ (Semester.classes semester) ->
          known (map Teacher.id (Class_.teachers class_))) ->
  for_each semesters
    (fun semester_data done =>
       semester_data <- DataStorageInit.resolve_semester teachers semester_data ;;
       Ok (done ++ [semester_data]))
    done
  = Ok (done ++ map resolved_semester semesters).
Proof.
  revert done; induction semesters as [| semester semesters IH]; intros done Hall;
    cbn [for_each map].
  - now rewrite app_nil_r.
  - destruct (Hall semester (or_introl eq_refl)) as [(s0 & s1 & _ & _ & E) Hknown].
    unfold teachers. rewrite (resolve_semester_Ok teachers_csv semester Hknown).
    + rewrite !bind_ret. fold teachers resolved.
      rewrite IH by (intros; apply Hall; now right). now rewrite <- app_assoc.
    + subst semester. apply sort_classes_groups_in.
Qed.

Lemma resolve_loop_missing (semesters done : list Semester.t) :
  (forall semester, In semester semesters -> loaded semester) ->
  (exists semester class_,
     In semester semesters /\ In class_ (Semester.classes semester)
     /\ ~ known (map Teacher.id (Class_.teachers class_))) ->
  for_each semesters
    (fun semester_data done =>
       semester_data <- DataStorageInit.resolve_semester teachers semester_data ;;
       Ok (done ++ [semester_data]))
    done
  = Raise KeyError.
Proof.
  revert done; induction semesters as [| semester semesters IH];
    intros done Hloaded (bad & class_ & Hin & Hc & Hbad); [contradiction |].
  cbn [for_each].
  assert (Hcases : (forall c, In c (Semester.classes semester) ->
                      known (map Teacher.id (Class_.teachers c)))
                   \/ exists c, In c (Semester.classes semester)
                                /\ ~ known (map Teacher.id (Class_.teachers c))).
  { clear. induction (Semester.classes semester) as [| c cs [IHc | IHc]].
    - left. contradiction.
    - destruct (resolve_cases teachers_csv c) as [(Hk & _) | (Hk & _)].
      + left. intros x [<- | Hx]; [exact Hk | exact (IHc x Hx)].
      + right. exists c. split; [now left | exact Hk].
    - right. destruct IHc as (x & Hx & Hk). exists x. split; [now right | exact Hk]. }
  destruct Hcases as [Hknown | Hmissing].
  - destruct (Hloaded semester (or_introl eq_refl)) as (s0 & s1 & _ & _ & E).
    unfold teachers. rewrite (resolve_semester_Ok teachers_csv semester Hknown).
    + rewrite !bind_ret. fold teachers. apply IH.
      * intros; apply Hloaded; now right.
      * exists bad, class_. split; [| auto].
        destruct Hin as [-> | Hin]; [| exact Hin]. exfalso. exact (Hbad (Hknown _ Hc)).
    + subst semester. apply sort_classes_groups_in.
  - unfold teachers. rewrite (resolve_semester_missing teachers_csv semester Hmissing).
    reflexivity.
Qed.

(** All the rows list known teachers, or one of the loaded classes lists
    an unknown one. *)
Lemma known_cases (semesters : list Semester.t) :
  parsing.load_classes classes_csv = Ok semesters ->
  known_teachers teachers_csv classes_csv
  \/ exists semester class_,
       In semester semesters /\ In class_ (Semester.classes semester)
       /\ ~ known (map Teacher.id (Class_.teachers class_)).
Proof.
  intros Hload.
  assert (Hrows : forall rows,
            (forall row, In row rows -> In row classes_csv) ->
            (forall row, In row rows -> known (parsing.class_teacher_ids row))
            \/ exists row, In row rows /\ ~ known (parsing.class_teacher_ids row)).
  { induction rows as [| row rows IH]; intros Hin.
    - left. contradiction.
    - destruct IH as [IH | (bad & Hbad & Hk)]; [intros; apply Hin; now right | |].
      + destruct (class_teachers_cases teachers_csv (parsing.class_teacher_ids row))
          as [(Hk & _) | (Hk & _)].
        * left. intros x [<- | Hx]; [exact Hk | exact (IH x Hx)].
        * right. exists row. split; [now left | exact Hk].
      + right. exists bad. split; [now right | exact Hk]. }
  destruct (Hrows classes_csv (fun row H => H)) as [Hall | (row & Hrow & Hbad)].
  - left. intros row id Hrow Hid. exact (Hall row Hrow id Hid).
  - right. destruct (row_is_loaded semesters row Hload Hrow) as (semester & Hs & Hc).
    exists semester, (parsing.class_of_row row). split; [exact Hs |].
    split; [exact Hc |]. rewrite class_of_row_teacher_ids. exact Hbad.
Qed.

Lemma storage_init_cases :
  exists semesters,
    parsing.load_classes classes_csv = Ok semesters
    /\ ((NUMBER_OF_CLASS_DAYS = 0
         \/ (slots_csv <> [] /\ len slots_csv / NUMBER_OF_CLASS_DAYS = 0))
        /\ DataStorageInit.__init__ NUMBER_OF_CLASS_DAYS teachers_csv classes_csv slots_csv
           = Raise ZeroDivisionError
        \/ exists slots,
             parsing.load_slots NUMBER_OF_CLASS_DAYS slots_csv = Ok slots
             /\ (~ known_teachers teachers_csv classes_csv
                 /\ DataStorageInit.__init__ NUMBER_OF_CLASS_DAYS teachers_csv
                      classes_csv slots_csv
                    = Raise KeyError
                 \/ known_teachers teachers_csv classes_csv
                    /\ DataStorageInit.__init__ NUMBER_OF_CLASS_DAYS teachers_csv
                         classes_csv slots_csv
                       = Ok {| DataStorage.teachers := teachers;
                               DataStorage.classes_by_semester :=
                                 map resolved_semester semesters;
                               DataStorage.slots := slots |})).
Proof.
  destruct (load_classes_semesters classes_csv)
    as (semesters & Hload & _ & _ & _ & Hall).
  exists semesters. split; [exact Hload |].
  unfold DataStorageInit.__init__. rewrite Hload, bind_ret.
  assert (Hslots : (NUMBER_OF_CLASS_DAYS = 0
                    \/ (slots_csv <> [] /\ len slots_csv / NUMBER_OF_CLASS_DAYS = 0))
                   \/ (NUMBER_OF_CLASS_DAYS <> 0
                       /\ (slots_csv = [] \/ len slots_csv / NUMBER_OF_CLASS_DAYS <> 0))).
  { destruct (Z.eq_dec NUMBER_OF_CLASS_DAYS 0); [now left; left |].
    destruct slots_csv as [| r rows']; [right; auto |].
    destruct (Z.eq_dec (len (r :: rows') / NUMBER_OF_CLASS_DAYS) 0);
      [left; right; split; [discriminate | assumption] |].
    right. auto. }
  destruct Hslots as [Hbad | [Hdays Hspd]].
  { left. split; [exact Hbad |]. rewrite load_slots_Raise by exact Hbad. reflexivity. }
  right. rewrite (load_slots_Ok _ _ Hdays Hspd), bind_ret. eexists. split; [reflexivity |].
  destruct (known_cases semesters Hload) as [Hknown | Hmissing].
  - right. split; [exact Hknown |]. fold teachers.
    rewrite (resolve_loop_Ok semesters []); [reflexivity |].
    intros semester Hs. destruct (Hall semester Hs) as [Hloaded _].
    split; [exact Hloaded |]. intros class_ Hc.
    destruct (loaded_class_row semesters semester class_ Hload Hs Hc)
      as (row & Hrow & _ & ->).
    rewrite class_of_row_teacher_ids. intros id Hid. exact (Hknown row id Hrow Hid).
  - left. split.
    + intros Hknown. destruct Hmissing as (semester & class_ & Hs & Hc & Hbad).
      apply Hbad.
      destruct (loaded_class_row semesters semester class_ Hload Hs Hc)
        as (row & Hrow & _ & ->).
      rewrite class_of_row_teacher_ids. intros id Hid. exact (Hknown row id Hrow Hid).
    + fold teachers. rewrite (resolve_loop_missing semesters []); [reflexivity | |].
      * intros semester Hs. apply (Hall semester Hs).
      * exact Hmissing.
Qed.
End StorageInit.

(** [DataStorage.__init__] on converted files: when it raises, when it
    returns, and what it returns. *)
Lemma storage_init_full (NUMBER_OF_CLASS_DAYS : Z)
    (teachers_csv : list parsing.teacher_row) (classes_csv : list parsing.class_row)
    (slots_csv : list parsing.slot_row) :
  let init :=
    DataStorageInit.__init__ NUMBER_OF_CLASS_DAYS teachers_csv classes_csv slots_csv in
  let no_calendar :=
    NUMBER_OF_CLASS_DAYS = 0
    \/ (slots_csv <> [] /\ len slots_csv / NUMBER_OF_CLASS_DAYS = 0) in
  (init = Raise ZeroDivisionError <-> no_calendar)
  /\ (init = Raise KeyError
      <-> ~ no_calendar /\ ~ known_teachers teachers_csv classes_csv)
  /\ ((exists storage, init = Ok storage)
      <-> ~ no_calendar /\ known_teachers teachers_csv classes_csv)
  /\ forall storage,
       init = Ok storage ->
       DataStorage.teachers storage = parsing.load_teachers teachers_csv
       /\ parsing.load_slots NUMBER_OF_CLASS_DAYS slots_csv
          = Ok (DataStorage.slots storage)
       /\ map Semester.id (DataStorage.classes_by_semester storage)
          = range 1 (len (DataStorage.classes_by_semester storage) + 1)
       /\ forall semester,
            In semester (DataStorage.classes_by_semester storage) ->
            loaded semester
            /\ forall class_,
                 In class_ (Semester.classes semester) ->
                 exists row,
                   In row classes_csv
                   /\ parsing.class_semester_name row = Semester.name semester
                   /\ Class_.id class_ = parsing.class_id row
                   /\ Class_.name class_ = parsing.class_name row
                   /\ Class_.group_name class_ = parsing.class_group_name row
                   /\ Class_.slot_count class_ = parsing.class_slot_count row
                   /\ map Teacher.id (Class_.teachers class_)
                      = parsing.class_teacher_ids row
                   /\ Forall (fun teacher =>
                                In teacher (dict_values (DataStorage.teachers storage)))
                             (Class_.teachers class_).
Proof.
  intros init no_calendar.
  destruct (storage_init_cases NUMBER_OF_CLASS_DAYS teachers_csv classes_csv slots_csv)
    as (semesters & Hload
        & [(Hbad & Hraise)
          | (slots & Hslots & [(Hunknown & Hraise) | (Hknown & Hok)])]);
    fold init in Hraise || fold init in Hok.
  - assert (Hno : no_calendar) by exact Hbad.
    split; [tauto |]. split; [rewrite Hraise; split; [discriminate | tauto] |].
    split; [rewrite Hraise; split; [intros (? & ?); discriminate | tauto] |].
    intros storage H. rewrite Hraise in H. discriminate.
  - assert (Hcal : ~ no_calendar).
    { intros Hno. rewrite load_slots_Raise in Hslots by exact Hno. discriminate. }
    split; [rewrite Hraise; split; [discriminate | tauto] |].
    split; [tauto |].
    split; [rewrite Hraise; split; [intros (? & ?); discriminate | tauto] |].
    intros storage H. rewrite Hraise in H. discriminate.
  - assert (Hcal : ~ no_calendar).
    { intros Hno. rewrite load_slots_Raise in Hslots by exact Hno. discriminate. }
    split; [rewrite Hok; split; [discriminate | tauto] |].
    split; [rewrite Hok; split; [discriminate | tauto] |].
    split; [split; [tauto | eauto] |].
    intros storage H. rewrite Hok in H. inv_Ok H. subst storage.
    cbn [DataStorage.teachers DataStorage.slots DataStorage.classes_by_semester].
    split; [reflexivity |]. split; [exact Hslots |].
    destruct (load_classes_semesters classes_csv)
      as (semesters' & Hload' & Hids & _ & _ & Hall).
    rewrite Hload in Hload'. inv_Ok Hload'. subst semesters'.
    split.
    { rewrite map_map. cbn [Semester.id]. unfold len. rewrite length_map. exact Hids. }
    intros semester Hs. apply in_map_iff in Hs. destruct Hs as (s & <- & Hs).
    destruct (Hall s Hs) as [Hloaded _]. split.
    + apply (loaded_map _ (resolved_name teachers_csv) (resolved_group_name teachers_csv)).
      exact Hloaded.
    + cbn [Semester.classes Semester.name]. intros class_ Hc.
      apply in_map_iff in Hc. destruct Hc as (c0 & <- & Hc0).
      destruct (loaded_class_row classes_csv semesters s c0 Hload Hs Hc0)
        as (row & Hrow & Hname & ->).
      exists row. split; [exact Hrow |]. split; [exact Hname |].
      destruct (resolve_cases teachers_csv (parsing.class_of_row row))
        as [(_ & found & -> & Hfound & Hcatalog) | (Hbad & _)].
      * cbn [Class_.id Class_.name Class_.group_name Class_.slot_count Class_.teachers
             parsing.class_of_row].
        rewrite class_of_row_teacher_ids in Hfound. auto 10.
      * exfalso. apply Hbad. rewrite class_of_row_teacher_ids.
        intros id Hid. exact (Hknown row id Hrow Hid).
Qed.

(** X17.  The storage that [DataStorage.__init__] returns.  Whenever it
    returns, the storage holds the catalog of [load_teachers] and the
    calendar of [load_slots]; its semesters are numbered 1, 2, ... and each
    of them is as the model builders expect it (built by [init_groups] and
    [sort_classes] from a non-empty class list); and every class of a
    semester comes from a row of that semester, with the fields of the row
    and, as teachers, teachers of the catalog that carry the identifiers of
    the row, in order. *)
Theorem storage_init_result (NUMBER_OF_CLASS_DAYS : Z)
    (teachers_csv : list parsing.teacher_row) (classes_csv : list parsing.class_row)
    (slots_csv : list parsing.slot_row) (storage : DataStorage.t) :
  DataStorageInit.__init__ NUMBER_OF_CLASS_DAYS teachers_csv classes_csv slots_csv
  = Ok storage ->
  DataStorage.teachers storage = parsing.load_teachers teachers_csv
  /\ parsing.load_slots NUMBER_OF_CLASS_DAYS slots_csv
     = Ok (DataStorage.slots storage)
  /\ map Semester.id (DataStorage.classes_by_semester storage)
     = range 1 (len (DataStorage.classes_by_semester storage) + 1)
  /\ forall semester,
       In semester (DataStorage.classes_by_semester storage) ->
       loaded semester
       /\ forall class_,
            In class_ (Semester.classes semester) ->
            exists row,
              In row classes_csv
              /\ parsing.class_semester_name row = Semester.name semester
              /\ Class_.id class_ = parsing.class_id row
              /\ Class_.name class_ = parsing.class_name row
              /\ Class_.group_name class_ = parsing.class_group_name row
              /\ Class_.slot_count class_ = parsing.class_slot_count row
              /\ map Teacher.id (Class_.teachers class_)
                 = parsing.class_teacher_ids row
              /\ Forall (fun teacher =>
                           In teacher (dict_values (DataStorage.teachers storage)))
                        (Class_.teachers class_).
Proof.
  intros H.
  exact (proj2 (proj2 (proj2 (storage_init_full NUMBER_OF_CLASS_DAYS teachers_csv
                                 classes_csv slots_csv))) storage H).
Qed.

Lemma storage_init_result_witness :
  exists storage,
    DataStorageInit.__init__ 2 Sample.teacher_rows Sample.class_rows (Sample.slot_rows 4)
    = Ok storage
    /\ DataStorage.teachers storage = parsing.load_teachers Sample.teacher_rows.
Proof.
  destruct (DataStorageInit.__init__ 2 Sample.teacher_rows Sample.class_rows
              (Sample.slot_rows 4)) as [error | storage] eqn:E;
    [vm_compute in E; discriminate |].
  destruct (storage_init_result 2 Sample.teacher_rows Sample.class_rows
              (Sample.slot_rows 4) storage E) as (Hteachers & _).
  exists storage. split; [reflexivity | exact Hteachers].
Defined.

(** X21.  On converted files, [DataStorage.__init__] ends with
    [ZeroDivisionError] exactly when [load_slots] does, with [KeyError]
    exactly when [load_slots] returns and a class lists a teacher identifier
    that the teachers file does not have, and it returns exactly in the
    other cases. *)
Theorem storage_init_outcome (NUMBER_OF_CLASS_DAYS : Z)
    (teachers_csv : list parsing.teacher_row) (classes_csv : list parsing.class_row)
    (slots_csv : list parsing.slot_row) :
  let init :=
    DataStorageInit.__init__ NUMBER_OF_CLASS_DAYS teachers_csv classes_csv slots_csv in
  let no_calendar :=
    NUMBER_OF_CLASS_DAYS = 0
    \/ (slots_csv <> [] /\ len slots_csv / NUMBER_OF_CLASS_DAYS = 0) in
  (init = Raise ZeroDivisionError <-> no_calendar)
  /\ (init = Raise KeyError
      <-> ~ no_calendar /\ ~ known_teachers teachers_csv classes_csv)
  /\ ((exists storage, init = Ok storage)
      <-> ~ no_calendar /\ known_teachers teachers_csv classes_csv).
Proof.
  intros init no_calendar.
  destruct (storage_init_full NUMBER_OF_CLASS_DAYS teachers_csv classes_csv slots_csv)
    as (H1 & H2 & H3 & _).
  split; [exact H1 |]. split; [exact H2 | exact H3].
Qed.

(** * Every solution is a timetable *)

Lemma total_le_one_distinct (a : assignment) (vs : list LpVariable) (v w : LpVariable) :
  binary a -> total a vs <= 1 -> In v vs -> In w vs -> v <> w ->
  ~ (a v = 1 /\ a w = 1).
Proof.
  intros Ha Hle Hv Hw Hvw.
  apply In_nth_error in Hv. destruct Hv as (p & Hp).
  apply In_nth_error in Hw. destruct Hw as (q & Hq).
  apply (total_le_one_unique a vs p q v w Ha Hle Hp Hq).
  intros ->. rewrite Hp in Hq. congruence.
Qed.

Lemma teacher_vars_In (semesters : list Semester.t) (teacher : Teacher.t) (j : Z)
    (semester : Semester.t) (i : Z) (class_ : Class_.t) :
  In semester semesters -> 0 <= i ->
  index (Semester.classes semester) i = Ok class_ ->
  Class_.contains_teacher class_ teacher = true ->
  In (VarX (Semester.id semester) i j) (teacher_vars semesters teacher j).
Proof.
  intros Hs Hi Hc Ht. unfold teacher_vars. apply in_flat_map.
  exists semester. split; [exact Hs |]. unfold semester_teacher_vars.
  apply (in_map (fun jc => VarX (Semester.id semester) (fst jc) j) _ (i, class_)).
  apply filter_In. split; [| exact Ht]. apply enumerate_In_index. auto.
Qed.

Lemma teacher_limit_total (semesters : list Semester.t) (teacher : Teacher.t) (j : Z)
    (a : assignment) :
  Forall (satisfies a) (teacher_limit semesters teacher j) ->
  total a (teacher_vars semesters teacher j) <= 1.
Proof.
  intros H. unfold teacher_limit in H.
  destruct (teacher_vars semesters teacher j) as [| v vs] eqn:E.
  - simpl. lia.
  - apply Forall_inv in H.
    rewrite satisfies_le_one, value_add_vars, value_num in H.
    apply inject_Z_le. change (inject_Z 1) with 1%Q. lra.
Qed.

Lemma In_concat_Forall {A : Type} (P : A -> Prop) (ls : list (list A)) (l : list A) :
  Forall P (concat ls) -> In l ls -> Forall P l.
Proof.
  intros H Hin. rewrite Forall_forall in *. intros x Hx. apply H.
  apply in_concat. eauto.
Qed.

(** X18.  Every solution of the model that [main] builds is a timetable.
    Take a storage whose semesters are as the loader builds them, the model
    that [main] hands to the solver, and a 0/1 assignment that satisfies its
    constraints.  Then (1) every class of every semester occupies exactly the
    slots of one block of as many consecutive slots as the class has, inside
    one day; (2) two different classes of a semester that share students
    (same group name, or one of them common to all groups) never occupy the
    same slot; and (3) two different classes, of the same or of different
    semesters, that have a teacher of the catalog in common never occupy the
    same slot. *)
Theorem every_solution_is_a_timetable (cs : constants.t) (storage : DataStorage.t)
    (objective_function : PyValue) (model : LpProblem)
    (semester_schedules : list SemesterSchedule.t) (a : assignment) :
  let days := constants.NUMBER_OF_CLASS_DAYS cs in
  let n := len (DataStorage.slots storage) in
  let semesters := DataStorage.classes_by_semester storage in
  (forall semester, In semester semesters -> loaded semester) ->
  main.main cs storage = Ok (objective_function, model, semester_schedules) ->
  feasible a model ->
  (forall semester i class_,
     In semester semesters ->
     0 <= i -> index (Semester.classes semester) i = Ok class_ ->
     exists slot_count_per_day s,
       utils.get_slot_count_per_day days storage = Ok slot_count_per_day
       /\ 0 < slot_count_per_day
       /\ 1 <= Class_.slot_count class_
       /\ 0 <= s /\ s + Class_.slot_count class_ <= n
       /\ s / slot_count_per_day
          = (s + Class_.slot_count class_ - 1) / slot_count_per_day
       /\ forall t, 0 <= t < n ->
            (a (VarX (Semester.id semester) i t) = 1
             <-> s <= t < s + Class_.slot_count class_))
  /\ (forall semester i1 i2 class1 class2 j,
        In semester semesters ->
        0 <= i1 -> index (Semester.classes semester) i1 = Ok class1 ->
        0 <= i2 -> index (Semester.classes semester) i2 = Ok class2 ->
        i1 <> i2 -> 0 <= j < n ->
        Class_.group_name class1 = Class_.group_name class2
        \/ Class_.group_name class1 = EmptyString
        \/ Class_.group_name class2 = EmptyString ->
        ~ (a (VarX (Semester.id semester) i1 j) = 1
           /\ a (VarX (Semester.id semester) i2 j) = 1))
  /\ (forall teacher semester1 semester2 i1 i2 class1 class2 j,
        In teacher (dict_values (DataStorage.teachers storage)) ->
        In semester1 semesters -> In semester2 semesters ->
        0 <= i1 -> index (Semester.classes semester1) i1 = Ok class1 ->
        0 <= i2 -> index (Semester.classes semester2) i2 = Ok class2 ->
        Class_.contains_teacher class1 teacher = true ->
        Class_.contains_teacher class2 teacher = true ->
        (Semester.id semester1, i1) <> (Semester.id semester2, i2) ->
        0 <= j < n ->
        ~ (a (VarX (Semester.id semester1) i1 j) = 1
           /\ a (VarX (Semester.id semester2) i2 j) = 1)).
Proof.
  intros days n semesters Hloaded Hmain [Ha Hall].
  unfold main.main in Hmain. inv_bind Hmain.
  destruct x as [[objective1 model1] schedules1]. inv_bind Hmain. inv_Ok Hmain. subst.
  destruct (main_loop cs storage _ _ _ _ _ _ _ Hx)
    as (fragments & parts & _ & Hparts & _ & -> & ->).
  simpl app in *.
  rewrite (set_global_constraints_Ok (DataStorage.classes_by_semester storage) storage)
    in Hx0.
  inv_Ok Hx0. subst model.
  apply Forall_app in Hall. destruct Hall as [Hsem Hteachers].
  assert (Hpart : forall semester, In semester semesters ->
            exists c1 c2 c3,
              SemesterSchedule._set_constraints_match_class_slot_count
                (SemesterSchedule.__init__ semester storage) [] = Ok c1
              /\ SemesterSchedule._set_constraints_consecutive_slots days storage
                   (SemesterSchedule.__init__ semester storage) [] = Ok c2
              /\ SemesterSchedule._set_constraints_class_limits_per_slot
                   (SemesterSchedule.__init__ semester storage) [] = Ok c3
              /\ Forall (satisfies a) c1 /\ Forall (satisfies a) c2
              /\ Forall (satisfies a) c3).
  { intros semester Hs.
    destruct (Forall2_In_l _ _ _ semester Hparts Hs) as (part & Hin & Hpart).
    destruct (set_constraints_parts _ _ _ _ Hpart) as (c1 & c2 & c3 & H1 & H2 & H3 & E).
    pose proof (In_concat_Forall _ _ _ Hsem Hin) as Hp. rewrite E in Hp.
    apply Forall_app in Hp. destruct Hp as [Hp1 Hp].
    apply Forall_app in Hp. destruct Hp as [Hp2 Hp3].
    exists c1, c2, c3. auto 10. }
  split; [| split].
  - intros semester i class_ Hs Hi Hc.
    destruct (Hpart semester Hs) as (c1 & c2 & c3 & H1 & H2 & _ & Hp1 & Hp2 & _).
    assert (Him : 0 <= i < len (Semester.classes semester)).
    { pose proof (index_bounds _ _ _ Hc). lia. }
    destruct (feasible_row_is_window days semester storage c1 c2 a i class_
                H1 H2 Ha Hp1 Hp2 Him Hc)
      as (spd & s & Hspd & Hnz & Hk & Hs0 & Hsk & Hmod & Hcells).
    destruct (window_same_day spd s (Class_.slot_count class_) Hnz Hk Hmod)
      as [Hpos Hday].
    exists spd, s. auto 10.
  - intros semester i1 i2 class1 class2 j Hs Hi1 Hc1 Hi2 Hc2 Hdiff Hj Hshare.
    destruct (Hpart semester Hs) as (c1 & c2 & c3 & _ & _ & H3 & _ & _ & Hp3).
    destruct (Hloaded semester Hs) as (s0 & s1 & Hne & Hinit & ->).
    destruct (class_limits_on_classes s0 storage Hne)
      as (s1' & model3 & Hinit' & Hset & Hnever).
    rewrite Hinit in Hinit'. inv_Ok Hinit'. subst s1'. cbv zeta in Hset, Hnever.
    rewrite H3 in Hset. inv_Ok Hset. subst model3.
    exact (Hnever a i1 i2 class1 class2 j (conj Ha Hp3) Hi1 Hc1 Hi2 Hc2 Hdiff Hj Hshare).
  - intros teacher semester1 semester2 i1 i2 class1 class2 j Ht Hs1 Hs2
           Hi1 Hc1 Hi2 Hc2 Ht1 Ht2 Hdiff Hj.
    assert (Hle : total a (teacher_vars semesters teacher j) <= 1).
    { apply teacher_limit_total. apply Forall_forall. intros c Hc.
      rewrite Forall_forall in Hteachers. apply Hteachers.
      apply in_flat_map. exists teacher. split; [exact Ht |].
      apply in_flat_map. exists j. split; [apply range_In; exact Hj | exact Hc]. }
    apply (total_le_one_distinct a _ _ _ Ha Hle).
    + apply (teacher_vars_In semesters teacher j semester1 i1 class1); assumption.
    + apply (teacher_vars_In semesters teacher j semester2 i2 class2); assumption.
    + intros E. apply Hdiff. inversion E. reflexivity.
Qed.

Lemma every_solution_is_a_timetable_witness :
  exists s,
    0 <= s /\ s + 2 <= 4
    /\ forall t, 0 <= t < 4 ->
         (Sample.second_day (VarX 1 0 t) = 1 <-> s <= t < s + 2).
Proof.
  destruct (main.main Sample.two_day_week Sample.one_semester)
    as [error | [[objective_function model] semester_schedules]] eqn:E;
    [vm_compute in E; discriminate |].
  assert (Hfeasible : feasible Sample.second_day model).
  { split; [apply ones_binary |].
    vm_compute in E. injection E as _ <- _. repeat constructor; by_computation. }
  destruct (every_solution_is_a_timetable Sample.two_day_week Sample.one_semester
              objective_function model semester_schedules Sample.second_day)
    as (Hblock & _ & _).
  - intros semester [<- | []]. exact one_class_loaded.
  - exact E.
  - exact Hfeasible.
  - destruct (Hblock Sample.one_class 0 (Sample.class_ 1 "A" "" 2 []))
      as (spd & s & _ & _ & _ & Hs & Hsk & _ & Hcells).
    + left. reflexivity.
    + lia.
    + reflexivity.
    + exists s. split; [exact Hs |]. split; [exact Hsk |]. exact Hcells.
Defined.

(** * The stored coefficients and the exact ones *)

Lemma reciprocal_sound_checked (k : Z) :
  1 <= k <= 4096 -> reciprocal_sound k = true.
Proof.
  intros Hk.
  assert (H : forallb reciprocal_sound (range 1 4097) = true)
    by (vm_compute; reflexivity).
  rewrite forallb_forall in H. apply H. apply range_In. lia.
Qed.

Lemma value_truediv_binary64 (a : assignment) (x y : PyValue) (k : Z) (r : Q) :
  int_truediv 1 k = Ok r -> truediv_binary64 x k = Ok y ->
  (value a (as_expr y) == value a (as_expr x) * r)%Q.
Proof.
  unfold truediv_binary64. intros Hr H. rewrite Hr, bind_ret in H.
  inv_Ok H. subst y. destruct x as [p | e]; simpl.
  - unfold value; simpl. lra.
  - rewrite !value_lin. simpl.
    rewrite (lin_scale a (fun q => q * r)%Q r).
    + ring.
    + intros q. ring.
Qed.

(** For 0/1 values, the upper bound with the stored reciprocal implies the
    exact one. *)
Lemma stored_upper_bound_sound (z xs k : Z) (r : Q) :
  int_truediv 1 k = Ok r -> k <= 4096 ->
  0 <= z <= 1 -> (0 <= xs <= k \/ xs = 0) ->
  (inject_Z z <= inject_Z xs * r)%Q ->
  (inject_Z z <= inject_Z xs / inject_Z k)%Q.
Proof.
  intros Hr Hk Hz Hxs H.
  destruct Hxs as [Hxs | ->].
  - destruct (Z.eq_dec xs 0) as [-> | Hne].
    + unfold Qdiv. rewrite Qmult_0_l in *. exact H.
    + assert (Hk1 : 1 <= k <= 4096) by lia.
      pose proof (reciprocal_sound_checked k Hk1) as Hs.
      unfold reciprocal_sound in Hs. rewrite Hr in Hs.
      apply andb_true_iff in Hs. destruct Hs as [Hpos Hlt].
      apply negb_true_iff in Hpos, Hlt.
      assert (Hr0 : (0 < r)%Q).
      { apply Qnot_le_lt. intros F. apply Qle_bool_iff in F. congruence. }
      assert (Hr1 : (inject_Z (k - 1) * r < 1)%Q).
      { apply Qnot_le_lt. intros F. apply Qle_bool_iff in F. congruence. }
      apply Qle_div_iff; [lia |].
      destruct (Z.eq_dec z 0) as [-> | Hz1]; [lia |].
      assert (z = 1) by lia. subst z.
      destruct (Z_le_gt_dec xs (k - 1)) as [Hle | Hgt]; [| lia].
      exfalso.
      assert (Hm : (inject_Z xs * r <= inject_Z (k - 1) * r)%Q).
      { apply Qmult_le_compat_r; [rewrite <- Zle_Qle; exact Hle | apply Qlt_le_weak, Hr0]. }
      change (inject_Z 1) with 1%Q in H. lra.
  - unfold Qdiv. rewrite Qmult_0_l in *. exact H.
Qed.

(** Two loops that run in step. *)
Lemma for_each_sim {A S S' : Type} (R : S -> S' -> Prop) (l : list A)
    (body : A -> S -> result S) (body' : A -> S' -> result S')
    (s : S) (s' : S') (t : S) :
  (forall x s s' t, In x l -> R s s' -> body x s = Ok t ->
     exists t', body' x s' = Ok t' /\ R t t') ->
  R s s' -> for_each l body s = Ok t ->
  exists t', for_each l body' s' = Ok t' /\ R t t'.
Proof.
  revert s s'. induction l as [| x l IH]; intros s s' Hbody HR H; simpl in H.
  - inv_Ok H. subst t. exists s'. split; [reflexivity | exact HR].
  - inv_bind H.
    destruct (Hbody x s s' x0 (or_introl eq_refl) HR Hx) as (u & Hu & HRu).
    destruct (IH x0 u) as (t' & Ht' & HRt); auto.
    { intros y p p' q Hy. apply Hbody. now right. }
    exists t'. split; [| exact HRt]. simpl. rewrite Hu. exact Ht'.
Qed.

Lemma sound_for_refl (model : LpProblem) : sound_for model model.
Proof. split; auto. Qed.

Lemma sound_for_app (model64 model more64 more : LpProblem) :
  sound_for model64 model -> sound_for more64 more ->
  sound_for (model64 ++ more64) (model ++ more).
Proof.
  intros [L1 H1] [L2 H2]. split.
  - rewrite !length_app. lia.
  - intros a Ha H. apply Forall_app in H. destruct H as [Ha1 Ha2].
    apply Forall_app. split; auto.
Qed.

Section Stored.
Variables (semester : Semester.t) (storage : DataStorage.t).

Let self := SemesterSchedule.__init__ semester storage.
Let sid := Semester.id semester.
Let m := len (Semester.classes semester).
Let n := len (DataStorage.slots storage).

Let related3 (s64 s : LpProblem * option Z * PyValue) : Prop :=
  sound_for (fst (fst s64)) (fst (fst s))
  /\ snd (fst s64) = snd (fst s) /\ snd s64 = snd s.

Let related2 (s64 s : LpProblem * option Z) : Prop :=
  sound_for (fst s64) (fst s) /\ snd s64 = snd s.

Lemma indicator_constraints_sim (i j k k' : Z) (model64 model out64 : LpProblem) :
  0 <= i < m -> 0 <= j -> j + k <= n -> k <= 4096 ->
  sound_for model64 model ->
  SemesterSchedule.indicator_constraints_with truediv_binary64 (VarZ sid i j k')
    (add_vars (PyNum 0) (row_vars sid i j (j + k))) k model64 = Ok out64 ->
  exists out,
    SemesterSchedule.indicator_constraints (VarZ sid i j k')
      (add_vars (PyNum 0) (row_vars sid i j (j + k))) k model = Ok out
    /\ sound_for out64 out.
Proof.
  intros Hi Hj Hjk Hk HR H.
  set (x := add_vars (PyNum 0) (row_vars sid i j (j + k))) in *.
  set (z := VarZ sid i j k') in *.
  unfold SemesterSchedule.indicator_constraints_with in H.
  destruct (truediv_binary64 x k) as [e | q64] eqn:Hq64; [discriminate |].
  rewrite bind_ret in H.
  assert (Hr : exists r, int_truediv 1 k = Ok r /\ k <> 0).
  { unfold truediv_binary64 in Hq64. unfold int_truediv in *.
    destruct (Z.eqb_spec k 0); [discriminate |]. eauto. }
  destruct Hr as (r & Hr & Hk0).
  destruct (indicator_constraints_Ok z x k model Hk0) as (c1 & c2 & Hc & Hsat).
  exists (model ++ [c1; c2]). split; [exact Hc |].
  simpl in H. inv_Ok H. subst out64. rewrite <- app_assoc. simpl.
  apply sound_for_app; [exact HR |].
  split; [reflexivity |].
  intros a Ha Hall. inversion Hall as [| ? ? H1 Hrest]; subst.
  inversion Hrest as [| ? ? H2 _]; subst.
  destruct (Hsat a) as [S1 S2].
  constructor; [| constructor; [| constructor]].
  - apply S1.
    assert (Hx : (value a (as_expr x) == inject_Z (total a (row_vars sid i j (j + k))))%Q).
    { unfold x. rewrite value_add_vars, value_num. lra. }
    rewrite Hx.
    apply (stored_upper_bound_sound _ _ k r Hr Hk (Ha z)).
    + destruct (Z_le_gt_dec 0 k) as [Hpos | Hneg].
      * left. pose proof (total_bounds a (row_vars sid i j (j + k)) Ha) as B.
        rewrite row_vars_len in B by lia. lia.
      * right. unfold row_vars. rewrite range_nil by lia. reflexivity.
    + unfold satisfies in H1. simpl in H1. rewrite value_of_var in H1.
      rewrite (value_truediv_binary64 a x q64 k r Hr Hq64), Hx in H1. exact H1.
  - apply S2. unfold satisfies in H2. simpl in H2.
    rewrite value_of_var, value_add_num, value_sub_num in H2. exact H2.
Qed.
Lemma consecutive_body_sim (slot_count_per_day i k j : Z)
    (s64 s t64 : LpProblem * option Z * PyValue) :
  0 <= i < m -> 0 <= j -> j + k <= n -> k <= 4096 ->
  related3 s64 s ->
  SemesterSchedule.consecutive_slots_body_with truediv_binary64 self
    slot_count_per_day i k j s64 = Ok t64 ->
  exists t,
    SemesterSchedule.consecutive_slots_body self slot_count_per_day i k j s = Ok t
    /\ related3 t64 t.
Proof.
  intros Hi Hj Hjk Hk HR H.
  destruct s64 as [[model64 k64] Z64]. destruct s as [[model k0] Z0].
  destruct HR as (HR & Ek & EZ). simpl in HR, Ek, EZ. subst k64 Z64.
  unfold SemesterSchedule.consecutive_slots_body_with in H.
  unfold SemesterSchedule.consecutive_slots_body.
  destruct (mod_ j slot_count_per_day) as [e | r]; [discriminate |].
  rewrite bind_ret in *.
  destruct (r >? slot_count_per_day - k).
  { inv_Ok H. subst t64. eexists. split; [reflexivity |]. repeat split; auto; apply HR. }
  unfold self in *. rewrite window_sum_init in * by assumption.
  rewrite bind_ret in *.
  destruct (if 0 <? k then Some (j + k - 1) else k0) as [k' |]; [| discriminate].
  rewrite bind_ret in *. cbn [SemesterSchedule.semester SemesterSchedule.__init__] in *.
  inv_bind H. inv_Ok H. subst t64.
  destruct (indicator_constraints_sim i j k k' model64 model x Hi Hj Hjk Hk HR Hx)
    as (out & Hout & HRout).
  fold sid. rewrite Hout, bind_ret.
  eexists. split; [reflexivity |]. repeat split; auto; apply HRout.
Qed.

Lemma consecutive_row_sim (slot_count_per_day i : Z) (s64 s t64 : LpProblem * option Z) :
  0 <= i < m ->
  (forall class_, In class_ (Semester.classes semester) ->
     Class_.slot_count class_ <= 4096) ->
  related2 s64 s ->
  SemesterSchedule.consecutive_slots_row_with truediv_binary64 self
    slot_count_per_day i s64 = Ok t64 ->
  exists t,
    SemesterSchedule.consecutive_slots_row self slot_count_per_day i s = Ok t
    /\ related2 t64 t.
Proof.
  intros Hi Hbound HR H.
  destruct s64 as [model64 k64]. destruct s as [model k0].
  destruct HR as (HR & Ek). simpl in HR, Ek. subst k64.
  unfold SemesterSchedule.consecutive_slots_row_with in H.
  unfold SemesterSchedule.consecutive_slots_row.
  destruct (index_Ok (Semester.classes semester) i Hi) as (class_ & Hc).
  unfold self in *. cbn [SemesterSchedule.semester SemesterSchedule.__init__] in *.
  rewrite Hc, bind_ret in *.
  rewrite width_init, bind_ret in * by (fold m; lia).
  assert (Hk : Class_.slot_count class_ <= 4096).
  { apply Hbound. apply (index_In _ i). exact Hc. }
  inv_bind H. destruct x as [[model1 k1] Z1]. inv_bind H. inv_Ok H. subst t64.
  destruct (for_each_sim related3
              (range 0 (len (DataStorage.slots storage) - Class_.slot_count class_ + 1))
              (SemesterSchedule.consecutive_slots_body_with truediv_binary64
                 (SemesterSchedule.__init__ semester storage) slot_count_per_day i
                 (Class_.slot_count class_))
              (SemesterSchedule.consecutive_slots_body
                 (SemesterSchedule.__init__ semester storage) slot_count_per_day i
                 (Class_.slot_count class_))
              (model64, k0, PyNum 0) (model, k0, PyNum 0) (model1, k1, Z1))
    as ([[model2 k2] Z2] & Hloop & HR2 & Ek & EZ).
  - intros j p p' q Hj Hp Hq. apply range_In in Hj.
    apply (consecutive_body_sim slot_count_per_day i (Class_.slot_count class_) j p p' q);
      auto; fold n; lia.
  - repeat split; auto; apply HR.
  - exact Hx.
  - simpl in HR2, Ek, EZ. subst k2 Z2.
    rewrite Hloop, bind_ret.
    destruct (cmp EQ Z1 1) as [[|] | c]; simpl in Hx0; inv_Ok Hx0; subst x; simpl.
    + eexists. split; [reflexivity |]. split; [exact HR2 | reflexivity].
    + eexists. split; [reflexivity |]. split; [| reflexivity]. simpl.
      apply sound_for_app; [exact HR2 | apply sound_for_refl].
Qed.
End Stored.

(** X22.  The stored coefficients are sound for the exact ones.  For a
    schedule built by the constructor whose classes have at most 4096 slots
    each, whenever the contiguity builder with the coefficients that Python
    stores returns a model, the builder with the exact quotients returns one
    with as many constraints, and every 0/1 assignment that satisfies the
    first satisfies the second: what holds of every 0/1 solution of the model
    with the exact quotients holds of every 0/1 solution of the model with
    the stored ones. *)
Theorem stored_coefficients_are_sound (NUMBER_OF_CLASS_DAYS : Z)
    (semester : Semester.t) (storage : DataStorage.t) (model64 : LpProblem) :
  let self := SemesterSchedule.__init__ semester storage in
  (forall class_, In class_ (Semester.classes semester) ->
     Class_.slot_count class_ <= 4096) ->
  SemesterSchedule._set_constraints_consecutive_slots_with NUMBER_OF_CLASS_DAYS storage
    truediv_binary64 self [] = Ok model64 ->
  exists model,
    SemesterSchedule._set_constraints_consecutive_slots NUMBER_OF_CLASS_DAYS storage
      self [] = Ok model
    /\ length model = length model64
    /\ forall a, binary a -> Forall (satisfies a) model64 -> Forall (satisfies a) model.
Proof.
  intros self Hbound H.
  unfold SemesterSchedule._set_constraints_consecutive_slots_with in H.
  unfold SemesterSchedule._set_constraints_consecutive_slots.
  destruct (utils.get_slot_count_per_day NUMBER_OF_CLASS_DAYS storage)
    as [e | slot_count_per_day]; [discriminate |].
  rewrite bind_ret in *. inv_bind H. destruct x as [model1 k1]. inv_Ok H. subst model1.
  unfold self in *. rewrite len_matrix in Hx. rewrite len_matrix.
  destruct (for_each_sim
              (fun s64 s : LpProblem * option Z =>
                 sound_for (fst s64) (fst s) /\ snd s64 = snd s)
              (range 0 (len (Semester.classes semester)))
              (SemesterSchedule.consecutive_slots_row_with truediv_binary64
                 (SemesterSchedule.__init__ semester storage) slot_count_per_day)
              (SemesterSchedule.consecutive_slots_row
                 (SemesterSchedule.__init__ semester storage) slot_count_per_day)
              ([], None) ([], None) (model64, k1))
    as ([model k2] & Hloop & HR & _).
  - intros i p p' q Hi Hp Hq. apply range_In in Hi.
    apply (consecutive_row_sim semester storage slot_count_per_day i p p' q); auto.
  - split; [apply sound_for_refl | reflexivity].
  - exact Hx.
  - exists model. split; [| exact HR].
    match goal with
    | |- bind ?c _ = _ => assert (E : c = Ok (model, k2)) by exact Hloop
    end.
    rewrite E. reflexivity.
Qed.

Lemma stored_coefficients_are_sound_witness :
  exists model64 model,
    SemesterSchedule._set_constraints_consecutive_slots_with 2 Sample.two_days
      truediv_binary64 (SemesterSchedule.__init__ Sample.one_class Sample.two_days) []
    = Ok model64
    /\ SemesterSchedule._set_constraints_consecutive_slots 2 Sample.two_days
         (SemesterSchedule.__init__ Sample.one_class Sample.two_days) [] = Ok model
    /\ length model = length model64.
Proof.
  destruct (SemesterSchedule._set_constraints_consecutive_slots_with 2 Sample.two_days
              truediv_binary64
              (SemesterSchedule.__init__ Sample.one_class Sample.two_days) [])
    as [error | model64] eqn:E; [vm_compute in E; discriminate |].
  destruct (stored_coefficients_are_sound 2 Sample.one_class Sample.two_days model64)
    as (model & Hmodel & Hlen & _).
  - intros class_ [<- | []]. simpl. lia.
  - exact E.
  - exists model64, model. split; [reflexivity |]. split; [exact Hmodel | exact Hlen].
Defined.
